(* ===== verification/_CoqProject ===== *)
-Q . S2P
Prelude.v
Sha256.v
PyText.v
Json.v
Utils.v
NativeAsset.v
Wallet.v
Transaction.v
Block.v
Consensus.v
Mempool.v
Settings.v
Samples.v
Validators.v
Sql.v
Storage.v
StorageFacts.v
Mining.v
Blockchain.v
BlockchainFacts.v
StateRoot.v
RateLimit.v
Handshake.v
HandshakeFacts.v
PeerStore.v
Migration.v
Url.v
AddressSecurity.v
Peers.v
Effects.v
Logging.v
Network.v
Propagation.v
Sync.v
NetworkSamples.v
NetworkFacts.v
PropagationFacts.v
Schemas.v
NetworkRoutes.v
Routes.v
Requests.v
Middleware.v
ApiFacts.v
AnswerFacts.v
Convergence.v
Delivery.v
Submission.v
Cli.v
V2Reference.v
Vectors.v
CompareRuns.v
