(* ===== verification/Prelude.v ===== *)
(** * SAYANJALI BLOCKCHAIN: verification of the Python reference node

    The program under src/ is a proof-of-work blockchain node: a ledger of
    blocks in a relational database, a pool of pending transactions, a miner,
    and a network layer over HTTP with authenticated peers.  This library models
    it file by file and proves what the files promise to one another.

    ** The program and its model

    Values and text
    - [Prelude]: exceptions ([exn], [res]), sums, strings, bounded iteration;
      [PyText], [Json]: how Python reads and writes numbers, text and JSON;
      [Sha256]: SHA-256 on bits; [Utils]: blockchain/utils.py (canonical JSON,
      Merkle root, [BoundedSet]); [Logging]: its loggers, over a disk that may
      refuse.
    - [NativeAsset]: blockchain/native_asset.py, with the part of [decimal] it
      uses; [Settings]: config/settings.py over an environment.

    Ledger
    - [Wallet]: blockchain/wallet.py and network/identity.py; the ECDSA package
      is the class [ECDSA] with its laws [ECDSALaws].
    - [Transaction], [Block], [Consensus], [Mempool], [Mining]: the files of the
      same names.  [Consensus] has the retarget rule and the search for a nonce.
    - [Validators]: blockchain/validators.py, up to the replay of a whole chain
      into balances.
    - [Sql], [Storage], [StorageFacts]: blockchain/storage.py over an abstract
      SQL engine (class [Sql], laws [SqlLaws], an instance on lists);
      [PeerStore] has its tables of peers, identities and credentials;
      [Migration] opens a database, one of the older version included.
    - [Blockchain], [BlockchainFacts]: blockchain/blockchain.py.  A [node] is
      what the class mutates; its critical sections are the relation [step], so
      that every interleaving of threads is a path.
    - [StateRoot]: blockchain/state_root.py.

    Network
    - [RateLimit], [Handshake], [HandshakeFacts]: network/ratelimit.py and
      network/handshake.py (signed envelopes, replay cache, challenges).
    - [Url], [AddressSecurity]: network/address_security.py with the parts of
      [urllib.parse] and [ipaddress] it uses; [Peers]: network/peer.py.
    - [Effects]: computations with state and exceptions, the relation [moves],
      and the class [World] (clock, randomness, resolver, HTTP).
    - [Network]: network/node.py, network/protocol.py, network/lifecycle.py;
      [Propagation]: network/propagation.py; [Sync]: network/sync.py;
      [NetworkFacts], [PropagationFacts]: what they guarantee.

    Interfaces
    - [Schemas], [NetworkRoutes], [Routes]: api/schemas.py,
      api/network_routes.py, api/routes.py with api/main.py; [serve] answers
      any request of either router; [Requests]: the fields of the request
      classes and the routes of the /network router, with what is relied on of
      pydantic as the class [PydanticLaws]; [Middleware]: api/middleware.py;
      [ApiFacts]: what the routes guarantee; [AnswerFacts]: what they report is
      the state of the node, in the fields of their response classes.

    Two nodes
    - [Convergence]: a node that adopts the chain another one answers with;
      [Delivery]: the whole application of one node as the [World] of another
      ([wire]), so that what the client of the one sends is decoded and served
      by the routes of the other: handshakes, blocks and synchronisation;
      [Submission]: transactions.
    - [Cli]: cli/main.py; a command is a process over the database.

    Reference scripts
    - [V2Reference]: scripts/phase8/ (secp256k1, RFC 6979 signatures, the V2
      transaction and network digests, the published vector and its checker).
    - [Vectors]: scripts/protocol_vectors/ (the generator and the verifier of
      the vectors of protocol/test-vectors/); [CompareRuns]:
      scripts/phase10_1/compare_runs.py.

    [Samples] and [NetworkSamples] hold the concrete chains, keys and worlds
    that the witnesses evaluate.

    ** What is proved

    - The chain in memory is valid whatever happens: for every interleaving of
      the critical sections, and for every sequence of HTTP requests, answers
      of other nodes and maintenance rounds; its work never decreases, and its
      genesis hash never changes.
    - Money: a replayed chain issues what its coinbases say, up to the cap, and
      no balance is negative; the pool never commits more than a confirmed
      balance; amounts convert exactly and format back.
    - Refinement: storing, appending and reorganising leave the database of the
      abstract engine showing the chain and the ledger of that chain; a
      heavier valid chain is adopted in memory, on disk and in the pool.  The
      blocks are those the tables can hold ([keepable], [insertable]); what a
      [Float] column makes of the other timestamps is [stored_timestamp].
    - Two nodes on the wire: the handshake makes the one trusted by the other; a
      block mined on request reaches the chain and the database of the peer, a
      submitted transaction the pool of the peer; a node that is behind holds the
      very chain its peer does, its database with its own copies of the blocks
      before the fork.  The hypotheses name what the peer knows of the sender
      and the readings of the clock and of the randomness on the way.
    - Equivalence: the incremental validation of a block agrees with the
      validation of the extended chain; the validator accepts exactly the chains
      that satisfy the stated rules.
    - Answers: a block, the chain and the pending transactions are read back
      from the answers of the routes by [from_dict], and the texts of amounts
      and balances convert to the base units; the body of a successful answer
      has the fields and the types of the response class of its route.
    - Loggers are set up once, whatever fails on the way.
    - Migration: an old database is converted row by row and opens the same way
      again; one amount that does not convert costs the history.
    - Reference and vectors: the curve formulas stay on the curve, a signature
      solves the signing equation in its low form, a failure of the arithmetic
      would factor a modulus (so that no primality is assumed); the verifier of
      the vectors accepts whatever the generator writes.  The model generates
      the nine published files exactly ([generates_published_files]) and the
      published digests and nonce of V2.
    - Hashes bind: block, transaction and state hashes commit to what they
      cover, as does the V2 signing digest, its network included, or the two inputs are a collision of SHA-256 (no assumption on the
      hash is made).
    - Authentication: an envelope that is built is accepted, a replay of it is
      not, a challenge serves once; trust changes only through the handshake,
      which needs a signature over a pending challenge; anonymous messages
      change nothing; no request makes the node call an address outside its
      registry; no accepted target is in a refused address range.
    - Bounds and termination: the retarget stays within its limits, the nonce
      search ends within 2^32 tries, request bodies, rates and registries
      respect their limits.
    - Behaviours that go wrong are theorems too, each with its input: a
      coinbase in the pool, a forged genesis block, a forgotten nonce, a claimed
      block hash, a peer that stops synchronisation, a timestamp that the
      database rounds.

    ** Conventions

    - A Python call is a value of [res], or a computation that returns the state
      reached even when it raises.  Messages are those of the code, cut before
      a quoted value or exception.
    - Strings are lists of bytes read as Latin-1; integers are [Z], and where
      SQLite has 64 bits the engine checks the range.  A float is a number of
      ticks, [2 ^ -22] each ([PFlt]): between [2 ^ 30] and [2 ^ 31] seconds, where
      the clock reads until 2038, these are all the floats, and [repr] and its
      inverse are exact ([PyText]); elsewhere the floats of at most fifteen
      digits are read from text, and any other stops the model.  [float] of an
      integer rounds to the nearest double, the even one of two, and overflows
      from [float_limit] on ([float_round], [float_fits]); a [Float] column of
      the database binds with it.
    - The version of Python is 3.13, which the README requires: an IPv6 address
      that carries an IPv4 one has the properties of the latter ([Ip.carried]).
    - A dynamically typed value outside its declared type, which the code stores
      unchecked, stops the model with [Untyped]; nothing is claimed of such runs.
    - Code that is not in src/ is a parameter with its documented laws: ECDSA,
      the SQL engine, the validation of request bodies, the consensus interface
      ([ConsensusLaws], with the proof-of-work instance proved), the [World];
      what the framework answers to a request that calls no route is a
      parameter without laws ([Elsewhere]).  Toy instances exist for the
      witnesses only.
    - Fuel: the JSON reader takes the length of its text, which its round trip
      ([loads_dumps]) shows to be enough; the nonce search is iterated 2^32
      times, its own bound, without unfolding; the RFC 6979 loop has no bound of
      its own, so the number of passes is an argument, and its 32-byte buffer
      fills in one pass ([fill_T_once]).

    ** Not modelled

    The making of the database directory (settings.py), what is logged, the text
    of HTTP bodies, what the framework answers itself (bodies that do not parse
    or that a request class refuses), the paths of api/routes.py, the conversions pydantic makes of amounts, CORS, the
    server and the scheduling of asyncio tasks (the frameworks'), what the
    commands and scripts print, and the indented text of the vector files.  Evaluating a whole signature of the
    reference takes hundreds of inversions on [Z] and is left to the theorems;
    the published nonce is evaluated. *)
From Stdlib Require Export ZArith Lia.
From Stdlib Require Import Ascii.
From stdpp Require Export base gmap strings list sorting.
From stdpp Require Import options.

#[global] Set Default Proof Using "Type".

(** ** Exceptions and the error monad *)

(** The exception classes the source raises or catches, with the message
    where the code goes on to show it. *)
Inductive exn :=
  | ValidationError (msg : string)
  | StorageError (msg : string)
  | WalletError (msg : string)
  | ValueError (msg : string)
  | KeyError (key : string)
  | TypeError (msg : string)
  | AttributeError (msg : string)
  | OverflowError (msg : string)
  | DecimalOverflow
  (** What the web framework turns into an error response. *)
  | HTTPException (status_code : Z) (detail : string)
  | AssertionError (msg : string)
  (** [typer.Exit]: the end of a command. *)
  | Exit (code : Z)
  (** A dynamically typed value outside the declared field type, which the
      code stores unchecked; the model stops there. *)
  | Untyped (field : string).

#[global] Instance exn_eq_dec : EqDecision exn.
Proof. solve_decision. Defined.

(** A Python call: a value or a raised exception. *)
Inductive res (A : Type) :=
  | Ok (a : A)
  | Err (e : exn).
Arguments Ok {A} a.
Arguments Err {A} e.

#[global] Instance Ok_inj A : Inj (=) (=) (@Ok A).
Proof. by intros a b [= ->]. Qed.

#[global] Instance res_ret : MRet res := λ A a, Ok a.
#[global] Instance res_bind : MBind res := λ A B f r,
  match r with Ok a => f a | Err e => Err e end.
#[global] Instance res_fmap : FMap res := λ A B f r,
  match r with Ok a => Ok (f a) | Err e => Err e end.

Definition is_ok {A} (r : res A) : bool :=
  match r with Ok _ => true | Err _ => false end.

Definition is_Ok {A} (r : res A) : Prop := ∃ a, r = Ok a.

(** [except (ValueError)] and friends: run [h] on the exceptions [p] selects. *)
Definition catch {A} (r : res A) (p : exn → bool) (h : exn → res A) : res A :=
  match r with
  | Ok a => Ok a
  | Err e => if p e then h e else Err e
  end.

Section res_lemmas.
Context {A B : Type}.
Implicit Types (r : res A) (f : A → res B).

Lemma res_bind_Ok r f b : r ≫= f = Ok b ↔ ∃ a, r = Ok a ∧ f a = Ok b.
Proof. destruct r; simpl; naive_solver. Qed.

Lemma res_bind_Err r f e :
  r ≫= f = Err e ↔ r = Err e ∨ ∃ a, r = Ok a ∧ f a = Err e.
Proof. destruct r; simpl; naive_solver. Qed.

Lemma res_fmap_Ok r (g : A → B) b : g <$> r = Ok b ↔ ∃ a, r = Ok a ∧ b = g a.
Proof. destruct r; simpl; naive_solver. Qed.
End res_lemmas.

Definition is_nil {A} (l : list A) : bool := match l with [] => true | _ => false end.

(** List comprehension whose body may raise: left to right, first error wins. *)
Fixpoint res_map {A B} (f : A → res B) (l : list A) : res (list B) :=
  match l with
  | [] => Ok []
  | x :: l => y ← f x; ys ← res_map f l; mret (y :: ys)
  end.

Lemma res_map_Ok {A B} (f : A → res B) l ys :
  res_map f l = Ok ys ↔ Forall2 (λ x y, f x = Ok y) l ys.
Proof.
  revert ys; induction l as [|x l IH]; intros ys; simpl.
  { split; [by intros [= <-] | by inversion 1]. }
  rewrite res_bind_Ok; setoid_rewrite res_bind_Ok; setoid_rewrite IH. split.
  - intros (y & Hx & zs & Hl & [= <-]); by constructor.
  - inversion 1; subst; eauto 10.
Qed.

(** ** Sums *)

Definition sum_Z (l : list Z) : Z := foldr Z.add 0%Z l.

Lemma sum_Z_nil : sum_Z [] = 0%Z.
Proof. done. Qed.
Lemma sum_Z_cons x l : sum_Z (x :: l) = (x + sum_Z l)%Z.
Proof. done. Qed.
Lemma sum_Z_app l1 l2 : sum_Z (l1 ++ l2) = (sum_Z l1 + sum_Z l2)%Z.
Proof. induction l1; simpl; rewrite ?sum_Z_cons in *; lia. Qed.

#[global] Instance sum_Z_perm : Proper ((≡ₚ) ==> (=)) sum_Z.
Proof. induction 1; rewrite ?sum_Z_cons in *; lia. Qed.

Lemma sum_Z_nonneg l : Forall (λ x, 0 ≤ x)%Z l → (0 ≤ sum_Z l)%Z.
Proof. induction 1; rewrite ?sum_Z_cons, ?sum_Z_nil; lia. Qed.

Lemma sum_Z_fmap_le {A} (f g : A → Z) l :
  Forall (λ x, f x ≤ g x)%Z l → (sum_Z (f <$> l) ≤ sum_Z (g <$> l))%Z.
Proof. induction 1; rewrite ?fmap_cons, ?sum_Z_cons; simpl; lia. Qed.

(** ** Maps from addresses to amounts: [dict.get(k, 0)] and the total *)

Section balance_maps.
Context {K : Type} `{Countable K}.
Implicit Types (m : gmap K Z) (k : K).

Definition get0 m k : Z := default 0%Z (m !! k).

Definition map_total m : Z := map_fold (λ _ v acc, (v + acc)%Z) 0%Z m.

Lemma get0_insert m k k' v :
  get0 (<[k:=v]> m) k' = if decide (k = k') then v else get0 m k'.
Proof. unfold get0. rewrite lookup_insert. by case_decide. Qed.

Lemma get0_empty k : get0 ∅ k = 0%Z.
Proof. unfold get0. by rewrite lookup_empty. Qed.

Lemma map_total_empty : map_total ∅ = 0%Z.
Proof. unfold map_total. by rewrite map_fold_empty. Qed.

Lemma map_total_insert_new m k v :
  m !! k = None → map_total (<[k:=v]> m) = (v + map_total m)%Z.
Proof.
  intros Hk. unfold map_total.
  rewrite map_fold_insert_L; [done | intros; lia | done].
Qed.

Lemma map_total_insert m k v :
  map_total (<[k:=v]> m) = (map_total m - get0 m k + v)%Z.
Proof.
  unfold get0. destruct (m !! k) as [w|] eqn:Hk; simpl.
  - rewrite <-(insert_id m k w) at 2 by done.
    rewrite <-(insert_delete_eq m k v), <-(insert_delete_eq m k w).
    rewrite !map_total_insert_new by apply lookup_delete_eq. lia.
  - rewrite map_total_insert_new by done. lia.
Qed.
End balance_maps.

(** ** Strings *)

#[global] Arguments String.append !_ _ / : simpl nomatch.

Lemma append_nil_r s : s +:+ "" = s.
Proof. induction s; simpl; congruence. Qed.

Lemma append_assoc s1 s2 s3 : (s1 +:+ s2) +:+ s3 = s1 +:+ (s2 +:+ s3).
Proof. induction s1; simpl; congruence. Qed.

Lemma append_inj_l s r1 r2 : s +:+ r1 = s +:+ r2 → r1 = r2.
Proof. induction s; simpl; [done | intros [=]; auto]. Qed.

Lemma length_append s1 s2 :
  String.length (s1 +:+ s2) = (String.length s1 + String.length s2)%nat.
Proof. induction s1; simpl; congruence. Qed.

Lemma append_inj_length s1 s2 r1 r2 :
  String.length s1 = String.length s2 →
  s1 +:+ r1 = s2 +:+ r2 → s1 = s2 ∧ r1 = r2.
Proof.
  revert s2; induction s1 as [|c s1 IH]; intros [|c' s2] Hl Happ; simplify_eq/=; [done|].
  edestruct (IH s2) as [-> ->]; auto.
Qed.

(** Character lists: a Python [str] is walked one code point at a time. *)
Fixpoint chars (s : string) : list ascii :=
  match s with
  | EmptyString => []
  | String c s => c :: chars s
  end.

Fixpoint of_chars (l : list ascii) : string :=
  match l with
  | [] => EmptyString
  | c :: l => String c (of_chars l)
  end.

Lemma of_chars_chars s : of_chars (chars s) = s.
Proof. induction s; simpl; congruence. Qed.
Lemma chars_of_chars l : chars (of_chars l) = l.
Proof. induction l; simpl; congruence. Qed.
Lemma chars_append s1 s2 : chars (s1 +:+ s2) = chars s1 ++ chars s2.
Proof. induction s1; simpl; congruence. Qed.
Lemma length_chars s : length (chars s) = String.length s.
Proof. induction s; simpl; congruence. Qed.
Lemma of_chars_app l1 l2 : of_chars (l1 ++ l2) = of_chars l1 +:+ of_chars l2.
Proof. induction l1; simpl; congruence. Qed.
#[global] Instance chars_inj : Inj (=) (=) chars.
Proof. intros s1 s2 E. by rewrite <-(of_chars_chars s1), E, of_chars_chars. Qed.

(** [s.startswith(p)] and its remainder [s[len(p):]]. *)
Fixpoint strip_prefix (p s : string) : option string :=
  match p, s with
  | EmptyString, _ => Some s
  | String a p, String b s => if decide (a = b) then strip_prefix p s else None
  | String _ _, EmptyString => None
  end.

Definition starts_with (s p : string) : bool :=
  match strip_prefix p s with Some _ => true | None => false end.

Lemma strip_prefix_Some p s r : strip_prefix p s = Some r ↔ s = p +:+ r.
Proof.
  revert s; induction p as [|a p IH]; intros [|b s]; simpl;
    try case_decide; naive_solver.
Qed.

Lemma starts_with_true s p : starts_with s p = true ↔ ∃ r, s = p +:+ r.
Proof.
  unfold starts_with. destruct (strip_prefix p s) as [r|] eqn:E.
  - apply strip_prefix_Some in E. naive_solver.
  - split; [done|]. intros [r Hr]. apply strip_prefix_Some in Hr. congruence.
Qed.

(** The character [c] repeated [n] times. *)
Fixpoint repeat_char (c : ascii) (n : nat) : string :=
  match n with
  | O => EmptyString
  | S n => String c (repeat_char c n)
  end.

(** [s[:n]]. *)
Definition take_str (n : nat) (s : string) : string := of_chars (take n (chars s)).
(** [s[n:]]. *)
Definition drop_str (n : nat) (s : string) : string := of_chars (drop n (chars s)).

Lemma take_drop_str n s : take_str n s +:+ drop_str n s = s.
Proof. unfold take_str, drop_str. by rewrite <-of_chars_app, take_drop, of_chars_chars. Qed.

(** Joining with a separator. *)
Fixpoint join (sep : string) (l : list string) : string :=
  match l with
  | [] => ""
  | [s] => s
  | s :: l => s +:+ sep +:+ join sep l
  end.

(** ** Search loops bounded by a binary number

    [iter_until p step s] runs [step] at most [p] times, stopping at the
    first [inr]; the recursion is on the binary numeral, so a bound such as
    [2^32] costs nothing until the steps are taken. *)
Section iter_until.
Context {S R : Type} (step : S → S + R).

Definition step_sum (x : S + R) : S + R :=
  match x with inl s => step s | inr r => inr r end.

Fixpoint iter_until_sum (p : positive) (x : S + R) : S + R :=
  match x with
  | inr r => inr r
  | inl _ =>
      match p with
      | xH => step_sum x
      | xO p => iter_until_sum p (iter_until_sum p x)
      | xI p => step_sum (iter_until_sum p (iter_until_sum p x))
      end
  end.

Definition iter_until (p : positive) (s : S) : S + R := iter_until_sum p (inl s).

Lemma iter_until_sum_inr p r : iter_until_sum p (inr r) = inr r.
Proof. by destruct p. Qed.

Lemma iter_until_sum_nat p x :
  iter_until_sum p x = Nat.iter (Pos.to_nat p) step_sum x.
Proof.
  assert (Hinr : ∀ n r, Nat.iter n step_sum (inr r) = inr r).
  { intros n r. induction n as [|n IH]; [done|]. simpl. by rewrite IH. }
  revert x; induction p as [p IH|p IH|]; intros [s|r];
    cbn [iter_until_sum]; rewrite ?Hinr; try done.
  - rewrite !IH, Pos2Nat.inj_xI, <-Nat.iter_add, Nat.iter_succ.
    do 2 f_equal. lia.
  - rewrite !IH, Pos2Nat.inj_xO, <-Nat.iter_add. f_equal. lia.
Qed.

Lemma iter_until_nat p s :
  iter_until p s = Nat.iter (Pos.to_nat p) step_sum (inl s).
Proof. apply iter_until_sum_nat. Qed.

(** The loop leaves at the first state that stops it. *)
Lemma iter_until_first (f : nat → S) n r p :
  (∀ m, (m < n)%nat → step (f m) = inl (f (Datatypes.S m))) → step (f n) = inr r →
  (n < Pos.to_nat p)%nat → iter_until p (f 0%nat) = inr r.
Proof.
  intros Hgo Hstop Hp. rewrite iter_until_nat.
  assert (Hrun : ∀ k, (k ≤ n)%nat → Nat.iter k step_sum (inl (f 0%nat)) = inl (f k)).
  { induction k as [|k IH]; intros Hk; [done|]. rewrite Nat.iter_succ, IH by lia. apply Hgo. lia. }
  replace (Pos.to_nat p) with (Pos.to_nat p - Datatypes.S n + Datatypes.S n)%nat by lia.
  rewrite Nat.iter_add, Nat.iter_succ, Hrun by lia. cbn. rewrite Hstop.
  induction (Pos.to_nat p - Datatypes.S n)%nat as [|k IH]; [done|]. by rewrite Nat.iter_succ, IH.
Qed.
End iter_until.

(** Induction two elements at a time. *)
Lemma list_pair_ind {A} (P : list A → Prop) :
  P [] → (∀ a, P [a]) → (∀ a b l, P l → P (a :: b :: l)) → ∀ l, P l.
Proof.
  intros H0 H1 H2. assert (H : ∀ l, P l ∧ ∀ a, P (a :: l)).
  { induction l as [|b l [IH IH']]; split; auto. }
  apply H.
Qed.
