(* ===== verification/Sha256.v ===== *)
(** * SHA-256, as the source uses it through Python's [hashlib]

    The standard library's [hashlib.sha256(...).hexdigest()] written out after
    FIPS 180-4 on bytes held as integers [0 <= b < 256] and 32-bit words held
    as integers, so that every hash of the development evaluates.  The facts
    the other files use are at the end: the digest is 32 bytes, and its
    lower-case hexadecimal form is 64 characters drawn from [0-9a-f]. *)
From Stdlib Require Import Ascii.
From stdpp Require Import options.
From S2P Require Import Prelude.

Local Open Scope Z_scope.

Module Sha.

(** ** Words *)

Definition mask32 : Z := 4294967295.
Definition w32 (x : Z) : Z := Z.land x mask32.
Definition rotr (n x : Z) : Z := Z.lor (Z.shiftr x n) (w32 (Z.shiftl x (32 - n))).
Definition shr (n x : Z) : Z := Z.shiftr x n.
Definition ch (x y z : Z) : Z := Z.lxor (Z.land x y) (Z.land (Z.lxor x mask32) z).
Definition maj (x y z : Z) : Z :=
  Z.lxor (Z.lxor (Z.land x y) (Z.land x z)) (Z.land y z).
Definition bsig0 (x : Z) : Z := Z.lxor (Z.lxor (rotr 2 x) (rotr 13 x)) (rotr 22 x).
Definition bsig1 (x : Z) : Z := Z.lxor (Z.lxor (rotr 6 x) (rotr 11 x)) (rotr 25 x).
Definition ssig0 (x : Z) : Z := Z.lxor (Z.lxor (rotr 7 x) (rotr 18 x)) (shr 3 x).
Definition ssig1 (x : Z) : Z := Z.lxor (Z.lxor (rotr 17 x) (rotr 19 x)) (shr 10 x).

(** In decimal: the first 32 bits of the fractional parts of the cube roots of
    the first 64 primes. *)
Definition round_constants : list Z :=
  [1116352408; 1899447441; 3049323471; 3921009573; 961987163; 1508970993;
   2453635748; 2870763221; 3624381080; 310598401; 607225278; 1426881987;
   1925078388; 2162078206; 2614888103; 3248222580; 3835390401; 4022224774;
   264347078; 604807628; 770255983; 1249150122; 1555081692; 1996064986;
   2554220882; 2821834349; 2952996808; 3210313671; 3336571891; 3584528711;
   113926993; 338241895; 666307205; 773529912; 1294757372; 1396182291;
   1695183700; 1986661051; 2177026350; 2456956037; 2730485921; 2820302411;
   3259730800; 3345764771; 3516065817; 3600352804; 4094571909; 275423344;
   430227734; 506948616; 659060556; 883997877; 958139571; 1322822218;
   1537002063; 1747873779; 1955562222; 2024104815; 2227730452; 2361852424;
   2428436474; 2756734187; 3204031479; 3329325298].

Record regs := Regs { ra : Z; rb : Z; rc : Z; rd : Z; re : Z; rf : Z; rg : Z; rh : Z }.

Definition initial_regs : regs :=
  Regs 1779033703 3144134277 1013904242 2773480762
       1359893119 2600822924 528734635 1541459225.

(** ** Padding and blocks *)

(** The [n] low bytes of [x], most significant first. *)
Fixpoint be_bytes (n : nat) (x : Z) : list Z :=
  match n with
  | O => []
  | S n => Z.land (Z.shiftr x (8 * Z.of_nat n)) 255 :: be_bytes n x
  end.

Definition be_word (bs : list Z) : Z := foldl (λ acc b, acc * 256 + b) 0 bs.

Definition pad (msg : list Z) : list Z :=
  let n := Z.of_nat (length msg) in
  msg ++ [128] ++ replicate (Z.to_nat ((55 - n) mod 64)) 0 ++ be_bytes 8 (8 * n).

(** Cut into groups of [n]; [fuel] counts the groups. *)
Fixpoint chunks (fuel n : nat) (l : list Z) : list (list Z) :=
  match fuel with
  | O => []
  | S fuel =>
      match l with
      | [] => []
      | _ => take n l :: chunks fuel n (drop n l)
      end
  end.

(** ** Compression *)

(** One round on the registers and the 16-word window of the message
    schedule, whose head is this round's word. *)
Definition round (st : regs * list Z) (k : Z) : regs * list Z :=
  let '(r, win) := st in
  let w := nth 0 win 0 in
  let t1 := rh r + bsig1 (re r) + ch (re r) (rf r) (rg r) + k + w in
  let t2 := bsig0 (ra r) + maj (ra r) (rb r) (rc r) in
  let next := w32 (ssig1 (nth 14 win 0) + nth 9 win 0 + ssig0 (nth 1 win 0) + w) in
  (Regs (w32 (t1 + t2)) (ra r) (rb r) (rc r) (w32 (rd r + t1)) (re r) (rf r) (rg r),
   tail win ++ [next]).

Definition add_regs (r s : regs) : regs :=
  Regs (w32 (ra r + ra s)) (w32 (rb r + rb s)) (w32 (rc r + rc s)) (w32 (rd r + rd s))
       (w32 (re r + re s)) (w32 (rf r + rf s)) (w32 (rg r + rg s)) (w32 (rh r + rh s)).

Definition compress (r : regs) (block : list Z) : regs :=
  let win := be_word <$> chunks 16 4 block in
  add_regs r (foldl round (r, win) round_constants).1.

Definition regs_words (r : regs) : list Z :=
  let '(Regs a b c d e f g h) := r in [a; b; c; d; e; f; g; h].

(** [hashlib.sha256(msg).digest()] *)
Definition digest (msg : list Z) : list Z :=
  let p := pad msg in
  let blocks := chunks (length p) 64 p in
  mjoin (be_bytes 4 <$> regs_words (foldl compress initial_regs blocks)).

(** ** Hexadecimal *)

Definition hex_digit (x : Z) : ascii :=
  if decide (x < 10) then ascii_of_N (Z.to_N (48 + x))
  else ascii_of_N (Z.to_N (87 + x)).

(** [bytes.hex()] *)
Fixpoint hex (bs : list Z) : string :=
  match bs with
  | [] => EmptyString
  | b :: bs =>
      String (hex_digit (Z.land (Z.shiftr b 4) 15))
        (String (hex_digit (Z.land b 15)) (hex bs))
  end.

Definition is_lower_hex (c : ascii) : bool :=
  let n := N_of_ascii c in
  ((48 <=? n)%N && (n <=? 57)%N) || ((97 <=? n)%N && (n <=? 102)%N).

(** ** Facts *)

Lemma length_be_bytes n x : length (be_bytes n x) = n.
Proof. induction n; simpl; congruence. Qed.

Lemma be_bytes_range n x : Forall (λ b, 0 ≤ b < 256) (be_bytes n x).
Proof.
  induction n as [|n IH]; cbn [be_bytes]; constructor; auto.
  change 255 with (Z.ones 8). rewrite Z.land_ones by lia. by apply Z.mod_pos_bound.
Qed.

Lemma length_digest msg : length (digest msg) = 32%nat.
Proof. unfold digest, regs_words. by destruct (foldl _ _ _). Qed.

Lemma digest_range msg : Forall (λ b, 0 ≤ b < 256) (digest msg).
Proof.
  unfold digest, regs_words. destruct (foldl _ _ _). cbn [fmap list_fmap mjoin list_join].
  repeat (apply Forall_app; split; [apply be_bytes_range|]). constructor.
Qed.

Lemma hex_digit_lower x : 0 ≤ x < 16 → is_lower_hex (hex_digit x) = true.
Proof.
  intros Hx.
  assert (∃ n, (n < 16)%nat ∧ x = Z.of_nat n) as (n & Hn & ->)
    by (exists (Z.to_nat x); lia).
  do 16 (destruct n as [|n]; [done|]). lia.
Qed.

Lemma land_15_range x : 0 ≤ Z.land x 15 < 16.
Proof. change 15 with (Z.ones 4). rewrite Z.land_ones by lia. by apply Z.mod_pos_bound. Qed.

Lemma hex_lower bs : Forall (λ c, is_lower_hex c = true) (chars (hex bs)).
Proof. induction bs; simpl; repeat constructor; auto using hex_digit_lower, land_15_range. Qed.

Lemma length_hex bs : String.length (hex bs) = (2 * length bs)%nat.
Proof. induction bs; simpl; lia. Qed.

End Sha.

(** The standard test vectors. *)
Example sha_empty :
  Sha.hex (Sha.digest []) =
  "e3b0c44298fc1c149afbf4c8996fb92427ae41e4649b934ca495991b7852b855".
Proof. vm_compute. reflexivity. Qed.

Example sha_abc :
  Sha.hex (Sha.digest [97; 98; 99]) =
  "ba7816bf8f01cfea414140de5dae2223b00361a396177a9cb410ff61f20015ad".
Proof. vm_compute. reflexivity. Qed.
