(* ===== verification/PyText.v ===== *)
(** * Python text and numbers

    What the source uses of [str], [int], [bytes.fromhex] and of Python's
    numeric tower, over strings whose code points are below 256:
    [str(int)], [int(s)], [int(s, 16)], UTF-8 encoding, [str.lower], and
    floats as readings of the clock give them. *)
From Stdlib Require Import Ascii DecimalString DecimalN DecimalFacts.
From stdpp Require Import options.
From S2P Require Import Prelude.

Local Open Scope Z_scope.

(** ** Characters *)

Definition code (c : ascii) : Z := Z.of_N (N_of_ascii c).
Definition char (z : Z) : ascii := ascii_of_N (Z.to_N z).

Definition is_digit (c : ascii) : bool := (48 <=? code c) && (code c <=? 57).

(** [Py_ISSPACE], and the two further Latin-1 spaces that [int] maps to it. *)
Definition is_space (c : ascii) : bool :=
  ((9 <=? code c) && (code c <=? 13)) || (code c =? 32).
Definition is_unicode_space (c : ascii) : bool :=
  is_space c || (code c =? 133) || (code c =? 160).

(** [str.lower] on one code point: A-Z and the Latin-1 capitals. *)
Definition lower_char (c : ascii) : ascii :=
  let n := code c in
  if ((65 <=? n) && (n <=? 90)) || ((192 <=? n) && (n <=? 222) && negb (n =? 215))
  then char (n + 32) else c.

Definition lower (s : string) : string := of_chars (lower_char <$> chars s).

(** [s.encode("utf-8")] *)
Definition utf8_char (c : ascii) : list Z :=
  let n := code c in
  if n <? 128 then [n] else [192 + n / 64; 128 + n mod 64].
Definition utf8 (s : string) : list Z := mjoin (utf8_char <$> chars s).

(** The value of a digit in a base up to 16. *)
Definition digit_value (c : ascii) : option Z :=
  let n := code c in
  if (48 <=? n) && (n <=? 57) then Some (n - 48)
  else if (65 <=? n) && (n <=? 70) then Some (n - 55)
  else if (97 <=? n) && (n <=? 102) then Some (n - 87)
  else None.

(** ** [int(s)] and [int(s, 16)] *)

(** Digits of [base] with single underscores between them; [None] where
    CPython reports a misplaced underscore.  The value, the digit count and
    the rest of the text. *)
Fixpoint scan_digits (base : Z) (prev_us : bool) (acc : Z) (n : nat) (l : list ascii)
    : option (Z * nat * list ascii) :=
  match l with
  | [] => if prev_us then None else Some (acc, n, [])
  | c :: rest =>
      if code c =? 95 then
        if prev_us then None else scan_digits base true acc n rest
      else
        match digit_value c with
        | Some d =>
            if d <? base then scan_digits base false (acc * base + d) (S n) rest
            else if prev_us then None else Some (acc, n, l)
        | None => if prev_us then None else Some (acc, n, l)
        end
  end.

Fixpoint skip_spaces (l : list ascii) : list ascii :=
  match l with
  | c :: rest => if is_unicode_space c then skip_spaces rest else l
  | [] => []
  end.

Definition split_sign (l : list ascii) : Z * list ascii :=
  match l with
  | c :: rest =>
      if code c =? 43 then (1, rest)
      else if code c =? 45 then (-1, rest) else (1, l)
  | [] => (1, [])
  end.

(** The optional [0x] of base 16, with the underscore that may follow it. *)
Definition skip_hex_prefix (l : list ascii) : list ascii :=
  match l with
  | c1 :: c2 :: rest =>
      if (code c1 =? 48) && ((code c2 =? 120) || (code c2 =? 88)) then
        match rest with
        | c3 :: rest' => if code c3 =? 95 then rest' else rest
        | [] => []
        end
      else l
  | _ => l
  end.

(** Decimal text of more than 4300 digits is refused. *)
Definition max_str_digits : nat := 4300.

Definition int_of_text (base : Z) (s : string) : option Z :=
  let '(sign, l) := split_sign (skip_spaces (chars s)) in
  let l := if base =? 16 then skip_hex_prefix l else l in
  match scan_digits base true 0 0 l with
  | Some (v, n, rest) =>
      if (base =? 10) && bool_decide (max_str_digits < n)%nat then None
      else match skip_spaces rest with [] => Some (sign * v) | _ => None end
  | None => None
  end.

(** ** [bytes.fromhex] *)

Fixpoint fromhex_chars (l : list ascii) : option (list Z) :=
  match l with
  | [] => Some []
  | c :: rest =>
      if is_space c then fromhex_chars rest
      else
        match rest with
        | c2 :: rest' =>
            match digit_value c, digit_value c2 with
            | Some hi, Some lo =>
                bs ← fromhex_chars rest'; Some (hi * 16 + lo :: bs)
            | _, _ => None
            end
        | [] => None
        end
  end.

Definition fromhex (s : string) : option (list Z) := fromhex_chars (chars s).

(** [int.from_bytes(bs, "big")] *)
Definition int_from_bytes (bs : list Z) : Z := foldl (λ acc b, acc * 256 + b) 0 bs.

(** ** [str(n)] *)

Definition str_N (n : N) : string := NilEmpty.string_of_uint (N.to_uint n).
Definition str_Z (z : Z) : string :=
  match z with
  | Zneg p => String (char 45) (str_N (Npos p))
  | _ => str_N (Z.to_N z)
  end.

Lemma digits_of_uint d : Forall (λ c, is_digit c = true) (chars (NilEmpty.string_of_uint d)).
Proof. induction d; simpl; auto. Qed.

Lemma str_N_digits n : Forall (λ c, is_digit c = true) (chars (str_N n)).
Proof. apply digits_of_uint. Qed.

Lemma str_N_parse n : NilEmpty.uint_of_string (str_N n) = Some (N.to_uint n).
Proof. unfold str_N. apply NilEmpty.usu. Qed.

#[global] Instance str_N_inj : Inj (=) (=) str_N.
Proof.
  intros n m E. apply DecimalN.Unsigned.to_uint_inj.
  apply (inj Some). rewrite <-!str_N_parse. by rewrite E.
Qed.

Lemma to_uint_head_zero n d : N.to_uint n = Decimal.D0 d → d = Decimal.Nil.
Proof.
  intros E. pose proof (DecimalN.Unsigned.to_of (N.to_uint n)) as Hn.
  rewrite DecimalN.Unsigned.of_to, E in Hn.
  unfold Decimal.unorm in Hn. simpl in Hn.
  destruct (Decimal.nzhead d) eqn:Hd; try by simplify_eq.
  exfalso. assert (Hz : ∀ d d', Decimal.nzhead d ≠ Decimal.D0 d').
  { clear. intros d d'. induction d; simpl; done. }
  by apply Hz in Hd.
Qed.

Lemma str_N_cons n : ∃ c s, str_N n = String c s ∧ is_digit c = true ∧
  (c = char 48 → s = "").
Proof.
  unfold str_N. destruct (N.to_uint n) as [|d|d|d|d|d|d|d|d|d|d] eqn:E.
  { pose proof (DecimalN.Unsigned.to_of (N.to_uint n)) as Hn.
    rewrite DecimalN.Unsigned.of_to in Hn. rewrite E in Hn. done. }
  1: apply to_uint_head_zero in E as ->.
  all: by do 2 eexists.
Qed.

Lemma str_Z_head z : ∃ c s, str_Z z = String c s ∧ (is_digit c = true ∨ c = char 45).
Proof.
  destruct z as [|p|p]; simpl; eauto.
  destruct (str_N_cons (Npos p)) as (c & s & -> & ? & _); eauto.
Qed.

#[global] Instance str_Z_inj : Inj (=) (=) str_Z.
Proof.
  assert (Hneg : ∀ n m, str_N n ≠ String (char 45) (str_N m)).
  { intros n m E. destruct (str_N_cons n) as (c & s & E' & Hc & _).
    rewrite E in E'. by simplify_eq. }
  intros [|p|p] [|q|q] E; simpl in E; simplify_eq; try done;
    try (by apply (inj str_N) in E); try (by apply Hneg in E);
    try (by symmetry in E; apply Hneg in E).
Qed.

(** ** Floats

    [PFlt t] is the float of value [t / 2^22].  Between [2^30] and [2^31],
    where the clock reads until 2038, these are all the floats there are, and
    differences of readings are exact; elsewhere they are the floats of few
    enough digits ([plain]) that occur as constants and settings. *)
Inductive pynum := PInt (z : Z) | PFlt (t : Z).

#[global] Instance pynum_eq_dec : EqDecision pynum.
Proof. solve_decision. Defined.

(** Ticks in one: [2 ^ 22]. *)
Abbreviation ticks := 4194304.

(** The value, in ticks. *)
Definition num_val (n : pynum) : Z := match n with PInt z => z * ticks | PFlt t => t end.
Definition num_le (a b : pynum) : bool := num_val a <=? num_val b.
Definition num_lt (a b : pynum) : bool := num_val a <? num_val b.

(** [a - b]: an int only between ints. *)
Definition num_sub (a b : pynum) : pynum :=
  match a, b with
  | PInt x, PInt y => PInt (x - y)
  | _, _ => PFlt (num_val a - num_val b)
  end.

(** [min(a, b)] and [max(a, b)] keep the first of two equal arguments. *)
Definition num_min (a b : pynum) : pynum := if num_lt b a then b else a.
Definition num_max (a b : pynum) : pynum := if num_lt a b then b else a.

(** [int(x)] of a number, which truncates. *)
Definition num_int (n : pynum) : Z := match n with PInt z => z | PFlt t => Z.quot t ticks end.

Lemma num_val_min a b : num_val (num_min a b) = Z.min (num_val a) (num_val b).
Proof. unfold num_min, num_lt. case_match; lia. Qed.
Lemma num_val_max a b : num_val (num_max a b) = Z.max (num_val a) (num_val b).
Proof. unfold num_max, num_lt. case_match; lia. Qed.
Lemma num_val_sub a b : num_val (num_sub a b) = num_val a - num_val b.
Proof. destruct a, b; cbn [num_sub num_val]; lia. Qed.
Lemma num_le_int x y : num_le (PInt x) (PInt y) = (x <=? y).
Proof. unfold num_le. cbn [num_val]. destruct (Z.leb_spec x y); lia. Qed.
Lemma num_lt_int x y : num_lt (PInt x) (PInt y) = (x <? y).
Proof. unfold num_lt. cbn [num_val]. destruct (Z.ltb_spec x y); lia. Qed.
Lemma num_int_float z : num_int (PFlt (z * ticks)) = z.
Proof. cbn [num_int]. by apply Z.quot_mul. Qed.
Lemma num_int_succ n : num_val n < (num_int n + 1) * ticks.
Proof.
  destruct n as [z|t]; cbn [num_val num_int]; [lia|].
  pose proof (Z.quot_rem' t ticks). pose proof (Z.rem_bound_abs t ticks ltac:(done)). lia.
Qed.

(** [n / m] to the nearest integer, the even one of two. *)
Definition round_div (n m : Z) : Z :=
  let q := n / m in
  let r := n mod m in
  if (2 * r <? m) || ((2 * r =? m) && Z.even q) then q else q + 1.

(** The double nearest to an integer, the even one of two: 53 significant
    bits, of which integers up to [2^53] need no more. *)
Definition float_round (z : Z) : Z :=
  let e := Z.log2 (Z.abs z) - 52 in
  if e <=? 0 then z else Z.sgn z * (round_div (Z.abs z) (2 ^ e) * 2 ^ e).

(** [float(x)] of a number; [float_fits] says that the result is a finite
    double, and [float_limit] is the least magnitude of an integer for which
    it is not and [float] raises [OverflowError]. *)
Definition num_float (n : pynum) : pynum :=
  match n with PInt z => PFlt (float_round z * ticks) | PFlt t => PFlt t end.
Definition float_fits (n : pynum) : bool := Z.abs (num_val n) <? 2 ^ 1024 * ticks.
Definition float_limit : Z := 2 ^ 1024 - 2 ^ 970.

(** The range where the next float is one tick away. *)
Definition fine (a : Z) : bool := (2 ^ 52 <=? a) && (a <? 2 ^ 53).

(** [d] decimal places tell the float of [a] ticks from every other one. *)
Definition decimals_fit (a : Z) (d : nat) : bool :=
  let c := round_div (a * 10 ^ Z.of_nat d) ticks in
  if fine a then 2 * Z.abs (c * ticks - a * 10 ^ Z.of_nat d) <? 10 ^ Z.of_nat d
  else c * ticks =? a * 10 ^ Z.of_nat d.

(** The least such number of places, but one at least; 22 always do. *)
Definition decimals (a : Z) : nat := default 22%nat (List.find (decimals_fit a) (seq 1 22)).

Fixpoint frac_text (d : nat) (n : Z) : string :=
  match d with
  | O => ""
  | S d => frac_text d (n / 10) +:+ String (char (48 + n mod 10)) ""
  end.

(** [c / 10^d] in decimal notation. *)
Definition decimal_text (d : nat) (c : Z) : string :=
  str_N (Z.to_N (c / 10 ^ Z.of_nat d)) +:+ String (char 46) (frac_text d (c mod 10 ^ Z.of_nat d)).

(** [repr] of a float: the shortest text that reads back as the same float. *)
Definition str_flt (t : Z) : string :=
  let a := Z.abs t in
  let s := decimal_text (decimals a) (round_div (a * 10 ^ Z.of_nat (decimals a)) ticks) in
  if t <? 0 then String (char 45) s else s.

(** [repr] of a number, which is also its JSON text. *)
Definition str_num (n : pynum) : string :=
  match n with
  | PInt z => str_Z z
  | PFlt t => str_flt t
  end.

(** Floats of at most fifteen digits, which every decimal notation of as many
    digits reads as, and which [repr] does not write with an exponent. *)
Definition plain (a : Z) : bool :=
  ((a =? 0) || (ticks <=? 10000 * a)) &&
  existsb (λ d, (a * 10 ^ Z.of_nat d mod ticks =? 0) && (a * 10 ^ Z.of_nat d / ticks <? 10 ^ 15)) (seq 0 23).

(** What [c / 10^d] reads as, [c] not negative: the nearest float, where
    [PFlt] has it; [accepts] says which of the exact ones are taken. *)
Definition read_decimal (accepts : Z → bool) (c : Z) (d : nat) : option Z :=
  let a := round_div (c * ticks) (10 ^ Z.of_nat d) in
  if (fine a && (2 ^ 52 * 10 ^ Z.of_nat d <=? c * ticks))
     || ((a * 10 ^ Z.of_nat d =? c * ticks) && accepts a)
  then Some a else None.

(** The value of a run of digits. *)
Definition frac_val (s : string) : Z := foldl (λ acc c, 10 * acc + (code c - 48)) 0 (chars s).

Example str_flt_examples :
  str_flt 7273000212122624 = "1734018376.3796387" ∧ str_flt (300 * ticks) = "300.0"
  ∧ str_flt (-3145728) = "-0.75" ∧ str_flt (2 ^ 52 + 1) = "1073741824.0000002".
Proof. by vm_compute. Qed.

Lemma round_div_bound n m : 0 < m → 2 * Z.abs (round_div n m * m - n) ≤ m.
Proof.
  intros Hm. unfold round_div. pose proof (Z.div_mod n m ltac:(lia)).
  pose proof (Z.mod_pos_bound n m Hm).
  destruct (Z.ltb_spec (2 * (n mod m)) m); [cbn [orb]; nia|]. cbn [orb].
  destruct (Z.eqb_spec (2 * (n mod m)) m); cbn [andb]; [|nia].
  destruct (Z.even (n / m)); nia.
Qed.

Lemma round_div_tie n m :
  0 < m → 2 * Z.abs (round_div n m * m - n) = m → Z.even (round_div n m) = true.
Proof.
  intros Hm. unfold round_div. pose proof (Z.div_mod n m ltac:(lia)).
  pose proof (Z.mod_pos_bound n m Hm).
  destruct (Z.ltb_spec (2 * (n mod m)) m); cbn [orb]; [nia|].
  destruct (Z.eqb_spec (2 * (n mod m)) m); cbn [andb]; [|nia].
  destruct (Z.even (n / m)) eqn:He; [done|]. intros _.
  rewrite Z.even_add, He. done.
Qed.

Lemma round_div_unique n m a : 0 < m → 2 * Z.abs (n - a * m) < m → round_div n m = a.
Proof. intros Hm Ha. pose proof (round_div_bound n m Hm). nia. Qed.

Lemma round_div_exact a m : 0 < m → round_div (a * m) m = a.
Proof. intros. apply round_div_unique; [done|]. rewrite Z.sub_diag. lia. Qed.

Lemma round_div_nonneg n m : 0 < m → 0 ≤ n → 0 ≤ round_div n m.
Proof. intros Hm Hn. pose proof (round_div_bound n m Hm). nia. Qed.

(** *** Rounding to a double *)

Lemma float_round_small z : Z.abs z < 2 ^ 53 → float_round z = z.
Proof.
  intros Hz. unfold float_round. rewrite (proj2 (Z.leb_le _ 0)); [done|].
  destruct (decide (z = 0)) as [->|Hne]; [done|].
  assert (Z.log2 (Z.abs z) < 53) by (apply Z.log2_lt_pow2; lia). lia.
Qed.

Lemma float_round_exact z : Z.abs z ≤ 2 ^ 53 → float_round z = z.
Proof.
  intros Hz. destruct (decide (Z.abs z = 2 ^ 53)) as [Heq|]; [|apply float_round_small; lia].
  assert (z = 2 ^ 53 ∨ z = - 2 ^ 53) as [-> | ->] by lia; by vm_compute.
Qed.

(** Beyond, the quotient by [2^e] that is rounded has 53 bits. *)
Lemma float_round_quotient z e :
  e = Z.log2 (Z.abs z) - 52 → 0 < e →
  0 < 2 ^ e ∧ 2 ^ 52 * 2 ^ e ≤ Z.abs z < 2 ^ 53 * 2 ^ e ∧
  Z.abs (float_round z) = round_div (Z.abs z) (2 ^ e) * 2 ^ e.
Proof.
  intros -> He. pose proof (Z.log2_nonneg (Z.abs z)).
  assert (Hpos : 0 < Z.abs z).
  { destruct (decide (z = 0)) as [->|]; [by vm_compute in He|lia]. }
  pose proof (Z.log2_spec (Z.abs z) Hpos) as Hlog.
  set (e := Z.log2 (Z.abs z) - 52) in *.
  replace (Z.succ (Z.log2 (Z.abs z))) with (53 + e) in Hlog by lia.
  replace (Z.log2 (Z.abs z)) with (52 + e) in Hlog by lia.
  rewrite !Z.pow_add_r in Hlog by lia.
  assert (0 < 2 ^ e) by (apply Z.pow_pos_nonneg; lia). split_and!; [done|lia|lia|].
  unfold float_round. fold e. rewrite (proj2 (Z.leb_gt e 0)) by done.
  pose proof (round_div_nonneg (Z.abs z) (2 ^ e) ltac:(done) ltac:(lia)).
  rewrite Z.abs_mul, (Z.abs_eq (_ * _)) by nia.
  replace (Z.abs (Z.sgn z)) with 1 by lia. lia.
Qed.

(** The result is within half of a unit in its last place. *)
Lemma float_round_nearest z :
  2 * Z.abs (float_round z - z) ≤ 2 ^ Z.max 0 (Z.log2 (Z.abs z) - 52).
Proof.
  unfold float_round. set (e := Z.log2 (Z.abs z) - 52). destruct (Z.leb_spec e 0).
  { rewrite Z.sub_diag. by apply Z.pow_nonneg. }
  rewrite Z.max_r by lia. assert (0 < 2 ^ e) by (apply Z.pow_pos_nonneg; lia).
  pose proof (round_div_bound (Z.abs z) (2 ^ e) ltac:(done)).
  destruct (Z.sgn_spec z) as [[? ->]|[[<- ->]|[? ->]]]; cbn in *; lia.
Qed.

(** Where the last place is worth [m], rounding stays below [2^54 * p] as
    long as the integer does by half of [p]'s last place. *)
Lemma rounded_below a q m p :
  0 < m → 0 < p → 2 ^ 52 * m ≤ a → 2 ^ 52 ≤ q ≤ 2 ^ 53 → 2 * Z.abs (q * m - a) ≤ m →
  (2 * Z.abs (q * m - a) = m → Z.even q = true) →
  m ≤ p ∨ m = 2 * p ∨ 4 * p ≤ m → (q * m < 2 ^ 54 * p ↔ a < 2 ^ 54 * p - p).
Proof.
  intros Hm Hp Ha Hq Hb Htie [Hle|[-> |Hge]].
  - split; intros _; nia.
  - split; intros Hl; [|nia]. assert (q ≤ 2 ^ 53 - 1) by nia.
    destruct (decide (q = 2 ^ 53 - 1)) as [E|]; [|nia].
    destruct (decide (a = 2 ^ 54 * p - p)) as [Ea|]; [|nia].
    assert (Z.even q = true) as Hev by (apply Htie; nia). by rewrite E in Hev.
  - split; intros; nia.
Qed.

Lemma pow_1024 : 2 ^ 1024 = 2 ^ 54 * 2 ^ 970.
Proof. rewrite <-Z.pow_add_r by done. done. Qed.

(** [float] overflows exactly from [float_limit] on. *)
Lemma float_fits_int z : float_fits (num_float (PInt z)) = (Z.abs z <? float_limit).
Proof.
  unfold float_fits. cbn [num_float num_val]. rewrite Z.abs_mul. change (Z.abs ticks) with ticks.
  assert (Heq : Z.abs (float_round z) < 2 ^ 1024 ↔ Z.abs z < float_limit).
  2: { generalize dependent (2 ^ 1024). intros b Heq.
       destruct (Z.ltb_spec (Z.abs z) float_limit); [apply Z.ltb_lt|apply Z.ltb_ge]; lia. }
  unfold float_limit. rewrite pow_1024. assert (Hp : 0 < 2 ^ 970) by (by apply Z.pow_pos_nonneg).
  destruct (Z_le_gt_dec (Z.log2 (Z.abs z) - 52) 0) as [He|He].
  { assert (Z.abs z < 2 ^ 53).
    { destruct (decide (z = 0)) as [->|]; [done|]. apply Z.log2_lt_pow2; lia. }
    rewrite float_round_small by done. generalize dependent (2 ^ 970). intros p Hp. lia. }
  destruct (float_round_quotient z _ eq_refl ltac:(lia)) as (Hm & Hz & ->).
  pose proof (round_div_bound (Z.abs z) _ Hm) as Hb. pose proof (round_div_tie (Z.abs z) _ Hm) as Ht.
  remember (Z.log2 (Z.abs z) - 52) as e eqn:Ee.
  assert (Hcases : 2 ^ e ≤ 2 ^ 970 ∨ 2 ^ e = 2 * 2 ^ 970 ∨ 4 * 2 ^ 970 ≤ 2 ^ e).
  { destruct (Z.lt_trichotomy e 971) as [?|[-> |?]].
    - left. apply Z.pow_le_mono_r; lia.
    - right; left. by rewrite <-Z.pow_succ_r.
    - right; right. change 4 with (2 ^ 2). rewrite <-Z.pow_add_r by done. apply Z.pow_le_mono_r; lia. }
  clear Ee He. generalize dependent (2 ^ 970). intros p Hp Hcases. generalize dependent (2 ^ e).
  intros m Hm Hz Hb Ht Hcases. apply rounded_below; [done|done|lia|nia|done|done|done].
Qed.

Lemma pow10_pos d : 0 < 10 ^ Z.of_nat d.
Proof. apply Z.pow_pos_nonneg; lia. Qed.

Lemma decimals_fit_some a : decimals_fit a (if fine a then 7 else 22) = true.
Proof.
  unfold decimals_fit. destruct (fine a).
  - apply Z.ltb_lt. eapply Z.le_lt_trans; [by apply round_div_bound|done].
  - apply Z.eqb_eq. change (10 ^ Z.of_nat 22) with (2384185791015625 * ticks).
    rewrite Z.mul_assoc, round_div_exact; done.
Qed.

Lemma decimals_fit_decimals a : decimals_fit a (decimals a) = true ∧ decimals a ≠ 0%nat.
Proof.
  unfold decimals. destruct (List.find _ _) as [d|] eqn:Hf.
  - apply find_some in Hf as [Hd%in_seq ?]. cbn. split; [done|lia].
  - assert (Hin : In (if fine a then 7 else 22)%nat (seq 1 22)) by (apply in_seq; case_match; lia).
    apply (find_none _ _ Hf) in Hin. by rewrite decimals_fit_some in Hin.
Qed.

(** What [repr] writes reads back. *)
Lemma read_decimal_repr accepts a :
  0 ≤ a → fine a = true ∨ accepts a = true →
  read_decimal accepts (round_div (a * 10 ^ Z.of_nat (decimals a)) ticks) (decimals a) = Some a.
Proof.
  intros Ha Hok. destruct (decimals_fit_decimals a) as [Hfit _]. revert Hfit.
  unfold decimals_fit, read_decimal. generalize (decimals a) as d. intros d Hfit.
  pose proof (pow10_pos d) as Hp. set (p := 10 ^ Z.of_nat d) in *.
  set (c := round_div (a * p) ticks) in *.
  destruct (fine a) eqn:Hf.
  - apply Z.ltb_lt in Hfit. rewrite (round_div_unique (c * ticks) p a Hp Hfit), Hf.
    apply andb_true_iff in Hf as [Hlo%Z.leb_le _].
    assert ((2 ^ 52 * p <=? c * ticks) = true) as ->; [|done].
    apply Z.leb_le. destruct (decide (a = 2 ^ 52)) as [->|].
    + subst c. change (2 ^ 52) with (1073741824 * ticks) at 2.
      rewrite <-Z.mul_assoc, (Z.mul_comm ticks), Z.mul_assoc, round_div_exact by done. lia.
    + nia.
  - apply Z.eqb_eq in Hfit. rewrite Hfit, round_div_exact, Z.eqb_refl, Hf by done.
    by destruct Hok as [?| ->].
Qed.

Lemma frac_val_snoc s c : frac_val (s +:+ String c "") = 10 * frac_val s + (code c - 48).
Proof. unfold frac_val. rewrite chars_append. by rewrite foldl_app. Qed.

Lemma code_char n : 0 ≤ n < 256 → code (char n) = n.
Proof. intros. unfold code, char. rewrite N_ascii_embedding; lia. Qed.

Lemma frac_text_val d n : 0 ≤ n < 10 ^ Z.of_nat d → frac_val (frac_text d n) = n.
Proof.
  revert n. induction d as [|d IH]; intros n Hn; [cbn in Hn |- *; lia|].
  rewrite Nat2Z.inj_succ, Z.pow_succ_r in Hn by lia. cbn [frac_text].
  pose proof (Z.div_mod n 10 ltac:(done)). pose proof (Z.mod_pos_bound n 10 ltac:(done)).
  rewrite frac_val_snoc, IH, code_char by lia. lia.
Qed.

Lemma frac_text_digits d n : Forall (λ c, is_digit c = true) (chars (frac_text d n)).
Proof.
  revert n. induction d as [|d IH]; intros n; [constructor|]. cbn [frac_text].
  rewrite chars_append. apply Forall_app. split; [apply IH|]. repeat constructor.
  pose proof (Z.mod_pos_bound n 10 ltac:(done)). unfold is_digit. rewrite code_char; lia.
Qed.

Lemma frac_text_length d n : String.length (frac_text d n) = d.
Proof.
  revert n. induction d as [|d IH]; intros n; [done|]. cbn [frac_text].
  rewrite length_append, IH. cbn. lia.
Qed.

Lemma str_flt_neg t : t < 0 → str_flt t = String (char 45) (str_flt (- t)).
Proof.
  intros Ht. unfold str_flt. rewrite Z.abs_opp.
  by rewrite (proj2 (Z.ltb_lt t 0)), (proj2 (Z.ltb_ge (- t) 0)) by lia.
Qed.
