(* ===== verification/Json.v ===== *)
(** * JSON text: [json.dumps] and [json.loads]

    The JSON values the program builds and reads, the two printers it uses
    (the canonical one of [deterministic_json]: sorted keys, no spaces; and
    the default one, which the storage layer writes into the blocks table),
    and the reader.  [loads_dumps] says that reading back printed text gives
    the value that was printed; the injectivity of canonical text, on which
    every hash commitment rests, follows from it. *)
From Stdlib Require Import Ascii DecimalString DecimalN.
From stdpp Require Import options.
From S2P Require Import Prelude PyText.

Local Open Scope Z_scope.
#[local] Set Warnings "-register-all".

Inductive json :=
  | JNull
  | JBool (b : bool)
  | JNum (n : pynum)
  | JStr (s : string)
  | JArr (l : list json)
  | JObj (kvs : list (string * json)).

(** ** Dictionaries in insertion order *)

Section dict.
Context {V : Type}.
Implicit Types d : list (string * V).

Fixpoint dict_get (k : string) d : option V :=
  match d with
  | [] => None
  | (k', v) :: d => if decide (k = k') then Some v else dict_get k d
  end.

Fixpoint dict_set (k : string) (v : V) d : list (string * V) :=
  match d with
  | [] => [(k, v)]
  | (k', w) :: d => if decide (k = k') then (k, v) :: d else (k', w) :: dict_set k v d
  end.

Definition dict_of_pairs (l : list (string * V)) : list (string * V) :=
  foldl (λ d kv, dict_set kv.1 kv.2 d) [] l.

Lemma dict_set_fresh k v d : k ∉ d.*1 → dict_set k v d = d ++ [(k, v)].
Proof.
  induction d as [|[k' w] d IH]; simpl; [done|]. intros Hk.
  rewrite not_elem_of_cons in Hk. rewrite decide_False by naive_solver.
  f_equal. naive_solver.
Qed.

Lemma dict_of_pairs_NoDup l : NoDup l.*1 → dict_of_pairs l = l.
Proof.
  intros Hl. unfold dict_of_pairs. change l with ([] ++ l) at 2.
  assert (Hd : NoDup (([] ++ l).*1)) by done. clear Hl. revert Hd.
  generalize (@nil (string * V)) as d.
  induction l as [|[k v] l IH]; intros d Hd; simpl; [by rewrite app_nil_r|].
  rewrite fmap_app, fmap_cons in Hd. cbn [fst] in Hd.
  rewrite dict_set_fresh.
  - rewrite IH; [by rewrite <-app_assoc|].
    rewrite <-app_assoc, fmap_app, fmap_app. done.
  - apply NoDup_app in Hd as (_ & Hk & _). intros Hin. eapply Hk; [done|left].
Qed.
End dict.

(** [d.pop(k, None)] *)
Fixpoint dict_pop {V} (k : string) (d : list (string * V)) : list (string * V) :=
  match d with
  | [] => []
  | (k', v) :: d => if decide (k = k') then d else (k', v) :: dict_pop k d
  end.

Section dict_pop.
Context {V : Type}.
Implicit Types d : list (string * V).

Lemma dict_get_elem k v d : dict_get k d = Some v → (k, v) ∈ d.
Proof.
  induction d as [|[k' w] d IH]; simpl; [done|].
  case_decide; [intros [= ->]; subst; left|]. intros ?%IH. by right.
Qed.

Lemma dict_get_None k d : dict_get k d = None ↔ k ∉ d.*1.
Proof.
  induction d as [|[k' w] d IH]; simpl; [set_solver|].
  rewrite not_elem_of_cons, <-IH. case_decide; naive_solver.
Qed.

Lemma dict_get_Some k v d : NoDup d.*1 → (k, v) ∈ d → dict_get k d = Some v.
Proof.
  induction d as [|[k' w] d IH]; [set_solver|]. rewrite fmap_cons, NoDup_cons. cbn.
  intros [Hk Hd] [[= -> ->]|Hin]%elem_of_cons; [by rewrite decide_True|].
  rewrite decide_False; [auto|]. intros ->. apply Hk. by apply (list_elem_of_fmap_2 fst) in Hin.
Qed.

Lemma dict_pop_sublist k d : sublist (dict_pop k d) d.
Proof.
  induction d as [|[k' w] d IH]; simpl; [done|]. case_decide; [by constructor|by constructor].
Qed.

Lemma dict_pop_filter k d : NoDup d.*1 → dict_pop k d = filter (λ kv, kv.1 ≠ k) d.
Proof.
  induction d as [|[k' w] d IH]; simpl; [done|]. rewrite NoDup_cons, filter_cons. cbn.
  intros [Hk Hd]. destruct (decide (k = k')) as [->|].
  - rewrite decide_False by naive_solver. symmetry. clear IH Hd.
    induction d as [|[k2 w2] d IH]; simpl in *; [done|].
    rewrite filter_cons_True by (cbn; set_solver). f_equal. apply IH. set_solver.
  - rewrite decide_True by congruence. by rewrite IH.
Qed.

Lemma dict_pop_perm k v d : dict_get k d = Some v → (k, v) :: dict_pop k d ≡ₚ d.
Proof.
  induction d as [|[k' w] d IH]; simpl; [done|]. case_decide; [by intros [= ->]; subst|].
  intros Hd%IH. by rewrite Permutation_swap, Hd.
Qed.

Lemma dict_get_pop_ne k k' d : k ≠ k' → dict_get k (dict_pop k' d) = dict_get k d.
Proof.
  intros Hk. induction d as [|[k2 w] d IH]; simpl; [done|].
  destruct (decide (k' = k2)) as [<-|]; simpl; [by rewrite decide_False|]. by rewrite IH.
Qed.

Lemma dict_get_pop k d : NoDup d.*1 → dict_get k (dict_pop k d) = None.
Proof.
  intros Hd. rewrite dict_get_None, dict_pop_filter by done.
  intros ([k' v] & -> & [Hk _]%list_elem_of_filter)%list_elem_of_fmap. done.
Qed.

Lemma dict_get_set k k' v d : dict_get k (dict_set k' v d) = if decide (k = k') then Some v else dict_get k d.
Proof.
  induction d as [|[k2 w] d IH]; simpl; [done|].
  destruct (decide (k' = k2)) as [<-|]; simpl; [by case_decide|].
  rewrite IH. repeat case_decide; congruence.
Qed.

Lemma dict_set_keys k v d :
  (dict_set k v d).*1 = if decide (k ∈ d.*1) then d.*1 else d.*1 ++ [k].
Proof.
  induction d as [|[k' w] d IH]; [done|]. cbn [dict_set].
  destruct (decide (k = k')) as [<-|]; rewrite !fmap_cons; cbn [fst].
  - by rewrite decide_True by set_solver.
  - rewrite IH. destruct (decide (k ∈ d.*1)); [rewrite decide_True|rewrite decide_False]; set_solver.
Qed.

Lemma dict_set_NoDup k v d : NoDup d.*1 → NoDup (dict_set k v d).*1.
Proof.
  intros Hd. rewrite dict_set_keys. case_decide; [done|].
  apply NoDup_app. split_and!; [done|set_solver|apply NoDup_singleton].
Qed.

Lemma dict_pop_NoDup k d : NoDup d.*1 → NoDup (dict_pop k d).*1.
Proof. intros Hd. eapply sublist_NoDup; [done|]. apply fmap_sublist, dict_pop_sublist. Qed.
End dict_pop.

(** ** Printing *)

Definition dq : ascii := char 34.
Definition backslash : ascii := char 92.

(** [ensure_ascii]: the short escapes, then four hexadecimal digits for every
    code point outside the printable range. *)
Definition hex_char (n : Z) : ascii := if n <? 10 then char (48 + n) else char (87 + n).

Definition esc_char (c : ascii) : string :=
  let n := code c in
  if (n =? 34) || (n =? 92) then String backslash (String c "")
  else if n =? 8 then String backslash "b"
  else if n =? 9 then String backslash "t"
  else if n =? 10 then String backslash "n"
  else if n =? 12 then String backslash "f"
  else if n =? 13 then String backslash "r"
  else if (32 <=? n) && (n <=? 126) then String c ""
  else String backslash
    ("u00" +:+ String (hex_char (n / 16)) (String (hex_char (n mod 16)) "")).

Fixpoint esc (s : string) : string :=
  match s with
  | EmptyString => ""
  | String c s => esc_char c +:+ esc s
  end.

Definition quote (s : string) : string := String dq (esc s +:+ String dq "").

(** [sort_keys=True]: by code points, insertion sort on the keys. *)
Fixpoint insert_key {V} (k : string) (v : V) (l : list (string * V)) : list (string * V) :=
  match l with
  | [] => [(k, v)]
  | (k', w) :: l' => if String.leb k k' then (k, v) :: l else (k', w) :: insert_key k v l'
  end.

Definition sort_keys {V} (l : list (string * V)) : list (string * V) :=
  foldr (λ kv acc, insert_key kv.1 kv.2 acc) [] l.

Definition str_bool (b : bool) : string := if b then "true" else "false".

Section dumps.
(** [compact]: separators [","] and [":"] instead of [", "] and [": "]. *)
Context (compact sorted : bool).

Definition item_sep : string := if compact then "," else ", ".
Definition key_sep : string := if compact then ":" else ": ".

Definition dump_member (kv : string * string) : string :=
  quote kv.1 +:+ key_sep +:+ kv.2.

Fixpoint dumps (j : json) : string :=
  match j with
  | JNull => "null"
  | JBool b => str_bool b
  | JNum n => str_num n
  | JStr s => quote s
  | JArr l => "[" +:+ join item_sep (map dumps l) +:+ "]"
  | JObj kvs =>
      let items := map (λ '(k, v), (k, dumps v)) kvs in
      let items := if sorted then sort_keys items else items in
      "{" +:+ join item_sep (map dump_member items) +:+ "}"
  end.
End dumps.

(** ** Reading *)

Fixpoint skip_ws (s : string) : string :=
  match s with
  | String c r =>
      if (code c =? 32) || (code c =? 9) || (code c =? 10) || (code c =? 13)
      then skip_ws r else s
  | EmptyString => ""
  end.

Definition simple_escape (c : ascii) : option ascii :=
  let n := code c in
  if (n =? 34) || (n =? 92) || (n =? 47) then Some c
  else if n =? 98 then Some (char 8)
  else if n =? 116 then Some (char 9)
  else if n =? 110 then Some (char 10)
  else if n =? 102 then Some (char 12)
  else if n =? 114 then Some (char 13)
  else None.

Definition hex4 (a b c d : ascii) : option Z :=
  x ← digit_value a; y ← digit_value b; z ← digit_value c; w ← digit_value d;
  Some (((x * 16 + y) * 16 + z) * 16 + w).

(** The text after an opening quote: the string and what follows it. *)
Fixpoint scan_string (s : string) : res (string * string) :=
  match s with
  | EmptyString => Err (ValueError "Unterminated string")
  | String c rest =>
      if code c =? 34 then Ok ("", rest)
      else if code c =? 92 then
        match rest with
        | EmptyString => Err (ValueError "Unterminated string")
        | String e r =>
            if code e =? 117 then
              match r with
              | String h1 (String h2 (String h3 (String h4 r'))) =>
                  match hex4 h1 h2 h3 h4 with
                  | Some n =>
                      if n <? 256 then
                        '(t, r'') ← scan_string r'; Ok (String (char n) t, r'')
                      else Err (Untyped "code point")
                  | None => Err (ValueError "Invalid escape")
                  end
              | _ => Err (ValueError "Invalid escape")
              end
            else
              match simple_escape e with
              | Some x => '(t, r'') ← scan_string r; Ok (String x t, r'')
              | None => Err (ValueError "Invalid escape")
              end
        end
      else if code c <? 32 then Err (ValueError "Invalid control character")
      else '(t, r) ← scan_string rest; Ok (String c t, r)
  end.

Fixpoint span_digits (s : string) : string * string :=
  match s with
  | String c r =>
      if is_digit c then let '(d, r') := span_digits r in (String c d, r') else ("", s)
  | EmptyString => ("", "")
  end.

Definition digits_val (d : string) : N :=
  match NilEmpty.uint_of_string d with Some u => N.of_uint u | None => 0%N end.

(** The numbers read are integers and the floats of the model: [accepts]
    says which of those outside the clock's range are taken, and the others
    stop the reader. *)
Section reader.
Context (accepts : Z → bool).

(** The digits of a number after its sign. *)
Definition parse_unsigned (sign : Z) (s : string) : res (json * string) :=
  let '(ds, r) := span_digits s in
  match ds with
  | EmptyString => Err (ValueError "Expecting value")
  | String c0 ds' =>
      if (code c0 =? 48) && negb (String.eqb ds' "") then Err (ValueError "Extra data")
      else
        let v := Z.of_N (digits_val ds) in
        match r with
        | String c r' =>
            if code c =? 46 then
              let '(frac, r'') := span_digits r' in
              let d := String.length frac in
              if String.eqb frac "" then Err (ValueError "Extra data")
              else if starts_with r'' "e" || starts_with r'' "E" then Err (Untyped "float")
              else
                match read_decimal accepts (v * 10 ^ Z.of_nat d + frac_val frac) d with
                | Some a =>
                    if (sign =? -1) && (a =? 0) then Err (Untyped "float")
                    else Ok (JNum (PFlt (sign * a)), r'')
                | None => Err (Untyped "float")
                end
            else if (code c =? 101) || (code c =? 69) then Err (Untyped "float")
            else Ok (JNum (PInt (sign * v)), r)
        | EmptyString => Ok (JNum (PInt (sign * v)), r)
        end
  end.

Definition parse_number (s : string) : res (json * string) :=
  match s with
  | String c r => if code c =? 45 then parse_unsigned (-1) r else parse_unsigned 1 s
  | EmptyString => parse_unsigned 1 s
  end.

Definition expecting_value {A} : res A := Err (ValueError "Expecting value").

(** [fuel] bounds the nesting depth plus the length of the longest array. *)
Fixpoint parse_value (fuel : nat) (s : string) : res (json * string) :=
  match fuel with
  | O => expecting_value
  | S fuel =>
      match s with
      | EmptyString => expecting_value
      | String c rest =>
          if code c =? 34 then '(t, r) ← scan_string rest; Ok (JStr t, r)
          else if code c =? 123 then
            match skip_ws rest with
            | String c' r as rest' =>
                if code c' =? 125 then Ok (JObj [], r)
                else '(kvs, r') ← parse_members fuel rest'; Ok (JObj (dict_of_pairs kvs), r')
            | EmptyString => expecting_value
            end
          else if code c =? 91 then
            match skip_ws rest with
            | String c' r as rest' =>
                if code c' =? 93 then Ok (JArr [], r)
                else '(l, r') ← parse_elems fuel rest'; Ok (JArr l, r')
            | EmptyString => expecting_value
            end
          else
            match strip_prefix "null" s, strip_prefix "true" s, strip_prefix "false" s with
            | Some r, _, _ => Ok (JNull, r)
            | _, Some r, _ => Ok (JBool true, r)
            | _, _, Some r => Ok (JBool false, r)
            | None, None, None => parse_number s
            end
      end
  end
with parse_members (fuel : nat) (s : string) : res (list (string * json) * string) :=
  match fuel with
  | O => expecting_value
  | S fuel =>
      match s with
      | EmptyString => expecting_value
      | String c rest =>
          if code c =? 34 then
            '(k, r) ← scan_string rest;
            match skip_ws r with
            | EmptyString => expecting_value
            | String c1 r1 =>
                if code c1 =? 58 then
                  '(v, r2) ← parse_value fuel (skip_ws r1);
                  match skip_ws r2 with
                  | EmptyString => expecting_value
                  | String c3 r3 =>
                      if code c3 =? 125 then Ok ([(k, v)], r3)
                      else if code c3 =? 44 then
                        '(kvs, r4) ← parse_members fuel (skip_ws r3);
                        Ok ((k, v) :: kvs, r4)
                      else expecting_value
                  end
                else expecting_value
            end
          else expecting_value
      end
  end
with parse_elems (fuel : nat) (s : string) : res (list json * string) :=
  match fuel with
  | O => expecting_value
  | S fuel =>
      '(v, r2) ← parse_value fuel s;
      match skip_ws r2 with
      | EmptyString => expecting_value
      | String c3 r3 =>
          if code c3 =? 93 then Ok ([v], r3)
          else if code c3 =? 44 then
            '(l, r4) ← parse_elems fuel (skip_ws r3); Ok (v :: l, r4)
          else expecting_value
      end
  end.

Definition loads_with (s : string) : res json :=
  '(j, r) ← parse_value (String.length s) (skip_ws s);
  match skip_ws r with
  | EmptyString => Ok j
  | _ => Err (ValueError "Extra data")
  end.
End reader.

(** [json.loads] *)
Definition loads : string → res json := loads_with plain.

Example loads_fraction : loads "[1735689601.25, -0.5]" = Ok (JArr [JNum (PFlt 7280009837281280); JNum (PFlt (-2097152))]).
Proof. vm_compute. reflexivity. Qed.

(** ** Induction over JSON values *)

Section json_ind.
Context (P : json → Prop).
Hypotheses (HNull : P JNull) (HBool : ∀ b, P (JBool b)) (HNum : ∀ n, P (JNum n))
  (HStr : ∀ s, P (JStr s)) (HArr : ∀ l, Forall P l → P (JArr l))
  (HObj : ∀ kvs, Forall (λ kv, P kv.2) kvs → P (JObj kvs)).

Fixpoint json_nested_ind (j : json) : P j :=
  match j with
  | JNull => HNull
  | JBool b => HBool b
  | JNum n => HNum n
  | JStr s => HStr s
  | JArr l =>
      HArr l ((fix go l : Forall P l :=
        match l with
        | [] => Forall_nil_2 _
        | x :: l => Forall_cons_2 _ x l (json_nested_ind x) (go l)
        end) l)
  | JObj kvs =>
      HObj kvs ((fix go l : Forall (λ kv, P kv.2) l :=
        match l with
        | [] => Forall_nil_2 _
        | kv :: l => Forall_cons_2 _ kv l (json_nested_ind kv.2) (go l)
        end) kvs)
  end.
End json_ind.

(** The number reads back, by a reader that accepts these floats. *)
Definition num_reads (accepts : Z → bool) (n : pynum) : bool :=
  match n with PInt _ => true | PFlt t => accepts (Z.abs t) || fine (Z.abs t) end.

(** Every object has distinct keys, as a Python dictionary does, and every
    number reads back. *)
Fixpoint json_reads (accepts : Z → bool) (j : json) : bool :=
  match j with
  | JNum n => num_reads accepts n
  | JArr l => forallb (json_reads accepts) l
  | JObj kvs => bool_decide (NoDup kvs.*1) && forallb (λ kv, json_reads accepts kv.2) kvs
  | _ => true
  end.

(** Every object has distinct keys. *)
Definition any_float (_ : Z) : bool := true.
Abbreviation json_ok := (json_reads any_float).

(** The fuel the reader needs on the printed value. *)
Fixpoint json_size (j : json) : nat :=
  match j with
  | JArr l => S (foldr (λ x n, S (json_size x `max` n)) 0%nat l)
  | JObj kvs => S (foldr (λ kv n, S (json_size kv.2 `max` n)) 0%nat kvs)
  | _ => 1%nat
  end.

(** ** Reading back strings and numbers *)

Lemma scan_string_char c x :
  scan_string (esc_char c +:+ x) = ('(t, r) ← scan_string x; Ok (String c t, r)).
Proof. destruct c as [[] [] [] [] [] [] [] []]; reflexivity. Qed.

Lemma scan_string_esc s r : scan_string (esc s +:+ String dq r) = Ok (s, r).
Proof.
  induction s as [|c s IH]; [reflexivity|]. cbn [esc].
  by rewrite append_assoc, scan_string_char, IH.
Qed.

(** What may follow a value inside a larger text. *)
Definition delim (r : string) : Prop :=
  match r with
  | EmptyString => True
  | String c _ => c = ","%char ∨ c = "]"%char ∨ c = "}"%char
  end.

Lemma span_digits_app d r :
  Forall (λ c, is_digit c = true) (chars d) →
  (match r with String c _ => is_digit c = false | EmptyString => True end) →
  span_digits (d +:+ r) = (d, r).
Proof.
  intros Hd Hr. induction d as [|c d IH]; simpl in *.
  { destruct r as [|c r]; simpl; [done|]. by rewrite Hr. }
  apply Forall_cons in Hd as [-> Hd]. by rewrite IH.
Qed.

Lemma digits_val_str_N n : digits_val (str_N n) = n.
Proof. unfold digits_val. by rewrite str_N_parse, DecimalN.Unsigned.of_to. Qed.

Lemma delim_not_digit r : delim r →
  match r with String c _ => is_digit c = false | EmptyString => True end.
Proof. destruct r as [|c r]; [done|]. by intros [->|[->| ->]]. Qed.

Lemma str_N_no_zero n c s : str_N n = String c s →
  (code c =? 48) && negb (String.eqb s "") = false.
Proof.
  intros E. destruct (str_N_cons n) as (c' & s' & E' & _ & Hz). rewrite E in E'. simplify_eq.
  apply andb_false_iff. destruct (Z.eqb_spec (code c') 48); [right|by left].
  rewrite Hz; [done|]. rewrite <-(ascii_N_embedding c'). unfold char. f_equal.
  unfold code in *. lia.
Qed.

Lemma span_digits_str_N n r :
  (match r with String c _ => is_digit c = false | EmptyString => True end) →
  span_digits (str_N n +:+ r) = (str_N n, r).
Proof. intros. apply span_digits_app; [apply str_N_digits|done]. Qed.

Section read_number.
Context (accepts : Z → bool).

Lemma parse_unsigned_int sign n r :
  delim r → parse_unsigned accepts sign (str_N n +:+ r) = Ok (JNum (PInt (sign * Z.of_N n)), r).
Proof.
  intros Hr. unfold parse_unsigned. rewrite span_digits_str_N by by apply delim_not_digit.
  rewrite digits_val_str_N. destruct (str_N n) as [|c s] eqn:E.
  { by destruct (str_N_cons n) as (? & ? & E' & _); rewrite E in E'. }
  rewrite (str_N_no_zero n c s E). destruct r as [|c' r]; [done|]. by destruct Hr as [->|[->| ->]].
Qed.

Lemma parse_unsigned_decimal sign c d a r :
  delim r → 0 ≤ c → d ≠ 0%nat → read_decimal accepts c d = Some a → (sign = 1 ∨ sign = -1 ∧ a ≠ 0) →
  parse_unsigned accepts sign (decimal_text d c +:+ r) = Ok (JNum (PFlt (sign * a)), r).
Proof.
  intros Hr Hc Hd Hread Hsign. unfold parse_unsigned, decimal_text. rewrite append_assoc.
  rewrite span_digits_str_N by done. rewrite digits_val_str_N.
  destruct (str_N (Z.to_N (c / 10 ^ Z.of_nat d))) as [|c0 s0] eqn:E.
  { by destruct (str_N_cons (Z.to_N (c / 10 ^ Z.of_nat d))) as (? & ? & E' & _); rewrite E in E'. }
  rewrite (str_N_no_zero _ _ _ E). cbn [String.append]. change (code (char 46) =? 46) with true. cbv iota.
  pose proof (pow10_pos d) as Hp. pose proof (Z.mod_pos_bound c _ Hp).
  rewrite span_digits_app; [|apply frac_text_digits|by apply delim_not_digit]. cbv zeta.
  rewrite frac_text_length, frac_text_val by done.
  assert (String.eqb (frac_text d (c mod 10 ^ Z.of_nat d)) "" = false) as ->.
  { apply String.eqb_neq. intros E'. apply (f_equal String.length) in E'.
    rewrite frac_text_length in E'. by apply Hd. }
  assert (starts_with r "e" || starts_with r "E" = false) as ->.
  { destruct r as [|c' r]; [done|]. by destruct Hr as [->|[->| ->]]. }
  rewrite Z2N.id by (apply Z.div_pos; lia). rewrite Z.mul_comm, <-Z.div_mod, Hread by lia.
  destruct Hsign as [->|[-> Ha]]; [done|]. by rewrite (proj2 (Z.eqb_neq a 0)).
Qed.

Lemma parse_number_pos s r c x :
  s = String c x → is_digit c = true → parse_number accepts (s +:+ r) = parse_unsigned accepts 1 (s +:+ r).
Proof.
  intros -> Hc. cbn. assert ((code c =? 45) = false) as -> by (unfold is_digit in Hc; lia). done.
Qed.

Lemma parse_number_str n r :
  delim r → num_reads accepts n = true → parse_number accepts (str_num n +:+ r) = Ok (JNum n, r).
Proof.
  intros Hr Hn. destruct n as [z|t]; cbn [str_num].
  - assert (Hpos : ∀ n, parse_number accepts (str_N n +:+ r) = Ok (JNum (PInt (Z.of_N n)), r)).
    { intros n. destruct (str_N_cons n) as (c & s & E & Hc & _).
      by rewrite (parse_number_pos _ _ _ _ E Hc), parse_unsigned_int, Z.mul_1_l. }
    destruct z as [|p|p]; [apply (Hpos 0%N)|apply (Hpos (Npos p))|].
    by apply (parse_unsigned_int (-1) (Npos p)).
  - assert (Hread : 0 ≤ Z.abs t ∧ (fine (Z.abs t) = true ∨ accepts (Z.abs t) = true)).
    { cbn in Hn. apply orb_true_iff in Hn. split; [lia|tauto]. }
    pose proof (read_decimal_repr accepts _ (proj1 Hread) (proj2 Hread)) as Hdec.
    destruct (decimals_fit_decimals (Z.abs t)) as [_ Hd]. unfold str_flt.
    set (d := decimals (Z.abs t)) in *. set (c := round_div (Z.abs t * 10 ^ Z.of_nat d) ticks) in *.
    assert (Hc : 0 ≤ c).
    { apply round_div_nonneg; [done|]. pose proof (pow10_pos d). nia. }
    destruct (Z.ltb_spec t 0).
    + cbn. rewrite (parse_unsigned_decimal (-1) c d (Z.abs t)) by (try done; lia).
      do 4 f_equal. lia.
    + destruct (str_N_cons (Z.to_N (c / 10 ^ Z.of_nat d))) as (c0 & s & E & Hc0 & _).
      assert (E' : ∃ x, decimal_text d c = String c0 x) by (unfold decimal_text; rewrite E; by eexists).
      destruct E' as [x E']. rewrite (parse_number_pos _ _ _ _ E' Hc0).
      rewrite (parse_unsigned_decimal 1 c d (Z.abs t)) by (try done; lia). do 4 f_equal. lia.
Qed.
End read_number.

(** ** Reading back printed values *)

Definition value_start (c : ascii) : bool :=
  let n := code c in
  negb ((n =? 32) || (n =? 9) || (n =? 10) || (n =? 13)) && negb (n =? 93)
    && negb (n =? 125).

Lemma str_num_head n : ∃ c s, str_num n = String c s ∧ (is_digit c = true ∨ c = "-"%char).
Proof.
  destruct n as [z|t]; cbn [str_num]; [apply str_Z_head|]. unfold str_flt, decimal_text.
  destruct (str_N_cons (Z.to_N (round_div (Z.abs t * 10 ^ Z.of_nat (decimals (Z.abs t))) ticks
    / 10 ^ Z.of_nat (decimals (Z.abs t))))) as (c & s & -> & Hc & _).
  destruct (t <? 0); cbn [String.append]; eauto.
Qed.

Lemma digit_range c : is_digit c = true → 48 ≤ code c ≤ 57.
Proof. unfold is_digit. lia. Qed.

Section roundtrip.
Context (compact : bool) (accepts : Z → bool).
Local Abbreviation print := (dumps compact false).

Lemma dumps_head sorted j :
  ∃ c s, dumps compact sorted j = String c s ∧ value_start c = true.
Proof.
  destruct j as [|[]|n|s|l|kvs]; simpl; try by do 2 eexists.
  destruct (str_num_head n) as (c & s & -> & [Hc| ->]); do 2 eexists; split; try done.
  apply digit_range in Hc. unfold value_start.
  repeat (rewrite (proj2 (Z.eqb_neq _ _)) by lia). done.
Qed.

Lemma skip_ws_start c s : value_start c = true → skip_ws (String c s) = String c s.
Proof. unfold value_start. simpl. by intros [[->%negb_true_iff _]%andb_true_iff _]%andb_true_iff. Qed.

Lemma skip_ws_dumps sorted j r :
  skip_ws (dumps compact sorted j +:+ r) = dumps compact sorted j +:+ r.
Proof. destruct (dumps_head sorted j) as (c & s & -> & Hc). by apply skip_ws_start. Qed.

Lemma skip_ws_sep x : skip_ws ((if compact then "" else " ") +:+ x) = skip_ws x.
Proof. by destruct compact. Qed.

Lemma item_sep_cons : item_sep compact = String "," (if compact then "" else " ").
Proof. by destruct compact. Qed.
Lemma key_sep_cons : key_sep compact = String ":" (if compact then "" else " ").
Proof. by destruct compact. Qed.

Lemma join_cons sep x y l : join sep (x :: y :: l) = x +:+ (sep +:+ join sep (y :: l)).
Proof. done. Qed.

(** Reading back one value in any context. *)
Definition reads_back (j : json) : Prop :=
  json_reads accepts j = true → ∀ fuel r, (json_size j ≤ fuel)%nat → delim r →
  parse_value accepts fuel (print j +:+ r) = Ok (j, r).

Definition elems_size (l : list json) : nat :=
  foldr (λ x n, S (json_size x `max` n)) 0%nat l.
Definition members_size (kvs : list (string * json)) : nat :=
  foldr (λ kv n, S (json_size kv.2 `max` n)) 0%nat kvs.

Lemma parse_elems_join x l fuel r :
  Forall reads_back (x :: l) → forallb (json_reads accepts) (x :: l) = true →
  (elems_size (x :: l) ≤ fuel)%nat →
  parse_elems accepts fuel (join (item_sep compact) (map print (x :: l)) +:+ String "]" r)
  = Ok (x :: l, r).
Proof.
  revert x fuel; induction l as [|y l IH]; intros x [|fuel] Hl Hok Hsz; try (simpl in Hsz; lia);
    apply Forall_cons in Hl as [Hx Hl]; simpl in Hok; apply andb_true_iff in Hok as [Hokx Hok].
  - simpl in Hsz. change (parse_elems accepts (S fuel) ?s) with
      ('(v, r2) ← parse_value accepts fuel s;
       match skip_ws r2 with
       | EmptyString => expecting_value
       | String c3 r3 =>
           if code c3 =? 93 then Ok ([v], r3)
           else if code c3 =? 44 then
             '(l, r4) ← parse_elems accepts fuel (skip_ws r3); Ok (v :: l, r4)
           else expecting_value
       end).
    cbn [map join]. rewrite Hx; [done|done|lia|]. right; left; done.
  - cbn [map]. rewrite join_cons, item_sep_cons, append_assoc. cbn [String.append].
    rewrite append_assoc. cbn [parse_elems].
    rewrite Hx by (try done; simpl in Hsz |- *; try lia; by left).
    cbn -[parse_elems join skip_ws].
    change (skip_ws (String "," ?s)) with (String "," s). cbv iota beta.
    change (code ","%char =? 93) with false. change (code ","%char =? 44) with true.
    cbv iota beta. rewrite skip_ws_sep.
    destruct (dumps_head false y) as (c & s & Hd & Hc).
    assert (skip_ws (join (String "," (if compact then "" else " "))
               (print y :: map print l) +:+ String "]" r)
            = join (item_sep compact) (map print (y :: l)) +:+ String "]" r) as ->.
    { rewrite item_sep_cons. cbn [map]. rewrite Hd. destruct l; simpl; 
      rewrite ?append_assoc; by apply skip_ws_start. }
    rewrite (IH y fuel Hl Hok); [done|]. simpl in Hsz |- *. lia.
Qed.

Lemma parse_member_head fuel k v r :
  reads_back v → json_reads accepts v = true → (json_size v ≤ fuel)%nat → delim r →
  parse_members accepts (S fuel) (dump_member compact (k, print v) +:+ r) =
  (match skip_ws r with
   | EmptyString => expecting_value
   | String c3 r3 =>
       if code c3 =? 125 then Ok ([(k, v)], r3)
       else if code c3 =? 44 then
         '(kvs, r4) ← parse_members accepts fuel (skip_ws r3); Ok ((k, v) :: kvs, r4)
       else expecting_value
   end).
Proof.
  intros Hv Hok Hsz Hr. unfold dump_member, quote. cbn [fst snd].
  cbn [String.append]. rewrite !append_assoc. cbn [parse_members].
  change (code dq =? 34) with true. cbv iota beta. cbn [String.append].
  rewrite scan_string_esc. cbn [mbind res_bind]. rewrite key_sep_cons.
  cbn [String.append]. change (skip_ws (String ":" ?s)) with (String ":" s).
  cbv iota beta. change (code ":"%char =? 58) with true. cbv iota beta.
  rewrite skip_ws_sep, skip_ws_dumps, Hv by done. done.
Qed.

Local Abbreviation members kvs :=
  (map (dump_member compact) (map (λ '(k, v), (k, print v)) kvs)).

Lemma skip_ws_members kv kvs r :
  skip_ws (join (item_sep compact) (members (kv :: kvs)) +:+ r)
  = join (item_sep compact) (members (kv :: kvs)) +:+ r.
Proof. destruct kv as [k v], kvs as [|[k' v'] kvs]; reflexivity. Qed.

Lemma parse_members_join kv kvs fuel r :
  Forall (λ kv, reads_back kv.2) (kv :: kvs) →
  forallb (λ kv, json_reads accepts kv.2) (kv :: kvs) = true →
  (members_size (kv :: kvs) ≤ fuel)%nat →
  parse_members accepts fuel (join (item_sep compact) (members (kv :: kvs)) +:+ String "}" r)
  = Ok (kv :: kvs, r).
Proof.
  revert kv fuel; induction kvs as [|kv' kvs IH]; intros [k v] [|fuel] Hl Hok Hsz;
    try (simpl in Hsz; lia); apply Forall_cons in Hl as [Hx Hl];
    cbn [forallb] in Hok; apply andb_true_iff in Hok as [Hokx Hok].
  - cbn [map join]. cbn in Hsz, Hx, Hokx.
    rewrite parse_member_head; [done|done|done|lia|]. right; right; done.
  - cbn [map]. rewrite join_cons, append_assoc, item_sep_cons, append_assoc.
    cbn [String.append]. rewrite <-item_sep_cons.
    cbn in Hx, Hokx. cbn [members_size foldr snd] in Hsz.
    rewrite parse_member_head; [|done|done|lia|by left].
    change (skip_ws (String "," ?s)) with (String "," s). cbv iota beta.
    change (code ","%char =? 125) with false. change (code ","%char =? 44) with true.
    cbv iota beta. rewrite skip_ws_sep.
    change (dump_member compact (let '(k0, v0) := kv' in (k0, print v0)) ::
            map (dump_member compact) (map (λ '(k0, v0), (k0, print v0)) kvs))
      with (members (kv' :: kvs)).
    rewrite skip_ws_members, (IH kv' fuel Hl Hok); [done|].
    unfold members_size in *. cbn [foldr] in *. lia.
Qed.

Lemma parse_value_dumps j : reads_back j.
Proof.
  induction j as [|[]|n|s|l IH|kvs IH] using json_nested_ind; intros Hok [|fuel] r Hsz Hr;
    try (simpl in Hsz; lia); try reflexivity.
  - cbn [dumps]. rewrite <-(parse_number_str accepts n r Hr Hok).
    destruct (str_num_head n) as (c & s & E & Hc). rewrite E. cbn [String.append].
    assert (Hc' : code c ≠ 34 ∧ code c ≠ 123 ∧ code c ≠ 91 ∧ c ≠ "n"%char ∧
                  c ≠ "t"%char ∧ c ≠ "f"%char).
    { destruct Hc as [Hc| ->]; [|done]. pose proof (digit_range c Hc).
      repeat split; try lia; by intros ->. }
    destruct Hc' as (?&?&?&?&?&?). cbn [parse_value].
    rewrite !(proj2 (Z.eqb_neq _ _)) by done.
    cbn [strip_prefix]. by rewrite !decide_False by congruence.
  - cbn [dumps quote String.append]. cbn [parse_value].
    change (code dq =? 34) with true. cbv iota.
    rewrite append_assoc. cbn [String.append]. by rewrite scan_string_esc.
  - cbn [dumps]. cbn [String.append]. rewrite append_assoc. cbn [parse_value].
    change (code "["%char =? 34) with false. change (code "["%char =? 123) with false.
    change (code "["%char =? 91) with true. cbv iota.
    destruct l as [|x l]; [reflexivity|].
    destruct (dumps_head false x) as (c & s & Hd & Hc).
    assert (Hj : ∃ s', join (item_sep compact) (map print (x :: l)) = String c s').
    { cbn [map]. rewrite Hd. destruct l; simpl; eauto. }
    destruct Hj as [s' Hj]. cbn [String.append].
    pose proof (parse_elems_join x l fuel r IH Hok) as Hp. rewrite Hj in Hp |- *.
    cbn [String.append] in *. rewrite skip_ws_start by done.
    unfold value_start in Hc. destruct (code c =? 93); [by rewrite andb_false_r in Hc|].
    rewrite Hp; [done|]. cbn in Hsz |- *. unfold elems_size in *. cbn. lia.
  - cbn [json_reads] in Hok. apply andb_true_iff in Hok as [Hnd%bool_decide_eq_true Hok].
    cbn [dumps]. cbn [String.append]. rewrite append_assoc. cbn [parse_value].
    change (code "{"%char =? 34) with false. change (code "{"%char =? 123) with true.
    cbv iota. destruct kvs as [|[k v] kvs]; [reflexivity|].
    cbn [String.append]. rewrite skip_ws_members.
    assert (Hj : ∃ s', join (item_sep compact) (members ((k, v) :: kvs)) = String dq s').
    { destruct kvs; cbn; eauto. }
    pose proof (parse_members_join (k, v) kvs fuel r IH Hok) as Hp.
    destruct Hj as [s' Hj]. rewrite Hj in Hp |- *. cbn [String.append] in *.
    change (code dq =? 125) with false. cbv iota.
    rewrite Hp; [|cbn in Hsz |- *; unfold members_size in *; cbn; lia].
    cbn [mbind res_bind].
    by rewrite dict_of_pairs_NoDup.
Qed.
End roundtrip.

(** ** [json.loads(json.dumps(v)) == v] *)

Lemma join_length_cons sep x l :
  (String.length x + (if l is [] then 0 else String.length sep)
     + String.length (join sep l))%nat = String.length (join sep (x :: l)).
Proof. destruct l; simpl; rewrite ?length_append; lia. Qed.

Lemma json_size_le compact sorted j :
  sorted = false → (json_size j ≤ String.length (dumps compact sorted j))%nat.
Proof.
  intros ->.
  induction j as [|[]|n|s|l IH|kvs IH] using json_nested_ind; simpl; try lia.
  - destruct (str_num_head n) as (c & s & -> & _). simpl. lia.
  - rewrite length_append. apply le_n_S. change (String.length "]") with 1%nat.
    induction IH as [|x l Hx _ IH]; simpl map; [simpl; lia|].
    rewrite <-join_length_cons. destruct l; simpl in *; destruct compact; simpl in *; lia.
  - rewrite length_append. apply le_n_S. change (String.length "}") with 1%nat.
    induction IH as [|[k v] l Hx _ IH]; simpl map; [simpl; lia|].
    rewrite <-join_length_cons.
    assert (json_size v < String.length (dump_member compact (k, dumps compact false v)))%nat.
    { unfold dump_member, quote. simpl in *. rewrite !length_append. lia. }
    destruct l; simpl in *; destruct compact; simpl in *; lia.
Qed.

Lemma loads_dumps_plain accepts compact j :
  json_reads accepts j = true → loads_with accepts (dumps compact false j) = Ok j.
Proof.
  intros Hj. unfold loads_with. rewrite <-(append_nil_r (dumps compact false j)) at 2.
  rewrite skip_ws_dumps, parse_value_dumps; [done|done| |done].
  by apply json_size_le.
Qed.

(** The value whose members are in the order the canonical text has. *)
Fixpoint canon (j : json) : json :=
  match j with
  | JArr l => JArr (map canon l)
  | JObj kvs => JObj (sort_keys (map (λ '(k, v), (k, canon v)) kvs))
  | _ => j
  end.

Section sort_keys_lemmas.
Context {V W : Type}.

Lemma insert_key_perm k (v : V) l : insert_key k v l ≡ₚ (k, v) :: l.
Proof.
  induction l as [|[k' w] l IH]; simpl; [done|]. case_match; [done|].
  rewrite IH. apply Permutation_swap.
Qed.

Lemma sort_keys_perm (l : list (string * V)) : sort_keys l ≡ₚ l.
Proof. induction l as [|[k v] l IH]; simpl; [done|]. by rewrite insert_key_perm, IH. Qed.

Lemma insert_key_map (f : V → W) k v l :
  insert_key k (f v) (map (λ '(k, v), (k, f v)) l) =
  map (λ '(k, v), (k, f v)) (insert_key k v l).
Proof.
  induction l as [|[k' w] l IH]; simpl; [done|].
  case_match; simpl; [done|]. by rewrite IH.
Qed.

Lemma sort_keys_map (f : V → W) l :
  sort_keys (map (λ '(k, v), (k, f v)) l) = map (λ '(k, v), (k, f v)) (sort_keys l).
Proof. induction l as [|[k v] l IH]; simpl; [done|]. by rewrite IH, insert_key_map. Qed.
End sort_keys_lemmas.

Lemma canon_ok accepts j : json_reads accepts j = true → json_reads accepts (canon j) = true.
Proof.
  induction j as [| | | |l IH|kvs IH] using json_nested_ind; simpl; try done.
  - induction IH; simpl; [done|]. rewrite !andb_true_iff. naive_solver.
  - rewrite !andb_true_iff, !bool_decide_eq_true. intros [Hnd Hok].
    rewrite sort_keys_map. set (g := λ '(k, v), (k, canon v)).
    assert (Hkeys : (map g (sort_keys kvs)).*1 = (sort_keys kvs).*1).
    { unfold g. generalize (sort_keys kvs) as l. induction l as [|[k v] l IHl]; csimpl; congruence. }
    rewrite Hkeys. split; [by rewrite sort_keys_perm|].
    assert (Hall : Forall (λ kv, json_reads accepts (canon kv.2) = true) (sort_keys kvs)).
    { rewrite sort_keys_perm. clear -IH Hok. induction IH as [|[k v] l]; [constructor|].
      simpl in Hok. apply andb_true_iff in Hok as [??]. constructor; auto. }
    clear -Hall. induction Hall as [|[k v] l]; simpl; [done|]. by apply andb_true_iff.
Qed.

Lemma dumps_sorted_canon compact j :
  dumps compact true j = dumps compact false (canon j).
Proof.
  induction j as [| | | |l IH|kvs IH] using json_nested_ind; simpl; try done.
  - do 3 f_equal. rewrite map_map. induction IH; simpl; congruence.
  - do 3 f_equal. rewrite !sort_keys_map. f_equal. rewrite map_map.
    assert (Hall : Forall (λ kv, dumps compact true kv.2 = dumps compact false (canon kv.2))
                     (sort_keys kvs)) by by rewrite sort_keys_perm.
    induction Hall as [|[k v] l Hkv _ IHl]; simpl; [done|]. simpl in Hkv. congruence.
Qed.

Lemma loads_dumps accepts compact sorted j :
  json_reads accepts j = true →
  loads_with accepts (dumps compact sorted j) = Ok (if sorted then canon j else j).
Proof.
  intros Hj. destruct sorted; [rewrite dumps_sorted_canon|];
    auto using loads_dumps_plain, canon_ok.
Qed.

(** Canonical text determines the value, up to the order of members. *)
Lemma canonical_inj compact j1 j2 :
  json_ok j1 = true → json_ok j2 = true →
  dumps compact true j1 = dumps compact true j2 → canon j1 = canon j2.
Proof.
  intros H1 H2 E. apply (f_equal (loads_with any_float)) in E.
  rewrite !loads_dumps in E by done. congruence.
Qed.
