(* ===== verification/Utils.v ===== *)
(** * blockchain/utils.py: hashing, canonical JSON, Merkle root, BoundedSet

    [sha256] and [deterministic_json] are the two functions every commitment
    of the chain goes through.  The Merkle tree is the code's loop, with its
    duplication of the last hash on odd levels; its binding theorem names the
    hash inputs among which a collision would have to occur.  [BoundedSet] is
    the ordered dictionary of the propagation caches. *)
From Stdlib Require Import Ascii.
From Equations Require Import Equations.
From stdpp Require Import options.
From S2P Require Import Prelude Sha256 PyText Json.

#[local] Obligation Tactic := idtac.

(** ** Hashes *)

Definition sha256 (data : string) : string := Sha.hex (Sha.digest (utf8 data)).
#[global] Arguments sha256 : simpl never.

Definition double_sha256 (data : string) : string := sha256 (sha256 data).

Definition deterministic_json (payload : json) : string := dumps true true payload.

Lemma deterministic_json_inj j1 j2 :
  json_ok j1 = true → json_ok j2 = true →
  deterministic_json j1 = deterministic_json j2 → canon j1 = canon j2.
Proof. apply canonical_inj. Qed.

#[global] Opaque deterministic_json.

(** [current_timestamp()] is [int(time.time())]; readings of the clock are in
    ticks. *)
Definition current_timestamp (clock : Z) : pynum := PInt (num_int (PFlt clock)).

Lemma length_sha256 s : String.length (sha256 s) = 64%nat.
Proof. unfold sha256. by rewrite Sha.length_hex, Sha.length_digest. Qed.

Lemma sha256_lower_hex s : Forall (λ c, Sha.is_lower_hex c = true) (chars (sha256 s)).
Proof. apply Sha.hex_lower. Qed.

#[global] Opaque sha256.

(** [x] and [y] are a collision. *)
Definition collide (x y : string) : Prop := x ≠ y ∧ sha256 x = sha256 y.

Lemma sha256_inj_or x y : sha256 x = sha256 y → x = y ∨ collide x y.
Proof. intros E. destruct (decide (x = y)); [by left | by right]. Qed.

(** ** is_valid_hex_hash *)

Definition is_valid_hex_hash (value : string) (len : nat) : bool :=
  if negb (String.length value =? len)%nat then false
  else match int_of_text 16 value with Some _ => true | None => false end.

(** ** Merkle root *)

Fixpoint hash_pairs (hashes : list string) : list string :=
  match hashes with
  | a :: b :: rest => sha256 (a +:+ b) :: hash_pairs rest
  | _ => []
  end.

(** [if len(hashes) % 2 == 1: hashes.append(hashes[-1])] *)
Definition pad_odd (hashes : list string) : list string :=
  if Nat.odd (length hashes) then
    match last hashes with Some h => hashes ++ [h] | None => hashes end
  else hashes.

Definition merkle_level (hashes : list string) : list string := hash_pairs (pad_odd hashes).

Lemma length_pad_odd l : length (pad_odd l) = (2 * Nat.div2 (S (length l)))%nat.
Proof.
  unfold pad_odd. destruct (Nat.odd (length l)) eqn:Ho.
  - assert (is_Some (last l)) as [h ->] by by apply last_is_Some; intros ->.
    rewrite length_app. simpl length.
    apply Nat.odd_spec in Ho as [m Hm]. rewrite Hm.
    replace (S (2 * m + 1)) with (2 * S m)%nat by lia. rewrite Nat.div2_double. lia.
  - assert (He : Nat.even (length l) = true) by (rewrite <-Nat.negb_odd, Ho; done).
    apply Nat.even_spec in He as [m Hm]. rewrite Hm, Nat.div2_succ_double. lia.
Qed.

Lemma length_hash_pairs l : length (hash_pairs l) = Nat.div2 (length l).
Proof.
  induction l as [| |a b l IH] using list_pair_ind; simpl; [done..|]. by rewrite IH.
Qed.

Lemma length_merkle_level l : length (merkle_level l) = Nat.div2 (S (length l)).
Proof. unfold merkle_level. by rewrite length_hash_pairs, length_pad_odd, Nat.div2_double. Qed.

(** [while len(hashes) > 1: ...; return hashes[0]] *)
Equations? merkle_loop (hashes : list string) : string by wf (length hashes) lt :=
  merkle_loop [] := "";
  merkle_loop [h] := h;
  merkle_loop (h1 :: h2 :: rest) := merkle_loop (merkle_level (h1 :: h2 :: rest)).
Proof.
  rewrite length_merkle_level. cbn [length].
  pose proof (Nat.div2_div (S (S (S (length rest))))) as ->.
  apply Nat.Div0.div_lt_upper_bound. lia.
Qed.

Definition merkle_root (transaction_hashes : list string) : string :=
  match transaction_hashes with
  | [] => sha256 ""
  | hashes => merkle_loop hashes
  end.

Example merkle_root_three :
  merkle_root
    ["e59bd734b2735119c8acbc01133782aa7b80632c4ddc1252f999a8a4161caef1";
     "987ed428c7de9eaf6b8188f2490e10699e09c31b83c13de2d366280bf92d0083";
     "405737c5c0e72b738467f74cedf39bac94b02448495c59890a23e896954a57cf"] =
  "0c03bf68a6a44bbb9256c6a2fa9b391b771b7a16050fefaed51fac4a99716248".
Proof. vm_compute. reflexivity. Qed.

(** The strings the loop hashes, level by level. *)
Fixpoint pair_inputs (hashes : list string) : list string :=
  match hashes with
  | a :: b :: rest => (a +:+ b) :: pair_inputs rest
  | _ => []
  end.

Equations? merkle_inputs (hashes : list string) : list string by wf (length hashes) lt :=
  merkle_inputs [] := [];
  merkle_inputs [h] := [];
  merkle_inputs (h1 :: h2 :: rest) :=
    pair_inputs (pad_odd (h1 :: h2 :: rest)) ++ merkle_inputs (merkle_level (h1 :: h2 :: rest)).
Proof.
  rewrite length_merkle_level. cbn [length].
  pose proof (Nat.div2_div (S (S (S (length rest))))) as ->.
  apply Nat.Div0.div_lt_upper_bound. lia.
Qed.

Definition same_width (n : nat) (l : list string) : Prop :=
  Forall (λ h, String.length h = n) l.

Lemma same_width_pad n l : same_width n l → same_width n (pad_odd l).
Proof.
  intros Hl. unfold pad_odd. case_match; [|done]. case_match eqn:Hlast; [|done].
  apply Forall_app; split; [done|]. apply Forall_singleton.
  unfold same_width in Hl. rewrite Forall_forall in Hl. apply Hl.
  apply last_Some in Hlast as [l' ->]. set_solver.
Qed.

Lemma same_width_level l : same_width 64 (merkle_level l).
Proof.
  unfold merkle_level.
  induction (pad_odd l) as [| |a b l' IH] using list_pair_ind; simpl;
    constructor; [apply length_sha256 | apply IH].
Qed.

Lemma pad_odd_inj l1 l2 : length l1 = length l2 → pad_odd l1 = pad_odd l2 → l1 = l2.
Proof.
  intros Hlen. unfold pad_odd. rewrite Hlen. case_match; [|done].
  destruct (last l1), (last l2); intros E; try done.
  - by apply app_inj_1 in E as [-> _].
  - apply (f_equal length) in E. rewrite length_app in E. simpl in E. lia.
  - apply (f_equal length) in E. rewrite length_app in E. simpl in E. lia.
Qed.

(** A collision between two lists of hash inputs. *)
Definition collision_in (xs ys : list string) : Prop :=
  ∃ x y, x ∈ xs ∧ y ∈ ys ∧ collide x y.

Lemma collision_in_app_l xs xs' ys ys' :
  collision_in xs ys → collision_in (xs ++ xs') (ys ++ ys').
Proof. unfold collision_in. set_solver. Qed.
Lemma collision_in_app_r xs xs' ys ys' :
  collision_in xs' ys' → collision_in (xs ++ xs') (ys ++ ys').
Proof. unfold collision_in. set_solver. Qed.

Lemma hash_pairs_binding n l1 l2 :
  same_width n l1 → same_width n l2 → length l1 = length l2 →
  Nat.even (length l1) = true → hash_pairs l1 = hash_pairs l2 →
  l1 = l2 ∨ collision_in (pair_inputs l1) (pair_inputs l2).
Proof.
  revert l2. induction l1 as [|a|a b l1 IH] using list_pair_ind;
    intros [|c [|d l2]] Hw1 Hw2 Hlen Hev E; try done; simplify_eq/=; [by left|].
  apply Forall_cons in Hw1 as [Ha [_ Hw1]%Forall_cons].
  apply Forall_cons in Hw2 as [Hc [_ Hw2]%Forall_cons].
  destruct (IH l2) as [->|(x & y & Hx & Hy & Hxy)]; [done..| |].
  - destruct (sha256_inj_or (a +:+ b) (c +:+ d)) as [Hab|Hcol]; [done| |].
    + left. apply append_inj_length in Hab as [-> ->]; congruence.
    + right. exists (a +:+ b), (c +:+ d). set_solver.
  - right. exists x, y. set_solver.
Qed.

Lemma even_length_pad l : Nat.even (length (pad_odd l)) = true.
Proof. rewrite length_pad_odd. apply Nat.even_spec. by eexists. Qed.

Lemma merkle_level_lt l : (2 ≤ length l)%nat → (length (merkle_level l) < length l)%nat.
Proof.
  rewrite length_merkle_level. intros Hl. rewrite Nat.div2_div.
  apply Nat.Div0.div_lt_upper_bound. lia.
Qed.

Lemma merkle_loop_binding n l1 l2 :
  length l1 = length l2 → same_width n l1 → same_width n l2 →
  merkle_loop l1 = merkle_loop l2 →
  l1 = l2 ∨ collision_in (merkle_inputs l1) (merkle_inputs l2).
Proof.
  remember (length l1) as k eqn:Hk. revert n l1 l2 Hk.
  induction (lt_wf k) as [k _ IH]; intros n l1 l2 Hk Hlen Hw1 Hw2 E; subst k.
  destruct l1 as [|a [|b l1]], l2 as [|c [|d l2]]; try done.
  { by left. }
  { simp merkle_loop in E. left. congruence. }
  simp merkle_loop in E. simp merkle_inputs.
  set (L1 := a :: b :: l1) in *. set (L2 := c :: d :: l2) in *.
  assert (Hlev : length (merkle_level L1) = length (merkle_level L2)).
  { by rewrite !length_merkle_level, Hlen. }
  destruct (IH (length (merkle_level L1))) with (n := 64%nat)
      (l1 := merkle_level L1) (l2 := merkle_level L2) as [Heq|Hcol];
    eauto using same_width_level, collision_in_app_r.
  { apply merkle_level_lt. simpl. lia. }
  destruct (hash_pairs_binding n (pad_odd L1) (pad_odd L2)) as [Hp|Hcol];
    eauto using same_width_pad, even_length_pad, collision_in_app_l.
  - by rewrite !length_pad_odd, Hlen.
  - left. by apply pad_odd_inj.
Qed.

Lemma merkle_root_inj_or n l1 l2 :
  length l1 = length l2 → same_width n l1 → same_width n l2 →
  merkle_root l1 = merkle_root l2 →
  l1 = l2 ∨ collision_in (merkle_inputs l1) (merkle_inputs l2).
Proof.
  intros Hlen Hw1 Hw2 E. apply (merkle_loop_binding n); [done..|].
  destruct l1, l2; [reflexivity|discriminate..|exact E].
Qed.

(** The Merkle root binds the transaction list: two lists of the same
    length, of hashes of one width, that have the same root are equal, or two
    of the strings hashed on the way are a SHA-256 collision. *)
Theorem merkle_root_binding n l1 l2 :
  length l1 = length l2 → same_width n l1 → same_width n l2 →
  merkle_root l1 = merkle_root l2 →
  l1 = l2 ∨ collision_in (merkle_inputs l1) (merkle_inputs l2).
Proof. apply merkle_root_inj_or. Qed.

Definition sample_hash (c : ascii) : string := repeat_char c 64.

Lemma merkle_root_binding_witness :
  merkle_root [sample_hash "a"; sample_hash "b"; sample_hash "c"] =
  merkle_root [sample_hash "a"; sample_hash "b"; sample_hash "c"] ∧
  ([sample_hash "a"; sample_hash "b"; sample_hash "c"] =
   [sample_hash "a"; sample_hash "b"; sample_hash "c"] ∨
   collision_in (merkle_inputs [sample_hash "a"; sample_hash "b"; sample_hash "c"])
     (merkle_inputs [sample_hash "a"; sample_hash "b"; sample_hash "c"])).
Proof.
  split; [reflexivity|].
  apply (merkle_root_binding 64); [reflexivity|repeat constructor..|reflexivity].
Defined.

(** Lists of different length need not have different roots: repeating
    the last hash of a list of odd length three or more leaves the Merkle root
    unchanged, so a block and its copy with the last transaction doubled carry
    the same root and the same block hash. *)
Theorem merkle_root_repeated_last l h :
  Nat.even (length l) = true → l ≠ [] → merkle_root (l ++ [h; h]) = merkle_root (l ++ [h]).
Proof.
  intros Hev Hne. destruct l as [|a [|b l]]; [done..|].
  change (merkle_root ((a :: b :: l) ++ ?t)) with (merkle_loop (a :: b :: (l ++ t))).
  simp merkle_loop. f_equal. unfold merkle_level. f_equal. unfold pad_odd.
  change (a :: b :: l ++ ?t) with ((a :: b :: l) ++ t).
  rewrite last_snoc, !length_app, !Nat.odd_add, <-(Nat.negb_even (length _)), Hev.
  cbn [length]. change (Nat.odd 2) with false. change (Nat.odd 1) with true.
  cbn [xorb negb]. by rewrite <-app_assoc.
Qed.

Lemma merkle_root_repeated_last_witness :
  merkle_root ["x"; "y"; "z"; "z"] = merkle_root ["x"; "y"; "z"].
Proof. apply (merkle_root_repeated_last ["x"; "y"] "z"); [reflexivity|discriminate]. Defined.

(** ** BoundedSet *)

Module BoundedSet.

(** [_order] with the oldest key first. *)
Record t := Make { max_size : Z; order : list string }.

Definition init (max_size : Z) : t := Make max_size [].

Definition contains (s : t) (item : string) : bool := bool_decide (item ∈ order s).

Definition len (s : t) : Z := Z.of_nat (length (order s)).

Definition move_to_end (item : string) (l : list string) : list string :=
  filter (λ x, x ≠ item) l ++ [item].

Definition add (item : string) (s : t) : t :=
  if contains s item then Make (max_size s) (move_to_end item (order s))
  else
    let order' := order s ++ [item] in
    if bool_decide (max_size s < Z.of_nat (length order'))%Z
    then Make (max_size s) (tail order')
    else Make (max_size s) order'.

Definition adds (items : list string) (s : t) : t := foldl (λ s x, add x s) s items.

(** Distinct keys, never more than the capacity. *)
Definition wf (s : t) : Prop :=
  NoDup (order s) ∧ (len s ≤ Z.max 0 (max_size s))%Z.

Lemma max_size_add item s : max_size (add item s) = max_size s.
Proof. unfold add. by repeat case_match. Qed.

Lemma max_size_adds items s : max_size (adds items s) = max_size s.
Proof. revert s; induction items; intros s; simpl; [done|]. by rewrite IHitems, max_size_add. Qed.

Lemma move_to_end_NoDup item l : NoDup l → NoDup (move_to_end item l).
Proof.
  intros Hl. apply NoDup_app. split_and!; [by apply NoDup_filter | | apply NoDup_singleton].
  intros x [? _]%list_elem_of_filter. set_solver.
Qed.

Lemma length_filter_ne item (l : list string) :
  NoDup l → item ∈ l → S (length (filter (λ x, x ≠ item) l)) = length l.
Proof.
  induction 1 as [|x l Hx Hl IH]; [set_solver|]. intros [->|Hin]%elem_of_cons.
  - rewrite filter_cons_False by naive_solver. simpl. f_equal.
    clear IH Hl. induction l as [|y l IHl]; [done|].
    rewrite filter_cons_True by set_solver. simpl. rewrite IHl; set_solver.
  - rewrite filter_cons_True by congruence. simpl. by rewrite IH.
Qed.

Lemma set_wf_init n : wf (init n).
Proof. split; [constructor|]. unfold len. simpl. lia. Qed.

Lemma set_wf_add item s : wf s → wf (add item s).
Proof.
  intros [Hnd Hlen]. unfold wf, len, add, contains in *.
  case_bool_decide as Hin; simpl.
  - split; [by apply move_to_end_NoDup|]. unfold move_to_end. rewrite length_app. simpl.
    pose proof (length_filter_ne item (order s) Hnd Hin). lia.
  - assert (NoDup (order s ++ [item])).
    { apply NoDup_app. split_and!; [done|set_solver|apply NoDup_singleton]. }
    rewrite length_app. simpl. case_bool_decide; simpl.
    + destruct (order s) as [|x l]; simpl in *.
      * split; [constructor|]. simpl. lia.
      * split; [by eapply NoDup_cons_1_2|]. rewrite length_app. simpl. lia.
    + split; [done|]. rewrite length_app. simpl. lia.
Qed.

Lemma set_wf_adds items s : wf s → wf (adds items s).
Proof. revert s; induction items; intros s Hs; simpl; auto using set_wf_add. Qed.

(** How many keys are younger than [x]. *)
Fixpoint younger (x : string) (l : list string) : nat :=
  match l with
  | [] => 0
  | y :: l => if decide (x = y) then length l else younger x l
  end.

Lemma younger_app x l1 l2 :
  x ∈ l1 → younger x (l1 ++ l2) = (younger x l1 + length l2)%nat.
Proof.
  induction l1 as [|y l1 IH]; [set_solver|]. intros Hx; simpl. case_decide.
  - by rewrite length_app.
  - apply IH. set_solver.
Qed.

Lemma younger_filter x y l : (younger x (filter (λ z, z ≠ y) l) ≤ younger x l)%nat.
Proof.
  induction l as [|z l IH]; [done|]. rewrite filter_cons. case_decide; simpl.
  - case_decide; [apply length_filter|done].
  - case_decide; [|lia]. etrans; [apply IH|]. clear. induction l; simpl; [done|].
    case_decide; lia.
Qed.

Lemma younger_length x l : x ∈ l → (younger x l < length l)%nat.
Proof. induction l; [set_solver|]. intros Hx; simpl. case_decide; [lia|]. set_solver by lia. Qed.

Lemma add_present x s :
  wf s → (0 < max_size s)%Z → x ∈ order (add x s) ∧ younger x (order (add x s)) = 0%nat.
Proof.
  intros [Hnd Hlen] Hmax. unfold add, len, contains in *.
  assert (Hend : ∀ l, x ∉ l → x ∈ l ++ [x] ∧ younger x (l ++ [x]) = 0%nat).
  { intros l Hl. split; [set_solver|]. induction l as [|y l IH]; simpl.
    - by rewrite decide_True.
    - rewrite decide_False by set_solver. set_solver. }
  case_bool_decide as Hin; simpl.
  - apply Hend. intros [? _]%list_elem_of_filter; done.
  - case_bool_decide; simpl; [|by apply Hend].
    destruct (order s) as [|y l]; simpl in *; [lia|]. apply Hend. set_solver.
Qed.

Lemma add_keeps x y s :
  wf s → x ∈ order s → (Z.of_nat (younger x (order s)) + 1 < max_size s)%Z →
  x ∈ order (add y s) ∧ (younger x (order (add y s)) ≤ S (younger x (order s)))%nat.
Proof.
  intros Hwf Hx Hy. destruct (decide (x = y)) as [->|Hne].
  { destruct (add_present y s) as [? ->]; [done|lia|]. split; [done|lia]. }
  destruct Hwf as [Hnd Hlen]. unfold add, len, contains in *. case_bool_decide as Hin; simpl.
  - unfold move_to_end. assert (x ∈ filter (λ z, z ≠ y) (order s)) by by apply list_elem_of_filter.
    rewrite younger_app by done. pose proof (younger_filter x y (order s)).
    simpl. split; [set_solver|lia].
  - rewrite length_app in *. case_bool_decide; simpl in *.
    + destruct (order s) as [|z l]; [set_solver|]. simpl in *.
      case_decide; subst; [lia|]. assert (x ∈ l) by set_solver.
      rewrite younger_app by done. simpl. split; [set_solver|lia].
    + rewrite younger_app by done. simpl. split; [set_solver|lia].
Qed.

Lemma adds_keep x ys s :
  wf s → (Z.of_nat (length ys) < max_size s)%Z → contains (adds ys (add x s)) x = true.
Proof.
  intros Hwf Hys.
  assert (Hgen : ∀ ys s, wf s → x ∈ order s →
    (Z.of_nat (younger x (order s) + length ys) < max_size s)%Z → x ∈ order (adds ys s)).
  { clear. induction ys as [|y ys IH]; intros s Hwf Hx Hlt; simpl in *; [done|].
    destruct (add_keeps x y s) as [??]; [done..|lia|].
    apply IH; [by apply set_wf_add|done|]. rewrite max_size_add. lia. }
  unfold contains. apply bool_decide_eq_true.
  destruct (add_present x s) as [Hx H0]; [done|lia|].
  apply Hgen; [by apply set_wf_add|done|]. rewrite H0, max_size_add. lia.
Qed.

(** A key stays recorded until as many other keys as the set's capacity
    have been added after it: the propagation caches forget nothing sooner. *)
Theorem BoundedSet_window x ys s :
  wf s → (Z.of_nat (length ys) < max_size s)%Z → contains (adds ys (add x s)) x = true.
Proof. apply adds_keep. Qed.

Lemma BoundedSet_window_witness :
  contains (adds ["b"; "c"] (add "a" (adds ["x"; "y"; "z"] (init 3)))) "a" = true.
Proof. apply BoundedSet_window; [apply set_wf_adds, set_wf_init | reflexivity]. Defined.

(** However many keys are added, the set holds at most its capacity,
    each key once. *)
Theorem BoundedSet_bounded items n :
  NoDup (order (adds items (init n))) ∧ (len (adds items (init n)) ≤ Z.max 0 n)%Z.
Proof.
  destruct (set_wf_adds items (init n) (set_wf_init n)) as [Hnd Hlen].
  by rewrite max_size_adds in Hlen.
Qed.

End BoundedSet.
