(* ===== verification/NativeAsset.v ===== *)
(** * blockchain/native_asset.py: SYJ amounts

    Amounts enter as human-readable text and are kept as integer base units.
    The conversions go through Python's [decimal] arithmetic, which is written
    out here as far as the source uses it: exact construction from text,
    multiplication, division, [quantize] and [to_integral_value] under the
    default context (28 significant digits, half-even, Emax 999999). *)
From Stdlib Require Import Ascii DecimalString DecimalN.
From stdpp Require Import options.
From S2P Require Import Prelude PyText Json.

Local Open Scope Z_scope.

(** ** decimal.Decimal *)

Module Dec.

(** Finite: [(-1)^neg * coef * 10^exp]. *)
Inductive t :=
  | Fin (neg : bool) (coef exp : Z)
  | Inf (neg : bool)
  | NaN.

Definition prec : Z := 28.
Definition Emax : Z := 999999.
Definition Emin : Z := -999999.
Definition Etiny : Z := Emin - prec + 1.
Definition Etop : Z := Emax - prec + 1.

Definition signed (neg : bool) (z : Z) : Z := if neg then - z else z.

(** The number of decimal digits of [n >= 0]; zero has one. *)
Fixpoint count_digits (fuel : nat) (n : Z) : Z :=
  match fuel with
  | O => 1
  | S fuel => if n <? 10 then 1 else 1 + count_digits fuel (n / 10)
  end.
Definition ndigits (n : Z) : Z := count_digits (S (Z.to_nat (Z.log2 n))) n.

(** Rounding to the context; [Overflow] is trapped. *)
Definition fix_context (neg : bool) (coef exp : Z) : res t :=
  if coef =? 0 then Ok (Fin neg 0 (Z.min (Z.max exp Etiny) Emax))
  else
    let exp_min := ndigits coef + exp - prec in
    if Etop <? exp_min then Err DecimalOverflow
    else
      let exp_min := Z.max exp_min Etiny in
      if exp <? exp_min then
        let c := round_div coef (10 ^ (exp_min - exp)) in
        let '(c, e) := if prec <? ndigits c then (c / 10, exp_min + 1) else (c, exp_min) in
        if Etop <? e then Err DecimalOverflow else Ok (Fin neg c e)
      else Ok (Fin neg coef exp).

Definition of_Z (n : Z) : t := Fin (n <? 0) (Z.abs n) 0.

(** [Decimal(text)]: surrounding white space and underscores are dropped. *)
Definition is_str_space (c : ascii) : bool :=
  is_unicode_space c || ((28 <=? code c) && (code c <=? 31)).

Fixpoint drop_while (p : ascii → bool) (l : list ascii) : list ascii :=
  match l with
  | c :: l' => if p c then drop_while p l' else l
  | [] => []
  end.

Definition strip (l : list ascii) : list ascii :=
  reverse (drop_while is_str_space (reverse (drop_while is_str_space l))).

Definition clean (s : string) : string :=
  of_chars (filter (λ c, code c ≠ 95) (strip (chars s))).

Definition digits_Z (ds : string) : Z := Z.of_N (digits_val ds).

(** The exponent part, which ends the text. *)
Definition parse_exp (s : string) : option Z :=
  match s with
  | EmptyString => Some 0
  | String c r =>
      if (code c =? 69) || (code c =? 101) then
        let '(sign, l) := split_sign (chars r) in
        let '(ds, rest) := span_digits (of_chars l) in
        if String.eqb ds "" || negb (String.eqb rest "") then None
        else Some (sign * digits_Z ds)
      else None
  end.

Definition parse_special (neg : bool) (s : string) : option t :=
  let s := lower s in
  if String.eqb s "inf" || String.eqb s "infinity" then Some (Inf neg)
  else
    let s := match strip_prefix "s" s with Some r => r | None => s end in
    match strip_prefix "nan" s with
    | Some diag => let '(_, rest) := span_digits diag in
                   if String.eqb rest "" then Some NaN else None
    | None => None
    end.

Definition parse_finite (neg : bool) (s : string) : option t :=
  let '(int, r) := span_digits s in
  let '(frac, r') :=
    match r with
    | String c r1 => if code c =? 46 then span_digits r1 else ("", r)
    | EmptyString => ("", r)
    end in
  if String.eqb int "" && String.eqb frac "" then None
  else
    e ← parse_exp r';
    Some (Fin neg (digits_Z (int +:+ frac)) (e - Z.of_nat (String.length frac))).

Definition of_string (s : string) : option t :=
  let '(sign, l) := split_sign (chars (clean s)) in
  let neg := sign <? 0 in
  match parse_finite neg (of_chars l) with
  | Some d => Some d
  | None => parse_special neg (of_chars l)
  end.

(** [a * b] for finite operands. *)
Definition mul (neg1 : bool) (c1 e1 : Z) (neg2 : bool) (c2 e2 : Z) : res t :=
  fix_context (xorb neg1 neg2) (c1 * c2) (e1 + e2).

(** Drop trailing zeros while the exponent is below the ideal one. *)
Fixpoint reduce_to (fuel : nat) (ideal coef exp : Z) : Z * Z :=
  match fuel with
  | O => (coef, exp)
  | S fuel =>
      if (exp <? ideal) && (coef mod 10 =? 0) then reduce_to fuel ideal (coef / 10) (exp + 1)
      else (coef, exp)
  end.

(** [a / b] for finite operands, [b] not zero. *)
Definition div (neg1 : bool) (c1 e1 : Z) (neg2 : bool) (c2 e2 : Z) : res t :=
  let neg := xorb neg1 neg2 in
  if c1 =? 0 then fix_context neg 0 (e1 - e2)
  else
    let shift := ndigits c2 - ndigits c1 + prec + 1 in
    let exp := e1 - e2 - shift in
    let n := if 0 <=? shift then c1 * 10 ^ shift else c1 in
    let d := if 0 <=? shift then c2 else c2 * 10 ^ (- shift) in
    let coef := n / d in
    if n mod d =? 0 then
      let '(coef, exp) := reduce_to (Z.to_nat (e1 - e2 - exp)) (e1 - e2) coef exp in
      fix_context neg coef exp
    else fix_context neg (if coef mod 5 =? 0 then coef + 1 else coef) exp.

(** [int(d)], and [d.to_integral_value()] as an integer. *)
Definition to_int (neg : bool) (coef exp : Z) : Z :=
  signed neg (if 0 <=? exp then coef * 10 ^ exp else coef / 10 ^ (- exp)).
Definition to_integral (neg : bool) (coef exp : Z) : t :=
  if 0 <=? exp then Fin neg coef exp else Fin neg (round_div coef (10 ^ (- exp))) 0.

(** The float nearest to the number, in ticks, where [PFlt] has it: what
    [float] makes of the same text. *)
Definition to_ticks (neg : bool) (coef exp : Z) : option Z :=
  let '(c, d) := if 0 <=? exp then (coef * 10 ^ exp, 0%nat) else (coef, Z.to_nat (- exp)) in
  signed neg <$> read_decimal plain c d.

(** Numeric equality of finite values. *)
Definition eqb (neg1 : bool) (c1 e1 : Z) (neg2 : bool) (c2 e2 : Z) : bool :=
  let m := Z.min e1 e2 in
  signed neg1 (c1 * 10 ^ (e1 - m)) =? signed neg2 (c2 * 10 ^ (e2 - m)).

(** [d.quantize(Decimal("1E<e>"), rounding=ROUND_DOWN)] *)
Definition quantize_down (neg : bool) (coef exp e : Z) : res t :=
  let c := if e <=? exp then coef * 10 ^ (exp - e) else coef / 10 ^ (e - exp) in
  if prec <? ndigits c then Err (ValueError "InvalidOperation") else Ok (Fin neg c e).

(** The digits of [coef] with the point [dotplace] digits from the left. *)
Definition zeros (n : Z) : string := repeat_char "0" (Z.to_nat n).
Definition point_digits (ds : string) (dotplace : Z) : string :=
  let n := Z.of_nat (String.length ds) in
  if dotplace <=? 0 then "0." +:+ zeros (- dotplace) +:+ ds
  else if n <=? dotplace then ds +:+ zeros (dotplace - n)
  else take_str (Z.to_nat dotplace) ds +:+ "." +:+ drop_str (Z.to_nat dotplace) ds.

Definition str_sign (neg : bool) : string := if neg then "-" else "".

(** [str(d)] *)
Definition to_string (d : t) : string :=
  match d with
  | Inf neg => str_sign neg +:+ "Infinity"
  | NaN => "NaN"
  | Fin neg coef exp =>
      let ds := str_Z coef in
      let leftdigits := exp + Z.of_nat (String.length ds) in
      let dotplace := if (exp <=? 0) && (-6 <? leftdigits) then leftdigits else 1 in
      let e := leftdigits - dotplace in
      str_sign neg +:+ point_digits ds dotplace +:+
      (if e =? 0 then ""
       else "E" +:+ (if e <? 0 then "" else "+") +:+ str_Z e)
  end.

(** [format(d, "f")] *)
Definition format_f (d : t) : string :=
  match d with
  | Fin neg coef exp =>
      let ds := str_Z coef in
      str_sign neg +:+
      (if 0 <? exp then ds +:+ zeros exp
       else point_digits ds (exp + Z.of_nat (String.length ds)))
  | d => to_string d
  end.

End Dec.

(** ** Constants *)

Definition SYMBOL : string := "SYJ".
Definition BASE_UNITS_PER_SYJ : Z := 100000000.
Definition MAX_SUPPLY_SYJ : Z := 720000000.
Definition MAX_SUPPLY_BASE_UNITS : Z := MAX_SUPPLY_SYJ * BASE_UNITS_PER_SYJ.

(** ** Conversions *)

(** [AmountInput], and the booleans that [to_base_units] refuses; a float is
    given by its [str]. *)
Inductive AmountInput :=
  | AStr (s : string)
  | AInt (z : Z)
  | AFloat (repr : string)
  | ADecimal (d : Dec.t)
  | ABool (b : bool).

Definition amount_str (value : AmountInput) : string :=
  match value with
  | AStr s | AFloat s => s
  | AInt z => str_Z z
  | ADecimal d => Dec.to_string d
  | ABool b => if b then "True" else "False"
  end.

Definition to_base_units (value : AmountInput) : res Z :=
  match value with
  | ABool _ => Err (ValueError "SYJ amount must not be boolean.")
  | _ =>
      match Dec.of_string (amount_str value) with
      | None => Err (ValueError "Invalid SYJ amount")
      | Some (Dec.Fin neg coef exp) =>
          scaled ← Dec.mul neg coef exp false BASE_UNITS_PER_SYJ 0;
          match scaled with
          | Dec.Fin n c e =>
              match Dec.to_integral n c e with
              | Dec.Fin n' c' e' =>
                  if negb (Dec.eqb n c e n' c' e')
                  then Err (ValueError "SYJ amount supports at most 8 decimal places")
                  else Ok (Dec.to_int n c e)
              | _ => Err (ValueError "SYJ amount must be finite.")
              end
          | _ => Err (ValueError "SYJ amount must be finite.")
          end
      | Some _ => Err (ValueError "SYJ amount must be finite.")
      end
  end.

(** [Decimal(base_units) / Decimal(BASE_UNITS_PER_SYJ)] *)
Definition from_base_units (base_units : Z) : res Dec.t :=
  Dec.div (base_units <? 0) (Z.abs base_units) 0 false BASE_UNITS_PER_SYJ 0.

Definition format_amount (base_units : Z) : res string :=
  d ← from_base_units base_units;
  match d with
  | Dec.Fin neg coef exp => q ← Dec.quantize_down neg coef exp (-8); mret (Dec.format_f q)
  | d => mret (Dec.format_f d)
  end.

Definition validate_base_units (value : Z) (allow_zero : bool) : bool * string :=
  if (value <? 0) || ((value =? 0) && negb allow_zero) then
    (false, "SYJ amount must be positive.")
  else if MAX_SUPPLY_BASE_UNITS <? value then
    (false, "SYJ amount exceeds the maximum SYJ supply.")
  else (true, "").

Example to_base_units_default_reward : to_base_units (AStr "50.0") = Ok 5000000000.
Proof. vm_compute. reflexivity. Qed.
Example to_base_units_nine_places :
  is_ok (to_base_units (AStr "0.000000001")) = false.
Proof. vm_compute. reflexivity. Qed.
Example format_amount_vector : format_amount 123456789 = Ok "1.23456789".
Proof. vm_compute. reflexivity. Qed.
Example str_of_one_unit : Dec.to_string <$> from_base_units 1 = Ok "1E-8".
Proof. vm_compute. reflexivity. Qed.
Example str_of_reward : Dec.to_string <$> from_base_units 5000000000 = Ok "50".
Proof. vm_compute. reflexivity. Qed.

(** ** Digit counts and rounding *)

Lemma count_digits_pos fuel n : 1 ≤ Dec.count_digits fuel n.
Proof. revert n; induction fuel; intros n; simpl; [lia|]. case_match; [lia|]. specialize (IHfuel (n / 10)). lia. Qed.

Lemma count_digits_le fuel n k :
  0 ≤ n < 10 ^ Z.of_nat fuel → 1 ≤ k → Dec.count_digits fuel n ≤ k ↔ n < 10 ^ k.
Proof.
  revert n k; induction fuel as [|fuel IH]; intros n k Hn Hk; cbn [Dec.count_digits].
  { simpl in Hn. assert (n = 0) as -> by lia. split; [|lia].
    intros _. apply Z.pow_pos_nonneg; lia. }
  case_match eqn:Hlt.
  - apply Z.ltb_lt in Hlt. split; [|lia]. intros _.
    assert (10 ^ 1 ≤ 10 ^ k) by (apply Z.pow_le_mono_r; lia). lia.
  - apply Z.ltb_ge in Hlt. rewrite Nat2Z.inj_succ, Z.pow_succ_r in Hn by lia.
    assert (0 ≤ n / 10 < 10 ^ Z.of_nat fuel).
    { split; [apply Z.div_pos; lia|]. apply Z.div_lt_upper_bound; lia. }
    destruct (Z.eq_dec k 1) as [->|].
    { pose proof (count_digits_pos fuel (n / 10)). rewrite Z.pow_1_r. lia. }
    assert (10 ^ k = 10 * 10 ^ (k - 1)) as ->.
    { rewrite <-Z.pow_succ_r by lia. f_equal. lia. }
    pose proof (IH (n / 10) (k - 1)) as Hiff.
    pose proof (Z.div_mod n 10). pose proof (Z.mod_pos_bound n 10).
    split; intros Hle; [apply Z.nle_gt; intros Hge|]; lia.
Qed.

Lemma ndigits_le n k : 0 ≤ n → 1 ≤ k → Dec.ndigits n ≤ k ↔ n < 10 ^ k.
Proof.
  intros Hn Hk. apply count_digits_le; [|done]. split; [done|].
  pose proof (Z.log2_nonneg n).
  rewrite Nat2Z.inj_succ, Z2Nat.id by lia.
  destruct (Z.eq_dec n 0) as [->|]; [done|].
  eapply Z.lt_le_trans; [apply Z.log2_spec; lia|].
  apply Z.pow_le_mono_l. lia.
Qed.

Lemma ndigits_pos n : 1 ≤ Dec.ndigits n.
Proof. apply count_digits_pos. Qed.

Lemma round_div_whole n d : 0 < d → n mod d = 0 → round_div n d = n / d.
Proof. intros Hd Hr. unfold round_div. rewrite Hr. by rewrite (proj2 (Z.ltb_lt (2 * 0) d)). Qed.

Lemma round_div_divides n d : 0 < d → round_div n d * d = n ↔ n mod d = 0.
Proof.
  intros Hd. split.
  - intros <-. apply Z.mod_mul. lia.
  - intros Hr. rewrite round_div_whole by done. pose proof (Z.div_mod n d). lia.
Qed.

(** A coefficient of at most 28 digits is not rounded. *)
Lemma fix_context_exact neg c e :
  0 ≤ c < 10 ^ Dec.prec → Dec.Etiny ≤ e ≤ Dec.Etop → Dec.fix_context neg c e = Ok (Dec.Fin neg c e).
Proof.
  intros Hc He. unfold Dec.fix_context.
  destruct (Z.eqb_spec c 0) as [->|].
  { do 2 f_equal. unfold Dec.Emax, Dec.Etop, Dec.Emax, Dec.prec in *. lia. }
  assert (Dec.ndigits c ≤ Dec.prec) by (apply ndigits_le; unfold Dec.prec in *; lia).
  rewrite (proj2 (Z.ltb_ge _ _)) by lia. rewrite (proj2 (Z.ltb_ge _ _)) by lia. done.
Qed.

(** ** to_base_units *)

Lemma to_int_exact neg c e :
  0 ≤ c → c mod 10 ^ Z.max 0 (- e) = 0 →
  Dec.to_int neg c e * 10 ^ Z.max 0 (- e) = Dec.signed neg (c * 10 ^ Z.max 0 e).
Proof.
  intros Hc Hm. unfold Dec.to_int. destruct (Z.leb_spec 0 e).
  - rewrite (Z.max_l 0 (- e)), (Z.max_r 0 e) by lia. destruct neg; simpl; lia.
  - rewrite (Z.max_r 0 (- e)), (Z.max_l 0 e) in * by lia.
    pose proof (Z.div_mod c (10 ^ (- e))) as Hd. rewrite Hm in Hd.
    assert (0 < 10 ^ (- e)) by (apply Z.pow_pos_nonneg; lia).
    rewrite Z.pow_0_r. destruct neg; simpl; lia.
Qed.

Lemma eqb_to_integral neg c e :
  0 ≤ c →
  (match Dec.to_integral neg c e with
   | Dec.Fin n' c' e' => Dec.eqb neg c e n' c' e'
   | _ => false
   end) = true ↔ c mod 10 ^ Z.max 0 (- e) = 0.
Proof.
  intros Hc. unfold Dec.to_integral. destruct (Z.leb_spec 0 e).
  - rewrite Z.max_l by lia. rewrite Z.pow_0_r, Z.mod_1_r.
    unfold Dec.eqb. by rewrite Z.eqb_refl.
  - rewrite Z.max_r by lia. unfold Dec.eqb. rewrite Z.min_l by lia.
    replace (e - e) with 0 by lia. replace (0 - e) with (- e) by lia.
    rewrite Z.pow_0_r, Z.mul_1_r, Z.eqb_eq.
    assert (0 < 10 ^ (- e)) by (apply Z.pow_pos_nonneg; lia).
    rewrite <-round_div_divides by done. destruct neg; simpl; lia.
Qed.

Lemma of_string_to_base_units s neg c e :
  Dec.of_string s = Some (Dec.Fin neg c e) → 0 ≤ c < 10 ^ 20 → Dec.Etiny ≤ e ≤ Dec.Etop →
  to_base_units (AStr s) =
  if decide ((c * BASE_UNITS_PER_SYJ) mod 10 ^ Z.max 0 (- e) = 0)
  then Ok (Dec.to_int neg (c * BASE_UNITS_PER_SYJ) e)
  else Err (ValueError "SYJ amount supports at most 8 decimal places").
Proof.
  intros Hs Hc He. unfold to_base_units. cbn [amount_str]. rewrite Hs.
  unfold Dec.mul. rewrite xorb_false_r, Z.add_0_r, fix_context_exact;
    [|unfold Dec.prec, BASE_UNITS_PER_SYJ; lia|done].
  cbn [mbind res_bind].
  assert (Hc' : 0 ≤ c * BASE_UNITS_PER_SYJ) by (unfold BASE_UNITS_PER_SYJ; lia).
  pose proof (eqb_to_integral neg _ e Hc') as Heq.
  assert (∃ n' c' e', Dec.to_integral neg (c * BASE_UNITS_PER_SYJ) e = Dec.Fin n' c' e')
    as (n' & c' & e' & Hi) by (unfold Dec.to_integral; destruct (0 <=? e); by do 3 eexists).
  rewrite Hi in *. case_decide as Hd.
  - rewrite (proj2 Heq Hd). done.
  - destruct (Dec.eqb _ _ _ _ _ _); [exfalso; apply Hd, Heq|]; done.
Qed.

(** C24: Converting amount text to base units is exact where the 28 digits of
    the decimal context hold the product: the result [n], if there is one, is
    the written value times 10^8, and the text is refused when that is not a
    whole number of base units. *)
Theorem to_base_units_exact s neg c e n :
  Dec.of_string s = Some (Dec.Fin neg c e) → 0 ≤ c < 10 ^ 20 → Dec.Etiny ≤ e ≤ Dec.Etop →
  to_base_units (AStr s) = Ok n ↔
  n * 10 ^ Z.max 0 (- e) = Dec.signed neg (c * BASE_UNITS_PER_SYJ * 10 ^ Z.max 0 e).
Proof.
  intros Hs Hc He. rewrite (of_string_to_base_units s neg c e) by done.
  assert (Hc' : 0 ≤ c * BASE_UNITS_PER_SYJ) by (unfold BASE_UNITS_PER_SYJ; lia).
  assert (0 < 10 ^ Z.max 0 (- e)) by (apply Z.pow_pos_nonneg; lia).
  case_decide as Hd.
  - pose proof (to_int_exact neg _ e Hc' Hd) as Hi. split.
    + by intros [= <-].
    + intros Hn. f_equal. rewrite <-Hi in Hn. nia.
  - split; [done|]. intros Hn. exfalso. apply Hd.
    destruct (Z.leb_spec 0 e).
    { rewrite Z.max_l by lia. apply Z.mod_1_r. }
    rewrite (Z.max_l 0 e), Z.pow_0_r, Z.mul_1_r in Hn by lia.
    rewrite <-round_div_divides by lia.
    assert (c * BASE_UNITS_PER_SYJ = Dec.signed neg n * 10 ^ Z.max 0 (- e)) as E
      by (destruct neg; simpl in *; lia).
    rewrite E, round_div_whole, Z.div_mul by (rewrite ?Z.mod_mul; lia). done.
Qed.

Lemma to_base_units_exact_witness :
  to_base_units (AStr "-12.5e-1") = Ok (-125000000).
Proof.
  apply (to_base_units_exact "-12.5e-1" true 125 (-2)); [reflexivity|lia| |reflexivity].
  split; discriminate.
Defined.

(** Beyond 28 digits the product is rounded before it is tested, so an
    amount with 35 decimal places is accepted where the same amount cut to
    nine places would be refused. *)
Theorem to_base_units_rounds_long_amounts :
  to_base_units (AStr "1.00000000000000000000000000000000001") = Ok BASE_UNITS_PER_SYJ ∧
  to_base_units (AStr "1.000000001") =
    Err (ValueError "SYJ amount supports at most 8 decimal places").
Proof. split; vm_compute; reflexivity. Qed.

(** ** format_amount *)

Lemma reduce_to_spec fuel ideal c e c' e' :
  Dec.reduce_to fuel ideal c e = (c', e') → e ≤ e' ∧ (e ≤ ideal → e' ≤ ideal) ∧
  c = c' * 10 ^ (e' - e).
Proof.
  revert c e; induction fuel as [|fuel IH]; intros c e; cbn [Dec.reduce_to].
  { intros [= <- <-]. rewrite Z.sub_diag. lia. }
  destruct (Z.ltb_spec e ideal) as [Hlt|], (Z.eqb_spec (c mod 10) 0) as [Hm|];
    cbn [andb]; try (intros [= <- <-]; rewrite Z.sub_diag; lia).
  intros (? & ? & Hc)%IH. split_and!; [lia..|].
  pose proof (Z.div_mod c 10) as Hd. rewrite Hm, Hc in Hd.
  rewrite (Z.mul_comm 10), Z.add_0_r, <-Z.mul_assoc, (Z.mul_comm _ 10) in Hd.
  rewrite <-Z.pow_succ_r in Hd by lia. rewrite Hd at 1 by lia. do 2 f_equal. lia.
Qed.

(** The reduction runs while a power of ten divides the coefficient. *)
Lemma reduce_to_divides fuel ideal c e m c' e' :
  0 ≤ m → (Z.to_nat m ≤ fuel)%nat → e + m ≤ ideal → c mod 10 ^ m = 0 →
  Dec.reduce_to fuel ideal c e = (c', e') → e + m ≤ e'.
Proof.
  revert c e m; induction fuel as [|fuel IH]; intros c e m Hm Hf Hi Hd E.
  { assert (m = 0) as -> by lia. apply reduce_to_spec in E. lia. }
  destruct (Z.eq_dec m 0) as [->|]; [apply reduce_to_spec in E; lia|].
  assert (10 ^ m = 10 * 10 ^ (m - 1)) as Hpow
    by (rewrite <-Z.pow_succ_r by lia; f_equal; lia).
  assert (0 < 10 ^ (m - 1)) by (apply Z.pow_pos_nonneg; lia).
  apply Z.mod_divide in Hd as [q Hq]; [|lia].
  assert (Hc : c = q * 10 ^ (m - 1) * 10) by lia.
  cbn [Dec.reduce_to] in E. rewrite (proj2 (Z.ltb_lt _ _)) in E by lia.
  rewrite Hc, Z.mod_mul, Z.div_mul in E by lia. cbn [Z.eqb andb] in E.
  apply IH with (m := m - 1) in E; [lia..|]. apply Z.mod_mul. lia.
Qed.

(** A count of base units divided by 10^8 is held exactly. *)
Lemma from_base_units_exact n :
  0 ≤ n < 10 ^ 20 →
  ∃ c e, from_base_units n = Ok (Dec.Fin false c e) ∧ 0 ≤ c ∧ -8 ≤ e ≤ 0 ∧
         c * 10 ^ (e + 8) = n.
Proof.
  intros Hn. unfold from_base_units, Dec.div.
  assert ((n <? 0) = false) as -> by lia. rewrite Z.abs_eq by lia. cbn [xorb].
  destruct (Z.eqb_spec n 0) as [->|Hn0]; [by exists 0, 0|].
  assert (Hnd : Dec.ndigits n ≤ 20) by (apply ndigits_le; lia).
  change (Dec.ndigits BASE_UNITS_PER_SYJ) with 9.
  pose proof (ndigits_pos n). unfold Dec.prec.
  set (shift := 9 - Dec.ndigits n + 28 + 1) in *.
  assert (Hs : 18 ≤ shift ≤ 37) by lia.
  rewrite (proj2 (Z.leb_le 0 shift)) by lia. cbn zeta.
  assert (Hpow : 10 ^ shift = 10 ^ (shift - 8) * BASE_UNITS_PER_SYJ).
  { change BASE_UNITS_PER_SYJ with (10 ^ 8). rewrite <-Z.pow_add_r by lia. f_equal. lia. }
  assert (Hb : BASE_UNITS_PER_SYJ ≠ 0) by done.
  rewrite Hpow, Z.mul_assoc, Z.mod_mul, Z.div_mul by done. cbn [Z.eqb].
  destruct (Dec.reduce_to _ _ _ _) as [c e] eqn:Hr.
  pose proof (reduce_to_spec _ _ _ _ _ _ Hr) as (He & He' & Hc).
  apply reduce_to_divides with (m := shift - 8) in Hr;
    [|lia..|apply Z.mod_mul; assert (0 < 10 ^ (shift - 8)) by (apply Z.pow_pos_nonneg; lia); lia].
  assert (e ≤ 0) by lia.
  assert (Hcn : c * 10 ^ (e + 8) = n).
  { assert (0 < 10 ^ (shift - 8)) by (apply Z.pow_pos_nonneg; lia).
    apply (Z.mul_reg_r _ _ (10 ^ (shift - 8))); [lia|]. rewrite Hc, <-Z.mul_assoc.
    rewrite <-Z.pow_add_r by lia. do 2 f_equal. lia. }
  assert (0 < 10 ^ (e + 8)) by (apply Z.pow_pos_nonneg; lia).
  assert (0 ≤ c) by nia. assert (c ≤ n) by nia.
  exists c, e. rewrite fix_context_exact; [|unfold Dec.prec; lia|unfold Dec.Etiny, Dec.Emin, Dec.Etop, Dec.Emax, Dec.prec; lia].
  auto with lia.
Qed.

(** The text is that of the integer with the point eight digits from the right. *)
Lemma format_amount_text n :
  0 ≤ n < 10 ^ 20 →
  format_amount n =
  Ok (Dec.point_digits (str_Z n) (Z.of_nat (String.length (str_Z n)) - 8)).
Proof.
  intros Hn. unfold format_amount.
  destruct (from_base_units_exact n Hn) as (c & e & -> & Hc & He & Hcn).
  cbn [mbind res_bind]. unfold Dec.quantize_down.
  rewrite (proj2 (Z.leb_le (-8) e)) by lia.
  replace (e - -8) with (e + 8) by lia. rewrite Hcn.
  rewrite (proj2 (Z.ltb_ge _ _)) by (apply ndigits_le; unfold Dec.prec; lia).
  cbn. do 2 f_equal. lia.
Qed.

Lemma digits_Z_str n : 0 ≤ n → Dec.digits_Z (str_Z n) = n.
Proof.
  intros Hn. unfold Dec.digits_Z. destruct n as [|p|p]; [done| |lia].
  simpl. by rewrite digits_val_str_N.
Qed.

Lemma str_Z_digits n : 0 ≤ n → Forall (λ c, is_digit c = true) (chars (str_Z n)).
Proof. intros Hn. destruct n as [|p|p]; [apply str_N_digits..|lia]. Qed.

Lemma digits_Z_zeros k ds :
  ds ≠ "" → Forall (λ c, is_digit c = true) (chars ds) →
  Dec.digits_Z (repeat_char "0" k +:+ ds) = Dec.digits_Z ds.
Proof.
  intros Hne Hds. induction k as [|k IH]; [done|]. simpl. rewrite <-IH.
  unfold Dec.digits_Z, digits_val. f_equal. simpl.
  by destruct (NilEmpty.uint_of_string _).
Qed.

Lemma digit_not_space c : is_digit c = true → Dec.is_str_space c = false ∧ code c ≠ 95.
Proof.
  intros Hc%digit_range. unfold Dec.is_str_space, is_unicode_space, is_space. lia.
Qed.

(** Digits and a point survive the clean-up of decimal text. *)
Definition plain_char (c : ascii) : Prop := Dec.is_str_space c = false ∧ code c ≠ 95.

Lemma drop_while_plain l : Forall plain_char l → Dec.drop_while Dec.is_str_space l = l.
Proof. destruct 1 as [|c l [Hc _] _]; [done|]. cbn. by rewrite Hc. Qed.

Lemma clean_plain s : Forall plain_char (chars s) → Dec.clean s = s.
Proof.
  intros Hs. unfold Dec.clean, Dec.strip.
  rewrite (drop_while_plain (chars s)) by done.
  rewrite drop_while_plain by by apply Forall_reverse.
  rewrite reverse_involutive. rewrite <-(of_chars_chars s) at 2. f_equal.
  induction Hs as [|c l [_ Hc] _ IH]; [done|]. by rewrite filter_cons_True, IH.
Qed.

Lemma of_string_point int frac :
  int ≠ "" → Forall (λ c, is_digit c = true) (chars int) →
  Forall (λ c, is_digit c = true) (chars frac) →
  Dec.of_string (int +:+ "." +:+ frac) =
  Some (Dec.Fin false (Dec.digits_Z (int +:+ frac)) (- Z.of_nat (String.length frac))).
Proof.
  intros Hne Hint Hfrac. unfold Dec.of_string. rewrite clean_plain.
  2: { rewrite !chars_append. apply Forall_app; split.
       { eapply Forall_impl; [done|]. apply digit_not_space. }
       constructor; [done|]. eapply Forall_impl; [done|]. apply digit_not_space. }
  assert (split_sign (chars (int +:+ "." +:+ frac)) = (1, chars (int +:+ "." +:+ frac))) as ->.
  { destruct int as [|c int]; [done|]. cbn. apply Forall_cons in Hint as [Hc%digit_range _].
    by rewrite !(proj2 (Z.eqb_neq _ _)) by lia. }
  rewrite of_chars_chars. change (1 <? 0) with false. unfold Dec.parse_finite.
  rewrite (span_digits_app int) by done. cbn.
  rewrite <-(append_nil_r frac), span_digits_app by done. rewrite append_nil_r.
  assert (String.eqb int "" = false) as -> by by apply String.eqb_neq. done.
Qed.

Lemma to_base_units_point int frac n :
  int ≠ "" → Forall (λ c, is_digit c = true) (chars int) →
  Forall (λ c, is_digit c = true) (chars frac) → String.length frac = 8%nat →
  Dec.digits_Z (int +:+ frac) = n → 0 ≤ n < 10 ^ 20 →
  to_base_units (AStr (int +:+ "." +:+ frac)) = Ok n.
Proof.
  intros Hne Hint Hfrac Hlen Hn Hr.
  rewrite (of_string_to_base_units _ false n (-8)); [|by rewrite of_string_point, Hn, Hlen|done|done].
  change (10 ^ Z.max 0 (- -8)) with BASE_UNITS_PER_SYJ. rewrite decide_True by by apply Z.mod_mul.
  f_equal. unfold Dec.to_int. cbn -[BASE_UNITS_PER_SYJ Z.mul Z.div]. by apply Z.div_mul.
Qed.

(** Digits only. *)
Definition all_digits (s : string) : Prop := Forall (λ c, is_digit c = true) (chars s).

(** The point of [point_digits] splits off the last [k] digits. *)
Lemma point_digits_places n k :
  0 ≤ n → 0 < k →
  let ds := str_Z n in
  ∃ int frac, Dec.point_digits ds (Z.of_nat (String.length ds) - k) = int +:+ "." +:+ frac ∧
    int ≠ "" ∧ all_digits int ∧ all_digits frac ∧ Z.of_nat (String.length frac) = k ∧
    Dec.digits_Z (int +:+ frac) = n.
Proof.
  intros Hn Hk0 ds. pose proof (str_Z_digits n Hn) as Hd. pose proof (digits_Z_str n Hn) as Hv.
  assert (Hne : ds ≠ "") by (unfold ds; by destruct (str_Z_head n) as (? & ? & -> & _)).
  fold ds in Hd, Hv. clearbody ds. unfold Dec.point_digits.
  destruct (Z.leb_spec (Z.of_nat (String.length ds) - k) 0).
  - exists "0", (Dec.zeros (- (Z.of_nat (String.length ds) - k)) +:+ ds).
    assert (Hz : ∀ k, all_digits (repeat_char "0" k)).
    { unfold all_digits. induction k0; simpl; by constructor. }
    split_and!; [done|done|by repeat constructor| | |].
    + unfold all_digits. rewrite chars_append. apply Forall_app; split; [apply Hz|done].
    + rewrite length_append. unfold Dec.zeros.
      assert (∀ k, String.length (repeat_char "0" k) = k) as ->
        by (induction k0; simpl; congruence). lia.
    + rewrite <-Hv. by apply (digits_Z_zeros (S _)).
  - rewrite (proj2 (Z.leb_gt _ _)) by lia.
    set (m := Z.to_nat (Z.of_nat (String.length ds) - k)).
    assert (Hm : (0 < m < length (chars ds))%nat) by (rewrite length_chars; lia).
    exists (take_str m ds), (drop_str m ds). unfold all_digits. split_and!; [done| | | | |].
    + unfold take_str. intros E. apply (f_equal chars), (f_equal length) in E.
      rewrite chars_of_chars, length_take in E. simpl in E. lia.
    + unfold take_str. rewrite chars_of_chars. by apply Forall_take.
    + unfold drop_str. rewrite chars_of_chars. by apply Forall_drop.
    + unfold drop_str. rewrite <-length_chars, chars_of_chars, length_drop, length_chars. lia.
    + by rewrite take_drop_str.
Qed.

(** C25: Every amount up to the maximum supply is displayed with eight decimal
    places: the text is a non-empty run of digits, a point and exactly eight
    digits, which without the point are the number of base units; and it
    converts back to that number. *)
Theorem format_amount_roundtrip n :
  0 ≤ n ≤ MAX_SUPPLY_BASE_UNITS →
  ∃ int frac, format_amount n = Ok (int +:+ "." +:+ frac) ∧
    int ≠ "" ∧ all_digits int ∧ all_digits frac ∧ String.length frac = 8%nat ∧
    Dec.digits_Z (int +:+ frac) = n ∧ to_base_units (AStr (int +:+ "." +:+ frac)) = Ok n.
Proof.
  intros Hn. assert (Hr : 0 ≤ n < 10 ^ 20).
  { unfold MAX_SUPPLY_BASE_UNITS, MAX_SUPPLY_SYJ, BASE_UNITS_PER_SYJ in Hn. lia. }
  destruct (point_digits_places n 8) as (int & frac & Htext & Hne & Hint & Hfrac & Hlen%(Nat2Z.inj _ 8) & Hval); [lia..|].
  exists int, frac. rewrite format_amount_text, Htext by done.
  split_and!; try done. by apply to_base_units_point.
Qed.

Lemma format_amount_roundtrip_witness :
  ∃ int frac, format_amount 7 = Ok (int +:+ "." +:+ frac) ∧
    int ≠ "" ∧ all_digits int ∧ all_digits frac ∧ String.length frac = 8%nat ∧
    Dec.digits_Z (int +:+ frac) = 7 ∧ to_base_units (AStr (int +:+ "." +:+ frac)) = Ok 7.
Proof. apply format_amount_roundtrip. split; discriminate. Defined.

(** ** The amount of a dictionary: [str] of the quotient *)

Lemma digit_cases c : is_digit c = true → c ∈ chars "0123456789".
Proof. intros Hc. apply (bool_decide_unpack _). revert Hc. by destruct c as [[] [] [] [] [] [] [] []]. Qed.

(** Few digits make a small number. *)
Lemma short_digits ds :
  all_digits ds →
  ((String.length ds ≤ 2)%nat → Dec.digits_Z ds < 100) ∧ ((String.length ds ≤ 1)%nat → Dec.digits_Z ds < 10).
Proof.
  unfold all_digits. destruct ds as [|a [|b [|c ds]]]; cbn [chars String.length]; intros Hd;
    [done| | |split; intros; lia].
  - apply Forall_cons in Hd as [Ha%digit_cases _]. cbn [chars] in Ha.
    repeat (apply elem_of_cons in Ha as [->|Ha]; [done|]). by apply elem_of_nil in Ha.
  - apply Forall_cons in Hd as [Ha%digit_cases [Hb%digit_cases _]%Forall_cons]. cbn [chars] in Ha, Hb.
    split; [intros _|intros; lia].
    repeat (apply elem_of_cons in Ha as [->|Ha];
      [repeat (apply elem_of_cons in Hb as [->|Hb]; [done|]); by apply elem_of_nil in Hb|]).
    by apply elem_of_nil in Ha.
Qed.

Lemma of_string_digits ds :
  ds ≠ "" → all_digits ds → Dec.of_string ds = Some (Dec.Fin false (Dec.digits_Z ds) 0).
Proof.
  intros Hne Hd. unfold Dec.of_string. rewrite clean_plain.
  2: { eapply Forall_impl; [done|]. apply digit_not_space. }
  assert (split_sign (chars ds) = (1, chars ds)) as ->.
  { destruct ds as [|c ds]; [done|]. cbn. apply Forall_cons in Hd as [Hc%digit_range _].
    by rewrite !(proj2 (Z.eqb_neq _ _)) by lia. }
  rewrite of_chars_chars. change (1 <? 0) with false. unfold Dec.parse_finite.
  rewrite <-(append_nil_r ds) at 1. rewrite span_digits_app by done. cbn.
  assert (String.eqb ds "" = false) as -> by by apply String.eqb_neq. cbn. by rewrite append_nil_r.
Qed.

(** [str] of a decimal without an exponent in its text. *)
Lemma of_string_to_string c e :
  0 ≤ c → e ≤ 0 → -6 < e + Z.of_nat (String.length (str_Z c)) →
  Dec.of_string (Dec.to_string (Dec.Fin false c e)) = Some (Dec.Fin false c e).
Proof.
  intros Hc He Hlen. unfold Dec.to_string. cbn [Dec.str_sign].
  rewrite (proj2 (Z.leb_le e 0)), (proj2 (Z.ltb_lt (-6) _)) by done. cbn [andb].
  rewrite Z.sub_diag. change (0 =? 0) with true. cbv iota. rewrite append_nil_r.
  change ("" +:+ ?s) with s.
  pose proof (str_Z_digits c Hc) as Hd. pose proof (digits_Z_str c Hc) as Hv.
  destruct (Z.eq_dec e 0) as [->|].
  - assert (Hne : str_Z c ≠ "") by (by destruct (str_Z_head c) as (? & ? & -> & _)).
    assert (Dec.point_digits (str_Z c) (0 + Z.of_nat (String.length (str_Z c))) = str_Z c) as ->.
    { unfold Dec.point_digits. rewrite (proj2 (Z.leb_gt _ _)), (proj2 (Z.leb_le _ _)).
      - unfold Dec.zeros. rewrite Z.add_0_l, Z.sub_diag. cbn. apply append_nil_r.
      - lia.
      - destruct (str_Z c); [done|]. cbn. lia. }
    by rewrite of_string_digits, Hv.
  - destruct (point_digits_places c (- e)) as (int & frac & Htext & Hne & Hint & Hfrac & Hl & Hval); [lia..|].
    replace (e + Z.of_nat (String.length (str_Z c))) with (Z.of_nat (String.length (str_Z c)) - - e) by lia.
    rewrite Htext, of_string_point, Hval, Hl by done. do 2 f_equal. lia.
Qed.

(** Among the smallest amounts are those whose text has an exponent. *)
Lemma small_amounts n :
  0 ≤ n < 100 → ∃ d, from_base_units n = Ok d ∧ to_base_units (AStr (Dec.to_string d)) = Ok n.
Proof.
  intros Hn.
  assert (Hall : forallb (λ k, match from_base_units (Z.of_nat k) with
    | Ok d => match to_base_units (AStr (Dec.to_string d)) with Ok z => z =? Z.of_nat k | Err _ => false end
    | Err _ => false end) (seq 0 100) = true) by (vm_compute; reflexivity).
  rewrite forallb_forall in Hall. specialize (Hall (Z.to_nat n)).
  rewrite Z2Nat.id in Hall by lia.
  assert (Hin : In (Z.to_nat n) (seq 0 100)) by (apply in_seq; lia). specialize (Hall Hin).
  destruct (from_base_units n) as [d|]; [|done]. exists d. split; [done|].
  destruct (to_base_units _) as [z|]; [|done]. by apply Z.eqb_eq in Hall as ->.
Qed.

(** The text that dictionaries and answers give of an amount converts back. *)
Lemma amount_text_converts n :
  0 ≤ n ≤ MAX_SUPPLY_BASE_UNITS →
  ∃ d, from_base_units n = Ok d ∧ to_base_units (AStr (Dec.to_string d)) = Ok n.
Proof.
  intros Hn. assert (Hr : 0 ≤ n < 10 ^ 20).
  { unfold MAX_SUPPLY_BASE_UNITS, MAX_SUPPLY_SYJ, BASE_UNITS_PER_SYJ in Hn. lia. }
  destruct (Z.lt_ge_cases n 100); [apply small_amounts; lia|].
  destruct (from_base_units_exact n Hr) as (c & e & Hd & Hc & He & Hcn).
  exists (Dec.Fin false c e). split; [done|].
  assert (0 < 10 ^ (e + 8)) by (apply Z.pow_pos_nonneg; lia). assert (c ≤ n) by nia.
  assert (Hlen : -6 < e + Z.of_nat (String.length (str_Z c))).
  { destruct (short_digits (str_Z c) (str_Z_digits c Hc)) as [Hl2 Hl1]. rewrite (digits_Z_str c Hc) in Hl2, Hl1.
    destruct (str_Z_head c) as (? & ? & Hs & _). assert (1 ≤ String.length (str_Z c))%nat by (rewrite Hs; cbn; lia).
    destruct (decide (e = -8)) as [->|]; [change (10 ^ (-8 + 8)) with 1 in Hcn|].
    { destruct (decide (String.length (str_Z c) ≤ 2)%nat) as [Hl|]; [specialize (Hl2 Hl)|]; lia. }
    destruct (decide (e = -7)) as [->|]; [change (10 ^ (-7 + 8)) with 10 in Hcn|lia].
    destruct (decide (String.length (str_Z c) ≤ 1)%nat) as [Hl|]; [specialize (Hl1 Hl)|]; lia. }
  rewrite (of_string_to_base_units _ false c e); [|apply of_string_to_string; lia|lia|].
  2: { unfold Dec.Etiny, Dec.Emin, Dec.Etop, Dec.Emax, Dec.prec. lia. }
  rewrite Z.max_r by lia. assert (H8 : BASE_UNITS_PER_SYJ = 10 ^ (e + 8) * 10 ^ (- e)).
  { rewrite <-Z.pow_add_r by lia. by replace (e + 8 + - e) with 8 by lia. }
  assert (0 < 10 ^ (- e)) by (apply Z.pow_pos_nonneg; lia).
  assert (Hunits : c * BASE_UNITS_PER_SYJ = n * 10 ^ (- e)) by (rewrite H8, Z.mul_assoc, Hcn; done).
  rewrite Hunits, decide_True by (apply Z.mod_mul; lia). f_equal. unfold Dec.to_int. cbn [Dec.signed].
  destruct (Z.leb_spec 0 e); [|by apply Z.div_mul; lia].
  assert (e = 0) as -> by lia. cbn. lia.
Qed.
