(* ===== verification/Wallet.v ===== *)
(** * blockchain/wallet.py and blockchain/network/identity.py: keys and addresses

    The elliptic-curve operations belong to the [cryptography] package and are
    the class [ECDSA]; what the code relies on is [ECDSALaws]: a signature the
    package makes verifies under the matching key, negating [s] modulo the
    group order keeps it valid, and key coordinates fit 32 bytes.  The module
    [ToyECDSA] is an instance for the witnesses. *)
From Stdlib Require Import Ascii.
From stdpp Require Import options.
From S2P Require Import Prelude Sha256 PyText Utils.

Local Open Scope Z_scope.

(** ** Bytes and hexadecimal text *)

(** [x.to_bytes(32, "big").hex()] *)
Definition hex32 (x : Z) : res string :=
  if (0 <=? x) && (x <? 2 ^ 256) then Ok (Sha.hex (Sha.be_bytes 32 x))
  else Err (OverflowError "int too big to convert").

(** [bytes.fromhex(s)] *)
Definition bytes_fromhex (s : string) : res (list Z) :=
  match fromhex s with
  | Some bs => Ok bs
  | None => Err (ValueError "non-hexadecimal number found in fromhex() arg")
  end.

Lemma digit_value_hex_digit x : 0 ≤ x < 16 → digit_value (Sha.hex_digit x) = Some x.
Proof.
  intros Hx. assert (∃ n, (n < 16)%nat ∧ x = Z.of_nat n) as (n & Hn & ->)
    by (exists (Z.to_nat x); lia).
  do 16 (destruct n as [|n]; [done|]). lia.
Qed.

Lemma hex_digit_not_space x : 0 ≤ x < 16 → is_space (Sha.hex_digit x) = false.
Proof.
  intros Hx. assert (∃ n, (n < 16)%nat ∧ x = Z.of_nat n) as (n & Hn & ->)
    by (exists (Z.to_nat x); lia).
  do 16 (destruct n as [|n]; [done|]). lia.
Qed.

Lemma nibbles b : 0 ≤ b < 256 → Z.land (Z.shiftr b 4) 15 * 16 + Z.land b 15 = b.
Proof.
  intros Hb. change 15 with (Z.ones 4). rewrite !Z.land_ones, Z.shiftr_div_pow2 by lia.
  change (2 ^ 4) with 16. rewrite (Z.mod_small (b / 16)).
  - rewrite Z.mul_comm. symmetry. apply Z.div_mod. lia.
  - split; [apply Z.div_pos; lia|]. apply Z.div_lt_upper_bound; lia.
Qed.

Lemma fromhex_hex_app bs r rest :
  Forall (λ b, 0 ≤ b < 256) bs → fromhex r = Some rest →
  fromhex (Sha.hex bs +:+ r) = Some (bs ++ rest).
Proof.
  intros Hbs Hr. unfold fromhex in *. induction Hbs as [|b bs Hb _ IH]; [done|].
  assert (0 ≤ Z.land (Z.shiftr b 4) 15 < 16) as Hh by apply Sha.land_15_range.
  assert (0 ≤ Z.land b 15 < 16) as Hl by apply Sha.land_15_range.
  cbn -[Z.land Z.shiftr Sha.hex_digit is_space digit_value].
  rewrite hex_digit_not_space, !digit_value_hex_digit, IH, nibbles by done. done.
Qed.

Lemma fromhex_hex bs : Forall (λ b, 0 ≤ b < 256) bs → fromhex (Sha.hex bs) = Some bs.
Proof.
  intros Hbs. rewrite <-(append_nil_r (Sha.hex bs)), <-(app_nil_r bs) at 1.
  rewrite app_nil_r. rewrite (fromhex_hex_app bs "" []) by done. by rewrite app_nil_r.
Qed.

Lemma int_from_bytes_app bs cs :
  int_from_bytes (bs ++ cs) = int_from_bytes bs * 256 ^ Z.of_nat (length cs) + int_from_bytes cs.
Proof.
  unfold int_from_bytes. rewrite foldl_app. generalize (foldl (λ acc b, acc * 256 + b) 0 bs).
  induction cs as [|c cs IH] using rev_ind; intros z; [simpl; lia|].
  rewrite !foldl_app, IH, length_app. cbn [foldl length].
  rewrite Nat2Z.inj_add, Z.pow_add_r by lia. lia.
Qed.

Lemma int_from_be_bytes n x : 0 ≤ x < 256 ^ Z.of_nat n → int_from_bytes (Sha.be_bytes n x) = x.
Proof.
  revert x. assert (Hgen : ∀ n x, int_from_bytes (Sha.be_bytes n x) = x mod 256 ^ Z.of_nat n).
  { clear. induction n as [|n IH]; intros x; [by rewrite Z.mod_1_r|].
    change (Sha.be_bytes (S n) x)
      with ([Z.land (Z.shiftr x (8 * Z.of_nat n)) 255] ++ Sha.be_bytes n x).
    rewrite int_from_bytes_app, IH, Sha.length_be_bytes.
    change 255 with (Z.ones 8). rewrite Z.land_ones, Z.shiftr_div_pow2 by lia.
    rewrite Z.pow_mul_r, Nat2Z.inj_succ, Z.pow_succ_r by lia. change (2 ^ 8) with 256.
    cbn [int_from_bytes foldl]. unfold int_from_bytes. cbn [foldl].
    rewrite (Z.mul_comm 256 (256 ^ _)), Z.rem_mul_r by lia. lia. }
  intros x Hx. rewrite Hgen. by apply Z.mod_small.
Qed.

(** ** The [cryptography] package *)

Definition SECP256K1_ORDER : Z :=
  0xFFFFFFFFFFFFFFFFFFFFFFFFFFFFFFFEBAAEDCE6AF48A03BBFD25E8CD0364141.

(** [public_numbers k]: [derive_private_key(k).public_key().public_numbers()];
    [on_curve]: whether [EllipticCurvePublicNumbers(x, y).public_key()] accepts
    the point; signatures are the pair the DER encoding carries, drawn with
    fresh randomness [rnd]. *)
Class ECDSA := {
  public_numbers : Z → option (Z * Z);
  on_curve : Z * Z → bool;
  ecdsa_sign (key : Z) (msg : list Z) (rnd : Z) : Z * Z;
  ecdsa_verify (pub : Z * Z) (sig : Z * Z) (msg : list Z) : bool;
}.

Class ECDSALaws (E : ECDSA) := {
  public_numbers_ok k : 0 < k < SECP256K1_ORDER →
    ∃ x y, public_numbers k = Some (x, y) ∧ on_curve (x, y) = true ∧
      0 ≤ x < 2 ^ 256 ∧ 0 ≤ y < 2 ^ 256;
  ecdsa_sign_range k m rnd :
    0 < (ecdsa_sign k m rnd).1 < SECP256K1_ORDER ∧ 0 < (ecdsa_sign k m rnd).2 < SECP256K1_ORDER;
  ecdsa_sign_verify k m rnd pub : 0 < k < SECP256K1_ORDER → public_numbers k = Some pub →
    ecdsa_verify pub (ecdsa_sign k m rnd) m = true;
  ecdsa_verify_neg pub r s m : 0 < s < SECP256K1_ORDER →
    ecdsa_verify pub (r, s) m = ecdsa_verify pub (r, SECP256K1_ORDER - s) m;
}.

(** ** Addresses *)

Definition ADDRESS_PREFIX : string := "SYJ".
Definition ADDRESS_HASH_LENGTH : nat := 40.

Definition derive_address (public_key_hex : string) : string :=
  ADDRESS_PREFIX +:+ take_str ADDRESS_HASH_LENGTH (sha256 public_key_hex).

Definition is_valid_address (address : string) : bool :=
  if negb (starts_with address ADDRESS_PREFIX) then false
  else
    let remainder := drop_str (String.length ADDRESS_PREFIX) address in
    if negb (String.length remainder =? ADDRESS_HASH_LENGTH)%nat
       || negb (String.eqb remainder (lower remainder)) then false
    else match int_of_text 16 remainder with Some _ => true | None => false end.

#[global] Arguments derive_address : simpl never.
#[global] Arguments is_valid_address : simpl never.

Lemma scan_digits_all_hex acc n l us :
  l ≠ [] → Forall (λ c, Sha.is_lower_hex c = true) l →
  ∃ v n', scan_digits 16 us acc n l = Some (v, n', []).
Proof.
  intros Hne Hl. revert acc n us Hne. induction Hl as [|c l Hc _ IH]; intros acc n us Hne; [done|].
  assert (∃ d, digit_value c = Some d ∧ d < 16 ∧ code c ≠ 95) as (d & Hd & Hlt & H95).
  { clear -Hc. destruct c as [[] [] [] [] [] [] [] []]; vm_compute in Hc; try discriminate;
      (eexists; split_and!; [reflexivity|vm_compute; reflexivity|vm_compute; discriminate]). }
  cbn [scan_digits]. rewrite (proj2 (Z.eqb_neq _ _) H95), Hd, (proj2 (Z.ltb_lt _ _) Hlt).
  destruct l as [|c' l]; [by do 2 eexists|]. by apply IH.
Qed.

Lemma lower_hex_char c : Sha.is_lower_hex c = true →
  lower_char c = c ∧ is_unicode_space c = false ∧ code c ≠ 43 ∧ code c ≠ 45.
Proof. destruct c as [[] [] [] [] [] [] [] []]; vm_compute; intros; split_and!; done. Qed.

Lemma skip_hex_prefix_lower l :
  Forall (λ c, Sha.is_lower_hex c = true) l → skip_hex_prefix l = l.
Proof.
  intros Hl. destruct l as [|c1 [|c2 l]]; [done..|]. cbn.
  apply Forall_cons in Hl as [_ [Hc _]%Forall_cons].
  assert ((code c2 =? 120) || (code c2 =? 88) = false) as ->.
  { revert Hc. destruct c2 as [[] [] [] [] [] [] [] []]; vm_compute; done. }
  by rewrite andb_false_r.
Qed.

Lemma int_of_lower_hex s :
  s ≠ "" → Forall (λ c, Sha.is_lower_hex c = true) (chars s) → is_Some (int_of_text 16 s).
Proof.
  intros Hne Hs. unfold int_of_text.
  assert (skip_spaces (chars s) = chars s) as ->.
  { destruct Hs as [|c l Hc _]; [done|]. cbn. by destruct (lower_hex_char c Hc) as (_ & -> & _). }
  assert (split_sign (chars s) = (1, chars s)) as ->.
  { destruct Hs as [|c l Hc _]; [done|]. cbn.
    destruct (lower_hex_char c Hc) as (_ & _ & ?%Z.eqb_neq & ?%Z.eqb_neq).
    by case_match; [congruence|]; case_match; [congruence|]. }
  change (16 =? 16) with true. cbn iota. rewrite skip_hex_prefix_lower by done.
  destruct (scan_digits_all_hex 0 0 (chars s) true) as (v & n & ->); [by destruct s|done|].
  cbn. by eexists.
Qed.

Lemma lower_lower_hex s :
  Forall (λ c, Sha.is_lower_hex c = true) (chars s) → lower s = s.
Proof.
  intros Hs. unfold lower. rewrite <-(of_chars_chars s) at 2. f_equal.
  induction Hs as [|c l Hc _ IH]; [done|]. rewrite fmap_cons, IH.
  by destruct (lower_hex_char c Hc) as [-> _].
Qed.

Lemma lower_hex_address h :
  String.length h = ADDRESS_HASH_LENGTH → Forall (λ c, Sha.is_lower_hex c = true) (chars h) →
  is_valid_address (ADDRESS_PREFIX +:+ h) = true.
Proof.
  intros Hlen Hh. unfold is_valid_address.
  assert (starts_with (ADDRESS_PREFIX +:+ h) ADDRESS_PREFIX = true) as ->
    by (apply starts_with_true; by eexists).
  change (drop_str _ _) with (drop_str 0 h). unfold drop_str. rewrite drop_0, of_chars_chars.
  rewrite Hlen, lower_lower_hex, String.eqb_refl by done. cbn.
  destruct (int_of_lower_hex h) as [v ->]; [by intros ->|done|done].
Qed.

(** The address derived from any public key text is a valid address. *)
Theorem derive_address_valid pk : is_valid_address (derive_address pk) = true.
Proof.
  apply lower_hex_address; unfold take_str.
  - rewrite <-length_chars, chars_of_chars, length_take, length_chars, length_sha256. done.
  - rewrite chars_of_chars. apply Forall_take, sha256_lower_hex.
Qed.

(** Validity is wider than the format it stands for: underscores, signs,
    spaces and the [0x] prefix that [int(s, 16)] reads pass for hexadecimal
    digits, although no derived address contains them. *)
Theorem is_valid_address_not_hex :
  is_valid_address "SYJ0x00_00_00_00_00_00_00_00_00_00_00_00_00" = true ∧
  is_valid_address "SYJ                                       1" = true ∧
  is_valid_hex_hash "-00000000000000000000000000000000000000000000000000000000000000f" 64 = true ∧
  ∀ pk, derive_address pk ≠ "SYJ                                       1".
Proof.
  split_and!; [vm_compute; reflexivity..|]. intros pk E.
  assert (Hc : Forall (λ c, Sha.is_lower_hex c = true)
                 (chars (take_str ADDRESS_HASH_LENGTH (sha256 pk)))).
  { unfold take_str. rewrite chars_of_chars. apply Forall_take, sha256_lower_hex. }
  unfold derive_address in E. apply (append_inj_l "SYJ" _ (repeat_char " " 39 +:+ "1")) in E.
  rewrite E in Hc. cbn in Hc. apply Forall_cons in Hc as [Hc _]. discriminate.
Qed.

(** ** Wallet *)

Module Wallet.

Record t := Make {
  private_key_hex : string;
  public_key_hex : string;
  address : string;
}.

#[global] Instance t_eq_dec : EqDecision t.
Proof. solve_decision. Defined.

Section ops.
Context `{E : ECDSA}.

(** The text of the public key: both coordinates. *)
Definition public_hex (pub : Z * Z) : res string :=
  x ← hex32 pub.1; y ← hex32 pub.2; Ok (x +:+ y).

(** [ec.derive_private_key] *)
Definition derive_private_key (k : Z) : res (Z * Z) :=
  match public_numbers k with
  | Some pub => Ok pub
  | None => Err (ValueError "private_value")
  end.

(** [scalar] is the key [generate_private_key] draws. *)
Definition create (scalar : Z) : res t :=
  pub ← derive_private_key scalar;
  priv ← hex32 scalar;
  pub_hex ← public_hex pub;
  Ok (Make priv pub_hex (derive_address pub_hex)).

Definition from_private_key (private_key_hex : string) : res t :=
  pub ← catch
    (raw ← bytes_fromhex private_key_hex;
     let k := int_from_bytes raw in
     if negb (length raw =? 32)%nat || (k =? 0) || (SECP256K1_ORDER <=? k)
     then Err (ValueError "private key scalar out of range")
     else derive_private_key k)
    (λ _, true) (λ _, Err (WalletError "Invalid private key"));
  pub_hex ← public_hex pub;
  Ok (Make (lower private_key_hex) pub_hex (derive_address pub_hex)).

Definition export_keys (w : t) : list (string * string) :=
  [("public_key", public_key_hex w); ("address", address w)].

(** [s] in the lower half of the group order. *)
Definition low_s (sig : Z * Z) : Z * Z :=
  let '(r, s) := sig in
  (r, if SECP256K1_ORDER / 2 <? s then SECP256K1_ORDER - s else s).

Definition signature_hex (sig : Z * Z) : res string :=
  r ← hex32 sig.1; s ← hex32 sig.2; Ok (r +:+ s).

(** [Wallet.sign] and [P2PIdentity.sign]. *)
Definition sign_with (private_key_hex message : string) (rnd : Z) : res string :=
  raw ← bytes_fromhex private_key_hex;
  let k := int_from_bytes raw in
  _ ← derive_private_key k;
  signature_hex (low_s (ecdsa_sign k (utf8 message) rnd)).

Definition sign (w : t) (message : string) (rnd : Z) : res string :=
  sign_with (private_key_hex w) message rnd.
End ops.

End Wallet.

Section verify.
Context `{E : ECDSA}.

Definition verify_signature (public_key_hex message signature_hex : string) : bool :=
  match fromhex public_key_hex, fromhex signature_hex with
  | Some pub, Some sig =>
      if negb (length pub =? 64)%nat || negb (length sig =? 64)%nat then false
      else
        let s := int_from_bytes (drop 32 sig) in
        if (s =? 0) || (SECP256K1_ORDER / 2 <? s) then false
        else
          let point := (int_from_bytes (take 32 pub), int_from_bytes (drop 32 pub)) in
          on_curve point
            && ecdsa_verify point (int_from_bytes (take 32 sig), s) (utf8 message)
  | _, _ => false
  end.
End verify.

#[global] Arguments verify_signature : simpl never.

(** ** P2P identities *)

Module P2PIdentity.

Record t := Make {
  node_id : string;
  private_key_hex : string;
  public_key_hex : string;
}.

Section ops.
Context `{E : ECDSA}.

Definition generate (node_id : string) (scalar : Z) : res t :=
  pub ← Wallet.derive_private_key scalar;
  priv ← hex32 scalar;
  pub_hex ← Wallet.public_hex pub;
  Ok (Make node_id priv pub_hex).

Definition sign (i : t) (message : string) (rnd : Z) : res string :=
  Wallet.sign_with (private_key_hex i) message rnd.
End ops.

End P2PIdentity.

Section identity.
Context `{E : ECDSA}.

(** The same text as [verify_signature]. *)
Definition verify_identity_signature (public_key_hex message signature_hex : string) : bool :=
  match fromhex public_key_hex, fromhex signature_hex with
  | Some pub, Some sig =>
      if negb (length pub =? 64)%nat || negb (length sig =? 64)%nat then false
      else
        let s := int_from_bytes (drop 32 sig) in
        if (s =? 0) || (SECP256K1_ORDER / 2 <? s) then false
        else
          let point := (int_from_bytes (take 32 pub), int_from_bytes (drop 32 pub)) in
          on_curve point
            && ecdsa_verify point (int_from_bytes (take 32 sig), s) (utf8 message)
  | _, _ => false
  end.

Definition is_valid_public_key (public_key_hex : string) : bool :=
  match fromhex public_key_hex with
  | Some raw =>
      if negb (length raw =? 64)%nat then false
      else on_curve (int_from_bytes (take 32 raw), int_from_bytes (drop 32 raw))
  | None => false
  end.
End identity.

(** ** Signing and verifying *)

(** A key pair the library would hand out. *)
Definition key_pair `{E : ECDSA} (priv pub : string) (k : Z) (point : Z * Z) : Prop :=
  fromhex priv = Some (Sha.be_bytes 32 k) ∧ 0 < k < SECP256K1_ORDER ∧
  public_numbers k = Some point ∧ Wallet.public_hex point = Ok pub.

Section sign_verify.
Context `{L : ECDSALaws}.

Lemma hex32_Ok x : 0 ≤ x < 2 ^ 256 → hex32 x = Ok (Sha.hex (Sha.be_bytes 32 x)).
Proof. intros Hx. unfold hex32. by rewrite (proj2 (Z.leb_le _ _)), (proj2 (Z.ltb_lt _ _)) by lia. Qed.

Lemma hex32_range x s : hex32 x = Ok s → 0 ≤ x < 2 ^ 256.
Proof. unfold hex32. case_match eqn:Hx; [|done]. intros _. lia. Qed.

Lemma fromhex_pair x y :
  fromhex (Sha.hex (Sha.be_bytes 32 x) +:+ Sha.hex (Sha.be_bytes 32 y)) =
  Some (Sha.be_bytes 32 x ++ Sha.be_bytes 32 y).
Proof.
  apply fromhex_hex_app; [apply Sha.be_bytes_range|].
  apply fromhex_hex, Sha.be_bytes_range.
Qed.

Lemma int_take_pair x y :
  0 ≤ x < 2 ^ 256 → int_from_bytes (take 32 (Sha.be_bytes 32 x ++ Sha.be_bytes 32 y)) = x.
Proof.
  intros Hx. rewrite take_app_length' by (by rewrite Sha.length_be_bytes).
  by apply int_from_be_bytes.
Qed.

Lemma int_drop_pair x y :
  0 ≤ y < 2 ^ 256 → int_from_bytes (drop 32 (Sha.be_bytes 32 x ++ Sha.be_bytes 32 y)) = y.
Proof.
  intros Hy. rewrite drop_app_length' by (by rewrite Sha.length_be_bytes).
  by apply int_from_be_bytes.
Qed.

Lemma verify_hex_pair x y r s message :
  0 ≤ x < 2 ^ 256 → 0 ≤ y < 2 ^ 256 → 0 ≤ r < 2 ^ 256 → 0 < s ≤ SECP256K1_ORDER / 2 →
  verify_signature (Sha.hex (Sha.be_bytes 32 x) +:+ Sha.hex (Sha.be_bytes 32 y)) message
    (Sha.hex (Sha.be_bytes 32 r) +:+ Sha.hex (Sha.be_bytes 32 s)) =
  on_curve (x, y) && ecdsa_verify (x, y) (r, s) (utf8 message).
Proof.
  intros Hx Hy Hr Hs. unfold verify_signature. rewrite !fromhex_pair.
  assert (0 ≤ s < 2 ^ 256).
  { split; [lia|]. eapply Z.le_lt_trans; [apply Hs|]. by vm_compute. }
  rewrite !length_app, !Sha.length_be_bytes, !int_take_pair, !int_drop_pair by done.
  change (32 + 32 =? 64)%nat with true. cbn [negb orb].
  rewrite (proj2 (Z.eqb_neq _ _)), (proj2 (Z.ltb_ge _ _)) by lia. done.
Qed.

Lemma low_s_range r s :
  0 < s < SECP256K1_ORDER → 0 < (Wallet.low_s (r, s)).2 ≤ SECP256K1_ORDER / 2.
Proof.
  intros Hs. cbn. pose proof (Z.div_mod SECP256K1_ORDER 2 ltac:(done)) as Hd.
  pose proof (Z.mod_pos_bound SECP256K1_ORDER 2 ltac:(done)).
  destruct (Z.ltb_spec (SECP256K1_ORDER / 2) s); lia.
Qed.

Lemma verify_low_s pub r s m : 0 < s < SECP256K1_ORDER →
  ecdsa_verify pub (Wallet.low_s (r, s)) m = ecdsa_verify pub (r, s) m.
Proof using L. intros Hs. cbn. case_match; [by rewrite <-ecdsa_verify_neg|done]. Qed.

Lemma sign_with_verifies priv pub k point message rnd :
  key_pair priv pub k point →
  ∃ sig, Wallet.sign_with priv message rnd = Ok sig ∧
         verify_signature pub message sig = true.
Proof using L.
  intros (Hpriv & Hk & Hpub & Hhex). unfold Wallet.sign_with, bytes_fromhex.
  assert (SECP256K1_ORDER < 2 ^ 256) by by vm_compute.
  rewrite Hpriv. cbn [mbind res_bind]. rewrite int_from_be_bytes by (change (256 ^ Z.of_nat 32) with (2 ^ 256); lia).
  unfold Wallet.derive_private_key. rewrite Hpub. cbn [mbind res_bind].
  destruct (public_numbers_ok k Hk) as (x & y & Hxy & Hcurve & Hx & Hy).
  rewrite Hpub in Hxy. injection Hxy as ->.
  pose proof (ecdsa_sign_range k (utf8 message) rnd) as [Hr Hs].
  pose proof (ecdsa_sign_verify k (utf8 message) rnd (x, y) Hk Hpub) as Hv.
  destruct (ecdsa_sign k (utf8 message) rnd) as [r s]. cbn [fst snd] in Hr, Hs.
  pose proof (low_s_range r s Hs) as Hlow. pose proof (verify_low_s (x, y) r s (utf8 message) Hs) as Hneg.
  assert (Wallet.low_s (r, s) = (r, (Wallet.low_s (r, s)).2)) as Heq by done.
  set (s' := (Wallet.low_s (r, s)).2) in *. clearbody s'. rewrite Heq in *.
  unfold Wallet.signature_hex, Wallet.public_hex in *. cbn [fst snd] in *.
  assert (0 ≤ s' < 2 ^ 256).
  { split; [lia|]. eapply Z.le_lt_trans; [apply Hlow|]. by vm_compute. }
  rewrite !hex32_Ok in Hhex |- * by lia. cbn [mbind res_bind] in *.
  apply (inj Ok) in Hhex as <-.
  eexists; split; [done|].
  rewrite verify_hex_pair by lia. by rewrite Hcurve, Hneg, Hv.
Qed.

Lemma create_key_pair k w :
  Wallet.create k = Ok w → 0 < k < SECP256K1_ORDER →
  ∃ point, key_pair (Wallet.private_key_hex w) (Wallet.public_key_hex w) k point.
Proof.
  unfold Wallet.create, Wallet.derive_private_key. intros Hw Hk.
  destruct (public_numbers k) as [pub|] eqn:Hpub; [|done]. cbn [mbind res_bind] in Hw.
  apply res_bind_Ok in Hw as (priv & Hpriv & Hw). apply res_bind_Ok in Hw as (ph & Hph & Hw).
  apply (inj Ok) in Hw as <-. exists pub.
  unfold key_pair. cbn [Wallet.private_key_hex Wallet.public_key_hex]. split_and!; [|lia|lia|done|done].
  pose proof (hex32_range _ _ Hpriv). rewrite hex32_Ok in Hpriv by done.
  apply (inj Ok) in Hpriv as <-. apply fromhex_hex, Sha.be_bytes_range.
Qed.
End sign_verify.

(** Whatever a wallet of this program signs, [verify_signature] accepts:
    for a wallet created from any key of the group, every message and every
    choice of signing randomness, signing succeeds, and the signature, brought
    to its low-[s] form, verifies under the wallet's public key. *)
Theorem sign_verifies `{L : ECDSALaws} k w message rnd :
  Wallet.create k = Ok w → 0 < k < SECP256K1_ORDER →
  ∃ sig, Wallet.sign w message rnd = Ok sig ∧
         verify_signature (Wallet.public_key_hex w) message sig = true.
Proof.
  intros Hw Hk. destruct (create_key_pair k w Hw Hk) as [point Hkp].
  by apply (sign_with_verifies _ _ k point).
Qed.

(** ** An instance: not a signature scheme, but one that satisfies the laws *)

Module ToyECDSA.

(** The "signature" is a checksum of the message with the key as [s]. *)
Definition checksum (m : list Z) : Z := 1 + foldl Z.add 0 m mod (SECP256K1_ORDER - 1).

Definition in_group (k : Z) : bool := (0 <? k) && (k <? SECP256K1_ORDER).

#[export] Instance ecdsa : ECDSA := {
  public_numbers k := if in_group k then Some (k, k) else None;
  on_curve p := in_group p.1 && (p.1 =? p.2);
  ecdsa_sign k m _ := (checksum m, if in_group k then k else 1);
  ecdsa_verify p sig m :=
    (sig.1 =? checksum m) && ((sig.2 =? p.1) || (sig.2 =? SECP256K1_ORDER - p.1));
}.

Lemma in_group_true k : in_group k = true ↔ 0 < k < SECP256K1_ORDER.
Proof. unfold in_group. lia. Qed.

Lemma checksum_range m : 0 < checksum m < SECP256K1_ORDER.
Proof.
  unfold checksum. pose proof (Z.mod_pos_bound (foldl Z.add 0 m) (SECP256K1_ORDER - 1) eq_refl).
  lia.
Qed.

#[export] Instance ecdsa_laws : ECDSALaws ecdsa.
Proof.
  assert (SECP256K1_ORDER < 2 ^ 256) by by vm_compute.
  split; cbn -[SECP256K1_ORDER Z.pow].
  - intros k Hk. rewrite (proj2 (in_group_true k) Hk). exists k, k.
    rewrite (proj2 (in_group_true k) Hk), Z.eqb_refl. split_and!; try done; lia.
  - intros k m _. split; [apply checksum_range|]. case_match eqn:Hk.
    + by apply in_group_true.
    + by vm_compute.
  - intros k m _ pub Hk. rewrite (proj2 (in_group_true k) Hk). intros [= <-]. cbn.
    by rewrite !Z.eqb_refl.
  - intros pub r s m Hs. destruct (r =? checksum m); [|done]. cbn. lia.
Qed.

End ToyECDSA.

Definition toy_wallet (k : Z) : Wallet.t :=
  match Wallet.create (E := ToyECDSA.ecdsa) k with
  | Ok w => w
  | Err _ => Wallet.Make "" "" ""
  end.

Lemma sign_verifies_witness :
  ∃ sig, Wallet.sign (E := ToyECDSA.ecdsa) (toy_wallet 7) "hello" 0 = Ok sig ∧
  verify_signature (E := ToyECDSA.ecdsa) (Wallet.public_key_hex (toy_wallet 7)) "hello" sig = true.
Proof.
  apply (sign_verifies (L := ToyECDSA.ecdsa_laws) 7); [vm_compute; reflexivity|].
  split; vm_compute; reflexivity.
Defined.

(** ** Signature text is malleable

    Verification reads the bytes of the signature text only, and
    [bytes.fromhex] skips spaces. *)
Lemma fromhex_space s : fromhex (String " " s) = fromhex s.
Proof. done. Qed.

Lemma verify_signature_space `{E : ECDSA} pk message sig :
  verify_signature pk message (String " " sig) = verify_signature pk message sig.
Proof. done. Qed.
