(* ===== verification/Transaction.v ===== *)
(** * blockchain/transaction.py: transfers and coinbase issuance

    [Transaction.t] is the dataclass; [init] is its constructor, [sign] and
    [verify] its methods, [to_dict] and [from_dict] its JSON form.  Fields a
    dictionary gives with another type than declared are kept by the code
    unchecked; the model stops there with [Untyped]. *)
From Stdlib Require Import Ascii.
From stdpp Require Import options.
From S2P Require Import Prelude Sha256 PyText Json Utils NativeAsset Wallet.

Local Open Scope Z_scope.

(** ** Reading dictionaries *)

Definition py_dict := list (string * json).

(** [data[k]] and [data.get(k)] *)
Definition dict_index (k : string) (d : py_dict) : res json :=
  match dict_get k d with Some v => Ok v | None => Err (KeyError k) end.
Definition dict_get_or (k : string) (default : json) (d : py_dict) : json :=
  match dict_get k d with Some v => v | None => default end.

(** [int(x)] *)
Definition py_int (x : json) : res Z :=
  match x with
  | JNum n => Ok (num_int n)
  | JBool b => Ok (if b then 1 else 0)
  | JStr s =>
      match int_of_text 10 s with
      | Some z => Ok z
      | None => Err (ValueError "invalid literal for int() with base 10")
      end
  | _ => Err (TypeError "int() argument must be a string or a real number")
  end.

Definition as_str (field : string) (x : json) : res string :=
  match x with JStr s => Ok s | _ => Err (Untyped field) end.
Definition as_opt_str (field : string) (x : json) : res (option string) :=
  match x with JNull => Ok None | JStr s => Ok (Some s) | _ => Err (Untyped field) end.
Definition as_opt_num (field : string) (x : json) : res (option pynum) :=
  match x with JNull => Ok None | JNum n => Ok (Some n) | _ => Err (Untyped field) end.
(** A text field the constructor tests with [or] or [not]: every falsy value
    counts as empty. *)
Definition as_str_or_empty (field : string) (x : json) : res string :=
  match x with
  | JStr s => Ok s
  | JNull | JBool false | JArr [] | JObj [] => Ok ""
  | JNum n => if num_val n =? 0 then Ok "" else Err (Untyped field)
  | _ => Err (Untyped field)
  end.

Definition opt_str_json (o : option string) : json :=
  match o with Some s => JStr s | None => JNull end.

(** The [amount] argument; the text of a list or dictionary is no number. *)
Definition amount_of_json (x : json) : option AmountInput :=
  match x with
  | JNull => None
  | JBool b => Some (ABool b)
  | JNum (PInt z) => Some (AInt z)
  | JNum n => Some (AFloat (str_num n))
  | JStr s => Some (AStr s)
  | JArr _ => Some (AStr "[]")
  | JObj _ => Some (AStr "{}")
  end.

(** ** Data *)

Definition COINBASE_SENDER : string := "SYJ-COINBASE-0000000000000000000000000000".
Definition GENESIS_SENDER : string := "SYJ-GENESIS-0000000000000000000000000000".

Module Transaction.

Record t := Make {
  sender : string;
  receiver : string;
  amount_base_units : Z;
  timestamp : pynum;
  sender_public_key : option string;
  signature : option string;
  tx_hash : string;
}.

#[global] Instance t_eq_dec : EqDecision t.
Proof. solve_decision. Defined.

(** The [amount] property. *)
Definition amount (tx : t) : Z := amount_base_units tx.
Definition amount_syj (tx : t) : res Dec.t := from_base_units (amount_base_units tx).

Definition set_tx_hash (h : string) (tx : t) : t :=
  Make (sender tx) (receiver tx) (amount_base_units tx) (timestamp tx)
    (sender_public_key tx) (signature tx) h.

(** ** Hashing *)

Definition signing_payload (tx : t) : py_dict :=
  [("sender", JStr (sender tx));
   ("receiver", JStr (receiver tx));
   ("amount_base_units", JNum (PInt (amount_base_units tx)));
   ("timestamp", JNum (timestamp tx))].

Definition hash_payload (tx : t) : py_dict :=
  signing_payload tx ++
  [("sender_public_key", opt_str_json (sender_public_key tx));
   ("signature", opt_str_json (signature tx))].

Definition compute_hash (tx : t) : string := sha256 (deterministic_json (JObj (hash_payload tx))).

Definition signing_message (tx : t) : string := deterministic_json (JObj (signing_payload tx)).

(** ** Construction *)

Definition is_value_error (e : exn) : bool :=
  match e with ValueError _ => true | _ => false end.

Definition exn_msg (e : exn) : string :=
  match e with
  | ValidationError m | StorageError m | WalletError m | ValueError m
  | KeyError m | TypeError m | AttributeError m | OverflowError m | Untyped m => m
  | HTTPException _ m | AssertionError m => m
  | DecimalOverflow | Exit _ => ""
  end.

(** [Transaction(...)]; [clock] is what [current_timestamp] reads. *)
Definition init (clock : Z) (sender receiver : string) (amount : option AmountInput)
    (amount_base_units : option json) (timestamp : option pynum)
    (sender_public_key signature : option string) (tx_hash : string) : res t :=
  units ←
    match amount_base_units, amount with
    | Some _, Some _ =>
        Err (ValidationError "Provide either amount or amount_base_units, not both.")
    | None, None => Err (ValidationError "Transaction amount is required.")
    | None, Some a =>
        catch (to_base_units a) is_value_error (λ e, Err (ValidationError (exn_msg e)))
    | Some (JNum (PInt z)), None => Ok z
    | Some _, None => Err (ValidationError "SYJ amount_base_units must be an integer.")
    end;
  let tx := Make sender receiver units
              (default (current_timestamp clock) timestamp)
              sender_public_key signature "" in
  Ok (set_tx_hash (if String.eqb tx_hash "" then compute_hash tx else tx_hash) tx).

(** The [amount] setter. *)
Definition set_amount (value : AmountInput) (tx : t) : res t :=
  units ← catch (to_base_units value) is_value_error (λ e, Err (ValidationError (exn_msg e)));
  Ok (Make (sender tx) (receiver tx) units (timestamp tx)
        (sender_public_key tx) (signature tx) (tx_hash tx)).

Definition new_coinbase (clock : Z) (receiver : string) (amount : AmountInput) : res t :=
  init clock COINBASE_SENDER receiver (Some amount) None None None None "".

Definition new_coinbase_base_units (clock : Z) (receiver : string) (amount_base_units : Z) : res t :=
  init clock COINBASE_SENDER receiver None (Some (JNum (PInt amount_base_units))) None None None "".

Definition is_coinbase (tx : t) : bool := String.eqb (sender tx) COINBASE_SENDER.

(** ** Dictionaries *)

Definition to_dict (tx : t) : res py_dict :=
  amount ← amount_syj tx;
  Ok [("sender", JStr (sender tx));
      ("receiver", JStr (receiver tx));
      ("amount", JStr (Dec.to_string amount));
      ("amount_base_units", JNum (PInt (amount_base_units tx)));
      ("timestamp", JNum (timestamp tx));
      ("sender_public_key", opt_str_json (sender_public_key tx));
      ("signature", opt_str_json (signature tx));
      ("tx_hash", JStr (tx_hash tx))].

(** [data["timestamp"]] for the genesis sender, [int(data["timestamp"])] for
    every other. *)
Definition timestamp_of_dict (data : py_dict) : res (option pynum) :=
  ts ← dict_index "timestamp" data;
  match dict_get "sender" data with
  | Some (JStr s) =>
      if String.eqb s GENESIS_SENDER then as_opt_num "timestamp" ts
      else (λ z, Some (PInt z)) <$> py_int ts
  | _ => (λ z, Some (PInt z)) <$> py_int ts
  end.

Definition from_dict (clock : Z) (data : py_dict) : res t :=
  match dict_get "amount_base_units" data with
  | Some units =>
      _ ← match units with
          | JNum (PInt _) => Ok tt
          | _ => Err (ValueError "amount_base_units must be an integer")
          end;
      sender ← dict_index "sender" data ≫= as_str "sender";
      receiver ← dict_index "receiver" data ≫= as_str "receiver";
      timestamp ← timestamp_of_dict data;
      pk ← as_opt_str "sender_public_key" (dict_get_or "sender_public_key" JNull data);
      sig ← as_opt_str "signature" (dict_get_or "signature" JNull data);
      h ← as_str_or_empty "tx_hash" (dict_get_or "tx_hash" (JStr "") data);
      init clock sender receiver None (Some units) timestamp pk sig h
  | None =>
      sender ← dict_index "sender" data ≫= as_str "sender";
      receiver ← dict_index "receiver" data ≫= as_str "receiver";
      amount ← dict_index "amount" data;
      timestamp ← timestamp_of_dict data;
      pk ← as_opt_str "sender_public_key" (dict_get_or "sender_public_key" JNull data);
      sig ← as_opt_str "signature" (dict_get_or "signature" JNull data);
      h ← as_str_or_empty "tx_hash" (dict_get_or "tx_hash" (JStr "") data);
      init clock sender receiver (amount_of_json amount) None timestamp pk sig h
  end.

(** ** Signing and verifying *)

Section crypto.
Context `{E : ECDSA}.

Definition sign (wallet : Wallet.t) (rnd : Z) (tx : t) : res t :=
  if String.eqb (sender tx) COINBASE_SENDER then
    Err (ValidationError "Coinbase transactions cannot be signed.")
  else if negb (String.eqb (Wallet.address wallet) (sender tx)) then
    Err (ValidationError "Wallet address does not match transaction sender.")
  else
    sig ← Wallet.sign wallet (signing_message tx) rnd;
    let tx' := Make (sender tx) (receiver tx) (amount_base_units tx) (timestamp tx)
                 (Some (Wallet.public_key_hex wallet)) (Some sig) (tx_hash tx) in
    Ok (set_tx_hash (compute_hash tx') tx').

(** [not x] for an optional text. *)
Definition missing (o : option string) : bool :=
  match o with None => true | Some s => String.eqb s "" end.

Definition verify (tx : t) : bool :=
  if amount_base_units tx <=? 0 then false
  else if negb (validate_base_units (amount_base_units tx) false).1 then false
  else if negb (is_valid_address (receiver tx)) then false
  else if negb (String.eqb (tx_hash tx) (compute_hash tx)) then false
  else if is_coinbase tx then
    bool_decide (sender_public_key tx = None) && bool_decide (signature tx = None)
  else if negb (is_valid_address (sender tx)) then false
  else if missing (sender_public_key tx) || missing (signature tx) then false
  else
    let pk := default "" (sender_public_key tx) in
    if negb (String.eqb (derive_address pk) (sender tx)) then false
    else verify_signature pk (signing_message tx) (default "" (signature tx)).
End crypto.


(** ** The hash binds the content *)

Lemma signing_payload_ok tx : json_ok (JObj (signing_payload tx)) = true.
Proof. destruct tx as [s r a [|] pk sig h]; reflexivity. Qed.

Lemma hash_payload_ok tx : json_ok (JObj (hash_payload tx)) = true.
Proof. destruct tx as [s r a [|] [pk|] [sig|] h]; reflexivity. Qed.

Lemma opt_str_json_inj o1 o2 : opt_str_json o1 = opt_str_json o2 → o1 = o2.
Proof. destruct o1, o2; simpl; congruence. Qed.

Lemma canon_opt_str o : canon (opt_str_json o) = opt_str_json o.
Proof. by destruct o. Qed.

Lemma canon_hash_payload tx :
  canon (JObj (hash_payload tx)) =
  JObj [("amount_base_units", JNum (PInt (amount_base_units tx)));
        ("receiver", JStr (receiver tx)); ("sender", JStr (sender tx));
        ("sender_public_key", opt_str_json (sender_public_key tx));
        ("signature", opt_str_json (signature tx)); ("timestamp", JNum (timestamp tx))].
Proof. destruct tx as [s r a [|] [pk|] [sig|] h]; reflexivity. Qed.

Lemma canon_signing_payload tx :
  canon (JObj (signing_payload tx)) =
  JObj [("amount_base_units", JNum (PInt (amount_base_units tx)));
        ("receiver", JStr (receiver tx)); ("sender", JStr (sender tx));
        ("timestamp", JNum (timestamp tx))].
Proof. by destruct tx. Qed.

(** Equality of everything but the recorded hash. *)
Definition same_content (tx1 tx2 : t) : Prop := set_tx_hash "" tx1 = set_tx_hash "" tx2.

#[global] Instance same_content_equiv : Equivalence same_content.
Proof. unfold same_content. split; repeat intro; congruence. Qed.

#[global] Instance compute_hash_proper : Proper (same_content ==> (=)) compute_hash.
Proof. intros [] [] E. unfold same_content in E. by simplify_eq/=. Qed.

Lemma hash_text_inj tx1 tx2 :
  deterministic_json (JObj (hash_payload tx1)) = deterministic_json (JObj (hash_payload tx2)) →
  same_content tx1 tx2.
Proof.
  intros Hj%deterministic_json_inj; [|apply hash_payload_ok..].
  rewrite !canon_hash_payload in Hj. destruct tx1, tx2; unfold same_content; cbn in *.
  injection Hj as -> -> -> ?%opt_str_json_inj ?%opt_str_json_inj ->. by subst.
Qed.

Lemma signing_message_inj tx1 tx2 :
  signing_message tx1 = signing_message tx2 →
  sender tx1 = sender tx2 ∧ receiver tx1 = receiver tx2 ∧
  amount_base_units tx1 = amount_base_units tx2 ∧ timestamp tx1 = timestamp tx2.
Proof.
  intros Hj%deterministic_json_inj; [|apply signing_payload_ok..].
  rewrite !canon_signing_payload in Hj. by injection Hj as -> -> -> ->.
Qed.

(** C23: The transaction hash commits to every field it covers: two
    transactions with the same computed hash have the same sender, receiver,
    amount, timestamp, public key and signature, unless their two hash texts
    are a SHA-256 collision. *)
Theorem compute_hash_binding tx1 tx2 :
  compute_hash tx1 = compute_hash tx2 →
  same_content tx1 tx2 ∨
  collide (deterministic_json (JObj (hash_payload tx1)))
          (deterministic_json (JObj (hash_payload tx2))).
Proof.
  intros [?|?]%sha256_inj_or; [left; by apply hash_text_inj|by right].
Qed.

Lemma compute_hash_binding_witness :
  let tx1 := Make "a" "b" 5 (PInt 7) None None "" in
  let tx2 := Make "a" "b" 5 (PInt 7) None None "x" in
  same_content tx1 tx2 ∨
  collide (deterministic_json (JObj (hash_payload tx1)))
          (deterministic_json (JObj (hash_payload tx2))).
Proof. cbv zeta. apply compute_hash_binding. reflexivity. Defined.

(** ** What a verified transaction is *)

Section verify_facts.
Context `{E : ECDSA}.

Lemma validate_base_units_true v z :
  (validate_base_units v z).1 = true ↔ (if z then 0 ≤ v else 0 < v) ∧ v ≤ MAX_SUPPLY_BASE_UNITS.
Proof.
  unfold validate_base_units. generalize MAX_SUPPLY_BASE_UNITS as m; intros m.
  destruct z, (Z.ltb_spec v 0), (Z.eqb_spec v 0), (Z.ltb_spec m v); cbn; intuition lia.
Qed.

Lemma missing_false o : missing o = false ↔ ∃ s, o = Some s ∧ s ≠ "".
Proof.
  destruct o as [s|]; cbn; [|naive_solver].
  rewrite String.eqb_neq. naive_solver.
Qed.

(** The branch of [verify] that refuses. *)
Local Ltac refused := split; [intros [=]|intros (_ & Hr & Hh & Hc); try congruence].

Lemma verify_spec tx :
  verify tx = true ↔
  0 < amount_base_units tx ≤ MAX_SUPPLY_BASE_UNITS ∧
  is_valid_address (receiver tx) = true ∧ tx_hash tx = compute_hash tx ∧
  if is_coinbase tx then sender_public_key tx = None ∧ signature tx = None
  else is_valid_address (sender tx) = true ∧
       ∃ pk sig, sender_public_key tx = Some pk ∧ signature tx = Some sig ∧
                 pk ≠ "" ∧ sig ≠ "" ∧ derive_address pk = sender tx ∧
                 verify_signature pk (signing_message tx) sig = true.
Proof.
  unfold verify.
  destruct (Z.leb_spec (amount_base_units tx) 0); [split; [done|lia]|].
  destruct ((validate_base_units _ _).1) eqn:Hv; cbn [negb].
  2: { split; [done|]. intros ([??]&_).
       by rewrite (proj2 (validate_base_units_true _ false)) in Hv by lia. }
  apply validate_base_units_true in Hv as [_ Hv].
  destruct (is_valid_address (receiver tx)); [|refused]. cbn [negb].
  destruct (String.eqb_spec (tx_hash tx) (compute_hash tx)); [|refused]. cbn [negb].
  destruct (is_coinbase tx).
  { rewrite andb_true_iff, !bool_decide_eq_true. tauto. }
  destruct (is_valid_address (sender tx)); [|refused; destruct Hc; congruence]. cbn [negb].
  destruct (sender_public_key tx) as [pk|], (signature tx) as [sig|];
    cbn; rewrite ?orb_true_r; try (refused; destruct Hc as (_ & ? & ? & ? & ? & _); congruence).
  destruct (String.eqb_spec pk ""), (String.eqb_spec sig ""); cbn;
    try (refused; destruct Hc as (_ & ? & ? & [=] & [=] & ? & ? & _); congruence).
  destruct (String.eqb_spec (derive_address pk) (sender tx)); cbn;
    [|refused; destruct Hc as (_ & ? & ? & [=] & [=] & ? & ? & ? & _); congruence].
  split; [eauto 15|]. intros (_ & _ & _ & _ & ? & ? & [= <-] & [= <-] & _ & _ & _ & ?). done.
Qed.
End verify_facts.

(** ** Signing gives a transaction that verifies *)

Section sign_verify.
Context `{L : ECDSALaws}.

(** A wallet can spend: when a wallet created from a key of the group
    signs a transfer of a positive amount within the supply, from its own
    address to a valid receiver, the signing succeeds and the signed
    transaction passes [verify]. *)
Theorem signed_transaction_verifies k w rnd tx :
  Wallet.create k = Ok w → 0 < k < SECP256K1_ORDER →
  sender tx = Wallet.address w → is_valid_address (receiver tx) = true →
  0 < amount_base_units tx ≤ MAX_SUPPLY_BASE_UNITS →
  ∃ tx', sign w rnd tx = Ok tx' ∧ verify tx' = true ∧
         sender tx' = sender tx ∧ receiver tx' = receiver tx ∧
         amount_base_units tx' = amount_base_units tx ∧ timestamp tx' = timestamp tx.
Proof using L.
  intros Hw Hk Hs Hr Ha. unfold sign.
  assert (Haddr : Wallet.address w = derive_address (Wallet.public_key_hex w) ∧
                  String.length (Wallet.public_key_hex w) = 128%nat).
  { unfold Wallet.create in Hw. apply res_bind_Ok in Hw as (pub & _ & Hw).
    apply res_bind_Ok in Hw as (priv & _ & Hw). apply res_bind_Ok in Hw as (ph & Hph & Hw).
    apply (inj Ok) in Hw as <-. split; [done|].
    unfold Wallet.public_hex in Hph. apply res_bind_Ok in Hph as (x & Hx & Hph).
    apply res_bind_Ok in Hph as (y & Hy & Hph). apply (inj Ok) in Hph as <-.
    pose proof (hex32_range _ _ Hx). pose proof (hex32_range _ _ Hy).
    rewrite hex32_Ok in Hx, Hy by done. apply (inj Ok) in Hx as <-, Hy as <-.
    cbn [Wallet.public_key_hex].
    by rewrite length_append, !Sha.length_hex, !Sha.length_be_bytes. }
  destruct Haddr as [Haddr Hlen].
  destruct (create_key_pair k w Hw Hk) as [point Hkp].
  destruct (sign_with_verifies _ _ k point (signing_message tx) rnd Hkp) as (sig & Hsig & Hv).
  rewrite (proj2 (String.eqb_neq _ _)).
  2: { rewrite Hs, Haddr. intros Eq. apply (f_equal is_valid_address) in Eq.
       rewrite derive_address_valid in Eq. by vm_compute in Eq. }
  rewrite Hs, String.eqb_refl. cbn [negb]. unfold Wallet.sign.
  rewrite Hsig. cbn [mbind res_bind]. eexists; split; [done|]. split_and!; try done.
  apply verify_spec. cbn [amount_base_units receiver tx_hash sender sender_public_key signature set_tx_hash].
  split_and!; [lia|lia|done|done|]. unfold is_coinbase. cbn [sender set_tx_hash].
  rewrite (proj2 (String.eqb_neq _ _)).
  2: { rewrite Haddr. intros Eq. apply (f_equal is_valid_address) in Eq.
       rewrite derive_address_valid in Eq. by vm_compute in Eq. }
  rewrite Haddr. split; [apply derive_address_valid|]. do 2 eexists. split_and!; try done.
  - by intros Eq; rewrite Eq in Hlen.
  - intros ->. unfold verify_signature in Hv.
    destruct (fromhex _); cbn in Hv; by rewrite ?orb_true_r in Hv.
  - rewrite <-Hv. unfold signing_message, signing_payload. cbn. by rewrite Hs, Haddr.
Qed.
End sign_verify.

Lemma signed_transaction_verifies_witness :
  let w := toy_wallet 7 in
  let tx := Make (Wallet.address w) (Wallet.address (toy_wallet 9)) 250 (PInt 1735689700) None None "" in
  ∃ tx', sign (E := ToyECDSA.ecdsa) w 0 tx = Ok tx' ∧ verify (E := ToyECDSA.ecdsa) tx' = true ∧
         sender tx' = sender tx ∧ receiver tx' = receiver tx ∧
         amount_base_units tx' = amount_base_units tx ∧ timestamp tx' = timestamp tx.
Proof.
  cbv zeta. apply (signed_transaction_verifies (L := ToyECDSA.ecdsa_laws) 7).
  - vm_compute. reflexivity.
  - split; vm_compute; reflexivity.
  - reflexivity.
  - vm_compute. reflexivity.
  - split; vm_compute; [reflexivity|discriminate].
Defined.

(** ** The same transfer under another hash *)

(** The signature text with a space in front. *)
Definition respaced (tx : t) : t :=
  let tx' := Make (sender tx) (receiver tx) (amount_base_units tx) (timestamp tx)
               (sender_public_key tx) (String " " <$> signature tx) "" in
  set_tx_hash (compute_hash tx') tx'.

(** The hash identifies a transfer only up to the text of its signature:
    putting a space before the signature of a verified transfer gives another
    transaction that verifies too, with the same sender, receiver, amount and
    timestamp, and a different hash unless that is a SHA-256 collision. *)
Theorem respaced_verifies `{E : ECDSA} tx :
  verify tx = true → is_coinbase tx = false →
  verify (respaced tx) = true ∧ signing_payload (respaced tx) = signing_payload tx ∧
  (tx_hash (respaced tx) ≠ tx_hash tx ∨
   collide (deterministic_json (JObj (hash_payload (respaced tx))))
           (deterministic_json (JObj (hash_payload tx)))).
Proof.
  intros Hv Hcb. apply verify_spec in Hv as (Ha & Hr & Hh & Hrest).
  rewrite Hcb in Hrest. destruct Hrest as (Hs & pk & sig & Hpk & Hsig & Hpk0 & _ & Hd & Hv).
  split_and!; [|done|].
  - assert (Hr' : tx_hash (respaced tx) = compute_hash (respaced tx)) by by apply compute_hash_proper.
    apply verify_spec. split; [exact Ha|]. split; [exact Hr|]. split; [exact Hr'|]. change (is_coinbase (respaced tx)) with (is_coinbase tx).
    rewrite Hcb. split; [done|]. exists pk, (String " " sig). cbn. rewrite Hpk, Hsig.
    split_and!; done.
  - destruct (decide (tx_hash (respaced tx) = tx_hash tx)) as [Heq|]; [right|by left].
    assert (Hr' : tx_hash (respaced tx) = compute_hash (respaced tx)) by by apply compute_hash_proper.
    rewrite Hh, Hr' in Heq. unfold compute_hash in Heq. apply sha256_inj_or in Heq as [Ht%hash_text_inj|]; [exfalso|done].
    destruct tx as [? ? ? ? ? osig ?]. cbn in Hsig. subst osig. unfold same_content in Ht. cbn in Ht.
    injection Ht as Ht. by apply (f_equal String.length) in Ht as ?%Nat.neq_succ_diag_l.
Qed.

Definition toy_transfer : t := Eval vm_compute in
  let w := toy_wallet 7 in
  let tx := Make (Wallet.address w) (Wallet.address (toy_wallet 9)) 250 (PInt 1735689700) None None "" in
  match sign (E := ToyECDSA.ecdsa) w 0 tx with Ok tx' => tx' | Err _ => tx end.

Lemma respaced_verifies_witness :
  verify (E := ToyECDSA.ecdsa) (respaced toy_transfer) = true ∧
  signing_payload (respaced toy_transfer) = signing_payload toy_transfer ∧
  (tx_hash (respaced toy_transfer) ≠ tx_hash toy_transfer ∨
   collide (deterministic_json (JObj (hash_payload (respaced toy_transfer))))
           (deterministic_json (JObj (hash_payload toy_transfer)))).
Proof. apply respaced_verifies; vm_compute; reflexivity. Defined.

(** ** Round trip through dictionaries *)

(** [from_dict] keeps a float only under the genesis sender. *)
Definition timestamp_ok (tx : t) : Prop :=
  sender tx = GENESIS_SENDER ∨ ∃ z, timestamp tx = PInt z.

Lemma to_dict_Ok tx :
  0 ≤ amount_base_units tx ≤ MAX_SUPPLY_BASE_UNITS → is_Ok (to_dict tx).
Proof.
  intros Ha. unfold to_dict, amount_syj.
  destruct (from_base_units_exact (amount_base_units tx)) as (c & e & -> & _); [|by eexists].
  unfold MAX_SUPPLY_BASE_UNITS, MAX_SUPPLY_SYJ, BASE_UNITS_PER_SYJ in Ha. lia.
Qed.

Lemma from_dict_of_to_dict clock tx d :
  timestamp_ok tx → tx_hash tx ≠ "" → to_dict tx = Ok d → from_dict clock d = Ok tx.
Proof.
  intros Hts Hh Hd. unfold to_dict in Hd. apply res_bind_Ok in Hd as (am & _ & Hd).
  apply (inj Ok) in Hd as <-. generalize (JStr (Dec.to_string am)) as x; intros x.
  set (d := [_; _; _; _; _; _; _; _]).
  assert (Ht : timestamp_of_dict d = Ok (Some (timestamp tx))).
  { unfold timestamp_of_dict, dict_index.
    change (dict_get "timestamp" d) with (Some (JNum (timestamp tx))).
    change (dict_get "sender" d) with (Some (JStr (sender tx))). cbn [mbind res_bind].
    destruct (String.eqb_spec (sender tx) GENESIS_SENDER); [done|].
    destruct Hts as [?|[z ->]]; done. }
  unfold from_dict, dict_index, dict_get_or. rewrite Ht.
  change (dict_get "amount_base_units" d) with (Some (JNum (PInt (amount_base_units tx)))).
  change (dict_get "sender" d) with (Some (JStr (sender tx))).
  change (dict_get "receiver" d) with (Some (JStr (receiver tx))).
  change (dict_get "sender_public_key" d) with (Some (opt_str_json (sender_public_key tx))).
  change (dict_get "signature" d) with (Some (opt_str_json (signature tx))).
  change (dict_get "tx_hash" d) with (Some (JStr (tx_hash tx))).
  assert (Ho : ∀ f o, as_opt_str f (opt_str_json o) = Ok o) by by intros ? [].
  cbn -[as_opt_str opt_str_json init]. rewrite !Ho. cbn.
  rewrite (proj2 (String.eqb_neq _ _)) by done. by destruct tx.
Qed.

(** Every transaction with a recorded hash survives its dictionary: for
    amounts up to the supply, [from_dict] of [to_dict] gives the transaction
    back whatever the clock reads. *)
Theorem from_dict_to_dict clock tx :
  0 ≤ amount_base_units tx ≤ MAX_SUPPLY_BASE_UNITS → timestamp_ok tx → tx_hash tx ≠ "" →
  ∃ d, to_dict tx = Ok d ∧ from_dict clock d = Ok tx.
Proof.
  intros Ha Hts Hh. destruct (to_dict_Ok tx Ha) as [d Hd].
  exists d; split; [done|]. by apply from_dict_of_to_dict.
Qed.

Lemma from_dict_to_dict_witness :
  ∃ d, to_dict toy_transfer = Ok d ∧ from_dict 0 d = Ok toy_transfer.
Proof.
  apply from_dict_to_dict.
  - split; vm_compute; discriminate.
  - right. exists 1735689700. vm_compute. reflexivity.
  - vm_compute. discriminate.
Defined.

End Transaction.
