(* ===== verification/Block.v ===== *)
(** * blockchain/block.py: blocks and the genesis block

    [Block.t] is the dataclass, [init] its constructor with [__post_init__].
    The hash covers the header only; [block_hash_binding] states what it
    commits to together with the Merkle root of the header. *)
From Stdlib Require Import Ascii.
From stdpp Require Import options.
From S2P Require Import Prelude PyText Json Utils NativeAsset Wallet Transaction.

Local Open Scope Z_scope.

Module Block.

Record t := Make {
  index : Z;
  previous_hash : string;
  transactions : list Transaction.t;
  timestamp : pynum;
  nonce : Z;
  difficulty : Z;
  merkle_root : string;
  hash : string;
}.

#[global] Instance t_eq_dec : EqDecision t.
Proof. solve_decision. Defined.

(** ** Hashing *)

Definition tx_hashes (b : t) : list string := Transaction.tx_hash <$> transactions b.

Definition compute_merkle_root (b : t) : string := Utils.merkle_root (tx_hashes b).

Definition header_payload (b : t) : py_dict :=
  [("index", JNum (PInt (index b)));
   ("previous_hash", JStr (previous_hash b));
   ("timestamp", JNum (timestamp b));
   ("nonce", JNum (PInt (nonce b)));
   ("difficulty", JNum (PInt (difficulty b)));
   ("merkle_root", JStr (merkle_root b))].

Definition header_text (b : t) : string := deterministic_json (JObj (header_payload b)).

Definition compute_hash (b : t) : string := sha256 (header_text b).

Definition set_merkle_root (r : string) (b : t) : t :=
  Make (index b) (previous_hash b) (transactions b) (timestamp b) (nonce b)
    (difficulty b) r (hash b).
Definition set_hash (h : string) (b : t) : t :=
  Make (index b) (previous_hash b) (transactions b) (timestamp b) (nonce b)
    (difficulty b) (merkle_root b) h.
Definition set_nonce (n : Z) (b : t) : t :=
  Make (index b) (previous_hash b) (transactions b) (timestamp b) n
    (difficulty b) (merkle_root b) (hash b).
Definition set_difficulty (d : Z) (b : t) : t :=
  Make (index b) (previous_hash b) (transactions b) (timestamp b) (nonce b)
    d (merkle_root b) (hash b).

(** ** Construction *)

(** [__post_init__] *)
Definition post_init (b : t) : t :=
  let b := if String.eqb (merkle_root b) "" then set_merkle_root (compute_merkle_root b) b else b in
  if String.eqb (hash b) "" then set_hash (compute_hash b) b else b.

(** [Block(...)] *)
Definition init (index : Z) (previous_hash : string) (transactions : list Transaction.t)
    (timestamp : pynum) (nonce difficulty : Z) (merkle_root hash : string) : t :=
  post_init (Make index previous_hash transactions timestamp nonce difficulty merkle_root hash).

Definition recompute (b : t) : t :=
  let b := set_merkle_root (compute_merkle_root b) b in
  set_hash (compute_hash b) b.

(** ["0" * difficulty] is empty for a negative difficulty. *)
Definition meets_difficulty (b : t) (difficulty : Z) : bool :=
  starts_with (hash b) (repeat_char "0" (Z.to_nat difficulty)).

Definition genesis (previous_hash : string) (timestamp : pynum) (nonce : Z) (message : string)
    : res t :=
  genesis_tx ← Transaction.init 0 GENESIS_SENDER GENESIS_SENDER (Some (AFloat "0.0")) None
                 (Some timestamp) None None "";
  let genesis_tx := Transaction.set_tx_hash (sha256 message) genesis_tx in
  Ok (init 0 previous_hash [genesis_tx] timestamp nonce 0 "" "").

(** ** Dictionaries *)

Definition to_dict (b : t) : res py_dict :=
  txs ← res_map Transaction.to_dict (transactions b);
  Ok (header_payload b ++
      [("hash", JStr (hash b)); ("transactions", JArr (JObj <$> txs))]).

Definition as_obj (field : string) (x : json) : res py_dict :=
  match x with JObj d => Ok d | _ => Err (Untyped field) end.
Definition as_list (field : string) (x : json) : res (list json) :=
  match x with JArr l => Ok l | _ => Err (Untyped field) end.
Definition as_int (field : string) (x : json) : res Z :=
  match x with JNum (PInt z) => Ok z | _ => Err (Untyped field) end.
Definition as_num (field : string) (x : json) : res pynum :=
  match x with JNum n => Ok n | _ => Err (Untyped field) end.

Definition from_dict (clock : Z) (data : py_dict) : res t :=
  txs ← as_list "transactions" (dict_get_or "transactions" (JArr []) data);
  transactions ← res_map (λ tx, as_obj "transactions" tx ≫= Transaction.from_dict clock) txs;
  index ← dict_index "index" data ≫= as_int "index";
  previous_hash ← dict_index "previous_hash" data ≫= as_str "previous_hash";
  i ← py_int (dict_get_or "index" (JNum (PInt 0)) data);
  ts ← dict_index "timestamp" data;
  timestamp ← (if i =? 0 then as_num "timestamp" ts else PInt <$> py_int ts);
  nonce ← py_int (dict_get_or "nonce" (JNum (PInt 0)) data);
  difficulty ← py_int (dict_get_or "difficulty" (JNum (PInt 0)) data);
  merkle_root ← as_str_or_empty "merkle_root" (dict_get_or "merkle_root" (JStr "") data);
  hash ← as_str_or_empty "hash" (dict_get_or "hash" (JStr "") data);
  Ok (init index previous_hash transactions timestamp nonce difficulty merkle_root hash).

(** ** The hash binds the header *)

Lemma header_payload_ok b : json_ok (JObj (header_payload b)) = true.
Proof. destruct b as [? ? ? [|] ? ? ? ?]; reflexivity. Qed.

Definition same_header (b1 b2 : t) : Prop :=
  index b1 = index b2 ∧ previous_hash b1 = previous_hash b2 ∧ timestamp b1 = timestamp b2 ∧
  nonce b1 = nonce b2 ∧ difficulty b1 = difficulty b2 ∧ merkle_root b1 = merkle_root b2.

#[global] Instance same_header_equiv : Equivalence same_header.
Proof. unfold same_header. split; repeat intro; naive_solver congruence. Qed.

#[global] Instance compute_hash_proper : Proper (same_header ==> (=)) compute_hash.
Proof.
  intros [] [] (?&?&?&?&?&?). simplify_eq/=. done.
Qed.

Lemma header_text_inj b1 b2 : header_text b1 = header_text b2 → same_header b1 b2.
Proof.
  intros E%deterministic_json_inj; [|apply header_payload_ok..].
  assert (Hc : ∀ b, canon (JObj (header_payload b)) =
    JObj [("difficulty", JNum (PInt (difficulty b))); ("index", JNum (PInt (index b)));
          ("merkle_root", JStr (merkle_root b)); ("nonce", JNum (PInt (nonce b)));
          ("previous_hash", JStr (previous_hash b)); ("timestamp", JNum (timestamp b))])
    by by intros [].
  rewrite !Hc in E. injection E as ?????. by split_and!.
Qed.

(** The recorded root and hash are the computed ones. *)
Definition sealed (b : t) : Prop :=
  merkle_root b = compute_merkle_root b ∧ hash b = compute_hash b.

(** C22: The block hash commits to the header and to the transactions: two
    sealed blocks with the same hash and equally many transactions, whose
    transaction hashes have the width of a digest, agree on every header field
    and on the list of transaction hashes, unless their header texts or two of
    the Merkle tree's inputs are a SHA-256 collision. *)
Theorem block_hash_binding b1 b2 :
  sealed b1 → sealed b2 → hash b1 = hash b2 →
  length (transactions b1) = length (transactions b2) →
  same_width 64 (tx_hashes b1) → same_width 64 (tx_hashes b2) →
  (same_header b1 b2 ∧ tx_hashes b1 = tx_hashes b2) ∨
  collide (header_text b1) (header_text b2) ∨
  collision_in (merkle_inputs (tx_hashes b1)) (merkle_inputs (tx_hashes b2)).
Proof.
  intros [Hm1 Hh1] [Hm2 Hh2] Heq Hlen Hw1 Hw2. rewrite Hh1, Hh2 in Heq.
  apply sha256_inj_or in Heq as [Heq|Hcol]; [|by right; left].
  apply header_text_inj in Heq as Hhdr. pose proof Hhdr as (_&_&_&_&_&Hroot).
  rewrite Hm1, Hm2 in Hroot. unfold compute_merkle_root in Hroot.
  assert (Hl : length (tx_hashes b1) = length (tx_hashes b2))
    by (unfold tx_hashes; by rewrite !length_fmap).
  destruct (merkle_root_inj_or 64 _ _ Hl Hw1 Hw2 Hroot); [by left|by right; right].
Qed.

Definition sample (ts : Z) : t :=
  init 1 "00" [Transaction.set_tx_hash (sample_hash "a") Transaction.toy_transfer]
    (PInt ts) 0 4 "" "".

Lemma block_hash_binding_witness :
  (same_header (sample 5) (sample 5) ∧ tx_hashes (sample 5) = tx_hashes (sample 5)) ∨
  collide (header_text (sample 5)) (header_text (sample 5)) ∨
  collision_in (merkle_inputs (tx_hashes (sample 5))) (merkle_inputs (tx_hashes (sample 5))).
Proof.
  assert (sealed (sample 5)) by (split; vm_compute; reflexivity).
  apply block_hash_binding; try assumption; repeat constructor.
Defined.

(** ** Round trip through dictionaries *)

(** What the constructor and the chain keep of a block: recorded hashes, whole
    seconds after the genesis block, amounts within the supply. *)
Definition storable (b : t) : Prop :=
  merkle_root b ≠ "" ∧ hash b ≠ "" ∧ (index b = 0 ∨ ∃ z, timestamp b = PInt z) ∧
  Forall (λ tx, 0 ≤ Transaction.amount_base_units tx ≤ MAX_SUPPLY_BASE_UNITS ∧
                Transaction.timestamp_ok tx ∧ Transaction.tx_hash tx ≠ "") (transactions b).

Lemma post_init_recorded b : merkle_root b ≠ "" → hash b ≠ "" → post_init b = b.
Proof.
  intros Hm Hh. unfold post_init. rewrite (proj2 (String.eqb_neq _ _) Hm).
  by rewrite (proj2 (String.eqb_neq _ _) Hh).
Qed.

Lemma to_dicts_Ok txs :
  Forall (λ tx, 0 ≤ Transaction.amount_base_units tx ≤ MAX_SUPPLY_BASE_UNITS ∧
                Transaction.timestamp_ok tx ∧ Transaction.tx_hash tx ≠ "") txs →
  ∃ ds, res_map Transaction.to_dict txs = Ok ds ∧
    ∀ clock, res_map (λ tx, as_obj "transactions" tx ≫= Transaction.from_dict clock)
               (JObj <$> ds) = Ok txs.
Proof.
  induction 1 as [|tx txs (Ha & Ht & Hh) _ (ds & Hds & Hfrom)]; [by exists []|].
  destruct (Transaction.to_dict_Ok tx Ha) as [d Hd]. exists (d :: ds). split.
  - cbn [res_map]. by rewrite Hd, Hds.
  - intros clock. rewrite fmap_cons. cbn [res_map as_obj mbind res_bind].
    by rewrite (Transaction.from_dict_of_to_dict clock tx d Ht Hh Hd), Hfrom.
Qed.

Lemma to_dict_reads_back b :
  storable b → ∃ d, to_dict b = Ok d ∧ ∀ clock, from_dict clock d = Ok b.
Proof.
  intros (Hm & Hh & Hts & Htxs). destruct (to_dicts_Ok _ Htxs) as (ds & Hds & Hfrom).
  unfold to_dict. rewrite Hds. cbn [mbind res_bind]. eexists; split; [done|].
  set (d := _ ++ _). intros clock. unfold from_dict, dict_index, dict_get_or.
  change (dict_get "transactions" d) with (Some (JArr (JObj <$> ds))).
  change (dict_get "index" d) with (Some (JNum (PInt (index b)))).
  change (dict_get "previous_hash" d) with (Some (JStr (previous_hash b))).
  change (dict_get "timestamp" d) with (Some (JNum (timestamp b))).
  change (dict_get "nonce" d) with (Some (JNum (PInt (nonce b)))).
  change (dict_get "difficulty" d) with (Some (JNum (PInt (difficulty b)))).
  change (dict_get "merkle_root" d) with (Some (JStr (merkle_root b))).
  change (dict_get "hash" d) with (Some (JStr (hash b))).
  cbn [as_list mbind res_bind]. rewrite Hfrom.
  cbn [as_int as_str as_num py_int num_int num_val as_str_or_empty mbind res_bind].
  assert ((if index b =? 0 then Ok (timestamp b) else PInt <$> Ok (num_int (timestamp b))) =
          Ok (timestamp b)) as ->.
  { destruct (Z.eqb_spec (index b) 0), Hts as [?|[z ->]]; done. }
  cbn [mbind res_bind]. unfold init. rewrite post_init_recorded by done. by destruct b.
Qed.

(** C26: A block survives its dictionary: every storable block has one, and
    [from_dict] gives the block back, whatever the clock reads. *)
Theorem block_from_dict_to_dict clock b :
  storable b → ∃ d, to_dict b = Ok d ∧ from_dict clock d = Ok b.
Proof.
  intros Hb. destruct (to_dict_reads_back b Hb) as (d & Hd & Hf). by exists d.
Qed.

Lemma block_from_dict_to_dict_witness :
  ∃ d, to_dict (sample 5) = Ok d ∧ from_dict 0 d = Ok (sample 5).
Proof.
  apply block_from_dict_to_dict. split; [vm_compute; discriminate|].
  split; [vm_compute; discriminate|]. split; [right; by exists 5|].
  constructor; [|constructor]. split; [split; vm_compute; discriminate|].
  split; [|vm_compute; discriminate]. right. exists 1735689700. vm_compute. reflexivity.
Defined.

End Block.
