(* ===== verification/Consensus.v ===== *)
(** * blockchain/consensus.py: proof of work and difficulty retargeting

    [ConsensusEngine] is the abstract class; [ProofOfWorkConsensus.engine] is
    its only implementation and [ConsensusLaws] what the miner and the
    validators rely on.  The nonce search runs over [0 .. 2^32]; it is a loop
    bounded by a binary number, so that the bound is the code's own. *)
From Stdlib Require Import Ascii.
From stdpp Require Import options.
From S2P Require Import Prelude PyText Json Utils Block.

Local Open Scope Z_scope.

(** The abstract base class; [next_difficulty] takes the window, the configured
    difficulty, the target block time, the two bounds and the factor. *)
Record ConsensusEngine := {
  mine : Block.t → Z → res Block.t;
  validate : Block.t → Z → bool;
  next_difficulty : list Block.t → Z → Z → Z → Z → Z → res Z;
}.

(** The part of a block that mining leaves alone. *)
Definition same_body (b1 b2 : Block.t) : Prop :=
  Block.index b1 = Block.index b2 ∧ Block.previous_hash b1 = Block.previous_hash b2 ∧
  Block.transactions b1 = Block.transactions b2 ∧ Block.timestamp b1 = Block.timestamp b2.

(** What a block assembler may assume of an engine: a mined block keeps its
    body, is sealed, records the difficulty it was mined at, and is accepted
    at that difficulty; a block accepted at a difficulty is accepted at every
    lower one. *)
Class ConsensusLaws (engine : ConsensusEngine) := {
  mine_keeps_body b d b' : mine engine b d = Ok b' →
    same_body b b' ∧ Block.sealed b' ∧ Block.difficulty b' = d;
  mine_validates b d b' : mine engine b d = Ok b' → validate engine b' d = true;
  validate_hash b d : validate engine b d = true → Block.hash b = Block.compute_hash b;
  validate_antitone b d d' : d' ≤ d → validate engine b d = true → validate engine b d' = true;
}.

Module ProofOfWorkConsensus.

(** ** Mining *)

Definition max_nonce : Z := 2 ^ 32.

(** One test of the loop condition and, where it holds, one turn of the body. *)
Definition mine_step (target_prefix : string) (b : Block.t) : Block.t + res Block.t :=
  if starts_with (Block.hash b) target_prefix then inr (Ok b)
  else
    let b := Block.recompute (Block.set_nonce (Block.nonce b + 1) b) in
    if max_nonce <? Block.nonce b
    then inr (Err (ValidationError "Exceeded maximum nonce search space without finding a valid hash. Check difficulty configuration."))
    else inl b.

(** One turn for each nonce of [0 .. 2^32]; the loop is always left inside. *)
Definition mine_turns : positive := 4294967297%positive.

Definition mine (block : Block.t) (difficulty : Z) : res Block.t :=
  if difficulty <? 0 then Err (ValidationError "Difficulty must be non-negative.")
  else
    let target_prefix := repeat_char "0" (Z.to_nat difficulty) in
    let block := Block.recompute (Block.set_difficulty difficulty (Block.set_nonce 0 block)) in
    match iter_until (mine_step target_prefix) mine_turns block with
    | inr r => r
    | inl _ => Err (Untyped "nonce")
    end.

(** ** Validation *)

Definition validate (block : Block.t) (difficulty : Z) : bool :=
  if negb (String.eqb (Block.hash block) (Block.compute_hash block)) then false
  else if Block.difficulty block <? difficulty then false
  else Block.meets_difficulty block (Block.difficulty block).

(** ** Retargeting *)

(** [target_work] is the fraction [num / den], [den > 0]. *)
Fixpoint raise_loop (fuel : nat) (num den max_difficulty d : Z) : Z :=
  match fuel with
  | O => d
  | S fuel =>
      if (d <? max_difficulty) && (16 ^ d * 4 * den <=? num)
      then raise_loop fuel num den max_difficulty (d + 1) else d
  end.

(** [16 ** d] of a negative [d] is a float, which [Fraction] refuses. *)
Fixpoint lower_loop (fuel : nat) (num den min_difficulty d : Z) : res Z :=
  match fuel with
  | O => Ok d
  | S fuel =>
      if min_difficulty <? d then
        if d <? 0 then Err (TypeError "both arguments should be Rational instances")
        else if num * 4 <=? 16 ^ d * den
        then lower_loop fuel num den min_difficulty (d - 1) else Ok d
      else Ok d
  end.

Definition clamped_timespan (expected factor : Z) (actual : pynum) : pynum :=
  let actual := if num_le actual (PInt 0) then PInt 1 else actual in
  let factor := if factor <? 1 then 1 else factor in
  let min_timespan := Z.max 1 (expected / factor) in
  let max_timespan := expected * factor in
  num_max (PInt min_timespan) (num_min actual (PInt max_timespan)).

Definition retarget (base expected clamped min_difficulty max_difficulty : Z) : res Z :=
  let current_work := 16 ^ base in
  let num := current_work * expected in
  new ← (if current_work * clamped <? num then
           Ok (raise_loop (Z.to_nat (max_difficulty - base)) num clamped max_difficulty base)
         else if num <? current_work * clamped then
           lower_loop (Z.to_nat (base - min_difficulty)) num clamped min_difficulty base
         else Ok base);
  Ok (Z.max min_difficulty (Z.min new max_difficulty)).

Definition next_difficulty (previous_blocks : list Block.t)
    (config_difficulty target_block_time min_difficulty max_difficulty
     max_adjustment_factor : Z) : res Z :=
  match previous_blocks, last previous_blocks with
  | first :: _ :: _, Some tip =>
      let interval := Z.of_nat (length previous_blocks) - 1 in
      let expected_timespan := interval * target_block_time in
      if (expected_timespan <=? 0) || (target_block_time <=? 0) then Ok config_difficulty
      else
        let actual := num_sub (Block.timestamp tip) (Block.timestamp first) in
        match clamped_timespan expected_timespan max_adjustment_factor actual with
        | PFlt _ => Err (TypeError "both arguments should be Rational instances")
        | PInt clamped =>
            retarget (Z.max (Block.difficulty tip) 0) expected_timespan clamped
              min_difficulty max_difficulty
        end
  | _, _ => Ok config_difficulty
  end.

Definition engine : ConsensusEngine := {|
  Consensus.mine := mine;
  Consensus.validate := validate;
  Consensus.next_difficulty := next_difficulty;
|}.

End ProofOfWorkConsensus.

Definition get_consensus_engine (algorithm : string) : res ConsensusEngine :=
  if String.eqb algorithm "pow" then Ok ProofOfWorkConsensus.engine
  else Err (ValidationError
    ("Consensus algorithm '" +:+ algorithm +:+ "' is not implemented yet. Available: ['pow']")).

Module PowFacts.
Import ProofOfWorkConsensus.

(** ** The nonce search *)

(** The block tried at nonce [n]. *)
Definition candidate (b : Block.t) (difficulty n : Z) : Block.t :=
  Block.recompute (Block.set_nonce n (Block.set_difficulty difficulty b)).

Definition solves (b : Block.t) (difficulty n : Z) : bool :=
  Block.meets_difficulty (candidate b difficulty n) difficulty.

Definition exhausted : res Block.t :=
  Err (ValidationError "Exceeded maximum nonce search space without finding a valid hash. Check difficulty configuration.").

Lemma mine_step_candidate b d n :
  mine_step (repeat_char "0" (Z.to_nat d)) (candidate b d n) =
  if solves b d n then inr (Ok (candidate b d n))
  else if max_nonce <? n + 1 then inr exhausted else inl (candidate b d (n + 1)).
Proof. reflexivity. Qed.

Lemma mine_candidates b d :
  0 ≤ d →
  mine b d = match iter_until (mine_step (repeat_char "0" (Z.to_nat d))) mine_turns (candidate b d 0) with
             | inr r => r | inl _ => Err (Untyped "nonce") end.
Proof.
  intros Hd. unfold mine. rewrite (proj2 (Z.ltb_ge d 0) Hd). cbv zeta.
  change (Block.recompute (Block.set_difficulty d (Block.set_nonce 0 b))) with (candidate b d 0).
  reflexivity.
Qed.

Lemma mine_first b d n :
  0 ≤ d → 0 ≤ n ≤ max_nonce → solves b d n = true → (∀ m, 0 ≤ m < n → solves b d m = false) →
  mine b d = Ok (candidate b d n).
Proof.
  intros Hd Hn Hs Hmin. rewrite mine_candidates by done.
  rewrite (iter_until_first _ (λ k, candidate b d (Z.of_nat k)) (Z.to_nat n)
             (Ok (candidate b d n))); [done|..].
  - intros m Hm. rewrite mine_step_candidate, Hmin by lia.
    rewrite (proj2 (Z.ltb_ge _ _)) by (unfold max_nonce in *; lia). by rewrite Nat2Z.inj_succ, <-Z.add_1_r.
  - by rewrite Z2Nat.id, mine_step_candidate, Hs by lia.
  - unfold max_nonce, mine_turns in *. lia.
Qed.

Lemma mine_exhausted b d :
  0 ≤ d → (∀ m, 0 ≤ m ≤ max_nonce → solves b d m = false) → mine b d = exhausted.
Proof.
  intros Hd Hall. rewrite mine_candidates by done.
  rewrite (iter_until_first _ (λ k, candidate b d (Z.of_nat k)) (Z.to_nat max_nonce) exhausted);
    [done|..].
  - intros m Hm. rewrite mine_step_candidate, Hall by (unfold max_nonce in *; lia).
    rewrite (proj2 (Z.ltb_ge _ _)) by (unfold max_nonce in *; lia). by rewrite Nat2Z.inj_succ, <-Z.add_1_r.
  - rewrite Z2Nat.id, mine_step_candidate, Hall by (unfold max_nonce; lia). done.
  - unfold max_nonce, mine_turns in *. lia.
Qed.

(** A bounded search has a first solution or none. *)
Lemma first_solution (p : Z → bool) (n : nat) :
  (∃ k, 0 ≤ k ≤ Z.of_nat n ∧ p k = true ∧ ∀ m, 0 ≤ m < k → p m = false) ∨
  (∀ m, 0 ≤ m ≤ Z.of_nat n → p m = false).
Proof.
  induction n as [|n [(k & Hk & Hp & Hm)|IH]].
  - destruct (p 0) eqn:H0; [left; exists 0; split_and!; [lia..|done|lia]|].
    right. intros m Hm. by replace m with 0 by lia.
  - left. exists k. split_and!; [lia..|done|done].
  - destruct (p (Z.of_nat (S n))) eqn:Hn.
    + left. exists (Z.of_nat (S n)). split_and!; [lia..|done|]. intros m Hm. apply IH. lia.
    + right. intros m Hm. destruct (Z.eq_dec m (Z.of_nat (S n))) as [->|]; [done|]. apply IH. lia.
Qed.

(** C9: Mining terminates and is the exhaustive search it is meant to be: at a
    difficulty that is not negative it returns the block at the least nonce of
    [0 .. 2^32] whose hash has the leading zeros, and raises only when there
    is no such nonce. *)
Theorem mine_spec b d :
  0 ≤ d →
  (∃ n, 0 ≤ n ≤ 2 ^ 32 ∧ mine b d = Ok (candidate b d n) ∧ solves b d n = true ∧
        ∀ m, 0 ≤ m < n → solves b d m = false) ∨
  (mine b d = exhausted ∧ ∀ m, 0 ≤ m ≤ 2 ^ 32 → solves b d m = false).
Proof.
  intros Hd. change (2 ^ 32) with max_nonce.
  destruct (first_solution (solves b d) (Z.to_nat max_nonce)) as [(n & Hn & Hs & Hm)|Hall].
  - left. rewrite Z2Nat.id in Hn by done. exists n. split_and!; try lia; auto using mine_first.
  - right. rewrite Z2Nat.id in Hall by done. auto using mine_exhausted.
Qed.

Lemma mine_Ok b d b' :
  mine b d = Ok b' → 0 ≤ d ∧ ∃ n, 0 ≤ n ≤ max_nonce ∧ b' = candidate b d n ∧ solves b d n = true.
Proof.
  intros Hm. assert (0 ≤ d) as Hd.
  { unfold mine in Hm. destruct (Z.ltb_spec d 0); [discriminate|done]. }
  split; [done|].
  destruct (first_solution (solves b d) (Z.to_nat max_nonce)) as [(n & Hn & Hs & Hmin)|Hall];
    rewrite Z2Nat.id in * by done.
  - rewrite (mine_first b d n) in Hm by done. apply (inj Ok) in Hm as <-. by exists n.
  - rewrite (mine_exhausted b d) in Hm by done. discriminate.
Qed.

Lemma candidate_sealed b d n : Block.sealed (candidate b d n).
Proof. split; [done|]. by apply Block.compute_hash_proper. Qed.

Lemma validate_spec b d :
  validate b d = true ↔
  Block.hash b = Block.compute_hash b ∧ d ≤ Block.difficulty b ∧
  Block.meets_difficulty b (Block.difficulty b) = true.
Proof.
  unfold validate. destruct (String.eqb_spec (Block.hash b) (Block.compute_hash b)) as [?|Hne]; cbn.
  - destruct (Z.ltb_spec (Block.difficulty b) d); split; [done|lia|by auto|naive_solver].
  - split; [done|]. by intros [? _].
Qed.

(** ** Retargeting *)

Lemma raise_loop_once fuel num den mx d :
  0 ≤ d → 0 < den → num < 16 ^ d * 64 * den → fuel = Z.to_nat (mx - d) →
  raise_loop fuel num den mx d = if (d <? mx) && (16 ^ d * 4 * den <=? num) then d + 1 else d.
Proof.
  intros Hd Hden Hnum Hf. destruct fuel as [|fuel]; cbn [raise_loop].
  { by rewrite (proj2 (Z.ltb_ge d mx)) by lia. }
  case_match; [|done]. destruct fuel as [|fuel]; [done|]. cbn [raise_loop].
  rewrite (proj2 (Z.leb_gt _ num)), andb_false_r; [done|].
  rewrite Z.pow_add_r, Z.pow_1_r by lia. lia.
Qed.

Lemma lower_loop_once fuel num den mn d :
  0 ≤ mn → 0 < den → 16 ^ (d - 1) * den < num * 4 → fuel = Z.to_nat (d - mn) →
  lower_loop fuel num den mn d =
  Ok (if (mn <? d) && (num * 4 <=? 16 ^ d * den) then d - 1 else d).
Proof.
  intros Hmn Hden Hnum Hf. destruct fuel as [|fuel]; cbn [lower_loop].
  { by rewrite (proj2 (Z.ltb_ge mn d)) by lia. }
  destruct (Z.ltb_spec mn d); [|done]. rewrite (proj2 (Z.ltb_ge d 0)) by lia. cbn [andb].
  case_match; [|done]. destruct fuel as [|fuel]; [done|]. cbn [lower_loop].
  destruct (Z.ltb_spec mn (d - 1)); [|done]. rewrite (proj2 (Z.ltb_ge (d - 1) 0)) by lia.
  by rewrite (proj2 (Z.leb_gt _ _)).
Qed.

Lemma retarget_once base expected clamped mn mx :
  0 ≤ mn ≤ base → base ≤ mx → 0 < clamped → expected < 64 * clamped → clamped < 64 * expected →
  retarget base expected clamped mn mx =
  Ok (if (base <? mx) && (4 * clamped <=? expected) then base + 1
      else if (mn <? base) && (4 * expected <=? clamped) then base - 1 else base).
Proof.
  intros Hmn Hmx Hc He1 He2. unfold retarget.
  assert (Hp : 0 < 16 ^ base) by (apply Z.pow_pos_nonneg; lia).
  assert (Hb : ∀ k, 16 ^ base * k = k * 16 ^ base) by (intros; lia).
  assert (Hle : ∀ x y, (x * 16 ^ base <=? y * 16 ^ base) = (x <=? y)).
  { intros x y. destruct (Z.leb_spec x y); [apply Z.leb_le|apply Z.leb_gt]; nia. }
  rewrite raise_loop_once, lower_loop_once; [|lia|lia| |done|lia|lia|nia|done].
  2: { destruct (Z.eq_dec base 0) as [->|]; [change (16 ^ (0 - 1)) with 0; lia|].
       assert (16 ^ base = 16 ^ (base - 1) * 16) as Hpow.
       { rewrite <-(Z.pow_1_r 16) at 3. rewrite <-Z.pow_add_r by lia. f_equal. lia. }
       assert (0 < 16 ^ (base - 1)) by (apply Z.pow_pos_nonneg; lia). nia. }
  replace (16 ^ base * 4 * clamped) with ((4 * clamped) * 16 ^ base) by lia.
  replace (16 ^ base * expected * 4) with ((4 * expected) * 16 ^ base) by lia.
  rewrite (Hb expected), (Hb clamped), !Hle.
  destruct (Z.ltb_spec (clamped * 16 ^ base) (expected * 16 ^ base)) as [H1|H1];
    [|destruct (Z.ltb_spec (expected * 16 ^ base) (clamped * 16 ^ base)) as [H2|H2]];
    cbn [mbind res_bind]; f_equal.
  - assert (clamped < expected) by nia.
    rewrite (proj2 (Z.leb_gt (4 * expected) clamped)), andb_false_r by lia.
    destruct (Z.ltb_spec base mx), (Z.leb_spec (4 * clamped) expected); cbn; lia.
  - assert (expected < clamped) by nia.
    rewrite (proj2 (Z.leb_gt (4 * clamped) expected)), andb_false_r by lia.
    destruct (Z.ltb_spec mn base), (Z.leb_spec (4 * expected) clamped); cbn; lia.
  - rewrite (proj2 (Z.leb_gt (4 * expected) clamped)), (proj2 (Z.leb_gt (4 * clamped) expected)),
      !andb_false_r by nia. lia.
Qed.

Lemma clamped_PInt expected a :
  0 < expected →
  clamped_timespan expected 4 (PInt a) =
  PInt (Z.max (Z.max 1 (expected / 4)) (Z.min (Z.max 1 a) (expected * 4))).
Proof.
  intros He. unfold clamped_timespan, num_max, num_min. rewrite num_le_int.
  change (4 <? 1) with false. cbv iota.
  assert ((if a <=? 0 then PInt 1 else PInt a) = PInt (Z.max 1 a)) as ->
    by (destruct (Z.leb_spec a 0); f_equal; lia).
  rewrite num_lt_int. destruct (Z.ltb_spec (expected * 4) (Z.max 1 a)); rewrite num_lt_int;
    case_match; f_equal; lia.
Qed.

Definition window_span (first tip : Block.t) : Z :=
  Z.max 1 (num_int (num_sub (Block.timestamp tip) (Block.timestamp first))).

(** A window of at least two blocks. *)
Lemma window_shape (first : Block.t) mid tip :
  ∃ second rest, first :: mid ++ [tip] = first :: second :: rest ∧
    last (first :: second :: rest) = Some tip ∧
    Z.of_nat (length (first :: second :: rest)) - 1 = Z.of_nat (S (length mid)).
Proof.
  assert (Hl : last (first :: mid ++ [tip]) = Some tip) by apply (last_snoc tip (first :: mid)).
  assert (Hn : length (first :: mid ++ [tip]) = S (S (length mid))) by (cbn; rewrite length_app; cbn; lia).
  destruct (mid ++ [tip]) as [|second rest] eqn:Hm; [by destruct mid|].
  exists second, rest. split_and!; [done|done|]. rewrite Hn. lia.
Qed.

(** C21: Retargeting under the default adjustment factor moves by at most one
    level, and exactly when the window says so: up when it took at most a
    quarter of the expected time, down when it took at least four times it,
    never past the configured bounds.  This needs whole-second timestamps and
    a tip whose difficulty is within the bounds. *)
Theorem next_difficulty_step first mid tip z1 z2 config target mn mx :
  Block.timestamp first = PInt z1 → Block.timestamp tip = PInt z2 →
  0 < target → 0 ≤ mn ≤ Block.difficulty tip → Block.difficulty tip ≤ mx →
  let d := Block.difficulty tip in
  let expected := Z.of_nat (S (length mid)) * target in
  next_difficulty (first :: mid ++ [tip]) config target mn mx 4 =
  Ok (if (d <? mx) && (4 * window_span first tip <=? expected) then d + 1
      else if (mn <? d) && (4 * expected <=? window_span first tip) then d - 1 else d).
Proof.
  intros H1 H2 Ht Hmn Hmx d expected.
  destruct (window_shape first mid tip) as (second & rest & -> & Hlast & Hlen).
  unfold next_difficulty. rewrite Hlast, Hlen. fold expected. assert (0 < expected) by nia.
  rewrite (proj2 (Z.leb_gt expected 0)), (proj2 (Z.leb_gt target 0)) by lia.
  unfold window_span. rewrite H1, H2. cbn [num_sub num_int orb].
  rewrite clamped_PInt by done. pose proof (Z.div_mod expected 4 ltac:(done)).
  pose proof (Z.mod_pos_bound expected 4 ltac:(done)).
  rewrite (Z.max_l (Block.difficulty tip) 0) by lia.
  rewrite retarget_once by lia.
  fold d. set (w := Z.max 1 (z2 - z1)).
  set (c := Z.max (Z.max 1 (expected / 4)) (Z.min w (expected * 4))).
  assert ((4 * c <=? expected) = (4 * w <=? expected)) as ->
    by (destruct (Z.leb_spec (4 * w) expected); [apply Z.leb_le|apply Z.leb_gt]; lia).
  assert ((4 * expected <=? c) = (4 * expected <=? w)) as ->
    by (destruct (Z.leb_spec (4 * expected) w); [apply Z.leb_le|apply Z.leb_gt]; lia).
  done.
Qed.

Definition timed (d ts : Z) : Block.t := Block.Make 1 "" [] (PInt ts) 0 d "" "".

Lemma next_difficulty_step_witness :
  next_difficulty (timed 4 100 :: [timed 4 105] ++ [timed 4 110]) 4 30 1 32 4 = Ok 5.
Proof. apply (next_difficulty_step (timed 4 100) [timed 4 105] (timed 4 110) 100 110 4 30 1 32);
  try reflexivity; cbn; lia. Defined.

(** Retargeting is not defined on every chain: when the window starts at a
    block with a floating-point timestamp, as the genesis block's is, and the
    time it spans lies between the two clamps, building the fraction raises
    [TypeError] whatever the difficulties are. *)
Theorem next_difficulty_float first mid tip t1 z2 config target mn mx factor :
  Block.timestamp first = PFlt t1 → Block.timestamp tip = PInt z2 →
  0 < target → 1 ≤ factor →
  let expected := Z.of_nat (S (length mid)) * target in
  Z.max 1 (expected / factor) * ticks < z2 * ticks - t1 ≤ expected * factor * ticks →
  next_difficulty (first :: mid ++ [tip]) config target mn mx factor =
  Err (TypeError "both arguments should be Rational instances").
Proof.
  intros H1 H2 Ht Hf expected Hspan.
  destruct (window_shape first mid tip) as (second & rest & -> & Hlast & Hlen).
  unfold next_difficulty. rewrite Hlast, Hlen. fold expected. assert (0 < expected) by nia.
  rewrite (proj2 (Z.leb_gt expected 0)), (proj2 (Z.leb_gt target 0)) by lia.
  rewrite H1, H2. cbn [num_sub num_val orb].
  unfold clamped_timespan, num_le, num_max, num_min, num_lt. cbn [num_val].
  rewrite (proj2 (Z.leb_gt (z2 * ticks - t1) _)), (proj2 (Z.ltb_ge factor 1)) by lia. cbn [num_val].
  rewrite (proj2 (Z.ltb_ge (expected * factor * ticks) (z2 * ticks - t1))) by lia. cbn [num_val].
  by rewrite (proj2 (Z.ltb_lt _ (z2 * ticks - t1))) by lia.
Qed.

Lemma next_difficulty_float_witness :
  next_difficulty [Block.Make 0 "" [] (PFlt (1735689600 * ticks)) 0 0 "" ""; timed 4 1735689660] 4 30 1 32 4 =
  Err (TypeError "both arguments should be Rational instances").
Proof.
  apply (next_difficulty_float (Block.Make 0 "" [] (PFlt (1735689600 * ticks)) 0 0 "" "") []
    (timed 4 1735689660) (1735689600 * ticks) 1735689660 4 30 1 32 4); try reflexivity;
    [discriminate|split; vm_compute; [reflexivity|discriminate]].
Defined.

Lemma mine_spec_witness :
  (∃ n, 0 ≤ n ≤ 2 ^ 32 ∧ mine (timed 4 7) 1 = Ok (candidate (timed 4 7) 1 n) ∧
        solves (timed 4 7) 1 n = true ∧ ∀ m, 0 ≤ m < n → solves (timed 4 7) 1 m = false) ∨
  (mine (timed 4 7) 1 = exhausted ∧ ∀ m, 0 ≤ m ≤ 2 ^ 32 → solves (timed 4 7) 1 m = false).
Proof. apply mine_spec. discriminate. Defined.

Example mine_finds : is_ok (mine (timed 4 7) 1) = true.
Proof. vm_compute. reflexivity. Qed.

End PowFacts.

#[export] Instance pow_laws : ConsensusLaws ProofOfWorkConsensus.engine.
Proof.
  split; cbn [mine validate ProofOfWorkConsensus.engine].
  - intros b d b' (_ & n & _ & -> & _)%PowFacts.mine_Ok.
    split_and!; [done|apply PowFacts.candidate_sealed..|done].
  - intros b d b' (_ & n & _ & -> & Hs)%PowFacts.mine_Ok. apply PowFacts.validate_spec.
    split_and!; [apply PowFacts.candidate_sealed|cbn; lia|exact Hs].
  - by intros b d [? _]%PowFacts.validate_spec.
  - intros b d d' Hd (? & ? & ?)%PowFacts.validate_spec. apply PowFacts.validate_spec.
    split_and!; [done|lia|done].
Qed.
