(* ===== verification/Mempool.v ===== *)
(** * blockchain/mempool.py: pending transactions

    The dictionary is an association list in insertion order, which the
    stable sort of [get_pending] makes visible. *)
From Stdlib Require Import Ascii.
From stdpp Require Import options.
From S2P Require Import Prelude PyText Json NativeAsset Wallet Transaction.

Local Open Scope Z_scope.

(** ** Python's stable sort *)

Section stable_sort.
Context {A : Type} (key : A → pynum).

(** Before the first element whose key is not smaller. *)
Fixpoint insert_by (x : A) (l : list A) : list A :=
  match l with
  | [] => [x]
  | y :: l' => if num_lt (key y) (key x) then y :: insert_by x l' else x :: l
  end.

(** [sorted(l, key=key)] *)
Definition sorted_by (l : list A) : list A := foldr insert_by [] l.

Definition key_le (x y : A) : Prop := num_val (key x) ≤ num_val (key y).

#[local] Instance key_le_trans : Transitive key_le.
Proof. unfold key_le. intros x y z. lia. Qed.

Lemma insert_by_perm x l : insert_by x l ≡ₚ x :: l.
Proof.
  induction l as [|y l IH]; simpl; [done|]. case_match; [|done].
  rewrite IH. apply Permutation_swap.
Qed.

Lemma sorted_by_perm l : sorted_by l ≡ₚ l.
Proof. induction l as [|x l IH]; simpl; [done|]. by rewrite insert_by_perm, IH. Qed.

Lemma insert_by_sorted x l : StronglySorted key_le l → StronglySorted key_le (insert_by x l).
Proof.
  induction 1 as [|y l Hl IH Hy]; simpl; [by repeat constructor|].
  unfold num_lt. destruct (Z.ltb_spec (num_val (key y)) (num_val (key x))).
  - constructor; [done|]. rewrite insert_by_perm. constructor; [unfold key_le; lia|done].
  - constructor; [by constructor|]. constructor; [unfold key_le; lia|].
    eapply Forall_impl; [done|]. unfold key_le. intros z. lia.
Qed.

Lemma sorted_by_sorted l : StronglySorted key_le (sorted_by l).
Proof. induction l; simpl; [constructor|by apply insert_by_sorted]. Qed.

(** Elements of one key keep their order. *)
Lemma insert_by_stable x l v :
  filter (λ y, num_val (key y) = v) (insert_by x l) = filter (λ y, num_val (key y) = v) (x :: l).
Proof.
  induction l as [|y l IH]; simpl; [done|]. unfold num_lt.
  destruct (Z.ltb_spec (num_val (key y)) (num_val (key x))) as [Hlt|]; [|done].
  rewrite !filter_cons, IH, filter_cons. repeat case_decide; (done || lia).
Qed.

Lemma sorted_by_stable l v :
  filter (λ y, num_val (key y) = v) (sorted_by l) = filter (λ y, num_val (key y) = v) l.
Proof.
  induction l as [|x l IH]; simpl; [done|]. by rewrite insert_by_stable, !filter_cons, IH.
Qed.
End stable_sort.

(** [l[:n]], counting from the end for a negative [n]. *)
Definition slice_to {A} (n : Z) (l : list A) : list A :=
  if 0 <=? n then take (Z.to_nat n) l else take (Z.to_nat (Z.of_nat (length l) + n)) l.

Module Mempool.

(** [_transactions] *)
Definition t := list (string * Transaction.t).

Definition init : t := [].

Definition contains (tx_hash : string) (m : t) : bool := bool_decide (is_Some (dict_get tx_hash m)).

Definition get_transaction (tx_hash : string) (m : t) : option Transaction.t := dict_get tx_hash m.

Definition values (m : t) : list Transaction.t := m.*2.

(** [remove_transactions] *)
Definition remove_transactions (tx_hashes : list string) (m : t) : t :=
  foldl (λ m h, dict_pop h m) m tx_hashes.

Definition get_pending (limit : option Z) (m : t) : list Transaction.t :=
  let ordered := sorted_by Transaction.timestamp (values m) in
  match limit with Some n => slice_to n ordered | None => ordered end.

Definition pending_spend_for (address : string) (m : t) : Z :=
  sum_Z (Transaction.amount <$> filter (λ tx, Transaction.sender tx = address) (values m)).

Definition size (m : t) : Z := Z.of_nat (length m).

Definition clear (m : t) : t := [].

Section ops.
Context `{E : ECDSA}.

(** The new pool and the returned flag. *)
Definition add_transaction (transaction : Transaction.t) (m : t) : t * bool :=
  if contains (Transaction.tx_hash transaction) m then (m, false)
  else if negb (Transaction.verify transaction) then (m, false)
  else (dict_set (Transaction.tx_hash transaction) transaction m, true).

(** Each transaction once, under its own hash, and verified. *)
Definition wf (m : t) : Prop :=
  NoDup m.*1 ∧
  Forall (λ kv, kv.1 = Transaction.tx_hash kv.2 ∧ Transaction.verify kv.2 = true) m.

Lemma pool_wf_init : wf init.
Proof. split; constructor. Qed.

Lemma add_transaction_true tx m m' :
  add_transaction tx m = (m', true) →
  (m' = m ++ [(Transaction.tx_hash tx, tx)]) ∧ (Transaction.tx_hash tx ∉ m.*1) ∧
  Transaction.verify tx = true.
Proof.
  unfold add_transaction, contains. case_bool_decide as Hc; [done|].
  apply eq_None_not_Some, dict_get_None in Hc.
  destruct (Transaction.verify tx); [|done]. cbn. intros [= <-].
  by rewrite dict_set_fresh.
Qed.

Lemma pool_wf_add tx m : wf m → wf (add_transaction tx m).1.
Proof.
  intros [Hnd Hall]. destruct (add_transaction tx m) as [m' []] eqn:Ha.
  - apply add_transaction_true in Ha as (-> & Hfresh & Hv). split; cbn.
    + rewrite fmap_app. apply NoDup_app. split_and!; [done|set_solver|apply NoDup_singleton].
    + apply Forall_app; split; [done|]. by constructor.
  - unfold add_transaction in Ha. repeat case_match; simplify_eq; done.
Qed.

Lemma wf_sublist m m' : sublist m' m → wf m → wf m'.
Proof.
  intros Hs [Hnd Hall]. split.
  - eapply sublist_NoDup; [done|]. by apply fmap_sublist.
  - rewrite Forall_forall in *. intros kv Hkv. apply Hall. by eapply elem_of_sublist.
Qed.

Lemma remove_sublist hs m : sublist (remove_transactions hs m) m.
Proof.
  revert m; induction hs as [|h hs IH]; intros m; simpl; [done|].
  etrans; [apply IH|apply dict_pop_sublist].
Qed.

Lemma wf_remove hs m : wf m → wf (remove_transactions hs m).
Proof. apply wf_sublist, remove_sublist. Qed.
(** The pools the operations lead to. *)
Inductive reachable : t → Prop :=
  | reach_init : reachable init
  | reach_add tx m : reachable m → reachable (add_transaction tx m).1
  | reach_remove hs m : reachable m → reachable (remove_transactions hs m)
  | reach_clear m : reachable m → reachable (clear m).

Lemma reachable_wf m : reachable m → wf m.
Proof. induction 1; auto using pool_wf_init, pool_wf_add, wf_remove. Qed.

(** Removing reported hashes leaves exactly the others. *)
Lemma remove_filter hs m :
  NoDup m.*1 → remove_transactions hs m = filter (λ kv, kv.1 ∉ hs) m.
Proof.
  revert m; induction hs as [|h hs IH]; intros m Hm.
  { cbn. clear Hm. induction m as [|kv m IHm]; [done|]. rewrite filter_cons_True by set_solver. congruence. }
  change (remove_transactions (h :: hs) m) with (remove_transactions hs (dict_pop h m)).
  rewrite IH; [|eapply sublist_NoDup; [done|]; apply fmap_sublist, dict_pop_sublist].
  rewrite dict_pop_filter by done. rewrite list_filter_filter.
  apply list_filter_iff. intros kv. set_solver.
Qed.

Lemma pending_spend_add tx m m' address :
  add_transaction tx m = (m', true) →
  pending_spend_for address m' =
  pending_spend_for address m +
  (if decide (Transaction.sender tx = address) then Transaction.amount tx else 0).
Proof.
  intros (-> & _ & _)%add_transaction_true. unfold pending_spend_for, values.
  rewrite fmap_app, filter_app, fmap_app, sum_Z_app. f_equal.
  change ([(Transaction.tx_hash tx, tx)].*2) with [tx].
  rewrite filter_cons. case_decide; cbn; lia.
Qed.

Lemma values_verified m : wf m → Forall (λ tx, Transaction.verify tx = true) (values m).
Proof. intros [_ Hm]. unfold values. rewrite Forall_fmap. eapply Forall_impl; [done|]. by intros ? [_ ?]. Qed.

Lemma pending_spend_nonneg address m : wf m → 0 ≤ pending_spend_for address m.
Proof.
  intros Hm%values_verified. unfold pending_spend_for. apply sum_Z_nonneg.
  rewrite Forall_fmap. apply Forall_forall. intros tx [_ Hin]%list_elem_of_filter.
  rewrite Forall_forall in Hm. apply Hm, Transaction.verify_spec in Hin. cbn.
  unfold Transaction.amount. lia.
Qed.
End ops.

(** The pool hands out its transactions in order of age: [get_pending] is
    sorted by timestamp, holds each pending transaction exactly once, and keeps
    transactions of the same timestamp in the order of their arrival; with a
    limit it is the beginning of that list. *)
Theorem get_pending_spec m n :
  0 ≤ n →
  let ordered := get_pending None m in
  StronglySorted (key_le Transaction.timestamp) ordered ∧
  ordered ≡ₚ values m ∧
  (∀ ts, filter (λ tx, num_val (Transaction.timestamp tx) = ts) ordered =
         filter (λ tx, num_val (Transaction.timestamp tx) = ts) (values m)) ∧
  get_pending (Some n) m = take (Z.to_nat n) ordered.
Proof.
  intros Hn ordered. unfold ordered, get_pending.
  split; [apply sorted_by_sorted|]. split; [apply sorted_by_perm|].
  split; [intros; apply sorted_by_stable|].
  unfold slice_to. by rewrite (proj2 (Z.leb_le 0 n)).
Qed.

Definition sample_pool : t :=
  let tx n ts := Transaction.Make "a" "b" n (PInt ts) None None "" in
  [("x", tx 1 30); ("y", tx 2 10); ("z", tx 3 30); ("w", tx 4 20)].

Lemma get_pending_spec_witness :
  let ordered := get_pending None sample_pool in
  StronglySorted (key_le Transaction.timestamp) ordered ∧
  ordered ≡ₚ values sample_pool ∧
  (∀ ts, filter (λ tx, num_val (Transaction.timestamp tx) = ts) ordered =
         filter (λ tx, num_val (Transaction.timestamp tx) = ts) (values sample_pool)) ∧
  get_pending (Some 2) sample_pool = take (Z.to_nat 2) ordered.
Proof. apply get_pending_spec. discriminate. Defined.

(** The pool never holds a transaction it has not verified, nor one twice:
    after any sequence of additions and removals from the empty pool its keys
    are distinct, every transaction is under its own hash and passes [verify],
    and no address is recorded as spending a negative amount. *)
Theorem mempool_invariant `{E : ECDSA} m address :
  reachable m →
  NoDup m.*1 ∧
  (∀ h tx, get_transaction h m = Some tx →
     Transaction.tx_hash tx = h ∧ Transaction.verify tx = true) ∧
  0 ≤ pending_spend_for address m.
Proof.
  intros Hm%reachable_wf. pose proof Hm as [Hnd Hall]. split; [done|].
  split; [|by apply pending_spend_nonneg].
  intros h tx Hget%dict_get_elem. rewrite Forall_forall in Hall. by apply Hall in Hget as [??].
Qed.

Lemma mempool_invariant_witness :
  let m := (add_transaction (E := ToyECDSA.ecdsa) Transaction.toy_transfer init).1 in
  NoDup m.*1 ∧
  (∀ h tx, get_transaction h m = Some tx →
     Transaction.tx_hash tx = h ∧ Transaction.verify (E := ToyECDSA.ecdsa) tx = true) ∧
  0 ≤ pending_spend_for "a" m.
Proof. cbv zeta. apply mempool_invariant. apply reach_add, reach_init. Defined.

Example mempool_admits : (add_transaction (E := ToyECDSA.ecdsa) Transaction.toy_transfer init).2 = true.
Proof. vm_compute. reflexivity. Qed.

End Mempool.
