(* ===== verification/Settings.v ===== *)
(** * config/settings.py: configuration read from the environment

    The environment is a map from variable names to text; [base_dir] is where
    the program is installed.  Creating the database directory, which
    [database_url] does on the side, is not modelled. *)
From Stdlib Require Import Ascii.
From stdpp Require Import options.
From S2P Require Import Prelude PyText Json NativeAsset.

Local Open Scope Z_scope.

Definition environ := gmap string string.

(** [raw.strip()] *)
Definition strip_str (s : string) : string := of_chars (Dec.strip (chars s)).

Section env.
Context (env : environ).

Definition env_int (key : string) (default : Z) : Z :=
  match env !! key with
  | None => default
  | Some raw =>
      if String.eqb (strip_str raw) "" then default
      else match int_of_text 10 raw with Some z => z | None => default end
  end.

Definition env_str (key default : string) : string :=
  match env !! key with
  | None => default
  | Some raw => if String.eqb (strip_str raw) "" then default else raw
  end.

(** [raw.split(",")] *)
Fixpoint split_commas (l : list ascii) : list (list ascii) :=
  match l with
  | [] => [[]]
  | c :: l =>
      match split_commas l with
      | w :: ws => if code c =? 44 then [] :: w :: ws else (c :: w) :: ws
      | [] => [[c]]
      end
  end.

Definition env_list (key : string) (default : list string) : list string :=
  match env !! key with
  | None => default
  | Some raw =>
      if String.eqb (strip_str raw) "" then default
      else filter (λ s, s ≠ "") ((λ w, strip_str (of_chars w)) <$> split_commas (chars raw))
  end.
End env.

Record GenesisConfig := {
  genesis_index : Z;
  genesis_previous_hash : string;
  genesis_timestamp : pynum;
  genesis_nonce : Z;
  genesis_message : string;
}.

Definition default_genesis_config : GenesisConfig := {|
  genesis_index := 0;
  genesis_previous_hash := "0000000000000000000000000000000000000000000000000000000000000000";
  genesis_timestamp := PFlt (1735689600 * ticks);
  genesis_nonce := 0;
  genesis_message := "SAYANJALI BLOCKCHAIN GENESIS BLOCK - SYJ TOKEN NETWORK";
|}.

Record ConsensusConfig := {
  algorithm : string;
  difficulty : Z;
  target_block_time_seconds : Z;
  difficulty_adjustment_interval : Z;
  max_nonce : Z;
  min_difficulty : Z;
  max_difficulty : Z;
  max_difficulty_adjustment_factor : Z;
}.

Definition consensus_config (env : environ) : ConsensusConfig := {|
  algorithm := "pow";
  difficulty := env_int env "SYJ_DIFFICULTY" 4;
  target_block_time_seconds := env_int env "SYJ_TARGET_BLOCK_TIME" 30;
  difficulty_adjustment_interval := env_int env "SYJ_DIFFICULTY_ADJUSTMENT_INTERVAL" 10;
  max_nonce := 2 ^ 32;
  min_difficulty := env_int env "SYJ_MIN_DIFFICULTY" 1;
  max_difficulty := env_int env "SYJ_MAX_DIFFICULTY" 32;
  max_difficulty_adjustment_factor := env_int env "SYJ_MAX_DIFFICULTY_ADJUSTMENT_FACTOR" 4;
|}.

Record MiningConfig := {
  block_reward : Z;
  coinbase_address : string;
  halving_interval : Z;
}.

Definition mining_config (env : environ) : res MiningConfig :=
  reward ← to_base_units (AStr (env_str env "SYJ_BLOCK_REWARD" "50.0"));
  Ok {| block_reward := reward;
        coinbase_address := "SYJ-COINBASE-0000000000000000000000000000";
        halving_interval := 210000 |}.

Record NetworkConfig := {
  network_name : string;
  host : string;
  port : Z;
  chain_id : Z;
}.

Definition network_config (env : environ) : NetworkConfig := {|
  network_name := env_str env "SYJ_NETWORK_NAME" "sayanjali-mainnet-mvp";
  host := env_str env "SYJ_HOST" "0.0.0.0";
  port := env_int env "SYJ_PORT" 8000;
  chain_id := env_int env "SYJ_CHAIN_ID" 1;
|}.

Record NativeAssetConfig := {
  symbol : string;
  base_units_per_syj : Z;
  max_supply_base_units : Z;
}.

Definition native_asset_config : NativeAssetConfig := {|
  symbol := "SYJ";
  base_units_per_syj := BASE_UNITS_PER_SYJ;
  max_supply_base_units := MAX_SUPPLY_BASE_UNITS;
|}.

(** [s.rstrip("/")] *)
Fixpoint rstrip_slash (l : list ascii) : list ascii :=
  match l with
  | [] => []
  | c :: l =>
      match rstrip_slash l with
      | [] => if code c =? 47 then [] else [c]
      | l' => c :: l'
      end
  end.

Example default_reward : block_reward <$> mining_config ∅ = Ok 5000000000.
Proof. vm_compute. reflexivity. Qed.

Example env_list_example :
  env_list {["P" := " a, b ,,c "]} "P" [] = ["a"; "b"; "c"].
Proof. vm_compute. reflexivity. Qed.

(** [float(text)] of a setting, in ticks.  The special values, and fractions
    that the model's floats do not have, stop it. *)
Definition env_float (env : environ) (key default : string) : res Z :=
  match Dec.of_string (env_str env key default) with
  | Some (Dec.Fin neg coef exp) =>
      match Dec.to_ticks neg coef exp with Some t => Ok t | None => Err (Untyped key) end
  | Some _ => Err (Untyped key)
  | None => Err (ValueError "could not convert string to float")
  end.

Module P2PConfig.

Record t := {
  node_id_override : string;
  advertised_address : string;
  bootstrap_peers : list string;
  max_peers : Z;
  sync_timeout_seconds : Z;
  propagation_timeout_seconds : Z;
  max_chain_sync_bytes : Z;
  max_block_payload_bytes : Z;
  max_transaction_payload_bytes : Z;
  rate_limit_requests : Z;
  rate_limit_window_seconds : Z;
  allow_private_peer_addresses : bool;
  auth_freshness_window_seconds : Z;
  replay_cache_size : Z;
  max_sync_blocks : Z;
  max_handshake_payload_bytes : Z;
  max_request_body_bytes : Z;
  maintenance_interval_seconds : Z;
  max_peer_failures : Z;
  rate_limit_max_keys : Z;
}.

Definition load (env : environ) : res t :=
  sync_timeout ← env_float env "SYJ_SYNC_TIMEOUT" "10.0";
  propagation_timeout ← env_float env "SYJ_PROPAGATION_TIMEOUT" "5.0";
  rate_window ← env_float env "SYJ_PEER_RATE_LIMIT_WINDOW" "60.0";
  freshness ← env_float env "SYJ_AUTH_FRESHNESS_WINDOW" "300.0";
  maintenance ← env_float env "SYJ_NETWORK_MAINTENANCE_INTERVAL" "15.0";
  Ok {| node_id_override := env_str env "SYJ_NODE_ID" "";
        advertised_address := env_str env "SYJ_ADVERTISED_ADDRESS" "";
        bootstrap_peers := env_list env "SYJ_BOOTSTRAP_PEERS" [];
        max_peers := env_int env "SYJ_MAX_PEERS" 25;
        sync_timeout_seconds := sync_timeout;
        propagation_timeout_seconds := propagation_timeout;
        max_chain_sync_bytes := env_int env "SYJ_MAX_SYNC_BYTES" (8 * 1024 * 1024);
        max_block_payload_bytes := env_int env "SYJ_MAX_BLOCK_PAYLOAD_BYTES" (512 * 1024);
        max_transaction_payload_bytes := env_int env "SYJ_MAX_TX_PAYLOAD_BYTES" (16 * 1024);
        rate_limit_requests := env_int env "SYJ_PEER_RATE_LIMIT_REQUESTS" 60;
        rate_limit_window_seconds := rate_window;
        allow_private_peer_addresses :=
          bool_decide (lower (env_str env "SYJ_ALLOW_PRIVATE_PEER_ADDRESSES" "true")
                       ∈ ["1"; "true"; "yes"]);
        auth_freshness_window_seconds := freshness;
        replay_cache_size := env_int env "SYJ_REPLAY_CACHE_SIZE" 10000;
        max_sync_blocks := env_int env "SYJ_MAX_SYNC_BLOCKS" 50000;
        max_handshake_payload_bytes := env_int env "SYJ_MAX_HANDSHAKE_PAYLOAD_BYTES" 8192;
        max_request_body_bytes := env_int env "SYJ_MAX_REQUEST_BODY_BYTES" 1048576;
        maintenance_interval_seconds := maintenance;
        max_peer_failures := env_int env "SYJ_MAX_PEER_FAILURES" 8;
        rate_limit_max_keys := env_int env "SYJ_RATE_LIMIT_MAX_KEYS" 10000 |}.

Example freshness_default :
  (λ c, (auth_freshness_window_seconds c, allow_private_peer_addresses c)) <$> load ∅ = Ok (300 * ticks, true).
Proof. vm_compute. reflexivity. Qed.
Example half_a_second :
  sync_timeout_seconds <$> load {["SYJ_SYNC_TIMEOUT" := "0.5"]} = Ok (ticks / 2).
Proof. vm_compute. reflexivity. Qed.

End P2PConfig.

(** [directory / name]: an absolute name replaces the directory. *)
Definition path_join (directory name : string) : string :=
  if starts_with name "/" then name else directory +:+ "/" +:+ name.

Record StorageConfig := { database_dir : string; database_file : string }.

Definition storage_config (base_dir : string) (env : environ) : StorageConfig := {|
  database_dir := path_join base_dir "database";
  database_file := env_str env "SYJ_DB_FILE" "sayanjali_chain.db";
|}.

Definition database_url (c : StorageConfig) : string :=
  "sqlite:///" +:+ path_join (database_dir c) (database_file c).

Record LoggingConfig := {
  log_dir : string;
  log_file : string;
  level : string;
  max_bytes : Z;
  backup_count : Z;
}.

Definition logging_config (base_dir : string) (env : environ) : LoggingConfig := {|
  log_dir := path_join base_dir "logs";
  log_file := "sayanjali.log";
  level := env_str env "SYJ_LOG_LEVEL" "INFO";
  max_bytes := 5 * 1024 * 1024;
  backup_count := 5;
|}.

Record FutureConsensusOptions := {
  pos_min_stake : pynum;
  pos_unbonding_period_blocks : Z;
  dpos_validator_count : Z;
  dpos_epoch_blocks : Z;
}.

Definition future_consensus_options : FutureConsensusOptions := {|
  pos_min_stake := PFlt (1000 * ticks);
  pos_unbonding_period_blocks := 1000;
  dpos_validator_count := 21;
  dpos_epoch_blocks := 100;
|}.

Record Settings := {
  genesis_settings : GenesisConfig;
  consensus_settings : ConsensusConfig;
  mining_settings : MiningConfig;
  network_settings : NetworkConfig;
  storage_settings : StorageConfig;
  logging_settings : LoggingConfig;
  asset_settings : NativeAssetConfig;
  future_consensus_settings : FutureConsensusOptions;
  p2p_settings : P2PConfig.t;
}.

Definition settings (base_dir : string) (env : environ) : res Settings :=
  mining ← mining_config env;
  p2p ← P2PConfig.load env;
  Ok {| genesis_settings := default_genesis_config;
        consensus_settings := consensus_config env;
        mining_settings := mining;
        network_settings := network_config env;
        storage_settings := storage_config base_dir env;
        logging_settings := logging_config base_dir env;
        asset_settings := native_asset_config;
        future_consensus_settings := future_consensus_options;
        p2p_settings := p2p |}.

(** The properties that pass on a field of a group. *)
Definition settings_difficulty (s : Settings) : Z := difficulty (consensus_settings s).
Definition settings_reward (s : Settings) : Z := block_reward (mining_settings s).
Definition settings_host (s : Settings) : string := host (network_settings s).
Definition settings_port (s : Settings) : Z := port (network_settings s).
Definition settings_database (s : Settings) : string := database_url (storage_settings s).
Definition settings_network_name (s : Settings) : string := network_name (network_settings s).

Definition resolved_advertised_address (s : Settings) : string :=
  let advertised := P2PConfig.advertised_address (p2p_settings s) in
  if negb (String.eqb advertised "") then of_chars (rstrip_slash (chars advertised))
  else
    let net := network_settings s in
    let h := if negb (String.eqb (host net) "0.0.0.0") then host net else "127.0.0.1" in
    "http://" +:+ h +:+ ":" +:+ str_Z (port net).

Example default_address : resolved_advertised_address <$> settings "/srv" ∅ = Ok "http://127.0.0.1:8000".
Proof. vm_compute. reflexivity. Qed.
Example default_database : settings_database <$> settings "/srv" ∅ = Ok "sqlite:////srv/database/sayanjali_chain.db".
Proof. vm_compute. reflexivity. Qed.
