(* ===== verification/Samples.v ===== *)
(** * Concrete blocks for the witnesses

    A chain of the program's own genesis block and mined blocks at difficulty
    one: the second pays the wallet of key 7, the third carries a transfer of
    that wallet to the wallet of key 9, and the fourth the same transfer. *)
From stdpp Require Import options.
From S2P Require Import Prelude PyText Json Utils NativeAsset Wallet Transaction Block Consensus Settings.

Local Open Scope Z_scope.

Definition sample_env : environ := {["SYJ_DIFFICULTY" := "1"]}.
Definition sample_config : ConsensusConfig := consensus_config sample_env.
Definition sample_reward : Z := 5000000000.

(** The block of the default configuration. *)
Definition genesis_block : Block.t := Eval vm_compute in
  let c := default_genesis_config in
  match Block.genesis (genesis_previous_hash c) (genesis_timestamp c) (genesis_nonce c)
          (genesis_message c) with
  | Ok b => b
  | Err _ => Block.Make 0 "" [] (PInt 0) 0 0 "" ""
  end.

(** The published hashes of the genesis block and of its transaction. *)
Example genesis_hash :
  Block.hash genesis_block = "5c95d2d7b63bde94fbfcfe4c2a95850ca96e0fc649e93e545b8b32f3a9c7cc1b".
Proof. vm_compute. reflexivity. Qed.

Example genesis_tx_hash :
  Block.tx_hashes genesis_block = ["f7c09e086769bcc45992c133e49f373edbe4653447ad6e1eec9bd60cfbf9a59d"].
Proof. vm_compute. reflexivity. Qed.

Definition alice : string := Eval vm_compute in Wallet.address (toy_wallet 7).
Definition bob : string := Eval vm_compute in Wallet.address (toy_wallet 9).

Definition sample_coinbase (ts amount : Z) : Transaction.t :=
  match Transaction.init (ts * ticks) COINBASE_SENDER alice None (Some (JNum (PInt amount))) None None None "" with
  | Ok tx => tx
  | Err _ => Transaction.toy_transfer
  end.

(** Mined after [prev] at time [ts]. *)
Definition sample_next (prev : Block.t) (ts : Z) (txs : list Transaction.t) : Block.t :=
  let b := Block.init (Block.index prev + 1) (Block.hash prev)
             (sample_coinbase ts sample_reward :: txs) (PInt ts) 0 0 "" "" in
  match ProofOfWorkConsensus.mine b 1 with Ok b => b | Err _ => b end.

Definition block1 : Block.t := Eval vm_compute in sample_next genesis_block 1735700000 [].
Definition block2 : Block.t := Eval vm_compute in sample_next block1 1735700030 [Transaction.toy_transfer].
Definition block3 : Block.t := Eval vm_compute in sample_next block2 1735700060 [Transaction.toy_transfer].

Definition sample_chain : list Block.t := [genesis_block; block1; block2].
Definition replay_chain : list Block.t := [genesis_block; block1; block2; block3].

#[global] Opaque genesis_block alice bob block1 block2 block3.

Definition sample_p2p : P2PConfig.t := {|
  P2PConfig.node_id_override := "";
  P2PConfig.advertised_address := "http://node:8000";
  P2PConfig.bootstrap_peers := [];
  P2PConfig.max_peers := 25;
  P2PConfig.sync_timeout_seconds := 10 * ticks;
  P2PConfig.propagation_timeout_seconds := 5 * ticks;
  P2PConfig.max_chain_sync_bytes := 8388608;
  P2PConfig.max_block_payload_bytes := 524288;
  P2PConfig.max_transaction_payload_bytes := 16384;
  P2PConfig.rate_limit_requests := 60;
  P2PConfig.rate_limit_window_seconds := 60 * ticks;
  P2PConfig.allow_private_peer_addresses := true;
  P2PConfig.auth_freshness_window_seconds := 300 * ticks;
  P2PConfig.replay_cache_size := 10000;
  P2PConfig.max_sync_blocks := 50000;
  P2PConfig.max_handshake_payload_bytes := 8192;
  P2PConfig.max_request_body_bytes := 1048576;
  P2PConfig.maintenance_interval_seconds := 15 * ticks;
  P2PConfig.max_peer_failures := 8;
  P2PConfig.rate_limit_max_keys := 10000;
|}.
