(* ===== verification/Validators.v ===== *)
(** * blockchain/validators.py: transaction, block and chain rules

    The verdicts are the pairs the code returns, with their messages; an
    exception that can escape (retargeting, see Consensus) makes the block and
    chain verdicts [res].  [_state_from_chain] is written as the two nested
    loops of the code, whose early returns are the right injection. *)
From Stdlib Require Import Ascii.
From stdpp Require Import options.
From S2P Require Import Prelude PyText Json Utils NativeAsset Wallet Transaction Block Consensus Settings Samples.

Local Open Scope Z_scope.

(** [(valid, reason)] *)
Definition verdict := (bool * string)%type.
Abbreviation accept := ((true, "") : verdict).
Definition reject (reason : string) : verdict := (false, reason).

Abbreviation balances := (gmap string Z).

Section validators.
Context `{E : ECDSA}.

Definition validate_transaction (transaction : Transaction.t) : verdict :=
  let '(amount_ok, amount_reason) :=
    validate_base_units (Transaction.amount_base_units transaction) false in
  if negb amount_ok then (false, amount_reason)
  else if negb (Transaction.is_coinbase transaction)
          && String.eqb (Transaction.sender transaction) (Transaction.receiver transaction)
  then reject "Sender and receiver must differ."
  else if negb (Transaction.verify transaction)
  then reject "Transaction signature verification failed."
  else accept.

Definition chain_work (chain : list Block.t) : Z :=
  sum_Z ((λ b, 16 ^ Z.max (Block.difficulty b) 0) <$> chain).

(** [l[-window:]] *)
Definition slice_last {A} (window : Z) (l : list A) : list A :=
  if window =? 0 then l
  else if 0 <? window then drop (Z.to_nat (Z.of_nat (length l) - window)) l
  else drop (Z.to_nat (- window)) l.

Definition expected_difficulty (chain_prefix : list Block.t) (consensus : ConsensusEngine)
    (config : ConsensusConfig) : res Z :=
  let window := difficulty_adjustment_interval config in
  let recent := if window <=? Z.of_nat (length chain_prefix)
                then slice_last window chain_prefix else chain_prefix in
  next_difficulty consensus recent (difficulty config) (target_block_time_seconds config)
    (min_difficulty config) (max_difficulty config) (max_difficulty_adjustment_factor config).

Definition validate_genesis_identity (candidate_chain : list Block.t) (local_genesis : Block.t)
    : verdict :=
  match candidate_chain with
  | [] => reject "Candidate chain is empty."
  | b :: _ =>
      if negb (String.eqb (Block.hash b) (Block.hash local_genesis))
      then reject "Candidate chain's genesis block does not match this network."
      else accept
  end.

(** ** Replaying the monetary state *)

Definition coinbases (b : Block.t) : list Transaction.t :=
  filter (λ tx, Transaction.is_coinbase tx = true) (Block.transactions b).

(** The body of the loop over a block's transactions. *)
Definition apply_transaction (bal : balances) (tx : Transaction.t) : balances + string :=
  if Transaction.is_coinbase tx then inl bal
  else
    let '(valid, reason) := validate_transaction tx in
    if negb valid then inr ("Invalid transaction " +:+ Transaction.tx_hash tx +:+ ": " +:+ reason)
    else
      let sender_balance := get0 bal (Transaction.sender tx) in
      if sender_balance <? Transaction.amount_base_units tx then
        inr ("Insufficient balance for " +:+ Transaction.sender tx +:+ ": needs " +:+
             str_Z (Transaction.amount_base_units tx) +:+ ", has " +:+ str_Z sender_balance +:+ ".")
      else
        let bal := <[Transaction.sender tx := sender_balance - Transaction.amount_base_units tx]> bal in
        inl (<[Transaction.receiver tx :=
                 get0 bal (Transaction.receiver tx) + Transaction.amount_base_units tx]> bal).

Fixpoint apply_transactions (bal : balances) (txs : list Transaction.t) : balances + string :=
  match txs with
  | [] => inl bal
  | tx :: txs =>
      match apply_transaction bal tx with
      | inl bal => apply_transactions bal txs
      | inr reason => inr reason
      end
  end.

(** The body of the loop over the blocks; a failure keeps the supply. *)
Definition apply_block (expected_coinbase_reward max_supply : Z) (bal : balances)
    (total_supply : Z) (block : Block.t) : (balances * Z) + (Z * string) :=
  if Block.index block =? 0 then inl (bal, total_supply)
  else
    match coinbases block with
    | [coinbase] =>
        let expected_reward := Z.min expected_coinbase_reward (max_supply - total_supply) in
        if expected_reward <=? 0 then
          inr (total_supply, "No SYJ issuance remains; further coinbase issuance is forbidden.")
        else if negb (Transaction.amount_base_units coinbase =? expected_reward) then
          inr (total_supply, "Coinbase reward does not match protocol reward or remaining supply.")
        else
          let next_supply := total_supply + Transaction.amount_base_units coinbase in
          if max_supply <? next_supply then
            inr (total_supply, "Maximum SYJ supply would be exceeded.")
          else
            let bal := <[Transaction.receiver coinbase :=
              get0 bal (Transaction.receiver coinbase) + Transaction.amount_base_units coinbase]> bal in
            match apply_transactions bal (Block.transactions block) with
            | inl bal => inl (bal, next_supply)
            | inr reason => inr (next_supply, reason)
            end
    | _ => inr (total_supply, "Each non-genesis block must contain exactly one coinbase.")
    end.

Fixpoint apply_blocks (reward max_supply : Z) (bal : balances) (total : Z)
    (chain : list Block.t) : (balances * Z) + (Z * string) :=
  match chain with
  | [] => inl (bal, total)
  | b :: chain =>
      match apply_block reward max_supply bal total b with
      | inl (bal, total) => apply_blocks reward max_supply bal total chain
      | inr r => inr r
      end
  end.

(** [(balances, total_supply, reason)]; no balances where there is a reason. *)
Definition state_from_chain (chain : list Block.t) (reward max_supply : Z)
    : balances * Z * string :=
  match apply_blocks reward max_supply ∅ 0 chain with
  | inl (bal, total) => (bal, total, "")
  | inr (total, reason) => (∅, total, reason)
  end.

(** ** Blocks *)

Fixpoint validate_transactions (txs : list Transaction.t) : verdict :=
  match txs with
  | [] => accept
  | tx :: txs =>
      let '(valid, reason) := validate_transaction tx in
      if negb valid then reject ("Invalid transaction " +:+ Transaction.tx_hash tx +:+ ": " +:+ reason)
      else validate_transactions txs
  end.

Definition validate_block_structure (block : Block.t) (expected_coinbase_reward : option Z)
    (max_supply : Z) : verdict :=
  if Block.index block <? 0 then reject "Block index cannot be negative."
  else if negb (String.eqb (Block.compute_merkle_root block) (Block.merkle_root block))
  then reject "Merkle root does not match block transactions."
  else if negb (String.eqb (Block.compute_hash block) (Block.hash block))
  then reject "Block hash does not match recomputed hash."
  else if Block.index block =? 0 then accept
  else
    match coinbases block with
    | _ :: _ :: _ => reject "Block contains more than one coinbase transaction."
    | [] => reject "Block is missing its required coinbase transaction."
    | [coinbase] =>
        let amount := Transaction.amount_base_units coinbase in
        if match expected_coinbase_reward with Some r => negb (amount =? r) | None => false end then
          reject ("Coinbase reward " +:+ str_Z amount +:+
                  " base units does not match the protocol-required reward " +:+
                  str_Z (default 0 expected_coinbase_reward) +:+ ".")
        else if max_supply <? amount then reject "Coinbase reward exceeds maximum SYJ supply."
        else validate_transactions (Block.transactions block)
    end.

Definition validate_block_against_chain (block : Block.t) (chain_so_far : list Block.t)
    (consensus : ConsensusEngine) (config : ConsensusConfig) (reward max_supply : Z)
    : res verdict :=
  match last chain_so_far with
  | None => Ok (reject "chain_so_far must not be empty.")
  | Some previous_block =>
      if negb (Block.index block =? Block.index previous_block + 1)
      then Ok (reject "Block index is not sequential.")
      else if negb (String.eqb (Block.previous_hash block) (Block.hash previous_block))
      then Ok (reject "previous_hash does not match previous block's hash.")
      else if num_le (Block.timestamp block) (Block.timestamp previous_block)
      then Ok (reject "Block timestamp must be after the previous block.")
      else
        let '(_, current_supply, state_reason) := state_from_chain chain_so_far reward max_supply in
        if negb (String.eqb state_reason "")
        then Ok (reject ("Existing chain state invalid: " +:+ state_reason))
        else
          let '(_, candidate_supply, candidate_state_reason) :=
            state_from_chain (chain_so_far ++ [block]) reward max_supply in
          if negb (String.eqb candidate_state_reason "")
          then Ok (reject ("Invalid monetary state transition: " +:+ candidate_state_reason))
          else
            required_difficulty ← expected_difficulty chain_so_far consensus config;
            if negb (Block.difficulty block =? required_difficulty) then
              Ok (reject ("Block difficulty " +:+ str_Z (Block.difficulty block) +:+
                " does not match the protocol-required difficulty " +:+
                str_Z required_difficulty +:+ " for this chain position."))
            else if negb (validate consensus block required_difficulty)
            then Ok (reject "Block does not satisfy consensus (proof-of-work) rules.")
            else
              let expected_reward := Z.min reward (max_supply - current_supply) in
              if expected_reward <=? 0 then
                Ok (reject "No SYJ issuance remains; a new block cannot contain a coinbase reward.")
              else
                let '(structure_valid, reason) :=
                  validate_block_structure block (Some expected_reward) max_supply in
                if negb structure_valid then Ok (reject reason)
                else if max_supply <? candidate_supply
                then Ok (reject "Block would exceed the maximum SYJ supply.")
                else Ok accept
  end.

(** ** Chains *)

(** The loop over [i in range(1, len(chain))]: [prefix] is [chain[:i]]. *)
Fixpoint validate_links (prefix rest : list Block.t) (consensus : ConsensusEngine)
    (config : ConsensusConfig) (reward max_supply : Z) : res verdict :=
  match rest with
  | [] => Ok accept
  | b :: rest =>
      '(valid, reason) ← validate_block_against_chain b prefix consensus config reward max_supply;
      if negb valid
      then Ok (reject ("Block " +:+ str_Z (Block.index b) +:+ " invalid: " +:+ reason))
      else validate_links (prefix ++ [b]) rest consensus config reward max_supply
  end.

Definition validate_chain (chain : list Block.t) (consensus : ConsensusEngine)
    (config : ConsensusConfig) (reward max_supply : Z) : res verdict :=
  match chain with
  | [] => Ok (reject "Chain is empty.")
  | genesis :: rest =>
      let '(genesis_valid, reason) :=
        validate_block_structure genesis None MAX_SUPPLY_BASE_UNITS in
      if negb genesis_valid then Ok (reject ("Genesis block invalid: " +:+ reason))
      else
        '(valid, reason) ← validate_links [genesis] rest consensus config reward max_supply;
        if negb valid then Ok (reject reason)
        else
          let '(_, total_supply, state_reason) := state_from_chain chain reward max_supply in
          if negb (String.eqb state_reason "")
          then Ok (reject ("Monetary state invalid: " +:+ state_reason))
          else if max_supply <? total_supply then Ok (reject "Maximum SYJ supply exceeded.")
          else Ok accept
  end.
End validators.

(** ** Transactions *)

Section transaction_facts.
Context `{E : ECDSA}.

Lemma validate_transaction_spec tx :
  validate_transaction tx = accept ↔
  Transaction.verify tx = true ∧
  (Transaction.is_coinbase tx = true ∨ Transaction.sender tx ≠ Transaction.receiver tx).
Proof.
  unfold validate_transaction.
  destruct (validate_base_units _ _) as [ok reason] eqn:Hv.
  assert (Hok : Transaction.verify tx = true → ok = true).
  { intros (? & _)%Transaction.verify_spec. change ok with (ok, reason).1. rewrite <-Hv.
    by apply (Transaction.validate_base_units_true _ false). }
  destruct ok; cbn [negb].
  2: { split; [discriminate|]. intros [? _]. by discriminate Hok. }
  destruct (Transaction.is_coinbase tx); cbn [negb andb].
  - destruct (Transaction.verify tx); cbn; split; [by auto|done|done|by intros []].
  - destruct (String.eqb_spec (Transaction.sender tx) (Transaction.receiver tx)).
    + split; [done|]. intros [_ []]; done.
    + destruct (Transaction.verify tx); cbn; split; [by auto|done|done|by intros []].
Qed.

(** A verdict says [true] only as [accept]. *)
Lemma validate_transaction_true tx reason :
  validate_transaction tx = (true, reason) → validate_transaction tx = accept.
Proof.
  unfold validate_transaction. destruct (validate_base_units _ _) as [[] ?]; cbn; [|done].
  repeat case_match; by intros [=].
Qed.

Lemma validate_transactions_spec txs :
  validate_transactions txs = accept ↔ Forall (λ tx, validate_transaction tx = accept) txs.
Proof.
  induction txs as [|tx txs IH]; cbn; [by split|]. rewrite Forall_cons, <-IH.
  destruct (validate_transaction tx) as [[] reason] eqn:Hv; cbn.
  - apply validate_transaction_true in Hv as Ha. rewrite Ha in Hv. injection Hv as <-. naive_solver.
  - split; [done|]. by intros [[=] _].
Qed.

Lemma validate_transactions_true txs reason :
  validate_transactions txs = (true, reason) → reason = "".
Proof. induction txs; cbn; [by intros [=]|]. case_match. case_match; [done|auto]. Qed.

Lemma valid_amount tx :
  validate_transaction tx = accept → 0 < Transaction.amount_base_units tx ≤ MAX_SUPPLY_BASE_UNITS.
Proof. by intros [[? _]%Transaction.verify_spec _]%validate_transaction_spec. Qed.
End transaction_facts.

(** ** The replay of one block *)

(** What a transaction adds to an address: received minus sent. *)
Definition net (a : string) (tx : Transaction.t) : Z :=
  (if decide (Transaction.receiver tx = a) then Transaction.amount_base_units tx else 0)
  - (if Transaction.is_coinbase tx then 0
     else if decide (Transaction.sender tx = a) then Transaction.amount_base_units tx else 0).

Definition net_block (a : string) (b : Block.t) : Z :=
  if Block.index b =? 0 then 0 else sum_Z (net a <$> Block.transactions b).

Definition nonneg (bal : balances) : Prop := ∀ a, 0 ≤ get0 bal a.

Section replay_facts.
Context `{E : ECDSA}.
Implicit Types (bal : balances) (tx : Transaction.t).

(** A transfer that is applied: valid and affordable. *)
Lemma apply_transaction_inl bal tx bal' :
  apply_transaction bal tx = inl bal' →
  (Transaction.is_coinbase tx = true ∧ bal' = bal) ∨
  (Transaction.is_coinbase tx = false ∧ validate_transaction tx = accept ∧
   Transaction.amount_base_units tx ≤ get0 bal (Transaction.sender tx) ∧
   let paid := <[Transaction.sender tx := get0 bal (Transaction.sender tx)
                                           - Transaction.amount_base_units tx]> bal in
   bal' = <[Transaction.receiver tx := get0 paid (Transaction.receiver tx)
                                        + Transaction.amount_base_units tx]> paid).
Proof.
  unfold apply_transaction. destruct (Transaction.is_coinbase tx); [intros [= ->]; by left|].
  destruct (validate_transaction tx) as [[] reason] eqn:Hv; cbn [negb]; [|done].
  apply validate_transaction_true in Hv as Ha.
  destruct (Z.ltb_spec (get0 bal (Transaction.sender tx)) (Transaction.amount_base_units tx)); [done|].
  intros [= <-]. right. split_and!; [done| |lia|done]. congruence.
Qed.

Lemma apply_transaction_facts bal tx bal' :
  apply_transaction bal tx = inl bal' → nonneg bal →
  nonneg bal' ∧
  (Transaction.is_coinbase tx = false →
   validate_transaction tx = accept ∧ map_total bal' = map_total bal ∧
   ∀ a, get0 bal' a = get0 bal a + net a tx) ∧
  (Transaction.is_coinbase tx = true → bal' = bal).
Proof.
  intros [[Hc ->]|(Hc & Hv & Hle & Hbal)]%apply_transaction_inl Hnn; [by rewrite Hc|].
  pose proof (valid_amount tx Hv) as Ha. cbv zeta in Hbal. subst bal'.
  split; [|split; [|by rewrite Hc]].
  - intros a. rewrite !get0_insert. pose proof (Hnn a). pose proof (Hnn (Transaction.receiver tx)).
    repeat case_decide; lia.
  - intros _. split; [done|]. split.
    + rewrite !map_total_insert. lia.
    + intros a. unfold net. rewrite Hc, !get0_insert. repeat case_decide; simplify_eq; try lia;
        repeat match goal with Heq : Transaction.sender tx = _ |- _ => rewrite Heq in *; clear Heq end; lia.
Qed.

Lemma apply_transactions_facts bal txs bal' :
  apply_transactions bal txs = inl bal' → nonneg bal →
  nonneg bal' ∧ map_total bal' = map_total bal ∧
  (∀ a, get0 bal' a = get0 bal a +
     sum_Z (net a <$> filter (λ tx, Transaction.is_coinbase tx = false) txs)) ∧
  Forall (λ tx, Transaction.is_coinbase tx = false → validate_transaction tx = accept) txs.
Proof.
  revert bal; induction txs as [|tx txs IH]; intros bal; cbn [apply_transactions].
  { intros [= ->] ?. split_and!; [done..|intros; cbn; lia|constructor]. }
  destruct (apply_transaction bal tx) as [bal1|] eqn:H1; [|done]. intros H2 Hnn.
  apply apply_transaction_facts in H1 as (Hnn1 & Hf & Ht); [|done].
  destruct (IH bal1 H2 Hnn1) as (Hnn2 & Htot & Hget & Hall).
  destruct (Transaction.is_coinbase tx) eqn:Hc.
  - rewrite Ht in * by done. split_and!; [done..| |constructor; [intros; congruence|done]].
    intros a. by rewrite Hget, filter_cons_False by congruence.
  - destruct Hf as (Hv & Htot1 & Hget1); [done|]. split_and!; [done|congruence| |by constructor].
    intros a. rewrite Hget, Hget1, filter_cons_True, fmap_cons, sum_Z_cons by done. lia.
Qed.

(** Coinbase transactions only receive. *)
Lemma net_split a txs :
  sum_Z (net a <$> txs) =
  sum_Z (net a <$> filter (λ tx, Transaction.is_coinbase tx = false) txs) +
  sum_Z (net a <$> filter (λ tx, Transaction.is_coinbase tx = true) txs).
Proof.
  induction txs as [|tx txs IH]; [done|]. rewrite fmap_cons, sum_Z_cons, IH, !filter_cons.
  destruct (Transaction.is_coinbase tx); repeat case_decide; try done;
    rewrite ?fmap_cons, ?sum_Z_cons; lia.
Qed.

(** The supply after one more block. *)
Definition next_supply (reward max_supply total : Z) (b : Block.t) : Z :=
  if Block.index b =? 0 then total else total + Z.min reward (max_supply - total).

Record applied (reward max_supply : Z) bal total (b : Block.t) bal' total' : Prop := {
  applied_nonneg : nonneg bal';
  applied_total : map_total bal' = map_total bal + (total' - total);
  applied_supply : total' = next_supply reward max_supply total b;
  applied_net a : get0 bal' a = get0 bal a + net_block a b;
  applied_issue : Block.index b ≠ 0 → total < total' ∧ total' ≤ max_supply ∧
    ∃ cb, coinbases b = [cb] ∧ Transaction.amount_base_units cb = total' - total;
  applied_valid : Block.index b ≠ 0 →
    Forall (λ tx, Transaction.is_coinbase tx = false → validate_transaction tx = accept)
      (Block.transactions b);
}.

Lemma apply_block_facts reward max_supply bal total b bal' total' :
  apply_block reward max_supply bal total b = inl (bal', total') → nonneg bal →
  applied reward max_supply bal total b bal' total'.
Proof.
  unfold apply_block. destruct (Z.eqb_spec (Block.index b) 0) as [Hi|Hi].
  { intros [= -> ->] Hnn. split; unfold next_supply, net_block; try done; rewrite ?Hi; cbn; lia. }
  destruct (coinbases b) as [|cb [|]] eqn:Hcb; try done.
  destruct (Z.leb_spec (Z.min reward (max_supply - total)) 0); [done|].
  destruct (Z.eqb_spec (Transaction.amount_base_units cb) (Z.min reward (max_supply - total)))
    as [Ha|]; [|done]. cbn [negb].
  destruct (Z.ltb_spec max_supply (total + Transaction.amount_base_units cb)); [done|].
  destruct (apply_transactions _ _) as [bal1|] eqn:Htx; [|done]. intros [= -> <-] Hnn.
  apply apply_transactions_facts in Htx as (Hnn' & Htot & Hget & Hall).
  2: { intros a. rewrite get0_insert. pose proof (Hnn a).
       pose proof (Hnn (Transaction.receiver cb)). case_decide; lia. }
  assert (Hcoin : Transaction.is_coinbase cb = true).
  { assert (Hin : cb ∈ coinbases b) by (rewrite Hcb; left).
    by apply list_elem_of_filter in Hin as [? _]. }
  split.
  - done.
  - rewrite Htot, map_total_insert. lia.
  - unfold next_supply. rewrite (proj2 (Z.eqb_neq _ _) Hi). lia.
  - intros a. unfold net_block. rewrite (proj2 (Z.eqb_neq _ _) Hi), Hget.
    rewrite (net_split a (Block.transactions b)).
    change (filter (λ tx, Transaction.is_coinbase tx = true) (Block.transactions b))
      with (coinbases b).
    rewrite Hcb. cbn [fmap list_fmap]. rewrite sum_Z_cons, sum_Z_nil.
    assert (Hn : net a cb = if decide (Transaction.receiver cb = a)
                            then Transaction.amount_base_units cb else 0)
      by (unfold net; rewrite Hcoin; lia).
    rewrite Hn, get0_insert. case_decide as Hd; [rewrite Hd|]; lia.
  - intros _. split; [lia|]. split; [lia|]. exists cb. split; [done|lia].
  - done.
Qed.
End replay_facts.

(** ** The replay of a chain *)

(** The blocks that issue coins. *)
Definition issuing (chain : list Block.t) : Z :=
  Z.of_nat (length (filter (λ b, Block.index b ≠ 0) chain)).

Definition ledger (a : string) (chain : list Block.t) : Z := sum_Z (net_block a <$> chain).

Lemma ledger_cons a b chain : ledger a (b :: chain) = net_block a b + ledger a chain.
Proof. done. Qed.

Lemma issuing_cons b chain :
  issuing (b :: chain) = (if Block.index b =? 0 then 0 else 1) + issuing chain.
Proof.
  unfold issuing. rewrite filter_cons.
  destruct (Z.eqb_spec (Block.index b) 0); [rewrite decide_False by tauto; done|].
  rewrite decide_True by done. cbn [length]. lia.
Qed.

Lemma issuing_nonneg chain : 0 ≤ issuing chain.
Proof. unfold issuing. lia. Qed.

Section chain_facts.
Context `{E : ECDSA}.

Lemma apply_blocks_app reward m bal total c1 c2 :
  apply_blocks reward m bal total (c1 ++ c2) =
  match apply_blocks reward m bal total c1 with
  | inl (bal, total) => apply_blocks reward m bal total c2
  | inr r => inr r
  end.
Proof.
  revert bal total; induction c1 as [|b c1 IH]; intros bal total; cbn; [done|].
  destruct (apply_block _ _ _ _ _) as [[bal1 t1]|]; [apply IH|done].
Qed.

Lemma apply_transactions_reason bal txs reason :
  apply_transactions bal txs = inr reason → reason ≠ "".
Proof.
  revert bal; induction txs as [|tx txs IH]; intros bal; cbn [apply_transactions]; [done|].
  destruct (apply_transaction bal tx) as [bal1|r] eqn:Ht; [apply IH|]. intros [= <-].
  unfold apply_transaction in Ht. repeat case_match; simplify_eq; done.
Qed.

Lemma apply_block_reason reward m bal total b t reason :
  apply_block reward m bal total b = inr (t, reason) → reason ≠ "".
Proof.
  unfold apply_block. repeat case_match; intros [=]; subst; try done.
  by eapply apply_transactions_reason.
Qed.

Lemma apply_blocks_reason reward m bal total chain t reason :
  apply_blocks reward m bal total chain = inr (t, reason) → reason ≠ "".
Proof.
  revert bal total; induction chain as [|b chain IH]; intros bal total; cbn; [done|].
  destruct (apply_block _ _ _ _ _) as [[bal1 t1]|[t1 r]] eqn:Hb; [apply IH|].
  intros [= <- <-]. by eapply apply_block_reason.
Qed.

Lemma state_from_chain_ok chain reward m bal total :
  state_from_chain chain reward m = (bal, total, "") ↔
  apply_blocks reward m ∅ 0 chain = inl (bal, total).
Proof.
  unfold state_from_chain. destruct (apply_blocks _ _ _ _ _) as [[? ?]|[t r]] eqn:Hb.
  - naive_solver.
  - apply apply_blocks_reason in Hb. naive_solver.
Qed.

Lemma apply_blocks_facts reward m bal total chain bal' total' :
  apply_blocks reward m bal total chain = inl (bal', total') → nonneg bal → total ≤ m →
  nonneg bal' ∧ map_total bal' = map_total bal + (total' - total) ∧
  total' = Z.min (total + issuing chain * reward) m ∧ total ≤ total' ∧
  ∀ a, get0 bal' a = get0 bal a + ledger a chain.
Proof.
  revert bal total; induction chain as [|b chain IH]; intros bal total;
    cbn [apply_blocks].
  { intros [= -> ->] Hnn Hle. change (issuing []) with 0. split_and!; [done|lia..|].
    intros a. change (ledger a []) with 0. lia. }
  destruct (apply_block _ _ _ _ _) as [[bal1 t1]|] eqn:Hb; [|done]. intros H2 Hnn Hle.
  apply apply_block_facts in Hb as [Hnn1 Htot1 Hsup1 Hnet1 Hiss1 _]; [|done].
  destruct (IH bal1 t1 H2 Hnn1) as (Hnn2 & Htot2 & Hsup2 & Hle2 & Hnet2).
  { destruct (decide (Block.index b = 0)) as [Hi|Hi]; [|naive_solver lia].
    unfold next_supply in Hsup1. rewrite Hi in Hsup1. cbn in Hsup1. lia. }
  split; [done|]. split; [lia|]. pose proof (issuing_nonneg chain).
  assert (Hnet : ∀ a, get0 bal' a = get0 bal a + ledger a (b :: chain)).
  { intros a. rewrite Hnet2, Hnet1, ledger_cons. lia. }
  rewrite issuing_cons. unfold next_supply in Hsup1.
  destruct (Z.eqb_spec (Block.index b) 0) as [Hi|Hi]; [rewrite Z.add_0_l; subst t1; auto|].
  destruct (Hiss1 Hi) as (Hlt & Hmax & _). split; [|split; [lia|done]].
  assert (0 ≤ issuing chain * reward) by (apply Z.mul_nonneg_nonneg; lia).
  rewrite Z.mul_add_distr_r. lia.
Qed.
End chain_facts.

(** C2: Replaying a chain conserves money: when the replay succeeds, the
    balances are the ledger of the chain (received minus sent, per address),
    none is negative, their sum is the supply, and the supply is the reward
    times the number of issuing blocks, capped at the maximum. *)
Theorem state_from_chain_conserves `{E : ECDSA} chain reward max_supply bal total :
  state_from_chain chain reward max_supply = (bal, total, "") → 0 ≤ max_supply →
  (∀ a, get0 bal a = ledger a chain ∧ 0 ≤ get0 bal a) ∧
  map_total bal = total ∧ total = Z.min (issuing chain * reward) max_supply ∧ 0 ≤ total.
Proof.
  intros Hs%state_from_chain_ok Hm.
  apply apply_blocks_facts in Hs as (Hnn & Htot & Hsup & Hle & Hnet); [|intros a; by rewrite get0_empty|done].
  rewrite map_total_empty in Htot. split; [|lia].
  intros a. split; [|apply Hnn]. rewrite Hnet, get0_empty. lia.
Qed.

(** ** What it is to extend a chain *)

Section extends.
Context `{E : ECDSA}.
Context (consensus : ConsensusEngine) (config : ConsensusConfig) (reward max_supply : Z).

(** The state after a chain, where its replay succeeds. *)
Definition replays (chain : list Block.t) (bal : balances) (total : Z) : Prop :=
  apply_blocks reward max_supply ∅ 0 chain = inl (bal, total).

(** The rules for the next block, after the tip [prev] of [chain]. *)
Record extends (chain : list Block.t) (prev b : Block.t) : Prop := {
  ext_tip : last chain = Some prev;
  ext_index : Block.index b = Block.index prev + 1;
  ext_link : Block.previous_hash b = Block.hash prev;
  ext_time : num_val (Block.timestamp prev) < num_val (Block.timestamp b);
  ext_sealed : Block.sealed b;
  ext_difficulty : expected_difficulty chain consensus config = Ok (Block.difficulty b);
  ext_proof : validate consensus b (Block.difficulty b) = true;
  ext_valid : Forall (λ tx, validate_transaction tx = accept) (Block.transactions b);
  ext_state : ∃ bal total bal' total', replays chain bal total ∧
    apply_block reward max_supply bal total b = inl (bal', total');
}.

Lemma replays_snoc chain b bal' total' :
  replays (chain ++ [b]) bal' total' ↔
  ∃ bal total, replays chain bal total ∧
    apply_block reward max_supply bal total b = inl (bal', total').
Proof.
  unfold replays. rewrite apply_blocks_app.
  destruct (apply_blocks _ _ _ _ chain) as [[bal total]|]; [|naive_solver]. cbn.
  split; [intros H; exists bal, total; split; [done|]|intros (? & ? & [= <- <-] & ->); done].
  by destruct (apply_block _ _ _ _ b) as [[? ?]|].
Qed.

Lemma apply_block_issue bal total b bal' total' :
  apply_block reward max_supply bal total b = inl (bal', total') → Block.index b ≠ 0 →
  ∃ cb, coinbases b = [cb] ∧
    Transaction.amount_base_units cb = Z.min reward (max_supply - total) ∧
    0 < Z.min reward (max_supply - total) ∧ total' ≤ max_supply ∧
    total' = total + Z.min reward (max_supply - total).
Proof.
  unfold apply_block. intros Hb Hi. rewrite (proj2 (Z.eqb_neq _ _) Hi) in Hb.
  destruct (coinbases b) as [|cb [|]]; [done| |done]. exists cb.
  destruct (Z.leb_spec (Z.min reward (max_supply - total)) 0); [done|].
  destruct (Z.eqb_spec (Transaction.amount_base_units cb) (Z.min reward (max_supply - total)));
    [|done]. cbn [negb] in Hb.
  destruct (Z.ltb_spec max_supply (total + Transaction.amount_base_units cb)); [done|].
  destruct (apply_transactions _ _); [|done]. injection Hb as _ <-. auto with lia.
Qed.

Lemma apply_blocks_mono chain b0 t0 bal total :
  apply_blocks reward max_supply b0 t0 chain = inl (bal, total) → t0 ≤ total.
Proof.
  revert b0 t0. induction chain as [|b chain IH]; intros b0 t0; cbn; [by intros [= _ ->]|].
  destruct (apply_block _ _ _ _ b) as [[b1 t1]|] eqn:Hb; [|done]. intros ?%IH.
  destruct (decide (Block.index b = 0)) as [Hi|Hi].
  - unfold apply_block in Hb. rewrite Hi in Hb. by injection Hb as _ ->.
  - apply apply_block_issue in Hb as (? & _ & _ & ? & _ & ?); [lia|done].
Qed.

Lemma replays_nonneg chain bal total : replays chain bal total → 0 ≤ total.
Proof. apply apply_blocks_mono. Qed.

Lemma replays_prefix c1 c2 bal total :
  replays (c1 ++ c2) bal total → ∃ bal1 total1, replays c1 bal1 total1 ∧ total1 ≤ total.
Proof.
  unfold replays. rewrite apply_blocks_app.
  destruct (apply_blocks _ _ _ _ c1) as [[b1 t1]|]; [|done].
  intros ?%apply_blocks_mono. eauto.
Qed.

Lemma block_structure_spec b r :
  validate_block_structure b (Some r) max_supply = accept → Block.index b ≠ 0 →
  Block.sealed b ∧ Forall (λ tx, validate_transaction tx = accept) (Block.transactions b).
Proof.
  unfold validate_block_structure. intros Hs Hi. destruct (Block.index b <? 0); [done|].
  destruct (String.eqb_spec (Block.compute_merkle_root b) (Block.merkle_root b)); [|done].
  destruct (String.eqb_spec (Block.compute_hash b) (Block.hash b)); [|done].
  cbn [negb] in Hs. rewrite (proj2 (Z.eqb_neq _ _) Hi) in Hs.
  destruct (coinbases b) as [|cb [|]]; [done| |done].
  destruct (negb (_ =? r)); [done|]. destruct (max_supply <? _); [done|].
  split; [done|]. by apply validate_transactions_spec.
Qed.

Lemma block_structure_intro b r cb :
  Block.sealed b → 0 ≤ Block.index b → coinbases b = [cb] →
  Transaction.amount_base_units cb = r → r ≤ max_supply →
  Forall (λ tx, validate_transaction tx = accept) (Block.transactions b) →
  validate_block_structure b (Some r) max_supply = accept.
Proof.
  intros [Hm Hh] Hi Hcb Hr Hmax Hall. unfold validate_block_structure.
  rewrite (proj2 (Z.ltb_ge _ _) Hi), <-Hm, <-Hh, !String.eqb_refl, Hcb. cbn [negb].
  case_match; [done|]. rewrite Hr, Z.eqb_refl, (proj2 (Z.ltb_ge _ _) Hmax). cbn [negb].
  by apply validate_transactions_spec.
Qed.

Lemma block_structure_true b r m reason :
  validate_block_structure b r m = (true, reason) → reason = "".
Proof.
  unfold validate_block_structure. repeat case_match; try by intros [=].
  all: apply validate_transactions_true.
Qed.

Lemma state_reason chain :
  (∃ bal total, replays chain bal total ∧
     state_from_chain chain reward max_supply = (bal, total, "")) ∨
  (∃ total reason, state_from_chain chain reward max_supply = (∅, total, reason) ∧ reason ≠ "" ∧
     ∀ bal total, ¬ replays chain bal total).
Proof.
  unfold replays, state_from_chain.
  destruct (apply_blocks _ _ _ _ chain) as [[bal total]|[t r]] eqn:Hb; [left; eauto|right].
  exists t, r. split_and!; [done|by eapply apply_blocks_reason|done].
Qed.

Lemma tip_index chain prev :
  Forall (λ b, 0 ≤ Block.index b) chain → last chain = Some prev → 0 ≤ Block.index prev.
Proof.
  intros Hpos [l ->]%last_Some. apply Forall_app in Hpos as [_ Hp].
  exact (proj1 (Forall_singleton _ _) Hp).
Qed.

Lemma block_accepted_iff b chain :
  Forall (λ b, 0 ≤ Block.index b) chain →
  validate_block_against_chain b chain consensus config reward max_supply = Ok accept ↔
  ∃ prev, extends chain prev b.
Proof.
  intros Hpos. unfold validate_block_against_chain.
  destruct (last chain) as [prev|] eqn:Hlast.
  2: { split; [done|]. intros [prev [Ht _ _ _ _ _ _ _ _]]. congruence. }
  pose proof (tip_index _ _ Hpos Hlast) as Hprev.
  split.
  - destruct (Z.eqb_spec (Block.index b) (Block.index prev + 1)) as [Hi|]; [|done].
    destruct (String.eqb_spec (Block.previous_hash b) (Block.hash prev)); [|done].
    unfold num_le.
    destruct (Z.leb_spec (num_val (Block.timestamp b)) (num_val (Block.timestamp prev))); [done|].
    cbn [negb].
    destruct (state_reason chain) as [(bal & total & Hr & ->)|(t & r & -> & Hne & _)]; cbn [negb].
    2: { by rewrite (proj2 (String.eqb_neq _ _) Hne). }
    change (String.eqb "" "") with true. cbn [negb].
    destruct (state_reason (chain ++ [b])) as [(bal' & total' & Hr' & ->)|(t & r & -> & Hne & _)].
    2: { by rewrite (proj2 (String.eqb_neq _ _) Hne). }
    change (String.eqb "" "") with true. cbn [negb].
    destruct (expected_difficulty chain consensus config) as [d|] eqn:Hd; [|done].
    cbn [mbind res_bind]. destruct (Z.eqb_spec (Block.difficulty b) d) as [<-|]; [|done].
    destruct (validate consensus b (Block.difficulty b)) eqn:Hv; [|done]. cbn [negb].
    case_match; [done|].
    destruct (validate_block_structure _ _ _) as [[] reason] eqn:Hst; [|done]. cbn [negb].
    apply block_structure_true in Hst as Hreason. subst reason.
    apply block_structure_spec in Hst as [Hsealed Htxs]; [|lia].
    case_match; [done|]. intros _. apply replays_snoc in Hr' as (bal0 & total0 & Hr0 & Hab).
    exists prev. split; try done. by exists bal0, total0, bal', total'.
  - intros [prev' [Ht Hi Hl Htime Hsealed Hd Hv Htxs (bal & total & bal' & total' & Hr & Hab)]].
    rewrite Hlast in Ht. injection Ht as <-.
    rewrite Hi, Z.eqb_refl, Hl, String.eqb_refl. unfold num_le.
    rewrite (proj2 (Z.leb_gt _ _) Htime). cbn [negb].
    rewrite (proj2 (state_from_chain_ok _ _ _ _ _) Hr).
    assert (Hr' : replays (chain ++ [b]) bal' total') by (apply replays_snoc; eauto).
    rewrite (proj2 (state_from_chain_ok _ _ _ _ _) Hr'). change (String.eqb "" "") with true.
    cbn [negb]. rewrite Hd. cbn [mbind res_bind]. rewrite Z.eqb_refl, Hv. cbn [negb].
    destruct (apply_block_issue bal total b bal' total' Hab) as (cb & Hcb & Ha & Hpos' & Hmax & Htot);
      [lia|]. apply replays_nonneg in Hr as Hnn.
    rewrite (proj2 (Z.leb_gt _ _) Hpos'), (block_structure_intro b _ cb) by (done || lia).
    cbn [negb]. by rewrite (proj2 (Z.ltb_ge _ _) Hmax).
Qed.

(** ** What it is to be a chain *)

Definition genesis_ok (g : Block.t) : Prop :=
  validate_block_structure g None MAX_SUPPLY_BASE_UNITS = accept ∧
  ∃ bal total, replays [g] bal total ∧ total ≤ max_supply.

Inductive chain_spec : list Block.t → Prop :=
  | spec_genesis g : genesis_ok g → chain_spec [g]
  | spec_extend chain prev b :
      chain_spec chain → extends chain prev b → chain_spec (chain ++ [b]).

Lemma structure_index b r m : validate_block_structure b r m = accept → 0 ≤ Block.index b.
Proof. unfold validate_block_structure. destruct (Z.ltb_spec (Block.index b) 0); done. Qed.

Lemma extends_index chain prev b :
  Forall (λ b, 0 ≤ Block.index b) chain → extends chain prev b → 0 ≤ Block.index b.
Proof.
  intros Hpos [Ht Hi _ _ _ _ _ _ _]. pose proof (tip_index _ _ Hpos Ht). lia.
Qed.

Lemma chain_spec_index chain : chain_spec chain → Forall (λ b, 0 ≤ Block.index b) chain.
Proof.
  induction 1 as [g [Hg%structure_index _]|chain prev b _ IH Hext]; [by repeat constructor|].
  apply Forall_app; split; [done|]. apply Forall_singleton. by eapply extends_index.
Qed.

Lemma chain_spec_cons chain :
  chain_spec chain → ∃ g rest, chain = g :: rest ∧ genesis_ok g.
Proof. induction 1 as [g Hg|chain prev b _ (g & rest & -> & Hg) _]; eauto. Qed.

Lemma accepted_iff b chain :
  chain_spec chain →
  validate_block_against_chain b chain consensus config reward max_supply = Ok accept ↔
  chain_spec (chain ++ [b]).
Proof.
  intros Hc. rewrite block_accepted_iff by by apply chain_spec_index. split.
  - intros [prev ?]. by eapply spec_extend.
  - intros Hs. remember (chain ++ [b]) as l eqn:Heq.
    destruct Hs as [g|chain' prev b' ? Hext].
    + symmetry in Heq. apply (app_inj_tail chain []) in Heq as [-> _]. by apply chain_spec_cons in Hc as (? & ? & ? & _).
    + apply app_inj_tail in Heq as [-> ->]. by exists prev.
Qed.

Lemma block_verdict_true b chain reason :
  validate_block_against_chain b chain consensus config reward max_supply = Ok (true, reason) →
  reason = "".
Proof.
  unfold validate_block_against_chain. destruct (last chain); [|done].
  repeat (case_match; try done).
  all: intros (d & _ & Hv)%res_bind_Ok; revert Hv; repeat (case_match; try done); by intros [=].
Qed.

Lemma chain_spec_prefix prefix rest :
  prefix ≠ [] → chain_spec (prefix ++ rest) → chain_spec prefix.
Proof.
  intros Hne Hc. remember (prefix ++ rest) as l eqn:Hl. revert rest Hl.
  induction Hc as [g Hg|chain prev b Hc IH Hext]; intros rest Hl.
  - destruct rest as [|b rest _] using rev_ind; [rewrite app_nil_r in Hl; rewrite <-Hl; by constructor|].
    rewrite app_assoc in Hl. apply (app_inj_tail []) in Hl as [Hl _]. by destruct prefix.
  - destruct rest as [|b2 rest _] using rev_ind.
    + rewrite app_nil_r in Hl. rewrite <-Hl. by eapply spec_extend.
    + rewrite app_assoc in Hl. apply app_inj_tail in Hl as [Hl _]. eauto.
Qed.

Lemma chain_spec_extends l1 prev b l2 :
  chain_spec (l1 ++ prev :: b :: l2) → extends (l1 ++ [prev]) prev b.
Proof.
  intros Hc. assert (Hp : chain_spec ((l1 ++ [prev]) ++ [b])).
  { apply (chain_spec_prefix _ l2); [by destruct l1|]. by rewrite <-!app_assoc. }
  remember ((l1 ++ [prev]) ++ [b]) as l eqn:Hl.
  destruct Hp as [g|chain prev' b' _ Hext].
  - apply (app_inj_tail []) in Hl as [Hl _]. by destruct l1.
  - apply app_inj_tail in Hl as [-> ->]. pose proof (ext_tip _ _ _ Hext) as Ht.
    rewrite last_snoc in Ht. by injection Ht as <-.
Qed.

Lemma validate_links_cons prefix b rest :
  validate_links prefix (b :: rest) consensus config reward max_supply = Ok accept ↔
  validate_block_against_chain b prefix consensus config reward max_supply = Ok accept ∧
  validate_links (prefix ++ [b]) rest consensus config reward max_supply = Ok accept.
Proof.
  cbn [validate_links]. destruct (validate_block_against_chain _ _ _ _ _ _) as [[[] reason]|] eqn:Hb;
    cbn [mbind res_bind negb].
  - apply block_verdict_true in Hb as ->. naive_solver.
  - split; [done|]. by intros [[=] _].
  - split; [done|]. by intros [[=] _].
Qed.

Lemma validate_links_spec prefix rest :
  chain_spec prefix →
  validate_links prefix rest consensus config reward max_supply = Ok accept ↔
  chain_spec (prefix ++ rest).
Proof.
  revert prefix; induction rest as [|b rest IH]; intros prefix Hp.
  { by rewrite app_nil_r. }
  rewrite validate_links_cons, accepted_iff by done.
  change (prefix ++ b :: rest) with (prefix ++ [b] ++ rest). rewrite app_assoc. split.
  - intros [Hb Hl]. by apply IH.
  - intros Hc. assert (Hb : chain_spec (prefix ++ [b])) by (eapply chain_spec_prefix; [|done]; by destruct prefix).
    split; [done|]. by apply IH.
Qed.

Lemma chain_spec_state chain :
  chain_spec chain → ∃ bal total, replays chain bal total ∧ total ≤ max_supply.
Proof.
  induction 1 as [g [_ ?]|chain prev b Hc _ Hext]; [done|].
  pose proof (extends_index _ _ _ (chain_spec_index _ Hc) Hext).
  destruct Hext as [Ht Hi _ _ _ _ _ _ (bal & total & bal' & total' & Hr & Hab)].
  exists bal', total'. split; [apply replays_snoc; eauto|].
  apply apply_block_issue in Hab as (? & _ & _ & _ & ? & _); [done|].
  pose proof (tip_index _ _ (chain_spec_index _ Hc) Ht). lia.
Qed.

Lemma validate_links_true prefix rest reason :
  validate_links prefix rest consensus config reward max_supply = Ok (true, reason) → reason = "".
Proof.
  revert prefix; induction rest as [|b rest IH]; intros prefix; cbn; [by intros [= ->]|].
  destruct (validate_block_against_chain _ _ _ _ _ _) as [[[] r]|]; cbn; [apply IH|done..].
Qed.

Lemma validate_chain_true chain reason :
  validate_chain chain consensus config reward max_supply = Ok (true, reason) → reason = "".
Proof.
  destruct chain as [|g rest]; [done|]. cbn [validate_chain].
  destruct (validate_block_structure g _ _) as [[] ?]; cbn [negb]; [|done].
  destruct (validate_links _ _ _ _ _ _) as [[[] ?]|]; cbn [mbind res_bind negb]; [|done..].
  destruct (state_from_chain _ _ _) as [[? ?] ?]. repeat case_match; by intros [=].
Qed.

Lemma validate_chain_spec chain :
  validate_chain chain consensus config reward max_supply = Ok accept ↔ chain_spec chain.
Proof.
  split.
  - intros Hv. destruct chain as [|g rest]; [done|]. cbn in Hv.
    destruct (validate_block_structure g None _) as [[] r] eqn:Hs; [|done]. cbn in Hv.
    apply block_structure_true in Hs as Hr. subst r.
    destruct (validate_links _ _ _ _ _ _) as [[[] r]|] eqn:Hl; [|done..]. cbn in Hv.
    apply validate_links_true in Hl as Hr. subst r.
    destruct (state_reason (g :: rest)) as [(bal & total & Hrep & Hst)|(t & r & Hst & Hne & _)];
      rewrite Hst in Hv; cbn in Hv.
    2: { by rewrite (proj2 (String.eqb_neq _ _) Hne) in Hv. }
    destruct (Z.ltb_spec max_supply total); [done|].
    apply (replays_prefix [g]) in Hrep as (bal1 & t1 & Hg & Hle).
    apply (validate_links_spec [g] rest); [|done]. constructor. split; [done|].
    exists bal1, t1. split; [done|lia].
  - intros Hc. destruct (chain_spec_state chain Hc) as (bal & total & Hrep & Hle).
    apply state_from_chain_ok in Hrep.
    destruct (chain_spec_cons chain Hc) as (g & rest & -> & Hg).
    unfold validate_chain. rewrite (proj1 Hg). cbn [negb].
    rewrite (proj2 (validate_links_spec [g] rest (spec_genesis g Hg)) Hc). cbn [mbind res_bind negb].
    rewrite Hrep. change (String.eqb "" "") with true. cbn [negb].
    by rewrite (proj2 (Z.ltb_ge _ _) Hle).
Qed.
End extends.

(** ** The rules a valid chain satisfies *)

(** C6: A chain that validates satisfies the rules at every link: each block
    has the next index, names the hash of its predecessor, is later, is sealed,
    has exactly the required difficulty and a proof of work at it, issues
    exactly what the supply leaves of the reward in its one coinbase, and holds
    verified transactions only; and its replay succeeds within the supply. *)
Theorem validate_chain_rules `{E : ECDSA} consensus config reward max_supply chain :
  validate_chain chain consensus config reward max_supply = Ok accept →
  (∃ bal total, state_from_chain chain reward max_supply = (bal, total, "") ∧ total ≤ max_supply) ∧
  ∀ l1 prev b l2, chain = l1 ++ prev :: b :: l2 →
    Block.index b = Block.index prev + 1 ∧ Block.previous_hash b = Block.hash prev ∧
    num_val (Block.timestamp prev) < num_val (Block.timestamp b) ∧ Block.sealed b ∧
    expected_difficulty (l1 ++ [prev]) consensus config = Ok (Block.difficulty b) ∧
    validate consensus b (Block.difficulty b) = true ∧
    Forall (λ tx, Transaction.verify tx = true) (Block.transactions b) ∧
    ∃ bal total cb, state_from_chain (l1 ++ [prev]) reward max_supply = (bal, total, "") ∧
      coinbases b = [cb] ∧
      Transaction.amount_base_units cb = Z.min reward (max_supply - total) ∧
      0 < Transaction.amount_base_units cb.
Proof.
  intros Hc%validate_chain_spec. split.
  - destruct (chain_spec_state _ _ _ _ _ Hc) as (bal & total & Hr & Hle).
    exists bal, total. by rewrite state_from_chain_ok.
  - intros l1 prev b l2 ->.
    assert (Hpos : 0 ≤ Block.index prev).
    { apply chain_spec_index, Forall_app in Hc as [_ Hp]. by apply Forall_cons in Hp as [? _]. }
    apply chain_spec_extends in Hc as [_ Hi Hl Ht Hs Hd Hv Htx (bal & total & bal' & total' & Hr & Hab)].
    apply apply_block_issue in Hab as (cb & Hcb & Ha & ? & _); [|lia].
    do 7 (split; [done || (eapply Forall_impl; [done|]; by intros tx [? _]%validate_transaction_spec)|]).
    exists bal, total, cb. rewrite state_from_chain_ok. split_and!; [done..|lia].
Qed.

(** C20: Validation is incremental: a chain with one more block validates
    exactly when the chain validates and the block is accepted on top of it, so
    that a node that checks each block as it arrives and one that validates the
    whole chain agree. *)
Theorem validate_chain_snoc `{E : ECDSA} consensus config reward max_supply chain b :
  chain ≠ [] →
  validate_chain (chain ++ [b]) consensus config reward max_supply = Ok accept ↔
  validate_chain chain consensus config reward max_supply = Ok accept ∧
  validate_block_against_chain b chain consensus config reward max_supply = Ok accept.
Proof.
  intros Hne. rewrite !validate_chain_spec. split.
  - intros Hc. assert (Hp : chain_spec consensus config reward max_supply chain)
      by by eapply chain_spec_prefix.
    split; [done|]. by apply accepted_iff.
  - intros [Hc Hb]. by apply accepted_iff.
Qed.

(** ** Witnesses *)

#[local] Existing Instance ToyECDSA.ecdsa.

Abbreviation validate_sample chain :=
  (validate_chain chain ProofOfWorkConsensus.engine sample_config sample_reward
     MAX_SUPPLY_BASE_UNITS).

Lemma replay_chain_valid : validate_sample replay_chain = Ok accept.
Proof. vm_compute. reflexivity. Qed.

Lemma validate_chain_prefix consensus config reward max_supply prefix rest :
  prefix ≠ [] → validate_chain (prefix ++ rest) consensus config reward max_supply = Ok accept →
  validate_chain prefix consensus config reward max_supply = Ok accept.
Proof. rewrite !validate_chain_spec. intros ? ?. by eapply chain_spec_prefix. Qed.

Definition short_chain : list Block.t := [genesis_block; block1].

Lemma sample_chain_valid : validate_sample sample_chain = Ok accept.
Proof. exact (validate_chain_prefix _ _ _ _ sample_chain [block3] ltac:(discriminate) replay_chain_valid). Qed.

Lemma short_chain_valid : validate_sample short_chain = Ok accept.
Proof. exact (validate_chain_prefix _ _ _ _ short_chain [block2] ltac:(discriminate) sample_chain_valid). Qed.

Lemma validate_chain_rules_witness :
  ∃ bal total, state_from_chain sample_chain sample_reward MAX_SUPPLY_BASE_UNITS = (bal, total, "") ∧
    total ≤ MAX_SUPPLY_BASE_UNITS.
Proof. exact (proj1 (validate_chain_rules ProofOfWorkConsensus.engine sample_config
  sample_reward MAX_SUPPLY_BASE_UNITS sample_chain sample_chain_valid)). Defined.

Lemma validate_chain_snoc_witness :
  validate_sample ([genesis_block; block1] ++ [block2]) = Ok accept ↔
  validate_sample [genesis_block; block1] = Ok accept ∧
  validate_block_against_chain block2 [genesis_block; block1] ProofOfWorkConsensus.engine
    sample_config sample_reward MAX_SUPPLY_BASE_UNITS = Ok accept.
Proof.
  exact (validate_chain_snoc ProofOfWorkConsensus.engine sample_config sample_reward
    MAX_SUPPLY_BASE_UNITS [genesis_block; block1] block2 ltac:(discriminate)).
Defined.

Definition sample_balances : balances :=
  (state_from_chain sample_chain sample_reward MAX_SUPPLY_BASE_UNITS).1.1.

Lemma pair_eq {A B C} (p : A * B * C) b c : p.1.2 = b → p.2 = c → p = (p.1.1, b, c).
Proof. by destruct p as [[? ?] ?]; simpl; intros -> ->. Qed.

Lemma sample_state :
  state_from_chain sample_chain sample_reward MAX_SUPPLY_BASE_UNITS = (sample_balances, 10000000000, "").
Proof. apply pair_eq; vm_compute; reflexivity. Qed.

Lemma state_from_chain_conserves_witness :
  (∀ a, get0 sample_balances a = ledger a sample_chain ∧ 0 ≤ get0 sample_balances a) ∧
  map_total sample_balances = 10000000000 ∧
  10000000000 = Z.min (issuing sample_chain * sample_reward) MAX_SUPPLY_BASE_UNITS ∧
  0 ≤ 10000000000.
Proof.
  exact (state_from_chain_conserves sample_chain sample_reward MAX_SUPPLY_BASE_UNITS sample_balances
    10000000000 sample_state ltac:(discriminate)).
Defined.

(** The validators do not tell a repeated transfer from a new one: a chain
    in which the same signed transfer is confirmed in two consecutive blocks
    validates, and its sender pays twice. *)
Theorem replayed_transfer_validates :
  validate_sample replay_chain = Ok accept ∧
  Transaction.toy_transfer ∈ Block.transactions block2 ∧
  Transaction.toy_transfer ∈ Block.transactions block3 ∧
  get0 (state_from_chain replay_chain sample_reward MAX_SUPPLY_BASE_UNITS).1.1 bob = 500.
Proof.
  split_and!; [exact replay_chain_valid| | |vm_compute; reflexivity].
  - apply (bool_decide_unpack _). vm_compute. exact I.
  - apply (bool_decide_unpack _). vm_compute. exact I.
Qed.
