(* ===== verification/Sql.v ===== *)
(** * The SQL tables the storage layer relies on

    SQLAlchemy and SQLite are not part of the program: [Sql] is the interface
    the storage code uses (insert, select, update and delete on a table), and
    [SqlLaws] the documented behaviour of it.  A table is a bag of rows; an
    insert fails on a primary-key or unique conflict and on a value the
    column type cannot hold.  [ListSql] is an instance for the witnesses. *)
From stdpp Require Import options.
From S2P Require Import Prelude PyText.

Local Open Scope Z_scope.

(** The constraints a table declares. *)
Class Schema (Row : Type) := {
  conflict : Row → Row → bool;
  storable : Row → bool;
}.

(** SQLite's INTEGER. *)
Definition int64 (z : Z) : bool := (- 2 ^ 63 <=? z) && (z <? 2 ^ 63).

Class Sql (T : Type → Type) := {
  tbl_empty {Row} : T Row;
  tbl_insert {Row} `{Schema Row} : Row → T Row → option (T Row);
  tbl_select {Row} : (Row → bool) → T Row → list Row;
  tbl_update {Row} `{Schema Row} : (Row → bool) → (Row → Row) → T Row → option (T Row);
  tbl_delete {Row} : (Row → bool) → T Row → T Row;
}.

Definition rows `{Sql T} {Row} (t : T Row) : list Row := tbl_select (λ _, true) t.

(** The rows [p] selects. *)
Definition where_rows {Row} (p : Row → bool) (l : list Row) : list Row := filter (λ r, p r = true) l.

Class SqlLaws (T : Type → Type) `{Sql T} := {
  rows_empty {Row} : rows (Row := Row) tbl_empty = [];
  select_rows {Row} p (t : T Row) : tbl_select p t ≡ₚ where_rows p (rows t);
  insert_some {Row} `{Schema Row} r (t t' : T Row) :
    tbl_insert r t = Some t' → rows t' ≡ₚ r :: rows t;
  insert_none {Row} `{Schema Row} r (t : T Row) :
    tbl_insert r t = None ↔ storable r = false ∨ ∃ r', r' ∈ rows t ∧ conflict r r' = true;
  update_some {Row} `{Schema Row} p f (t t' : T Row) :
    tbl_update p f t = Some t' → rows t' ≡ₚ (λ r, if p r : bool then f r else r) <$> rows t;
  update_none {Row} `{Schema Row} p f (t : T Row) :
    (∀ r r', p r = true → conflict (f r) r' = conflict r r') →
    tbl_update p f t = None ↔ ∃ r, r ∈ rows t ∧ p r = true ∧ storable (f r) = false;
  delete_rows {Row} p (t : T Row) : rows (tbl_delete p t) ≡ₚ where_rows (λ r, negb (p r)) (rows t);
}.

(** ** An instance: tables as lists *)

Module ListSql.

Definition t (Row : Type) : Type := list Row.

#[export] Instance sql : Sql t := {
  tbl_empty Row := [];
  tbl_insert Row _ r l :=
    if storable r && negb (existsb (conflict r) l) then Some (l ++ [r]) else None;
  tbl_select Row p l := where_rows p l;
  tbl_update Row _ p f l :=
    if forallb (λ r, negb (p r) || storable (f r)) l
    then Some ((λ r, if p r : bool then f r else r) <$> l) else None;
  tbl_delete Row p l := where_rows (λ r, negb (p r)) l;
}.

Lemma rows_list {Row} (l : t Row) : rows l = l.
Proof.
  unfold rows; cbn. unfold where_rows. induction l as [|r l IH]; [done|].
  rewrite filter_cons_True by done. by rewrite IH.
Qed.

#[export] Instance sql_laws : SqlLaws t.
Proof.
  split; intros; rewrite ?rows_list in *; cbn in *; try done.
  - repeat case_match; simplify_eq. by rewrite Permutation_app_comm.
  - case_match eqn:Hc; [split; [done|]|split; [|done]].
    + apply andb_true_iff in Hc as [Hs He]. apply negb_true_iff in He.
      intros [?|(r' & Hin & Hr')]; [congruence|].
      assert (existsb (conflict r) t0 = true); [|congruence].
      apply existsb_exists. exists r'. by rewrite <-list_elem_of_In.
    + intros _. apply andb_false_iff in Hc as [?|He]; [by left|right].
      apply negb_false_iff, existsb_exists in He as (r' & ? & ?). exists r'.
      by rewrite list_elem_of_In.
  - repeat case_match; by simplify_eq.
  - case_match eqn:Hc; [split; [done|]|split; [|done]].
    + intros (r & Hin & Hp & Hs). rewrite forallb_forall in Hc.
      specialize (Hc r (proj1 (list_elem_of_In _ _) Hin)). by rewrite Hp, Hs in Hc.
    + intros _. clear -Hc. induction t0 as [|r l IH]; [done|]. cbn in Hc.
      apply andb_false_iff in Hc as [Hr|Hl].
      * apply orb_false_iff in Hr as [Hp Hs]. exists r. apply negb_false_iff in Hp. set_solver.
      * destruct (IH Hl) as (r' & ? & ? & ?). exists r'. set_solver.
Qed.

End ListSql.
