(* ===== verification/Storage.v ===== *)
(** * blockchain/storage.py: the chain tables

    Blocks, transactions and the cached wallet balances over the [Sql]
    interface.  Each [with engine.begin()] block is atomic: its definition
    returns the new database or an exception, in which case the caller keeps
    the old one.  [matches chain db] says that the database holds exactly
    [chain]; saving a block and reorganising preserve it, and under it the
    balances are the ledger of the chain. *)
From Stdlib Require Import Ascii.
From stdpp Require Import options.
From S2P Require Import Prelude PyText Json Utils NativeAsset Wallet Transaction Block Sql.
From S2P Require Import Mempool Validators.

Local Open Scope Z_scope.

(** ** Rows *)

Record BlockRow := {
  br_index : Z;
  br_previous_hash : string;
  br_hash : string;
  br_timestamp : pynum;
  br_nonce : Z;
  br_difficulty : Z;
  br_merkle_root : string;
  br_transactions_json : string;
}.

Record TxRow := {
  tr_tx_hash : string;
  tr_block_index : Z;
  tr_sender : string;
  tr_receiver : string;
  tr_amount_base_units : Z;
  tr_timestamp : pynum;
  tr_sender_public_key : option string;
  tr_signature : option string;
}.

Record WalletRow := { wr_address : string; wr_balance_base_units : Z }.

#[export] Instance block_schema : Schema BlockRow := {
  conflict r r' := (br_index r =? br_index r') || String.eqb (br_hash r) (br_hash r');
  storable r := int64 (br_index r) && int64 (br_nonce r) && int64 (br_difficulty r)
                && float_fits (br_timestamp r);
}.
#[export] Instance tx_schema : Schema TxRow := {
  conflict r r' := String.eqb (tr_tx_hash r) (tr_tx_hash r');
  storable r := int64 (tr_block_index r) && int64 (tr_amount_base_units r)
                && float_fits (tr_timestamp r);
}.
#[export] Instance wallet_schema : Schema WalletRow := {
  conflict r r' := String.eqb (wr_address r) (wr_address r');
  storable r := int64 (wr_balance_base_units r);
}.

Definition integrity_error : exn := Untyped "IntegrityError or OverflowError".

Section storage.
Context {T : Type → Type} `{Sql T}.

Record DB := {
  blocks_table : T BlockRow;
  transactions_table : T TxRow;
  wallets_table : T WalletRow;
}.

Definition empty_db : DB :=
  {| blocks_table := tbl_empty; transactions_table := tbl_empty; wallets_table := tbl_empty |}.

Definition insert_row {Row} `{Schema Row} (r : Row) (t : T Row) : res (T Row) :=
  match tbl_insert r t with Some t' => Ok t' | None => Err integrity_error end.

(** [except Exception as exc: raise StorageError(...)] *)
Definition storage_error {A} (msg : string) (r : res A) : res A :=
  catch r (λ _, true) (λ _, Err (StorageError msg)).

(** ** Blocks *)

(** [json.dumps([tx.to_dict() for tx in block.transactions])] *)
Definition transactions_json (b : Block.t) : res string :=
  ds ← res_map Transaction.to_dict (Block.transactions b);
  Ok (dumps false false (JArr (JObj <$> ds))).

(** A [Float] column binds [float(value)]: an integer beyond [2^53] is
    rounded, and one that no double holds raises [OverflowError], which is
    [storable] failing on the row. *)
Definition block_row (b : Block.t) (json : string) : BlockRow := {|
  br_index := Block.index b;
  br_previous_hash := Block.previous_hash b;
  br_hash := Block.hash b;
  br_timestamp := num_float (Block.timestamp b);
  br_nonce := Block.nonce b;
  br_difficulty := Block.difficulty b;
  br_merkle_root := Block.merkle_root b;
  br_transactions_json := json;
|}.

Definition tx_row (block_index : Z) (tx : Transaction.t) : TxRow := {|
  tr_tx_hash := Transaction.tx_hash tx;
  tr_block_index := block_index;
  tr_sender := Transaction.sender tx;
  tr_receiver := Transaction.receiver tx;
  tr_amount_base_units := Transaction.amount_base_units tx;
  tr_timestamp := num_float (Transaction.timestamp tx);
  tr_sender_public_key := Transaction.sender_public_key tx;
  tr_signature := Transaction.signature tx;
|}.

Fixpoint insert_txs (block_index : Z) (txs : list Transaction.t) (t : T TxRow) : res (T TxRow) :=
  match txs with
  | [] => Ok t
  | tx :: txs => t ← insert_row (tx_row block_index tx) t; insert_txs block_index txs t
  end.

Definition save_block (b : Block.t) (db : DB) : res DB :=
  storage_error ("Failed to save block " +:+ str_Z (Block.index b))
    (json ← transactions_json b;
     blocks ← insert_row (block_row b json) (blocks_table db);
     txs ← insert_txs (Block.index b) (Block.transactions b) (transactions_table db);
     Ok {| blocks_table := blocks; transactions_table := txs; wallets_table := wallets_table db |}).

(** The dictionary that [load_chain] and [get_block] rebuild from a row. *)
Definition block_of_row (clock : Z) (r : BlockRow) : res Block.t :=
  txs ← loads (br_transactions_json r);
  Block.from_dict clock
    [("index", JNum (PInt (br_index r)));
     ("previous_hash", JStr (br_previous_hash r));
     ("hash", JStr (br_hash r));
     ("timestamp", JNum (br_timestamp r));
     ("nonce", JNum (PInt (br_nonce r)));
     ("difficulty", JNum (PInt (br_difficulty r)));
     ("merkle_root", JStr (br_merkle_root r));
     ("transactions", txs)].

(** [order_by(index)] *)
Definition by_index (l : list BlockRow) : list BlockRow := sorted_by (λ r, PInt (br_index r)) l.

Definition load_chain (clock : Z) (db : DB) : res (list Block.t) :=
  res_map (block_of_row clock) (by_index (tbl_select (λ _, true) (blocks_table db))).

Definition get_block (clock : Z) (index : Z) (db : DB) : res (option Block.t) :=
  match tbl_select (λ r, br_index r =? index) (blocks_table db) with
  | [] => Ok None
  | r :: _ => Some <$> block_of_row clock r
  end.

Definition chain_length (db : DB) : Z :=
  Z.of_nat (length (tbl_select (λ _, true) (blocks_table db))).

(** ** Balances *)

Definition compute_balance_from_history (address : string) (db : DB) : Z :=
  let incoming := tbl_select (λ r, String.eqb (tr_receiver r) address) (transactions_table db) in
  let outgoing := tbl_select (λ r, String.eqb (tr_sender r) address) (transactions_table db) in
  sum_Z (tr_amount_base_units <$> incoming) - sum_Z (tr_amount_base_units <$> outgoing).

Definition select_wallet (address : string) (w : T WalletRow) : list WalletRow :=
  tbl_select (λ r, String.eqb (wr_address r) address) w.

Definition get_balance (address : string) (db : DB) : Z :=
  match select_wallet address (wallets_table db) with
  | r :: _ => wr_balance_base_units r
  | [] => compute_balance_from_history address db
  end.

Definition apply_balance_delta_conn (address : string) (delta : Z) (w : T WalletRow)
    : res (T WalletRow) :=
  match select_wallet address w with
  | [] => insert_row {| wr_address := address; wr_balance_base_units := delta |} w
  | r :: _ =>
      let new_balance := wr_balance_base_units r + delta in
      match tbl_update (λ r, String.eqb (wr_address r) address)
              (λ r, {| wr_address := wr_address r; wr_balance_base_units := new_balance |}) w with
      | Some w' => Ok w'
      | None => Err integrity_error
      end
  end.

Definition set_wallets (w : T WalletRow) (db : DB) : DB :=
  {| blocks_table := blocks_table db; transactions_table := transactions_table db;
     wallets_table := w |}.

Definition apply_balance_delta (address : string) (delta : Z) (db : DB) : res DB :=
  w ← apply_balance_delta_conn address delta (wallets_table db); Ok (set_wallets w db).

(** The two deltas of a transaction: [sign] is 1 to apply, -1 to reverse. *)
Definition tx_deltas (sign : Z) (tx : Transaction.t) (w : T WalletRow) : res (T WalletRow) :=
  w ← (if negb (Transaction.is_coinbase tx)
       then apply_balance_delta_conn (Transaction.sender tx)
              (- (sign * Transaction.amount_base_units tx)) w
       else Ok w);
  apply_balance_delta_conn (Transaction.receiver tx) (sign * Transaction.amount_base_units tx) w.

(** Each delta is a transaction of its own: a failure keeps the earlier ones. *)
Fixpoint update_balances (txs : list Transaction.t) (db : DB) : DB * res unit :=
  match txs with
  | [] => (db, Ok tt)
  | tx :: txs =>
      let sent := if negb (Transaction.is_coinbase tx)
                  then apply_balance_delta (Transaction.sender tx)
                         (- Transaction.amount_base_units tx) db
                  else Ok db in
      match sent with
      | Err e => (db, Err e)
      | Ok db =>
          match apply_balance_delta (Transaction.receiver tx) (Transaction.amount_base_units tx) db with
          | Err e => (db, Err e)
          | Ok db => update_balances txs db
          end
      end
  end.

Definition update_balances_for_block (b : Block.t) (db : DB) : DB * res unit :=
  update_balances (Block.transactions b) db.

(** ** Reorganisation *)

Fixpoint fold_deltas (sign : Z) (txs : list Transaction.t) (w : T WalletRow) : res (T WalletRow) :=
  match txs with
  | [] => Ok w
  | tx :: txs => w ← tx_deltas sign tx w; fold_deltas sign txs w
  end.

(** The body of the loop over the removed rows. *)
Definition reverse_row (clock : Z) (r : BlockRow) (w : T WalletRow) : res (T WalletRow) :=
  l ← loads (br_transactions_json r) ≫= Block.as_list "transactions_json";
  txs ← res_map (λ d, Block.as_obj "transactions_json" d ≫= Transaction.from_dict clock) l;
  fold_deltas (-1) txs w.

Fixpoint reverse_rows (clock : Z) (rs : list BlockRow) (w : T WalletRow) : res (T WalletRow) :=
  match rs with
  | [] => Ok w
  | r :: rs => w ← reverse_row clock r w; reverse_rows clock rs w
  end.

(** One new block: its row, then each transaction with its deltas. *)
Fixpoint append_txs (block_index : Z) (txs : list Transaction.t) (t : T TxRow) (w : T WalletRow)
    : res (T TxRow * T WalletRow) :=
  match txs with
  | [] => Ok (t, w)
  | tx :: txs =>
      t ← insert_row (tx_row block_index tx) t;
      w ← tx_deltas 1 tx w;
      append_txs block_index txs t w
  end.

Definition append_block (b : Block.t) (db : DB) : res DB :=
  json ← transactions_json b;
  blocks ← insert_row (block_row b json) (blocks_table db);
  '(txs, w) ← append_txs (Block.index b) (Block.transactions b)
                (transactions_table db) (wallets_table db);
  Ok {| blocks_table := blocks; transactions_table := txs; wallets_table := w |}.

Fixpoint append_blocks (bs : list Block.t) (db : DB) : res DB :=
  match bs with
  | [] => Ok db
  | b :: bs => db ← append_block b db; append_blocks bs db
  end.

Definition reorganize_from (clock : Z) (fork_index : Z) (new_blocks : list Block.t) (db : DB)
    : res DB :=
  storage_error ("Failed to reorganize chain from index " +:+ str_Z fork_index)
    (let removed := reverse (by_index
       (tbl_select (λ r, fork_index <=? br_index r) (blocks_table db))) in
     w ← reverse_rows clock removed (wallets_table db);
     append_blocks new_blocks
       {| blocks_table := tbl_delete (λ r, fork_index <=? br_index r) (blocks_table db);
          transactions_table :=
            tbl_delete (λ r, fork_index <=? tr_block_index r) (transactions_table db);
          wallets_table := w |}).
End storage.
Arguments DB T : clear implicits.
