(* ===== verification/StorageFacts.v ===== *)
(** * The storage layer implements the ledger

    [matches chain db]: the three tables hold the rows of [chain] and the
    balances of its ledger.  Under the laws of the SQL interface, saving,
    balance updates, reorganisation and loading refine the operations on the
    list of blocks. *)
From Stdlib Require Import Ascii.
From stdpp Require Import options.
From S2P Require Import Prelude PyText Json Utils NativeAsset Wallet Transaction Block Sql.
From S2P Require Import Mempool Validators Storage Consensus Settings Samples.

Local Open Scope Z_scope.
#[local] Set Default Proof Using "Type*".

(** ** Lists as bags *)

#[export] Instance where_rows_perm {Row} (p : Row → bool) :
  Proper ((≡ₚ) ==> (≡ₚ)) (where_rows p).
Proof. intros l1 l2 Hl. unfold where_rows. by rewrite Hl. Qed.

Lemma where_rows_fmap {A Row} (p : Row → bool) (f : A → Row) l :
  where_rows p (f <$> l) = f <$> filter (λ x, p (f x) = true) l.
Proof.
  induction l as [|x l IH]; [done|]. unfold where_rows in *. rewrite fmap_cons, !filter_cons, IH.
  by case_decide.
Qed.

Lemma where_rows_none {Row} (p : Row → bool) l :
  (∀ r, r ∈ l → p r = false) → where_rows p l = [].
Proof.
  intros Hl. unfold where_rows. induction l as [|r l IH]; [done|].
  rewrite filter_cons_False by (rewrite Hl; [done|left]). apply IH. set_solver.
Qed.

Lemma int64_abs z : Z.abs z < 2 ^ 63 → int64 z = true.
Proof. unfold int64. lia. Qed.

(** ** The wallets table as a map *)

Definition wallet_row (kv : string * Z) : WalletRow :=
  {| wr_address := kv.1; wr_balance_base_units := kv.2 |}.

Section wallets.
Context {T : Type → Type} `{SqlLaws T}.
Implicit Types (w : T WalletRow) (m : gmap string Z).

Definition wrel w m : Prop := rows w ≡ₚ wallet_row <$> map_to_list m.

Lemma wrel_empty : wrel tbl_empty ∅.
Proof. unfold wrel. by rewrite rows_empty, map_to_list_empty. Qed.

Lemma where_wallet m a :
  where_rows (λ r, String.eqb (wr_address r) a) (wallet_row <$> map_to_list m) ≡ₚ
  match m !! a with Some b => [wallet_row (a, b)] | None => [] end.
Proof.
  destruct (m !! a) as [b|] eqn:Ha.
  - rewrite <-(map_to_list_delete m a b Ha). cbn [fmap list_fmap].
    unfold where_rows. rewrite filter_cons_True by (cbn; apply String.eqb_refl).
    apply perm_skip, (reflexive_eq (R := (≡ₚ))), (where_rows_none (λ r, String.eqb (wr_address r) a)).
    intros r Hr. apply list_elem_of_fmap in Hr as ([k v] & -> & Hkv%elem_of_map_to_list).
    cbn. apply String.eqb_neq. intros ->. by rewrite lookup_delete_eq in Hkv.
  - rewrite where_rows_none; [done|].
    intros r Hr. apply list_elem_of_fmap in Hr as ([k v] & -> & Hkv%elem_of_map_to_list).
    cbn. apply String.eqb_neq. intros ->. congruence.
Qed.

Lemma select_wallet_spec w m a :
  wrel w m →
  select_wallet a w = match m !! a with Some b => [wallet_row (a, b)] | None => [] end.
Proof.
  intros Hw. assert (Hp : select_wallet a w ≡ₚ
    match m !! a with Some b => [wallet_row (a, b)] | None => [] end).
  { unfold select_wallet. rewrite select_rows, <-where_wallet. by rewrite Hw. }
  destruct (m !! a); [by apply Permutation_singleton_r in Hp|by apply Permutation_nil_r in Hp].
Qed.

Lemma apply_balance_delta_ok w m a d :
  wrel w m → int64 (get0 m a + d) = true →
  ∃ w', apply_balance_delta_conn a d w = Ok w' ∧ wrel w' (<[a := get0 m a + d]> m).
Proof.
  intros Hw Hi. unfold apply_balance_delta_conn. rewrite (select_wallet_spec w m a Hw).
  unfold get0 in *. destruct (m !! a) as [b|] eqn:Ha; cbn [default from_option id] in *.
  - cbn [wallet_row wr_balance_base_units fst snd].
    destruct (tbl_update _ _ w) as [w'|] eqn:Hu.
    2: { apply update_none in Hu as (r & _ & _ & Hs); [cbn in Hs; congruence|].
         intros r r' Hr. done. }
    exists w'. split; [done|]. apply update_some in Hu. unfold wrel in *. rewrite Hu, Hw.
    rewrite <-insert_delete_eq, map_to_list_insert by apply lookup_delete_eq.
    rewrite <-(map_to_list_delete m a b Ha). cbn [fmap list_fmap].
    rewrite String.eqb_refl. cbn. apply perm_skip.
    rewrite <-list_fmap_compose. apply (reflexive_eq (R := (≡ₚ))), list_fmap_ext.
    intros i [k v] Hkv%list_elem_of_lookup_2%elem_of_map_to_list. cbn.
    rewrite (proj2 (String.eqb_neq _ _)); [done|]. intros ->. by rewrite lookup_delete_eq in Hkv.
  - rewrite Z.add_0_l in *. unfold insert_row. destruct (tbl_insert _ w) as [w'|] eqn:Hi'.
    + exists w'. split; [done|]. apply insert_some in Hi'. unfold wrel in *.
      rewrite Hi', map_to_list_insert by done. cbn [fmap list_fmap]. by rewrite Hw.
    + apply insert_none in Hi' as [Hs|(r & Hr & Hc)]; [cbn [storable wallet_schema wr_balance_base_units] in Hs; congruence|].
      unfold wrel in Hw. rewrite Hw in Hr.
      apply list_elem_of_fmap in Hr as ([k v] & -> & Hkv%elem_of_map_to_list).
      cbn in Hc. apply String.eqb_eq in Hc as <-. congruence.
Qed.
End wallets.

(** ** Deltas *)

Definition volume (txs : list Transaction.t) : Z := sum_Z (Transaction.amount_base_units <$> txs).

(** The transaction has a delta for [a]. *)
Definition touches (a : string) (tx : Transaction.t) : Prop :=
  Transaction.receiver tx = a ∨ (Transaction.is_coinbase tx = false ∧ Transaction.sender tx = a).

Definition amounts_nonneg (txs : list Transaction.t) : Prop :=
  Forall (λ tx, 0 ≤ Transaction.amount_base_units tx) txs.

Lemma volume_nonneg txs : amounts_nonneg txs → 0 ≤ volume txs.
Proof. intros Htx. apply sum_Z_nonneg. by rewrite Forall_fmap. Qed.

Lemma volume_cons tx txs : volume (tx :: txs) = Transaction.amount_base_units tx + volume txs.
Proof. done. Qed.
Lemma volume_app txs1 txs2 : volume (txs1 ++ txs2) = volume txs1 + volume txs2.
Proof. unfold volume. by rewrite fmap_app, sum_Z_app. Qed.

Definition bounded (m : gmap string Z) (B : Z) : Prop := ∀ a, Z.abs (get0 m a) ≤ B.

Lemma lookup_insert_none (m : gmap string Z) k v a :
  <[k:=v]> m !! a = None ↔ k ≠ a ∧ m !! a = None.
Proof. rewrite lookup_insert_None. naive_solver. Qed.

Section deltas.
Context {T : Type → Type} `{SqlLaws T}.
Implicit Types (w : T WalletRow) (m : gmap string Z).

(** The wallets table after deltas of total effect [eff] touching [dom]. *)
Definition delta_result (r : res (T WalletRow)) m (eff : string → Z) (dom : string → Prop)
    (B : Z) : Prop :=
  ∃ w' m', r = Ok w' ∧ wrel w' m' ∧ (∀ a, get0 m' a = get0 m a + eff a) ∧
    (∀ a, m' !! a = None → m !! a = None ∧ ¬ dom a) ∧ bounded m' B.

Lemma tx_deltas_ok sign tx w m B :
  (sign = 1 ∨ sign = -1) → wrel w m → 0 ≤ Transaction.amount_base_units tx → bounded m B →
  B + Transaction.amount_base_units tx < 2 ^ 63 →
  delta_result (tx_deltas sign tx w) m (λ a, sign * net a tx) (λ a, touches a tx)
    (B + Transaction.amount_base_units tx).
Proof.
  intros Hsign Hw Ha Hb HB. unfold tx_deltas, delta_result, net, touches.
  set (amt := Transaction.amount_base_units tx) in *.
  assert (Hsa : Z.abs (sign * amt) = amt) by (destruct Hsign as [-> | ->]; lia).
  destruct (Transaction.is_coinbase tx) eqn:Hc; cbn [negb mbind res_bind].
  - destruct (apply_balance_delta_ok w m (Transaction.receiver tx) (sign * amt)) as (w' & -> & Hw');
      [done|apply int64_abs; pose proof (Hb (Transaction.receiver tx)); lia|].
    do 2 eexists. split; [done|]. split; [exact Hw'|]. split; [|split].
    + intros a. rewrite get0_insert. case_decide; subst; lia.
    + intros a [Hne ?]%lookup_insert_none. split; [done|]. naive_solver.
    + intros a. rewrite get0_insert. pose proof (Hb a). pose proof (Hb (Transaction.receiver tx)).
      case_decide; lia.
  - set (s := Transaction.sender tx). set (r := Transaction.receiver tx).
    destruct (apply_balance_delta_ok w m s (- (sign * amt))) as (w1 & -> & Hw1);
      [done|apply int64_abs; pose proof (Hb s); lia|]. cbn [mbind res_bind].
    destruct (apply_balance_delta_ok w1 _ r (sign * amt) Hw1) as (w' & -> & Hw').
    { apply int64_abs. rewrite get0_insert. pose proof (Hb s). pose proof (Hb r). case_decide; lia. }
    do 2 eexists. split; [done|]. split; [exact Hw'|]. split; [|split].
    + intros a. rewrite !get0_insert.
      destruct (decide (r = a)) as [<-|]; destruct (decide (s = r)) as [->|];
        repeat case_decide; subst; try done; lia.
    + intros a [Hr [Hs ?]%lookup_insert_none]%lookup_insert_none. split; [done|]. naive_solver.
    + intros a. rewrite !get0_insert. pose proof (Hb a). pose proof (Hb s). pose proof (Hb r).
      repeat case_decide; subst; lia.
Qed.

Lemma delta_result_bind r f m eff1 dom1 B1 eff dom B :
  delta_result r m eff1 dom1 B1 →
  (∀ w1 m1, wrel w1 m1 → bounded m1 B1 → (∀ a, get0 m1 a = get0 m a + eff1 a) →
     delta_result (f w1) m1 (λ a, eff a - eff1 a) dom B) →
  delta_result (r ≫= f) m eff (λ a, dom1 a ∨ dom a) B.
Proof.
  intros (w1 & m1 & -> & Hw1 & Heff1 & Hd1 & Hb1) Hf.
  destruct (Hf w1 m1 Hw1 Hb1 Heff1) as (w2 & m2 & Hr & Hw2 & Heff2 & Hd2 & Hb2).
  exists w2, m2. split_and!; [done|done| | |done].
  - intros a. rewrite Heff2, Heff1. lia.
  - intros a [[??]%Hd1 ?]%Hd2. naive_solver.
Qed.

Lemma delta_result_ext r m eff eff' dom dom' B B' :
  delta_result r m eff dom B → (∀ a, eff a = eff' a) → (∀ a, dom' a → dom a) → B ≤ B' →
  delta_result r m eff' dom' B'.
Proof.
  intros (w & m' & Hr & Hw & He & Hd & Hb) Heff Hdom HB. exists w, m'. split_and!; [done|done| | |].
  - intros a. by rewrite He, Heff.
  - intros a [??]%Hd. naive_solver.
  - intros a. pose proof (Hb a). lia.
Qed.

Lemma delta_result_id w m B : wrel w m → bounded m B → delta_result (Ok w) m (λ _, 0) (λ _, False) B.
Proof. intros Hw Hb. exists w, m. split_and!; [done|done|intros; lia|naive_solver|done]. Qed.

Lemma fold_deltas_ok sign txs w m B :
  (sign = 1 ∨ sign = -1) → wrel w m → amounts_nonneg txs → bounded m B →
  B + volume txs < 2 ^ 63 →
  delta_result (fold_deltas sign txs w) m (λ a, sign * sum_Z (net a <$> txs))
    (λ a, ∃ tx, tx ∈ txs ∧ touches a tx) (B + volume txs).
Proof.
  intros Hsign. revert w m B; induction txs as [|tx txs IH]; intros w m B Hw Htx Hb HB.
  { eapply delta_result_ext; [by apply delta_result_id| | |].
    - intros a. cbn. lia.
    - intros a (tx & ?%elem_of_nil & _). done.
    - cbn. lia. }
  apply Forall_cons in Htx as [Ha Htx]. rewrite volume_cons in HB.
  pose proof (volume_nonneg txs Htx). cbn [fold_deltas].
  eapply delta_result_ext.
  - eapply (delta_result_bind _ _ _ _ _ _ (λ a, sign * sum_Z (net a <$> tx :: txs))
      (λ a, ∃ tx, tx ∈ txs ∧ touches a tx));
      [apply (tx_deltas_ok sign tx w m B); (done || lia)|].
    intros w1 m1 Hw1 Hb1 _. eapply delta_result_ext; [apply IH; eauto; lia| |done|reflexivity].
    intros a. rewrite fmap_cons, sum_Z_cons. lia.
  - done.
  - intros a (tx' & [->|Hin]%elem_of_cons & Ht); eauto.
  - rewrite volume_cons. lia.
Qed.
End deltas.

(** ** The rows of a chain *)

Definition json_text (b : Block.t) : string :=
  match transactions_json b with Ok j => j | Err _ => "" end.
Definition row_of (b : Block.t) : BlockRow := block_row b (json_text b).
Definition tx_rows (b : Block.t) : list TxRow :=
  tx_row (Block.index b) <$> Block.transactions b.

Definition chain_txs (chain : list Block.t) : list Transaction.t :=
  chain ≫= Block.transactions.
Definition chain_tx_rows (chain : list Block.t) : list TxRow := chain ≫= tx_rows.

Lemma chain_txs_app c1 c2 : chain_txs (c1 ++ c2) = chain_txs c1 ++ chain_txs c2.
Proof. apply bind_app. Qed.
Lemma chain_tx_rows_app c1 c2 : chain_tx_rows (c1 ++ c2) = chain_tx_rows c1 ++ chain_tx_rows c2.
Proof. apply bind_app. Qed.

(** Received minus sent over every block. *)
Definition full_ledger (a : string) (chain : list Block.t) : Z := sum_Z (net a <$> chain_txs chain).

Definition fits64 (b : Block.t) : Prop :=
  int64 (Block.index b) = true ∧ int64 (Block.nonce b) = true ∧ int64 (Block.difficulty b) = true.

(** What the tables can hold of a block: it survives its dictionary, its
    numbers fit the columns, the timestamps of its transactions read back from
    their text, and its own is the one [from_dict] reads back from a [Float]
    column: of an integer, that means that it is a double, as all up to
    [2^53] are ([float_round_exact]). *)
Record keepable (b : Block.t) : Prop := {
  keep_storable : Block.storable b;
  keep_fits : fits64 b;
  keep_reads : Forall (λ tx, num_reads plain (Transaction.timestamp tx) = true) (Block.transactions b);
  keep_time : if Block.index b =? 0 then ∃ z, Block.timestamp b = PFlt z
              else ∃ z, Block.timestamp b = PInt z ∧ float_round z = z;
  keep_floats : float_fits (num_float (Block.timestamp b)) = true ∧
    Forall (λ tx, float_fits (num_float (Transaction.timestamp tx)) = true) (Block.transactions b);
}.

(** Fresh keys for [b] over [chain]. *)
Record insertable (chain : list Block.t) (b : Block.t) : Prop := {
  ins_keep : keepable b;
  ins_index : ∀ b', b' ∈ chain → Block.index b' ≠ Block.index b;
  ins_hash : ∀ b', b' ∈ chain → Block.hash b' ≠ Block.hash b;
  ins_nodup : NoDup (Block.tx_hashes b);
  ins_fresh : ∀ h, h ∈ Block.tx_hashes b → h ∉ Transaction.tx_hash <$> chain_txs chain;
}.

Lemma max_supply_int64 z : 0 ≤ z ≤ MAX_SUPPLY_BASE_UNITS → int64 z = true.
Proof.
  intros Hz. apply int64_abs. assert (MAX_SUPPLY_BASE_UNITS < 2 ^ 63) by by vm_compute. lia.
Qed.

Lemma keepable_amounts b : keepable b → amounts_nonneg (Block.transactions b).
Proof.
  intros [(_ & _ & _ & Htx) _ _]. eapply Forall_impl; [exact Htx|]. by intros tx [[? _] _].
Qed.

(** Its transactions are what their text reads as. *)
Abbreviation reads_back b :=
  (Forall (λ tx, num_reads plain (Transaction.timestamp tx) = true) (Block.transactions b)).

Lemma transactions_json_Ok b :
  Block.storable b → transactions_json b = Ok (json_text b) ∧
  ∃ ds, res_map Transaction.to_dict (Block.transactions b) = Ok ds ∧
    json_text b = dumps false false (JArr (JObj <$> ds)) ∧
    ∀ clock, res_map (λ tx, Block.as_obj "transactions" tx ≫= Transaction.from_dict clock)
               (JObj <$> ds) = Ok (Block.transactions b).
Proof.
  intros (_ & _ & _ & Htx). destruct (Block.to_dicts_Ok _ Htx) as (ds & Hds & Hfrom).
  unfold json_text, transactions_json. rewrite Hds. cbn [mbind res_bind]. eauto.
Qed.

Section tables.
Context {T : Type → Type} `{SqlLaws T}.
Implicit Types (db : DB T) (chain : list Block.t).

Record matches chain db : Prop := {
  m_keep : Forall keepable chain;
  m_blocks : rows (blocks_table db) ≡ₚ row_of <$> chain;
  m_txs : rows (transactions_table db) ≡ₚ chain_tx_rows chain;
  m_wallets : ∃ m, wrel (wallets_table db) m ∧ (∀ a, get0 m a = full_ledger a chain) ∧
    ∀ a, m !! a = None → ∀ tx, tx ∈ chain_txs chain → ¬ touches a tx;
}.

Lemma matches_empty : matches [] empty_db.
Proof.
  split; cbn; rewrite ?rows_empty; try done. exists ∅. split_and!; [apply wrel_empty| |].
  - intros a. by rewrite get0_empty.
  - intros a _ tx ?%elem_of_nil. done.
Qed.

(** ** Inserting *)

Lemma insert_block_row chain b (t : T BlockRow) :
  rows t ≡ₚ row_of <$> chain → insertable chain b →
  ∃ t', insert_row (row_of b) t = Ok t' ∧ rows t' ≡ₚ row_of <$> (chain ++ [b]).
Proof.
  intros Ht [[_ (Hi & Hn & Hd) _ _ [Hf _]] Hidx Hhash _ _]. unfold insert_row.
  destruct (tbl_insert _ t) as [t'|] eqn:Hins.
  - exists t'. split; [done|]. apply insert_some in Hins.
    by rewrite Hins, Ht, fmap_app, Permutation_app_comm.
  - apply insert_none in Hins as [Hs|(r & Hr & Hc)].
    + cbn -[float_fits] in Hs. by rewrite Hi, Hn, Hd, Hf in Hs.
    + rewrite Ht in Hr. apply list_elem_of_fmap in Hr as (b' & -> & Hb').
      cbn in Hc. apply orb_true_iff in Hc as [Hc%Z.eqb_eq|Hc%String.eqb_eq];
        [by destruct (Hidx b' Hb')|by destruct (Hhash b' Hb')].
Qed.

Lemma insert_tx_rows i txs (rs : list TxRow) (t : T TxRow) :
  rows t ≡ₚ rs → int64 i = true →
  Forall (λ tx, 0 ≤ Transaction.amount_base_units tx ≤ MAX_SUPPLY_BASE_UNITS) txs →
  Forall (λ tx, float_fits (num_float (Transaction.timestamp tx)) = true) txs →
  NoDup (Transaction.tx_hash <$> txs) →
  (∀ h, h ∈ Transaction.tx_hash <$> txs → h ∉ tr_tx_hash <$> rs) →
  ∃ t', insert_txs i txs t = Ok t' ∧ rows t' ≡ₚ rs ++ (tx_row i <$> txs).
Proof.
  intros Ht Hi Ha. revert rs t Ht.
  induction Ha as [|tx txs Ha _ IH]; intros rs t Ht Hf Hnd Hfresh.
  { exists t. by rewrite app_nil_r. }
  apply Forall_cons in Hf as [Hfl Hf].
  rewrite fmap_cons, NoDup_cons in Hnd. destruct Hnd as [Hx Hnd]. cbn [insert_txs].
  unfold insert_row. destruct (tbl_insert _ t) as [t'|] eqn:Hins; cbn [mbind res_bind].
  - apply insert_some in Hins.
    destruct (IH (rs ++ [tx_row i tx]) t') as (t2 & -> & Ht2); [|done|done| |].
    + by rewrite Hins, Ht, Permutation_app_comm.
    + intros h Hh. rewrite fmap_app, elem_of_app. intros [?|Hs].
      * eapply Hfresh; [|done]. rewrite fmap_cons. by right.
      * apply list_elem_of_singleton in Hs. cbn in Hs. subst h. done.
    + exists t2. split; [done|]. by rewrite Ht2, <-app_assoc.
  - apply insert_none in Hins as [Hs|(r & Hr & Hc)].
    + cbn -[float_fits] in Hs. by rewrite Hi, Hfl, max_supply_int64 in Hs.
    + cbn in Hc. apply String.eqb_eq in Hc. exfalso.
      eapply (Hfresh (Transaction.tx_hash tx)); [left|]. rewrite Ht in Hr.
      rewrite Hc. by apply list_elem_of_fmap_2.
Qed.

Lemma tx_row_hashes chain :
  tr_tx_hash <$> chain_tx_rows chain = Transaction.tx_hash <$> chain_txs chain.
Proof.
  induction chain as [|b chain IH]; [done|]. unfold chain_tx_rows, chain_txs in *.
  rewrite !bind_cons, !fmap_app, IH. f_equal. unfold tx_rows. by rewrite <-list_fmap_compose.
Qed.

Lemma insert_block_txs chain b (t : T TxRow) :
  rows t ≡ₚ chain_tx_rows chain → insertable chain b →
  ∃ t', insert_txs (Block.index b) (Block.transactions b) t = Ok t' ∧
        rows t' ≡ₚ chain_tx_rows (chain ++ [b]).
Proof.
  intros Ht [[(_ & _ & _ & Htx) (Hi & _) _ _ [_ Hf]] _ _ Hnd Hfresh].
  destruct (insert_tx_rows (Block.index b) (Block.transactions b) (chain_tx_rows chain) t)
    as (t' & Hins & Hr); [done|done| |done|done| |].
  - eapply Forall_impl; [exact Htx|]. by intros tx [? _].
  - intros h Hh. rewrite tx_row_hashes. by apply Hfresh.
  - exists t'. split; [done|]. rewrite Hr, chain_tx_rows_app.
    assert (chain_tx_rows [b] = tx_rows b) as -> by (cbn; by rewrite app_nil_r). done.
Qed.
End tables.

(** ** Blocks numbered from zero *)

Fixpoint indexed_from (n : Z) (chain : list Block.t) : Prop :=
  match chain with
  | [] => True
  | b :: chain => Block.index b = n ∧ indexed_from (n + 1) chain
  end.

Lemma indexed_ge n chain b : indexed_from n chain → b ∈ chain → n ≤ Block.index b.
Proof.
  revert n; induction chain as [|c chain IH]; intros n; cbn; [by intros _ ?%elem_of_nil|].
  intros [Hc Hi] [->|Hin]%elem_of_cons; [lia|]. pose proof (IH _ Hi Hin). lia.
Qed.

Lemma filter_indexed_lt n f chain :
  indexed_from n chain →
  filter (λ b, negb (f <=? Block.index b) = true) chain = take (Z.to_nat (f - n)) chain.
Proof.
  revert n; induction chain as [|c chain IH]; intros n; [by rewrite take_nil|]. cbn [indexed_from].
  intros [Hc Hi]. rewrite filter_cons. destruct (Z.leb_spec f (Block.index c)) as [Hle|Hlt]; cbn [negb].
  - rewrite decide_False by done. replace (Z.to_nat (f - n)) with 0%nat by lia.
    rewrite (IH _ Hi). by replace (Z.to_nat (f - (n + 1))) with 0%nat by lia.
  - rewrite decide_True by done. replace (Z.to_nat (f - n)) with (S (Z.to_nat (f - (n + 1)))) by lia.
    cbn [take]. by rewrite (IH _ Hi).
Qed.

Lemma filter_indexed_ge n f chain :
  indexed_from n chain →
  filter (λ b, (f <=? Block.index b) = true) chain = drop (Z.to_nat (f - n)) chain.
Proof.
  revert n; induction chain as [|c chain IH]; intros n; [by rewrite drop_nil|]. cbn [indexed_from].
  intros [Hc Hi]. rewrite filter_cons. destruct (Z.leb_spec f (Block.index c)) as [Hle|Hlt].
  - rewrite decide_True by done. replace (Z.to_nat (f - n)) with 0%nat by lia.
    rewrite (IH _ Hi), drop_0. by replace (Z.to_nat (f - (n + 1))) with 0%nat by lia.
  - rewrite decide_False by done. replace (Z.to_nat (f - n)) with (S (Z.to_nat (f - (n + 1)))) by lia.
    cbn [drop]. by rewrite (IH _ Hi).
Qed.

Lemma full_ledger_app a c1 c2 : full_ledger a (c1 ++ c2) = full_ledger a c1 + full_ledger a c2.
Proof. unfold full_ledger. by rewrite chain_txs_app, fmap_app, sum_Z_app. Qed.

Lemma full_ledger_one a b : full_ledger a [b] = sum_Z (net a <$> Block.transactions b).
Proof. unfold full_ledger, chain_txs. cbn. by rewrite app_nil_r. Qed.

Lemma chain_txs_one b : chain_txs [b] = Block.transactions b.
Proof. unfold chain_txs. cbn. by rewrite app_nil_r. Qed.

#[export] Instance chain_txs_perm : Proper ((≡ₚ) ==> (≡ₚ)) chain_txs.
Proof. intros c1 c2 Hc. unfold chain_txs. by rewrite Hc. Qed.

Lemma full_ledger_perm a c1 c2 : c1 ≡ₚ c2 → full_ledger a c1 = full_ledger a c2.
Proof. intros Hc. unfold full_ledger. by rewrite Hc. Qed.

Lemma volume_perm txs1 txs2 : txs1 ≡ₚ txs2 → volume txs1 = volume txs2.
Proof. intros Ht. unfold volume. by rewrite Ht. Qed.

(** ** The operations *)

Section operations.
Context {T : Type → Type} `{SqlLaws T}.
Implicit Types (db : DB T) (chain : list Block.t).

Lemma update_balances_fold txs db w :
  fold_deltas 1 txs (wallets_table db) = Ok w →
  update_balances txs db = (set_wallets w db, Ok tt).
Proof.
  revert db; induction txs as [|tx txs IH]; intros db; cbn [fold_deltas update_balances].
  { intros [= <-]. by destruct db. }
  unfold tx_deltas. rewrite Z.mul_1_l. intros (w2 & (w1 & H1 & H2)%res_bind_Ok & Hf)%res_bind_Ok.
  unfold apply_balance_delta. destruct (negb (Transaction.is_coinbase tx)).
  - rewrite H1. cbn [mbind res_bind set_wallets wallets_table]. rewrite H2. cbn [mbind res_bind].
    by rewrite IH by done.
  - apply (inj Ok) in H1 as <-. rewrite H2. cbn [mbind res_bind]. by rewrite IH by done.
Qed.

Lemma append_txs_ok i txs (t t' : T TxRow) w w' :
  insert_txs i txs t = Ok t' → fold_deltas 1 txs w = Ok w' →
  append_txs i txs t w = Ok (t', w').
Proof.
  revert t w; induction txs as [|tx txs IH]; intros t w; cbn [insert_txs fold_deltas append_txs].
  { by intros [= <-] [= <-]. }
  intros (t1 & H1 & H2)%res_bind_Ok (w1 & H3 & H4)%res_bind_Ok.
  rewrite H1. cbn [mbind res_bind]. rewrite H3. cbn [mbind res_bind]. auto.
Qed.

(** The tables after one more block, however they were written. *)
Lemma matches_snoc chain db b blocks txs B :
  matches chain db → keepable b → (∀ a, Z.abs (full_ledger a chain) ≤ B) →
  B + volume (Block.transactions b) < 2 ^ 63 →
  rows blocks ≡ₚ row_of <$> (chain ++ [b]) → rows txs ≡ₚ chain_tx_rows (chain ++ [b]) →
  ∃ w, fold_deltas 1 (Block.transactions b) (wallets_table db) = Ok w ∧
    matches (chain ++ [b]) {| blocks_table := blocks; transactions_table := txs; wallets_table := w |}.
Proof.
  intros [Hk _ _ (m & Hw & Hm & Hdom)] Hb HB Hvol Hblocks Htxs.
  destruct (fold_deltas_ok 1 (Block.transactions b) (wallets_table db) m B)
    as (w & m' & -> & Hw' & Heff & Hdom' & _); [by left|done|by apply keepable_amounts| |done|].
  { intros a. rewrite Hm. apply HB. }
  exists w. split; [done|]. split; cbn [blocks_table transactions_table wallets_table];
    [apply Forall_app; split; [done|by apply Forall_singleton]|done|done|].
  exists m'. split; [done|]. split.
  - intros a. rewrite Heff, Hm, full_ledger_app, full_ledger_one. lia.
  - intros a [Hn Hno]%Hdom' tx. rewrite chain_txs_app, chain_txs_one, elem_of_app.
    intros [?|?] ?; [by eapply Hdom|naive_solver].
Qed.

Lemma save_and_update_ok chain db b B :
  matches chain db → insertable chain b → (∀ a, Z.abs (full_ledger a chain) ≤ B) →
  B + volume (Block.transactions b) < 2 ^ 63 →
  ∃ db1 db2, save_block b db = Ok db1 ∧ update_balances_for_block b db1 = (db2, Ok tt) ∧
    matches (chain ++ [b]) db2.
Proof.
  intros Hm Hins HB Hvol. pose proof (ins_keep _ _ Hins) as Hk.
  destruct (insert_block_row chain b (blocks_table db)) as (blocks & Hbl & Hblocks);
    [apply Hm|done|].
  destruct (insert_block_txs chain b (transactions_table db)) as (txs & Htx & Htxs);
    [apply Hm|done|].
  destruct (matches_snoc chain db b blocks txs B) as (w & Hf & Hmatch); [done..|].
  destruct (transactions_json_Ok b (keep_storable _ Hk)) as [Hjson _].
  do 2 eexists. split; [|split].
  - unfold save_block. rewrite Hjson. cbn [mbind res_bind]. change (block_row b (json_text b)) with (row_of b).
    rewrite Hbl. cbn [mbind res_bind]. rewrite Htx. done.
  - unfold update_balances_for_block. by apply update_balances_fold.
  - done.
Qed.

Lemma append_block_ok chain db b B :
  matches chain db → insertable chain b → (∀ a, Z.abs (full_ledger a chain) ≤ B) →
  B + volume (Block.transactions b) < 2 ^ 63 →
  ∃ db', append_block b db = Ok db' ∧ matches (chain ++ [b]) db'.
Proof.
  intros Hm Hins HB Hvol. pose proof (ins_keep _ _ Hins) as Hk.
  destruct (insert_block_row chain b (blocks_table db)) as (blocks & Hbl & Hblocks);
    [apply Hm|done|].
  destruct (insert_block_txs chain b (transactions_table db)) as (txs & Htx & Htxs);
    [apply Hm|done|].
  destruct (matches_snoc chain db b blocks txs B) as (w & Hf & Hmatch); [done..|].
  eexists. split; [|exact Hmatch]. unfold append_block.
  rewrite (proj1 (transactions_json_Ok b (keep_storable _ Hk))). cbn [mbind res_bind].
  change (block_row b (json_text b)) with (row_of b). rewrite Hbl. cbn [mbind res_bind].
  by rewrite (append_txs_ok _ _ _ _ _ _ Htx Hf).
Qed.

(** Every block of [new] has fresh keys where it is inserted. *)
Definition insertables chain (new : list Block.t) : Prop :=
  ∀ l1 b l2, new = l1 ++ b :: l2 → insertable (chain ++ l1) b.

Lemma ledger_step_bound a chain b B :
  amounts_nonneg (Block.transactions b) → Z.abs (full_ledger a chain) ≤ B →
  Z.abs (full_ledger a (chain ++ [b])) ≤ B + volume (Block.transactions b).
Proof.
  intros Htx HB. rewrite full_ledger_app, full_ledger_one.
  assert (Z.abs (sum_Z (net a <$> Block.transactions b)) ≤ volume (Block.transactions b)); [|lia].
  induction Htx as [|tx txs Ha _ IH]; [done|]. rewrite volume_cons, fmap_cons, sum_Z_cons.
  assert (Z.abs (net a tx) ≤ Transaction.amount_base_units tx); [|lia].
  unfold net. repeat case_match; lia.
Qed.

Lemma append_blocks_ok chain db new B :
  matches chain db → insertables chain new → (∀ a, Z.abs (full_ledger a chain) ≤ B) →
  B + volume (chain_txs new) < 2 ^ 63 →
  ∃ db', append_blocks new db = Ok db' ∧ matches (chain ++ new) db'.
Proof.
  revert chain db B; induction new as [|b new IH]; intros chain db B Hm Hins HB Hvol.
  { exists db. by rewrite app_nil_r. }
  pose proof (Hins [] b new eq_refl) as Hb. rewrite app_nil_r in Hb.
  pose proof (keepable_amounts _ (ins_keep _ _ Hb)) as Ham.
  assert (Hv : volume (chain_txs (b :: new)) = volume (Block.transactions b) + volume (chain_txs new)).
  { change (b :: new) with ([b] ++ new). by rewrite chain_txs_app, volume_app, chain_txs_one. }
  assert (Hnew : 0 ≤ volume (chain_txs new)).
  { apply volume_nonneg. unfold amounts_nonneg. apply Forall_bind, Forall_forall. intros b' Hb'.
    apply list_elem_of_split in Hb' as (l1 & l2 & ->).
    apply (keepable_amounts b'), (ins_keep (chain ++ b :: l1)).
    by apply (Hins (b :: l1) b' l2). }
  destruct (append_block_ok chain db b B) as (db1 & Hdb1 & Hm1); [done..|lia|].
  destruct (IH (chain ++ [b]) db1 (B + volume (Block.transactions b))) as (db2 & Hdb2 & Hm2).
  - done.
  - intros l1 b' l2 ->. rewrite <-app_assoc. by apply (Hins (b :: l1) b' l2).
  - intros a. by apply ledger_step_bound.
  - lia.
  - exists db2. cbn [append_blocks]. rewrite Hdb1. cbn [mbind res_bind].
    split; [done|]. by rewrite <-app_assoc in Hm2.
Qed.
End operations.

(** ** Reading rows back *)

Lemma to_dict_ok tx d :
  num_reads plain (Transaction.timestamp tx) = true → Transaction.to_dict tx = Ok d →
  json_reads plain (JObj d) = true.
Proof.
  unfold Transaction.to_dict. intros Hts (am & _ & Hd)%res_bind_Ok. apply (inj Ok) in Hd as <-.
  destruct tx as [s r a ts [pk|] [sig|] h]; cbn [Transaction.timestamp] in Hts;
    cbn -[plain num_reads]; by rewrite Hts.
Qed.

Lemma loads_json_text b :
  Block.storable b → reads_back b →
  ∃ ds, loads (json_text b) = Ok (JArr (JObj <$> ds)) ∧
    ∀ clock, res_map (λ tx, Block.as_obj "transactions" tx ≫= Transaction.from_dict clock)
               (JObj <$> ds) = Ok (Block.transactions b).
Proof.
  intros Hst Hr. destruct (transactions_json_Ok b Hst) as (_ & ds & Hds & -> & Hfrom).
  exists ds. split; [|done]. apply loads_dumps. cbn [json_reads]. rewrite forallb_forall.
  intros j Hj%list_elem_of_In. apply list_elem_of_fmap in Hj as (d & -> & Hd).
  apply res_map_Ok in Hds. clear -Hds Hd Hr.
  induction Hds as [|tx d' txs ds' Htx _ IH]; [by apply elem_of_nil in Hd|].
  apply Forall_cons in Hr as [Hr1 Hr]. apply elem_of_cons in Hd as [->|Hd]; [by eapply to_dict_ok|auto].
Qed.

Lemma as_obj_from_dict field clock ds txs :
  res_map (λ tx, Block.as_obj "transactions" tx ≫= Transaction.from_dict clock) (JObj <$> ds) = Ok txs →
  res_map (λ d, Block.as_obj field d ≫= Transaction.from_dict clock) (JObj <$> ds) = Ok txs.
Proof.
  revert txs; induction ds as [|d ds IH]; intros txs; [done|]. rewrite fmap_cons. cbn [res_map].
  intros (tx & Htx & (txs' & Hs & Heq)%res_bind_Ok)%res_bind_Ok. cbn [Block.as_obj mbind res_bind] in *.
  rewrite Htx. cbn [mbind res_bind]. rewrite (IH _ Hs). done.
Qed.

(** What the [Float] column makes of the timestamp. *)
Definition stored_time (b : Block.t) : pynum :=
  if Block.index b =? 0 then num_float (Block.timestamp b)
  else PInt (num_int (num_float (Block.timestamp b))).

Definition with_time (ts : pynum) (b : Block.t) : Block.t :=
  Block.Make (Block.index b) (Block.previous_hash b) (Block.transactions b) ts (Block.nonce b)
    (Block.difficulty b) (Block.merkle_root b) (Block.hash b).

(** A row gives the block back, but for its timestamp. *)
Lemma block_of_row_time clock b :
  Block.storable b → reads_back b →
  block_of_row clock (row_of b) = Ok (with_time (stored_time b) b).
Proof.
  intros Hst Hr. destruct (loads_json_text b Hst Hr) as (ds & Hl & Hfrom). unfold block_of_row.
  cbn [row_of block_row br_transactions_json]. rewrite Hl. cbn [mbind res_bind].
  cbn [br_index br_previous_hash br_hash br_timestamp br_nonce br_difficulty br_merkle_root].
  set (d := [_; _; _; _; _; _; _; _]). unfold Block.from_dict, dict_index, dict_get_or.
  change (dict_get "transactions" d) with (Some (JArr (JObj <$> ds))).
  change (dict_get "index" d) with (Some (JNum (PInt (Block.index b)))).
  change (dict_get "previous_hash" d) with (Some (JStr (Block.previous_hash b))).
  change (dict_get "timestamp" d) with (Some (JNum (num_float (Block.timestamp b)))).
  change (dict_get "nonce" d) with (Some (JNum (PInt (Block.nonce b)))).
  change (dict_get "difficulty" d) with (Some (JNum (PInt (Block.difficulty b)))).
  change (dict_get "merkle_root" d) with (Some (JStr (Block.merkle_root b))).
  change (dict_get "hash" d) with (Some (JStr (Block.hash b))).
  cbn [Block.as_list mbind res_bind]. rewrite Hfrom.
  cbn [Block.as_int as_str Block.as_num py_int num_int num_val as_str_or_empty mbind res_bind].
  destruct Hst as (Hm & Hh & _).
  assert ((if Block.index b =? 0 then Ok (num_float (Block.timestamp b))
           else PInt <$> Ok (num_int (num_float (Block.timestamp b)))) = Ok (stored_time b)) as ->.
  { unfold stored_time. by destruct (Block.index b =? 0). }
  cbn [mbind res_bind]. unfold Block.init. by rewrite Block.post_init_recorded.
Qed.

Lemma stored_time_int b z :
  Block.index b ≠ 0 → Block.timestamp b = PInt z → stored_time b = PInt (float_round z).
Proof.
  intros Hi Ht. unfold stored_time. rewrite (proj2 (Z.eqb_neq _ _) Hi), Ht.
  cbn [num_float]. by rewrite num_int_float.
Qed.

Lemma block_of_row_of clock b : keepable b → block_of_row clock (row_of b) = Ok b.
Proof.
  intros [Hst _ Hr Ht _]. rewrite block_of_row_time by done.
  assert (stored_time b = Block.timestamp b) as ->; [|by destruct b].
  destruct (Z.eqb_spec (Block.index b) 0) as [Hi|Hi].
  - unfold stored_time. rewrite Hi. cbn. by destruct Ht as [z ->].
  - destruct Ht as (z & Ht & Hz). by rewrite (stored_time_int b z Hi Ht), Hz, Ht.
Qed.

Section reorganise.
Context {T : Type → Type} `{SqlLaws T}.
Implicit Types (db : DB T) (chain : list Block.t).

Lemma reverse_rows_ok clock bs (w : T WalletRow) m B :
  Forall keepable bs → wrel w m → bounded m B → B + volume (chain_txs bs) < 2 ^ 63 →
  delta_result (reverse_rows clock (row_of <$> bs) w) m (λ a, - full_ledger a bs) (λ _, False)
    (B + volume (chain_txs bs)).
Proof.
  intros Hk. revert w m B; induction Hk as [|b bs Hb Hk IH]; intros w m B Hw Hm HB.
  { cbn. eapply delta_result_ext; [by apply delta_result_id|done|done|unfold volume; cbn; lia]. }
  assert (Hv : volume (chain_txs (b :: bs)) = volume (Block.transactions b) + volume (chain_txs bs)).
  { change (b :: bs) with ([b] ++ bs). by rewrite chain_txs_app, volume_app, chain_txs_one. }
  assert (Hbs : 0 ≤ volume (chain_txs bs)).
  { apply volume_nonneg. apply Forall_bind. eapply Forall_impl; [exact Hk|]. apply keepable_amounts. }
  rewrite fmap_cons. cbn [reverse_rows]. eapply delta_result_ext.
  - eapply (delta_result_bind _ _ _ _ _ _ (λ a, - full_ledger a (b :: bs)) (λ _, False)).
    + unfold reverse_row. destruct (loads_json_text b (keep_storable _ Hb) (keep_reads _ Hb)) as (ds & Hl & Hfrom).
      cbn [row_of block_row br_transactions_json]. rewrite Hl. cbn [mbind res_bind Block.as_list].
      rewrite (as_obj_from_dict _ _ _ _ (Hfrom clock)). cbn [mbind res_bind].
      eapply (fold_deltas_ok (-1) (Block.transactions b) w m B); [by right|done| |done|lia].
      by apply keepable_amounts.
    + intros w1 m1 Hw1 Hb1 _. eapply delta_result_ext; [apply IH; [done|done|lia]| |done|reflexivity].
      intros a. change (b :: bs) with ([b] ++ bs). rewrite full_ledger_app, full_ledger_one. lia.
  - done.
  - done.
  - lia.
Qed.

Lemma removed_rows chain db k :
  matches chain db → indexed_from 0 chain →
  ∃ bs, reverse (by_index (tbl_select (λ r, Z.of_nat k <=? br_index r) (blocks_table db))) =
        row_of <$> bs ∧ bs ≡ₚ drop k chain.
Proof.
  intros Hm Hi.
  match goal with |- ∃ _, ?l = _ ∧ _ => assert (Hp : l ≡ₚ row_of <$> drop k chain) end.
  2: { apply Permutation_map_inv in Hp as (bs & Hbs & Hp). by exists bs. }
  rewrite reverse_Permutation. unfold by_index. rewrite sorted_by_perm, select_rows.
  rewrite (m_blocks _ _ Hm), where_rows_fmap. cbn [row_of block_row br_index].
  rewrite (filter_indexed_ge 0 _ _ Hi). replace (Z.to_nat (Z.of_nat k - 0)) with k by lia. done.
Qed.

Lemma kept_block_rows chain db k :
  matches chain db → indexed_from 0 chain →
  rows (tbl_delete (λ r, Z.of_nat k <=? br_index r) (blocks_table db)) ≡ₚ row_of <$> take k chain.
Proof.
  intros Hm Hi. rewrite delete_rows, (m_blocks _ _ Hm), where_rows_fmap.
  cbn [row_of block_row br_index]. rewrite (filter_indexed_lt 0 _ _ Hi).
  by replace (Z.to_nat (Z.of_nat k - 0)) with k by lia.
Qed.

Lemma kept_tx_rows chain db k :
  matches chain db → indexed_from 0 chain →
  rows (tbl_delete (λ r, Z.of_nat k <=? tr_block_index r) (transactions_table db)) ≡ₚ
  chain_tx_rows (take k chain).
Proof.
  intros Hm Hi. rewrite delete_rows, (m_txs _ _ Hm). apply (reflexive_eq (R := (≡ₚ))).
  assert (take k chain = filter (λ b, negb (Z.of_nat k <=? Block.index b) = true) chain) as ->
    by (rewrite (filter_indexed_lt 0 _ _ Hi); f_equal; lia).
  clear. induction chain as [|b chain IH]; [done|]. unfold chain_tx_rows, where_rows in *.
  rewrite bind_cons, filter_app, IH, filter_cons.
  assert (Hb : filter (λ r, negb (Z.of_nat k <=? tr_block_index r) = true) (tx_rows b) =
               if decide (negb (Z.of_nat k <=? Block.index b) = true) then tx_rows b else []).
  { unfold tx_rows. change (filter ?p ?l) with (where_rows (λ r, negb (Z.of_nat k <=? tr_block_index r)) l).
    rewrite where_rows_fmap. cbn [tx_row tr_block_index].
    case_decide as Hd; induction (Block.transactions b) as [|tx txs IHt]; try done.
    - rewrite filter_cons_True by done. by rewrite !fmap_cons, IHt.
    - rewrite filter_cons_False by done. done. }
  rewrite Hb. by case_decide; rewrite ?bind_cons.
Qed.

Lemma reorganize_ok clock chain db k new B :
  matches chain db → indexed_from 0 chain → insertables (take k chain) new →
  (∀ a, Z.abs (full_ledger a chain) ≤ B) →
  B + volume (chain_txs (drop k chain)) + volume (chain_txs new) < 2 ^ 63 →
  0 ≤ volume (chain_txs new) →
  ∃ db', reorganize_from clock (Z.of_nat k) new db = Ok db' ∧ matches (take k chain ++ new) db'.
Proof.
  intros Hm Hi Hins HB Hvol Hnew. pose proof Hm as [Hk _ _ (m & Hw & Hml & Hdom)].
  destruct (removed_rows chain db k Hm Hi) as (bs & Hbs & Hperm).
  pose proof (volume_perm _ _ (chain_txs_perm _ _ Hperm)) as Hv.
  destruct (reverse_rows_ok clock bs (wallets_table db) m B) as (w & m' & Hr & Hw' & Heff & Hdom' & Hb').
  { rewrite Hperm. by apply Forall_drop. }
  { done. }
  { intros a. rewrite Hml. apply HB. }
  { lia. }
  unfold reorganize_from. rewrite Hbs, Hr. cbn [mbind res_bind].
  assert (Hl : ∀ a, get0 m' a = full_ledger a (take k chain)).
  { intros a. rewrite Heff, Hml, (full_ledger_perm a _ _ Hperm).
    rewrite <-(take_drop k chain) at 1. rewrite full_ledger_app. lia. }
  set (db0 := {| blocks_table := _ |}).
  destruct (append_blocks_ok (take k chain) db0 new (B + volume (chain_txs bs))) as (db' & Hdb' & Hm').
  - split; cbn; [by apply Forall_take|by apply kept_block_rows|by apply kept_tx_rows|].
    exists m'. split_and!; [done|done|]. intros a [Hn _]%Hdom' tx Htx. apply (Hdom a Hn).
    rewrite <-(take_drop k chain), chain_txs_app. set_solver.
  - done.
  - intros a. rewrite <-Hl. apply Hb'.
  - lia.
  - exists db'. by rewrite Hdb'.
Qed.

(** ** Balances and loading *)

Lemma get_balance_ledger chain db a :
  matches chain db → a ≠ COINBASE_SENDER → get_balance a db = full_ledger a chain.
Proof.
  intros [_ _ Htx (m & Hw & Hm & Hdom)] Ha. unfold get_balance.
  rewrite (select_wallet_spec _ _ _ Hw), <-Hm. unfold get0.
  destruct (m !! a) as [b|] eqn:Hma; [done|]. cbn.
  assert (Hnone : ∀ p, (∀ r, r ∈ chain_tx_rows chain → p r = false) →
    tbl_select p (transactions_table db) = []).
  { intros p Hp. apply Permutation_nil_r. by rewrite select_rows, Htx, where_rows_none. }
  assert (Hrow : ∀ r, r ∈ chain_tx_rows chain → ∃ tx i, r = tx_row i tx ∧ tx ∈ chain_txs chain).
  { intros r (b & (tx & -> & Hin)%list_elem_of_fmap & Hb)%list_elem_of_bind.
    exists tx, (Block.index b). split; [done|]. apply list_elem_of_bind. eauto. }
  unfold compute_balance_from_history. rewrite !Hnone; [done|..];
    intros r (tx & i & -> & Hin)%Hrow; apply String.eqb_neq; cbn; intros Heq;
    apply (Hdom a Hma tx Hin); unfold touches; [|by left].
  right. split; [|done]. unfold Transaction.is_coinbase. apply String.eqb_neq. congruence.
Qed.

Lemma rows_sorted n chain : indexed_from n chain →
  StronglySorted (key_le (λ r, PInt (br_index r))) (row_of <$> chain).
Proof.
  revert n; induction chain as [|b chain IH]; intros n; [constructor|]. cbn [indexed_from].
  intros [Hb Hi]. rewrite fmap_cons. constructor; [by eapply IH|]. rewrite Forall_fmap.
  apply Forall_forall. intros c Hc. pose proof (indexed_ge _ _ _ Hi Hc). unfold key_le. cbn. lia.
Qed.

Lemma indexed_inj n chain b c :
  indexed_from n chain → b ∈ chain → c ∈ chain → Block.index b = Block.index c → b = c.
Proof.
  revert n; induction chain as [|d chain IH]; intros n; [by intros _ ?%elem_of_nil|]. cbn [indexed_from].
  intros [Hd Hi] [->|Hb]%elem_of_cons [->|Hc]%elem_of_cons He; [done|..|eauto].
  - pose proof (indexed_ge _ _ _ Hi Hc). lia.
  - pose proof (indexed_ge _ _ _ Hi Hb). lia.
Qed.

Lemma load_chain_ok clock chain db :
  matches chain db → indexed_from 0 chain → load_chain clock db = Ok chain.
Proof.
  intros [Hk Hbl _ _] Hi. unfold load_chain.
  assert (Hsorted : by_index (tbl_select (λ _, true) (blocks_table db)) = row_of <$> chain).
  { apply (StronglySorted_unique_strong (key_le (λ r, PInt (br_index r)))).
    - intros r1 r2 Hr1 Hr2 H1 H2. unfold by_index in Hr1. rewrite sorted_by_perm in Hr1.
      change (tbl_select (λ _, true) (blocks_table db)) with (rows (blocks_table db)) in Hr1.
      rewrite Hbl in Hr1. apply list_elem_of_fmap in Hr1 as (b & -> & Hb).
      apply list_elem_of_fmap in Hr2 as (c & -> & Hc). f_equal.
      apply (indexed_inj 0 chain); [done..|]. unfold key_le in *. cbn in *. lia.
    - apply sorted_by_sorted.
    - by eapply rows_sorted.
    - unfold by_index. rewrite sorted_by_perm. exact Hbl. }
  rewrite Hsorted. clear -Hk. induction Hk as [|b chain Hb _ IH]; [done|].
  rewrite fmap_cons. cbn [res_map]. rewrite block_of_row_of by done. cbn [mbind res_bind].
  by rewrite IH.
Qed.
End reorganise.

(** ** Checking the premises on concrete blocks *)

Definition tx_check (tx : Transaction.t) : bool :=
  (0 <=? Transaction.amount_base_units tx)
  && (Transaction.amount_base_units tx <=? MAX_SUPPLY_BASE_UNITS)
  && (String.eqb (Transaction.sender tx) GENESIS_SENDER
      || match Transaction.timestamp tx with PInt _ => true | PFlt _ => false end)
  && num_reads plain (Transaction.timestamp tx)
  && negb (String.eqb (Transaction.tx_hash tx) "").

Definition keepable_check (b : Block.t) : bool :=
  negb (String.eqb (Block.merkle_root b) "") && negb (String.eqb (Block.hash b) "")
  && forallb tx_check (Block.transactions b)
  && (int64 (Block.index b) && int64 (Block.nonce b) && int64 (Block.difficulty b))
  && match Block.timestamp b with
     | PFlt _ => Block.index b =? 0
     | PInt z => negb (Block.index b =? 0) && (float_round z =? z)
     end
  && (float_fits (num_float (Block.timestamp b))
      && forallb (λ tx, float_fits (num_float (Transaction.timestamp tx))) (Block.transactions b)).

Lemma storable_check_sound b :
  negb (String.eqb (Block.merkle_root b) "") && negb (String.eqb (Block.hash b) "")
    && forallb tx_check (Block.transactions b)
    && match Block.timestamp b with PFlt _ => Block.index b =? 0 | PInt _ => true end = true →
  Block.storable b.
Proof.
  rewrite !andb_true_iff, !negb_true_iff, !String.eqb_neq, forallb_forall.
  intros (((Hm & Hh) & Htx) & Ht). split_and!; [done|done| |].
  - destruct (Block.timestamp b); [by eauto|left; lia].
  - apply Forall_forall. intros tx Hin%list_elem_of_In%Htx. unfold tx_check in Hin.
    rewrite !andb_true_iff, orb_true_iff, negb_true_iff, String.eqb_neq, String.eqb_eq in Hin.
    destruct Hin as ((((? & ?) & Hts) & _) & ?). split_and!; [lia|lia| |done].
    destruct Hts as [?|Hts]; [by left|right]. destruct (Transaction.timestamp tx); [eauto|done].
Qed.

Lemma keepable_check_sound b : keepable_check b = true → keepable b.
Proof.
  unfold keepable_check. rewrite !andb_true_iff, !negb_true_iff, !String.eqb_neq, forallb_forall.
  intros (((((Hm & Hh) & Htx) & (Hi & Hn) & Hd) & Ht) & Hf & Hff). split; [|done| | |].
  - apply storable_check_sound. rewrite !andb_true_iff, !negb_true_iff, !String.eqb_neq, forallb_forall.
    split_and!; [done..|]. destruct (Block.timestamp b); done.
  - apply Forall_forall. intros tx Hin%list_elem_of_In%Htx. unfold tx_check in Hin.
    rewrite !andb_true_iff in Hin. tauto.
  - destruct (Block.timestamp b).
    + apply andb_true_iff in Ht as [Ht%negb_true_iff ?%Z.eqb_eq]. rewrite Ht. eauto.
    + rewrite Ht. eauto.
  - split; [done|]. apply Forall_forall. intros tx Hin%list_elem_of_In. by apply (proj1 (forallb_forall _ _) Hff).
Qed.

Definition insertable_check (chain : list Block.t) (b : Block.t) : bool :=
  keepable_check b
  && forallb (λ b', negb (Block.index b' =? Block.index b)
                    && negb (String.eqb (Block.hash b') (Block.hash b))) chain
  && bool_decide (NoDup (Block.tx_hashes b))
  && forallb (λ h, bool_decide (h ∉ Transaction.tx_hash <$> chain_txs chain)) (Block.tx_hashes b).

Lemma insertable_check_sound chain b : insertable_check chain b = true → insertable chain b.
Proof.
  unfold insertable_check. rewrite !andb_true_iff, !forallb_forall, bool_decide_eq_true.
  intros (((Hk & Hb) & Hnd) & Hf).
  assert (Hb' : ∀ b', b' ∈ chain → Block.index b' ≠ Block.index b ∧ Block.hash b' ≠ Block.hash b).
  { intros b' Hin%list_elem_of_In%Hb. rewrite andb_true_iff, !negb_true_iff in Hin.
    destruct Hin as [?%Z.eqb_neq ?%String.eqb_neq]. done. }
  split; [by apply keepable_check_sound|naive_solver..|done|].
  intros h Hh%list_elem_of_In%Hf. by apply bool_decide_eq_true in Hh.
Qed.

Fixpoint insertables_check (chain new : list Block.t) : bool :=
  match new with
  | [] => true
  | b :: new => insertable_check chain b && insertables_check (chain ++ [b]) new
  end.

Lemma insertables_check_sound chain new : insertables_check chain new = true → insertables chain new.
Proof.
  revert chain; induction new as [|b new IH]; intros chain.
  { intros _ l1 b' l2 Heq. by destruct l1. }
  cbn. intros [Hb Hn]%andb_true_iff [|c l1] b' l2 Heq; injection Heq as <- ->.
  - rewrite app_nil_r. by apply insertable_check_sound.
  - change (chain ++ b :: l1) with (chain ++ [b] ++ l1). rewrite app_assoc. by eapply IH.
Qed.

(** ** What the storage layer promises *)

Section promises.
Context {T : Type → Type} `{SqlLaws T}.
Implicit Types (db : DB T) (chain : list Block.t).

(** The database shows exactly [chain]: loading returns it, and every
    balance is its ledger. *)
Definition shows chain db : Prop :=
  (∀ clock, load_chain clock db = Ok chain) ∧
  ∀ a, a ≠ COINBASE_SENDER → get_balance a db = full_ledger a chain.

Lemma matches_shows chain db : matches chain db → indexed_from 0 chain → shows chain db.
Proof.
  intros Hm Hi. split; [intros; by apply load_chain_ok|]. intros a. by apply get_balance_ledger.
Qed.

(** A reorganisation keeps the rows of the blocks before the fork; where these
    are the blocks of the other chain, the database shows all of it. *)
Lemma shows_shared k chain chain' db :
  shows (take k chain ++ drop k chain') db → take k chain = take k chain' → shows chain' db.
Proof. intros Hs Heq. by rewrite Heq, take_drop in Hs. Qed.

(** C8: Appending persists: over any SQL engine that satisfies the laws, when
    the database holds a chain ([matches]) and the next block is [insertable],
    saving the block and updating the balances both succeed, after which the
    database loads as the longer chain and every balance is its ledger.
    Insertable: the block survives its dictionary ([Block.storable]), its index,
    hash and transaction hashes are fresh, its index, nonce and difficulty fit 64
    bits, its timestamp is an integer that a double holds (all up to 2^53 are;
    the genesis block's is a float), and the timestamps of its transactions are
    within the doubles and read back from their text.  The bound [B] says that
    no running balance leaves SQLite's 64-bit integers. *)
Theorem save_block_refines chain db b B :
  matches chain db → indexed_from 0 (chain ++ [b]) → insertable chain b →
  (∀ a, Z.abs (full_ledger a chain) ≤ B) → B + volume (Block.transactions b) < 2 ^ 63 →
  ∃ db1 db2, save_block b db = Ok db1 ∧ update_balances_for_block b db1 = (db2, Ok tt) ∧
    shows (chain ++ [b]) db2.
Proof.
  intros Hm Hi Hins HB Hv. destruct (save_and_update_ok chain db b B) as (db1 & db2 & ? & ? & ?);
    [done..|].
  exists db1, db2. split_and!; [done|done|]. by apply matches_shows.
Qed.

(** C5: Reorganising equals rebuilding: over a database that holds a chain
    ([matches]) numbered from zero, replacing the blocks from a fork index on by
    new ones, by reversing the balances of the removed rows and applying those of
    the new blocks, succeeds and leaves a database that loads as the common
    prefix followed by the new blocks, with every balance the ledger of that
    chain, as if it had been built from nothing.  The new blocks are [insertables]
    over the prefix: storable, with fresh indices, hashes and transactions,
    64-bit numbers and timestamps that a double holds; and the balances, bounded
    by [B], stay below 2^63 with the amounts of the removed and the new blocks. *)
Theorem reorganize_from_refines clock chain db k new B :
  matches chain db → indexed_from 0 chain → indexed_from 0 (take k chain ++ new) →
  insertables (take k chain) new → (∀ a, Z.abs (full_ledger a chain) ≤ B) →
  0 ≤ volume (chain_txs new) →
  B + volume (chain_txs (drop k chain)) + volume (chain_txs new) < 2 ^ 63 →
  ∃ db', reorganize_from clock (Z.of_nat k) new db = Ok db' ∧ shows (take k chain ++ new) db'.
Proof.
  intros Hm Hi Hi' Hins HB Hv Hvol.
  destruct (reorganize_ok clock chain db k new B) as (db' & ? & ?); [done..|].
  exists db'. split; [done|]. by apply matches_shows.
Qed.

Lemma insert_txs_fresh i txs (t t' : T TxRow) tx :
  insert_txs i txs t = Ok t' → tx ∈ txs → Transaction.tx_hash tx ∉ tr_tx_hash <$> rows t.
Proof.
  revert t; induction txs as [|tx' txs IH]; intros t; [by intros _ ?%elem_of_nil|].
  cbn [insert_txs]. unfold insert_row. destruct (tbl_insert _ t) as [t1|] eqn:Hins; [|done].
  cbn [mbind res_bind]. intros Hrest [->|Hin]%elem_of_cons.
  - intros (r & Hr & Hin)%list_elem_of_fmap.
    assert (Hn : tbl_insert (tx_row i tx') t = None); [|congruence].
    apply insert_none. right. exists r. split; [done|]. cbn. by apply String.eqb_eq.
  - apply insert_some in Hins. pose proof (IH _ Hrest Hin) as Hf. rewrite Hins in Hf.
    rewrite fmap_cons in Hf. set_solver.
Qed.

(** A transaction is stored at most once: saving a block that confirms
    again a transaction the chain already holds fails with [StorageError],
    although the validators accept such a block. *)
Theorem save_block_repeated chain db b tx :
  matches chain db → tx ∈ Block.transactions b →
  Transaction.tx_hash tx ∈ Transaction.tx_hash <$> chain_txs chain →
  save_block b db = Err (StorageError ("Failed to save block " +:+ str_Z (Block.index b))).
Proof.
  intros Hm Htx Hh. unfold save_block, storage_error.
  destruct (transactions_json b) as [j|]; [|done]. cbn [mbind res_bind].
  destruct (insert_row _ _) as [bl|]; [|done]. cbn [mbind res_bind].
  destruct (insert_txs _ _ _) as [t'|] eqn:Hins; [|done]. exfalso.
  apply (insert_txs_fresh _ _ _ _ tx Hins Htx). rewrite (m_txs _ _ Hm). by rewrite tx_row_hashes.
Qed.

(** The row of a block that was saved is the only one of its index. *)
Lemma saved_block_read clock b db db' :
  Block.storable b → reads_back b → save_block b db = Ok db' →
  get_block clock (Block.index b) db' = Ok (Some (with_time (stored_time b) b)).
Proof.
  intros Hst Hr. unfold save_block, storage_error. rewrite (proj1 (transactions_json_Ok b Hst)).
  cbn [mbind res_bind]. unfold insert_row. destruct (tbl_insert _ _) as [t|] eqn:Hins; [|done].
  cbn [mbind res_bind]. destruct (insert_txs _ _ _); [|done]. intros [= <-].
  assert (Hone : tbl_select (λ r, br_index r =? Block.index b) t = [row_of b]).
  { apply Permutation_singleton_r. rewrite select_rows, (insert_some _ _ _ Hins). unfold where_rows.
    rewrite filter_cons_True by (apply Z.eqb_refl). apply perm_skip, (reflexive_eq (R := (≡ₚ))).
    apply (where_rows_none (λ r, br_index r =? Block.index b)). intros r Hr'.
    destruct (br_index r =? Block.index b) eqn:He; [exfalso|done].
    cut (tbl_insert (block_row b (json_text b)) (blocks_table db) = None); [congruence|].
    apply insert_none. right. exists r. split; [done|]. cbn. apply Z.eqb_eq in He.
    by rewrite He, Z.eqb_refl. }
  unfold get_block. cbn [blocks_table]. rewrite Hone, block_of_row_time by done. done.
Qed.

(** C33: A stored block keeps its timestamp exactly when a double holds it: a
    block after the genesis block, which survives its dictionary and whose
    transactions' timestamps read back, has an integer timestamp, and the
    validators set no upper bound to it.  Where it has the magnitude of
    2^1024 - 2^970 or more, saving the block fails with [StorageError]; where
    saving succeeds, the database gives back the block with the nearest double
    of the timestamp (up to 2^53 the timestamp itself), hence the block itself
    if and only if its timestamp is a double. *)
Theorem stored_timestamp clock db b z :
  Block.index b ≠ 0 → Block.timestamp b = PInt z → Block.storable b → reads_back b →
  (float_limit ≤ Z.abs z →
   save_block b db = Err (StorageError ("Failed to save block " +:+ str_Z (Block.index b)))) ∧
  ∀ db', save_block b db = Ok db' →
    get_block clock (Block.index b) db' = Ok (Some (with_time (PInt (float_round z)) b)) ∧
    (get_block clock (Block.index b) db' = Ok (Some b) ↔ float_round z = z).
Proof.
  intros Hi Ht Hst Hr. split.
  - intros Hz. unfold save_block, storage_error. rewrite (proj1 (transactions_json_Ok b Hst)).
    cbn [mbind res_bind]. unfold insert_row.
    destruct (tbl_insert _ _) as [t|] eqn:Hins; [exfalso|done].
    cut (tbl_insert (block_row b (json_text b)) (blocks_table db) = None); [congruence|].
    apply insert_none. left. cbn -[float_fits]. rewrite Ht, float_fits_int.
    rewrite (proj2 (Z.ltb_ge _ _)) by done. by rewrite !andb_false_r.
  - intros db' Hsave. assert (Hget : get_block clock (Block.index b) db' =
      Ok (Some (with_time (PInt (float_round z)) b))).
    { rewrite (saved_block_read clock b db db') by done. by rewrite (stored_time_int b z). }
    split; [done|]. rewrite Hget. split.
    + intros [= Heq]. apply (f_equal Block.timestamp) in Heq. cbn in Heq. congruence.
    + intros ->. rewrite <-Ht. by destruct b.
Qed.
End promises.

(** ** Witnesses *)

#[local] Existing Instances ListSql.sql ListSql.sql_laws.

Definition sample_db (chain : list Block.t) : DB ListSql.t :=
  match append_blocks chain empty_db with Ok db => db | Err _ => empty_db end.

Lemma ledger_bound chain : amounts_nonneg (chain_txs chain) →
  ∀ a, Z.abs (full_ledger a chain) ≤ volume (chain_txs chain).
Proof.
  intros Htx a. unfold full_ledger. induction Htx as [|tx txs Ha _ IH]; [done|].
  rewrite volume_cons, fmap_cons, sum_Z_cons.
  assert (Z.abs (net a tx) ≤ Transaction.amount_base_units tx); [|lia].
  unfold net. repeat case_match; lia.
Qed.

Lemma sample_matches chain :
  insertables_check [] chain = true → volume (chain_txs chain) < 2 ^ 63 →
  matches chain (sample_db chain).
Proof.
  intros Hc Hv. destruct (append_blocks_ok [] empty_db chain 0) as (db & Hdb & Hm).
  - apply matches_empty.
  - by apply insertables_check_sound.
  - intros a. done.
  - lia.
  - unfold sample_db. by rewrite Hdb.
Qed.

Lemma sample_chain_matches : matches sample_chain (sample_db sample_chain).
Proof. apply sample_matches; vm_compute; reflexivity. Qed.

Lemma sample_chain_bound a : Z.abs (full_ledger a sample_chain) ≤ 10000000250.
Proof.
  etrans; [apply ledger_bound|].
  - apply (bool_decide_unpack _). vm_compute. exact I.
  - vm_compute. discriminate.
Qed.

Definition block2' : Block.t := sample_next block1 1735700040 [].

Lemma save_block_refines_witness :
  ∃ db1 db2, save_block block2 (sample_db [genesis_block; block1]) = Ok db1 ∧
    update_balances_for_block block2 db1 = (db2, Ok tt) ∧
    shows ([genesis_block; block1] ++ [block2]) db2.
Proof.
  apply (save_block_refines _ _ _ (volume (chain_txs [genesis_block; block1]))).
  - apply sample_matches; vm_compute; reflexivity.
  - vm_compute. auto.
  - apply insertable_check_sound. vm_compute. reflexivity.
  - apply ledger_bound. apply (bool_decide_unpack _). vm_compute. exact I.
  - vm_compute. reflexivity.
Defined.

Lemma reorganize_from_refines_witness :
  ∃ db', reorganize_from 0 2 [block2'] (sample_db sample_chain) = Ok db' ∧
    shows (take 2 sample_chain ++ [block2']) db'.
Proof.
  apply (reorganize_from_refines 0 sample_chain _ 2 [block2'] 10000000250).
  - apply sample_chain_matches.
  - vm_compute. auto.
  - vm_compute. auto.
  - apply insertables_check_sound. vm_compute. reflexivity.
  - apply sample_chain_bound.
  - vm_compute. discriminate.
  - vm_compute. reflexivity.
Defined.

(** The first integer that is no double. *)
Definition late_block : Block.t := Eval vm_compute in sample_next block2 (2 ^ 53 + 1) [].
#[global] Opaque late_block.

Lemma stored_timestamp_witness :
  ∃ db', save_block late_block (sample_db sample_chain) = Ok db' ∧
    get_block 0 3 db' = Ok (Some (with_time (PInt (2 ^ 53)) late_block)) ∧
    get_block 0 3 db' ≠ Ok (Some late_block).
Proof.
  destruct (save_block late_block (sample_db sample_chain)) as [db'|e] eqn:Hs.
  2: { exfalso. assert (Hok : is_ok (save_block late_block (sample_db sample_chain)) = true) by (vm_compute; reflexivity).
       rewrite Hs in Hok. discriminate. }
  exists db'. split; [reflexivity|].
  destruct (stored_timestamp 0 (sample_db sample_chain) late_block (2 ^ 53 + 1)) as [_ Hread].
  - vm_compute. discriminate.
  - vm_compute. reflexivity.
  - apply storable_check_sound. vm_compute. reflexivity.
  - apply (bool_decide_unpack _). vm_compute. exact I.
  - destruct (Hread db' Hs) as [Hget Hiff]. split; [exact Hget|].
    intros Heq. apply Hiff in Heq. vm_compute in Heq. discriminate.
Defined.

Lemma save_block_repeated_witness :
  save_block block3 (sample_db sample_chain) =
  Err (StorageError ("Failed to save block " +:+ str_Z (Block.index block3))).
Proof.
  apply (save_block_repeated sample_chain _ _ Transaction.toy_transfer).
  - apply sample_chain_matches.
  - apply (bool_decide_unpack _). vm_compute. exact I.
  - apply (bool_decide_unpack _). vm_compute. exact I.
Defined.
