(* ===== verification/Mining.v ===== *)
(** * blockchain/mining.py: assembling and mining a block *)
From Stdlib Require Import Ascii.
From stdpp Require Import options.
From S2P Require Import Prelude PyText Json Utils NativeAsset Wallet Transaction Block Consensus.
From S2P Require Import Mempool.

Local Open Scope Z_scope.

Definition MAX_TRANSACTIONS_PER_BLOCK : Z := 500.

Record Miner := { miner_consensus : ConsensusEngine; miner_block_reward : Z }.

(** The mined block and the hashes of the pool's transactions in it. *)
Definition mine_block (miner : Miner) (clock : Z) (index : Z) (previous_hash : string)
    (mempool : Mempool.t) (miner_address : string) (difficulty max_transactions : Z)
    (block_reward : option Z) (timestamp : option pynum) : res (Block.t * list string) :=
  let selected := Mempool.get_pending (Some max_transactions) mempool in
  let reward := default (miner_block_reward miner) block_reward in
  let mine_timestamp := default (current_timestamp clock) timestamp in
  coinbase_tx ← Transaction.init clock COINBASE_SENDER miner_address None
                  (Some (JNum (PInt reward))) (Some mine_timestamp) None None "";
  let block := Block.init index previous_hash (coinbase_tx :: selected) mine_timestamp 0 0 "" "" in
  mined_block ← mine (miner_consensus miner) block difficulty;
  Ok (mined_block, Transaction.tx_hash <$> selected).

(** The coinbase the miner puts in front. *)
Definition coinbase_for (miner_address : string) (reward : Z) (ts : pynum) : Transaction.t :=
  let tx := Transaction.Make COINBASE_SENDER miner_address reward ts None None "" in
  Transaction.set_tx_hash (Transaction.compute_hash tx) tx.

Lemma mine_block_Ok miner clock index prev pool addr d n reward ts b hs `{ConsensusLaws (miner_consensus miner)} :
  mine_block miner clock index prev pool addr d n (Some reward) (Some ts) = Ok (b, hs) →
  Block.index b = index ∧ Block.previous_hash b = prev ∧ Block.timestamp b = ts ∧
  Block.transactions b = coinbase_for addr reward ts :: Mempool.get_pending (Some n) pool ∧
  Block.sealed b ∧ Block.difficulty b = d ∧ validate (miner_consensus miner) b d = true ∧
  hs = Transaction.tx_hash <$> Mempool.get_pending (Some n) pool.
Proof.
  unfold mine_block. cbn [default from_option id Transaction.init mbind res_bind].
  intros (b' & Hm & Heq)%res_bind_Ok. injection Heq as -> <-.
  pose proof (mine_validates _ _ _ Hm) as Hv.
  apply mine_keeps_body in Hm as ((Hi & Hp & Htx & Ht) & Hs & Hd).
  assert (Hinit : ∀ b, Block.index (Block.post_init b) = Block.index b ∧
    Block.previous_hash (Block.post_init b) = Block.previous_hash b ∧
    Block.transactions (Block.post_init b) = Block.transactions b ∧
    Block.timestamp (Block.post_init b) = Block.timestamp b).
  { intros c. unfold Block.post_init. by repeat case_match. }
  unfold Block.init in *.
  match type of Hi with Block.index (Block.post_init ?c) = _ => destruct (Hinit c) as (E1 & E2 & E3 & E4) end.
  rewrite E1 in Hi. rewrite E2 in Hp. rewrite E3 in Htx. rewrite E4 in Ht. cbn in Hi, Hp, Htx, Ht.
  split_and!; try done.
Qed.
