(* ===== verification/Blockchain.v ===== *)
(** * blockchain/blockchain.py: the node facade

    A [node] is what [Blockchain] mutates: the chain in memory, the pool and
    the database.  An operation returns the new node and its result, so that
    what was mutated before an exception stays mutated.  Mining is the two
    halves the code has: [mine_prepare] outside the lock, [mine_commit] inside
    it; every interleaving of other operations between the two is a path of
    [step]. *)
From Stdlib Require Import Ascii.
From stdpp Require Import options.
From S2P Require Import Prelude PyText Json Utils NativeAsset Wallet Transaction Block Consensus.
From S2P Require Import Mempool Settings Samples Validators Sql Storage StorageFacts Mining.

Local Open Scope Z_scope.

Section blockchain.
Context `{E : ECDSA} {T : Type → Type} `{Sql T}.
Context (settings : Settings) (consensus : ConsensusEngine).

Record node := {
  chain : list Block.t;
  mempool : Mempool.t;
  storage : DB T;
}.

Definition config : ConsensusConfig := consensus_settings settings.
Definition reward : Z := block_reward (mining_settings settings).
Definition max_supply : Z := max_supply_base_units (asset_settings settings).

Definition set_chain (c : list Block.t) (st : node) : node :=
  {| chain := c; mempool := mempool st; storage := storage st |}.
Definition set_mempool (m : Mempool.t) (st : node) : node :=
  {| chain := chain st; mempool := m; storage := storage st |}.
Definition set_storage (db : DB T) (st : node) : node :=
  {| chain := chain st; mempool := mempool st; storage := db |}.

(** ** Initialization *)

Definition create_and_persist_genesis_block (db : DB T) : res node :=
  let cfg := genesis_settings settings in
  genesis_block ← Block.genesis (genesis_previous_hash cfg) (genesis_timestamp cfg)
                    (genesis_nonce cfg) (genesis_message cfg);
  db ← save_block genesis_block db;
  let '(db, r) := update_balances_for_block genesis_block db in
  _ ← r;
  Ok {| chain := [genesis_block]; mempool := Mempool.init; storage := db |}.

(** [Blockchain(settings)] over an opened database. *)
Definition init (clock : Z) (db : DB T) : res node :=
  chain ← load_chain clock db;
  match chain with
  | [] => create_and_persist_genesis_block db
  | _ => Ok {| chain := chain; mempool := Mempool.init; storage := db |}
  end.

(** ** Chain accessors *)

Definition latest_block (st : node) : res Block.t :=
  match last (chain st) with Some b => Ok b | None => Err (Untyped "list index out of range") end.

Definition genesis_block (st : node) : res Block.t :=
  match chain st with b :: _ => Ok b | [] => Err (Untyped "list index out of range") end.

Definition chain_len (st : node) : Z := Z.of_nat (length (chain st)).

Definition total_work (st : node) : Z := chain_work (chain st).

Definition get_block_at (index : Z) (st : node) : option Block.t :=
  if (0 <=? index) && (index <? chain_len st) then chain st !! Z.to_nat index else None.

Definition current_difficulty (st : node) : res Z :=
  let window := difficulty_adjustment_interval config in
  let recent := if window <=? chain_len st then slice_last window (chain st) else chain st in
  next_difficulty consensus recent (difficulty config) (target_block_time_seconds config)
    (min_difficulty config) (max_difficulty config) (max_difficulty_adjustment_factor config).

(** ** Transactions *)

Definition node_balance (address : string) (st : node) : Z := get_balance address (storage st).

Definition get_balance_syj (address : string) (st : node) : res Dec.t :=
  from_base_units (node_balance address st).

Definition submit_transaction (transaction : Transaction.t) (st : node) : node * verdict :=
  let '(is_valid, reason) := validate_transaction transaction in
  if negb is_valid then (st, (false, reason))
  else
    let sender := Transaction.sender transaction in
    let amount := Transaction.amount transaction in
    let balance := node_balance sender st in
    let already_pending := Mempool.pending_spend_for sender (mempool st) in
    if negb (Transaction.is_coinbase transaction) && (balance <? already_pending + amount) then
      (st, reject ("Insufficient balance: address " +:+ sender +:+ " has " +:+ str_Z balance +:+
                   " confirmed, " +:+ str_Z already_pending +:+
                   " already pending in the mempool, and this transaction needs " +:+
                   str_Z amount +:+ "."))
    else
      let '(pool, added) := Mempool.add_transaction transaction (mempool st) in
      if negb added
      then (set_mempool pool st, reject "Transaction rejected by mempool (duplicate or invalid).")
      else (set_mempool pool st, accept).

Definition total_supply_base_units (st : node) : Z :=
  sum_Z ((λ b, sum_Z (Transaction.amount_base_units <$> coinbases b)) <$> chain st).

Definition get_pending_transactions (st : node) : list Transaction.t :=
  Mempool.get_pending None (mempool st).

(** ** Mining *)

(** Everything before the lock: the mined block and the pool hashes in it. *)
Definition mine_prepare (clock : Z) (miner_address : string) (st : node)
    : res (Block.t * list string) :=
  difficulty ← current_difficulty st;
  let remaining_supply := max_supply - total_supply_base_units st in
  if remaining_supply <=? 0 then
    Err (ValidationError "Maximum SYJ supply has been reached; mining issuance is exhausted.")
  else
    tip ← latest_block st;
    mine_block {| miner_consensus := consensus; miner_block_reward := reward |} clock
      (Block.index tip + 1) (Block.hash tip) (mempool st) miner_address difficulty
      MAX_TRANSACTIONS_PER_BLOCK (Some (Z.min reward remaining_supply))
      (Some (num_max (current_timestamp clock) (PInt (num_int (Block.timestamp tip) + 1)))).

(** Under the lock: re-validation against the current chain, then the
    mutations one after the other. *)
Definition mine_commit (mined : Block.t * list string) (st : node) : node * res Block.t :=
  let '(new_block, included_hashes) := mined in
  match validate_block_against_chain new_block (chain st) consensus config reward max_supply with
  | Err e => (st, Err e)
  | Ok (is_valid, reason) =>
      if negb is_valid
      then (st, Err (ValidationError ("Newly mined block failed validation: " +:+ reason)))
      else
        let st := set_chain (chain st ++ [new_block]) st in
        match save_block new_block (storage st) with
        | Err e => (st, Err e)
        | Ok db =>
            let '(db, r) := update_balances_for_block new_block db in
            let st := set_storage db st in
            match r with
            | Err e => (st, Err e)
            | Ok _ =>
                (set_mempool (Mempool.remove_transactions included_hashes (mempool st)) st,
                 Ok new_block)
            end
        end
  end.

Definition mine_pending_transactions (clock : Z) (miner_address : string) (st : node)
    : node * res Block.t :=
  match mine_prepare clock miner_address st with
  | Err e => (st, Err e)
  | Ok mined => mine_commit mined st
  end.

(** ** Validation and replacement *)

Definition is_chain_valid (st : node) : res verdict :=
  validate_chain (chain st) consensus config reward max_supply.

(** The loop over [range(shared_length)]. *)
Fixpoint find_fork_index (local candidate : list Block.t) : nat :=
  match local, candidate with
  | b :: local, c :: candidate =>
      if negb (String.eqb (Block.hash b) (Block.hash c)) then 0
      else S (find_fork_index local candidate)
  | _, _ => 0
  end.

Definition replace_chain (clock : Z) (candidate_chain : list Block.t) (st : node)
    : node * res verdict :=
  match genesis_block st with
  | Err e => (st, Err e)
  | Ok local_genesis =>
      let '(genesis_ok, reason) := validate_genesis_identity candidate_chain local_genesis in
      if negb genesis_ok then (st, Ok (false, reason))
      else
        let candidate_work := chain_work candidate_chain in
        let local_work := total_work st in
        if candidate_work <=? local_work then
          (st, Ok (reject ("Candidate chain work (" +:+ str_Z candidate_work +:+
             ") does not exceed local chain work (" +:+ str_Z local_work +:+ ").")))
        else
          match validate_chain candidate_chain consensus config reward max_supply with
          | Err e => (st, Err e)
          | Ok (is_valid, reason) =>
              if negb is_valid then (st, Ok (reject ("Candidate chain invalid: " +:+ reason)))
              else
                let fork_index := find_fork_index (chain st) candidate_chain in
                let new_blocks := drop fork_index candidate_chain in
                match reorganize_from clock (Z.of_nat fork_index) new_blocks (storage st) with
                | Err e => (st, Err e)
                | Ok db =>
                    let st := set_chain candidate_chain (set_storage db st) in
                    let confirmed_hashes := Transaction.tx_hash <$> chain_txs new_blocks in
                    (set_mempool (Mempool.remove_transactions confirmed_hashes (mempool st)) st,
                     Ok accept)
                end
          end
  end.

Definition status (st : node) : res py_dict :=
  tip ← latest_block st;
  d ← current_difficulty st;
  Ok [("network_name", JStr (network_name (network_settings settings)));
      ("chain_length", JNum (PInt (chain_len st)));
      ("latest_block_hash", JStr (Block.hash tip));
      ("difficulty", JNum (PInt d));
      ("pending_transactions", JNum (PInt (Mempool.size (mempool st))));
      ("consensus_algorithm", JStr (algorithm config))].

(** ** Steps of a node: the critical sections, in any order

    A mining step commits any block with any hash list: one that was prepared
    on an older state, or one that a peer sent. *)
Inductive step : node → node → Prop :=
  | step_submit tx st : step st (submit_transaction tx st).1
  | step_commit mined st : step st (mine_commit mined st).1
  | step_replace clock candidate st : step st (replace_chain clock candidate st).1.
End blockchain.
Arguments node T : clear implicits.
