(* ===== verification/BlockchainFacts.v ===== *)
(** * What the node facade guarantees

    The chain in memory is always valid and its work never decreases, whatever
    the interleaving; replacement adopts only heavier valid chains of the same
    network and keeps the database in step; the pool never commits more than a
    confirmed balance; mining succeeds when the pool can be applied.  The last
    section has the behaviours that go wrong. *)
From Stdlib Require Import Ascii.
From stdpp Require Import options.
From S2P Require Import Prelude PyText Json Utils NativeAsset Wallet Transaction Block Consensus.
From S2P Require Import Mempool Settings Samples Validators Sql Storage StorageFacts Mining Blockchain.

Local Open Scope Z_scope.
#[local] Set Default Proof Using "Type*".

(** ** Work *)

Lemma chain_work_snoc c b : chain_work (c ++ [b]) = chain_work c + 16 ^ Z.max (Block.difficulty b) 0.
Proof. unfold chain_work. rewrite fmap_app, sum_Z_app. cbn. lia. Qed.

Lemma work_pos b : 0 < 16 ^ Z.max (Block.difficulty b) 0.
Proof. apply Z.pow_pos_nonneg; lia. Qed.

(** The genesis block moves no coins. *)
Lemma full_ledger_ledger a c :
  Forall (λ b, Block.index b = 0 → Forall (λ tx, Transaction.amount_base_units tx = 0) (Block.transactions b)) c →
  full_ledger a c = ledger a c.
Proof.
  induction 1 as [|b c Hb _ IH]; [done|]. rewrite ledger_cons, <-IH.
  change (b :: c) with ([b] ++ c). rewrite full_ledger_app, full_ledger_one. f_equal.
  unfold net_block. destruct (Z.eqb_spec (Block.index b) 0) as [Hi|]; [|done].
  specialize (Hb Hi). clear -Hb. induction Hb as [|tx txs Htx _ IHt]; [done|]. rewrite fmap_cons, sum_Z_cons, IHt.
  unfold net. rewrite Htx. repeat case_match; lia.
Qed.

Section facts.
Context `{E : ECDSA} {T : Type → Type} {SQL : Sql T}.
Context (settings : Settings) (consensus : ConsensusEngine).
Implicit Types (st : node T).

Abbreviation valid_chain c :=
  (validate_chain c consensus (config settings) (reward settings) (max_supply settings) = Ok accept).
Abbreviation step := (step settings consensus).

(** ** The chain in memory *)

(** A commit leaves the chain alone or extends it by an accepted block. *)
Lemma mine_commit_chain b hs st :
  chain (mine_commit settings consensus (b, hs) st).1 = chain st ∨
  (chain (mine_commit settings consensus (b, hs) st).1 = chain st ++ [b] ∧
   validate_block_against_chain b (chain st) consensus (config settings) (reward settings)
     (max_supply settings) = Ok accept).
Proof.
  unfold mine_commit.
  destruct (validate_block_against_chain _ _ _ _ _ _) as [[[] r]|] eqn:Hv; [|by left..].
  apply block_verdict_true in Hv as Hr. subst r. right. split; [|done]. cbn [negb].
  destruct (save_block _ _) as [db|]; [|done].
  destruct (update_balances_for_block b db) as [db' [[]|]]; done.
Qed.

(** The outcomes of a replacement. *)
Lemma replace_chain_cases clock candidate st :
  let r := replace_chain settings consensus clock candidate st in
  r.1 = st ∧ r.2 ≠ Ok accept ∨
  r.2 = Ok accept ∧ chain r.1 = candidate ∧ valid_chain candidate ∧
  chain_work (chain st) < chain_work candidate ∧
  (∃ g g', head (chain st) = Some g ∧ head candidate = Some g' ∧ Block.hash g' = Block.hash g) ∧
  ∃ db, let k := find_fork_index (chain st) candidate in
    reorganize_from clock (Z.of_nat k) (drop k candidate) (storage st) = Ok db ∧
    r.1 = {| chain := candidate;
             mempool := Mempool.remove_transactions
               (Transaction.tx_hash <$> chain_txs (drop k candidate)) (mempool st);
             storage := db |}.
Proof.
  cbv zeta. unfold replace_chain, genesis_block. destruct (chain st) as [|g c] eqn:Hc; [by left|].
  destruct candidate as [|g' cand]; [by left|]. cbn [validate_genesis_identity].
  destruct (String.eqb_spec (Block.hash g') (Block.hash g)); [|by left]. cbn [negb].
  unfold total_work. rewrite Hc.
  destruct (Z.leb_spec (chain_work (g' :: cand)) (chain_work (g :: c))); [by left|].
  destruct (validate_chain _ _ _ _ _) as [[[] r]|] eqn:Hv; cbn [negb];
    [|left; split; [done|]; intros [=]|by left].
  destruct (reorganize_from _ _ _ _) as [db|] eqn:Hr; [right|by left].
  apply validate_chain_true in Hv as Hr'. subst r.
  split_and!; try done.
  - by exists g, g'.
  - by exists db.
Qed.

(** A refusal gives its reason. *)
Lemma replace_chain_true clock candidate st reason :
  (replace_chain settings consensus clock candidate st).2 = Ok (true, reason) → reason = "".
Proof.
  unfold replace_chain. destruct (genesis_block st); [|done].
  destruct (validate_genesis_identity _ _) as [[] r]; cbn [negb]; [|done]. case_match; [done|].
  destruct (validate_chain _ _ _ _ _) as [[[] r']|]; cbn [negb]; [|done..].
  destruct (reorganize_from _ _ _ _); [|done]. by intros [= <-].
Qed.

Lemma step_chain st st' :
  step st st' →
  chain st' = chain st ∨
  (∃ b, chain st' = chain st ++ [b] ∧
     validate_block_against_chain b (chain st) consensus (config settings) (reward settings)
       (max_supply settings) = Ok accept) ∨
  (valid_chain (chain st') ∧ chain_work (chain st) < chain_work (chain st') ∧
   ∃ g g', head (chain st) = Some g ∧ head (chain st') = Some g' ∧ Block.hash g' = Block.hash g).
Proof.
  intros [tx|[b hs] |clock candidate].
  - left. unfold submit_transaction. repeat case_match; done.
  - destruct (mine_commit_chain b hs st0) as [?|[? ?]]; [by left|right; left; eauto].
  - destruct (replace_chain_cases clock candidate st0) as [[-> _]|(_ & Hc & Hv & Hw & Hg & _)];
      [by left|]. right; right. rewrite Hc. eauto.
Qed.

Definition head_hash st : option string := Block.hash <$> head (chain st).

Lemma step_valid st st' :
  step st st' → chain st ≠ [] → valid_chain (chain st) →
  chain st' ≠ [] ∧ valid_chain (chain st') ∧ head_hash st' = head_hash st ∧
  (chain st' = chain st ∨ chain_work (chain st) < chain_work (chain st')).
Proof.
  intros Hs Hne Hv. unfold head_hash.
  destruct (step_chain _ _ Hs) as [->|[(b & -> & Hb)|(Hv' & Hw & g & g' & Hg & Hg' & Hh)]].
  - eauto.
  - split_and!; [by destruct (chain st)| |by destruct (chain st)|].
    + apply validate_chain_spec in Hv. apply validate_chain_spec. by apply accepted_iff.
    + right. rewrite chain_work_snoc. pose proof (work_pos b). lia.
  - split_and!; [by destruct (chain st')|done|by rewrite Hg, Hg'; cbn; rewrite Hh|by right].
Qed.

Lemma steps_valid st st' :
  rtc step st st' → chain st ≠ [] → valid_chain (chain st) →
  valid_chain (chain st') ∧ head_hash st' = head_hash st ∧
  (chain st' = chain st ∨ chain_work (chain st) < chain_work (chain st')).
Proof.
  induction 1 as [st|st1 st2 st3 Hs _ IH]; intros Hne Hv; [auto|].
  destruct (step_valid _ _ Hs Hne Hv) as (Hne2 & Hv2 & Hh2 & Hw2).
  destruct (IH Hne2 Hv2) as (Hv3 & Hh3 & Hw3). split_and!; [done|congruence|].
  destruct Hw2 as [<-|], Hw3 as [->|]; auto. right. lia.
Qed.

(** C1: The chain in memory stays valid under every interleaving: from a node
    with a valid chain, any sequence of submissions, commits of mined or
    received blocks (prepared on whatever earlier state) and replacements
    leads to a node whose chain validates from genesis to tip, has the same
    genesis hash, and has no less work; a chain that changed has more. *)
Theorem chain_always_valid st st' :
  rtc step st st' → chain st ≠ [] → valid_chain (chain st) →
  valid_chain (chain st') ∧ head_hash st' = head_hash st ∧
  (chain st' = chain st ∨ chain_work (chain st) < chain_work (chain st')).
Proof. apply steps_valid. Qed.

(** ** The pool *)

Lemma step_pool st st' : step st st' → Mempool.wf (mempool st) → Mempool.wf (mempool st').
Proof.
  intros [tx|[b hs] |clock candidate] Hwf.
  - unfold submit_transaction. repeat case_match; try done; cbn;
      pose proof (Mempool.pool_wf_add tx _ Hwf) as Hadd; simplify_eq;
      by match goal with H : Mempool.add_transaction _ _ = _ |- _ => rewrite H in Hadd end.
  - unfold mine_commit. repeat case_match; simplify_eq; try done; cbn; by apply Mempool.wf_remove.
  - destruct (replace_chain_cases clock candidate st0) as [[-> _]|(_ & _ & _ & _ & _ & db & _ & ->)];
      [done|]. by apply Mempool.wf_remove.
Qed.

(** Everything pending is paid for. *)
Definition covered st : Prop :=
  ∀ a, a ≠ COINBASE_SENDER →
    Mempool.pending_spend_for a (mempool st) ≤ node_balance a st.

Definition submit_all (txs : list Transaction.t) st : node T :=
  foldl (λ st tx, (submit_transaction tx st).1) st txs.

Lemma submit_covered tx st :
  covered st → covered (submit_transaction tx st).1 ∧
  storage (submit_transaction tx st).1 = storage st.
Proof.
  intros Hc. unfold submit_transaction.
  destruct (validate_transaction tx) as [[] r]; cbn [negb]; [|done].
  destruct (negb (Transaction.is_coinbase tx) && _) eqn:Hb; [done|].
  destruct (Mempool.add_transaction tx (mempool st)) as [pool []] eqn:Ha; cbn [negb]; cbn.
  - split; [|done]. intros a Hne. unfold node_balance. cbn [fst set_mempool mempool storage].
    rewrite (Mempool.pending_spend_add _ _ _ a Ha). pose proof (Hc a Hne) as Hca.
    unfold node_balance in Hca. case_decide as Hs; [|lia]. subst a.
    unfold Transaction.is_coinbase in Hb. rewrite (proj2 (String.eqb_neq _ _) Hne) in Hb.
    cbn in Hb. unfold node_balance in Hb. lia.
  - split; [|done]. unfold Mempool.add_transaction in Ha. repeat case_match; simplify_eq; done.
Qed.

(** C3: No overspending through the pool: starting from a node whose pending
    spends are covered (an empty pool in particular), after any sequence of
    submissions the transfers pending from any one address still sum to at
    most its confirmed balance, whatever was accepted or refused. *)
Theorem submissions_never_overspend txs st a :
  covered st → a ≠ COINBASE_SENDER →
  Mempool.pending_spend_for a (mempool (submit_all txs st)) ≤ node_balance a st.
Proof.
  revert st; induction txs as [|tx txs IH]; intros st Hc Ha; [by apply Hc|].
  destruct (submit_covered tx st Hc) as [Hc' Hs].
  change (submit_all (tx :: txs) st) with (submit_all txs (submit_transaction tx st).1).
  etrans; [by apply IH|]. unfold node_balance. by rewrite Hs.
Qed.

(** ** Replacement *)

(** C19: Replacement is all or nothing: either it is refused or raises, and the
    node is untouched, or it is accepted, and then the new chain is the
    candidate, which validates, starts at a block with the local genesis hash,
    and has strictly more accumulated work than the chain it replaces. *)
Theorem replace_chain_safe clock candidate st :
  let r := replace_chain settings consensus clock candidate st in
  (r.2 ≠ Ok accept ∧ r.1 = st) ∨
  (r.2 = Ok accept ∧ chain r.1 = candidate ∧ valid_chain candidate ∧
   chain_work (chain st) < chain_work candidate ∧ head_hash r.1 = head_hash st).
Proof.
  cbv zeta.
  destruct (replace_chain_cases clock candidate st) as [[? ?]|(? & Hc & ? & ? & (g & g' & Hg & Hg' & Hh) & _)].
  - by left.
  - right. split_and!; [done..|]. unfold head_hash. rewrite Hc, Hg, Hg'. cbn. by rewrite Hh.
Qed.

(** From here on the database keeps its promises. *)
Context {L : SqlLaws T}.

(** What adoption needs, with [B] a bound on the balances so far and [k] the
    place where the chains part. *)
Record adoptable candidate st (B : Z) (k : nat) : Prop := {
  ad_fork : k = find_fork_index (chain st) candidate;
  ad_valid : valid_chain candidate;
  ad_work : chain_work (chain st) < chain_work candidate;
  ad_genesis : ∃ g g', head (chain st) = Some g ∧ head candidate = Some g' ∧ Block.hash g' = Block.hash g;
  ad_matches : matches (chain st) (storage st);
  ad_indexed : indexed_from 0 (chain st);
  ad_reindexed : indexed_from 0 (take k (chain st) ++ drop k candidate);
  ad_fresh : insertables (take k (chain st)) (drop k candidate);
  ad_balances : ∀ a, Z.abs (full_ledger a (chain st)) ≤ B;
  ad_volume : 0 ≤ volume (chain_txs (drop k candidate));
  ad_range : B + volume (chain_txs (drop k (chain st))) + volume (chain_txs (drop k candidate)) < 2 ^ 63;
  ad_pool : NoDup (mempool st).*1;
}.

Lemma adoptable_accepted clock candidate st B k :
  adoptable candidate st B k →
  ∃ st', replace_chain settings consensus clock candidate st = (st', Ok accept) ∧
    chain st' = candidate ∧ shows (take k (chain st) ++ drop k candidate) (storage st') ∧
    ∀ h, h ∈ Transaction.tx_hash <$> chain_txs (drop k candidate) →
         Mempool.get_transaction h (mempool st') = None.
Proof.
  intros [-> Hv Hw (g & g' & Hg & Hg' & Hh) Hm Hi Hi' Hins HB Hvol Hsum Hnd].
  set (k := find_fork_index (chain st) candidate) in *.
  destruct (reorganize_ok clock (chain st) (storage st) k (drop k candidate) B)
    as (db & Hdb & Hdbm); [done..|].
  assert (Hr : replace_chain settings consensus clock candidate st =
    ({| chain := candidate;
        mempool := Mempool.remove_transactions
          (Transaction.tx_hash <$> chain_txs (drop k candidate)) (mempool st);
        storage := db |}, Ok accept)).
  { unfold replace_chain, genesis_block. destruct (chain st) as [|g0 c] eqn:Hc; [done|].
    destruct candidate as [|g1 cand] eqn:Hcand; [done|]. injection Hg as ->. injection Hg' as ->.
    cbn [validate_genesis_identity]. rewrite Hh, String.eqb_refl. cbn [negb].
    unfold total_work. rewrite Hc, (proj2 (Z.leb_gt _ _) Hw), Hv. cbn [negb]. fold k.
    by rewrite Hdb. }
  rewrite Hr. eexists; split; [done|]. cbn [chain storage mempool].
  split_and!; [done|by apply matches_shows|].
  intros h Hh'.
  unfold Mempool.get_transaction. rewrite Mempool.remove_filter by done.
  apply dict_get_None. intros (kv & -> & [Hk _]%list_elem_of_filter)%list_elem_of_fmap. done.
Qed.

(** C4: A heavier chain is adopted, in memory, on disk and in the pool: a valid
    candidate of the same genesis hash with more work than the local chain is
    accepted, when the database holds the local chain ([matches]), both chains
    are numbered from zero, no hash is in the pool twice, and the new blocks are
    [insertables] over the blocks before the fork: their indices, hashes and
    transactions have fresh keys, their numbers fit 64 bits, and their
    timestamps are integers that a double holds (all up to 2^53 are); [B]
    bounds the balances, and with the amounts of the blocks given up and gained
    stays below 2^63.  Afterwards memory holds the candidate; the database
    loads as the local blocks before the fork, whose rows it keeps, followed by
    the candidate's blocks from the fork on, with the balances of that chain,
    and so as the candidate where the two agree before the fork in more than
    their hashes; and none of the transactions that the new blocks confirm is
    pending. *)
Theorem replace_chain_accepts clock candidate st B k :
  k = find_fork_index (chain st) candidate →
  valid_chain candidate → chain_work (chain st) < chain_work candidate →
  (∃ g g', head (chain st) = Some g ∧ head candidate = Some g' ∧ Block.hash g' = Block.hash g) →
  matches (chain st) (storage st) → indexed_from 0 (chain st) →
  indexed_from 0 (take k (chain st) ++ drop k candidate) →
  insertables (take k (chain st)) (drop k candidate) →
  (∀ a, Z.abs (full_ledger a (chain st)) ≤ B) → 0 ≤ volume (chain_txs (drop k candidate)) →
  B + volume (chain_txs (drop k (chain st))) + volume (chain_txs (drop k candidate)) < 2 ^ 63 →
  NoDup (mempool st).*1 →
  ∃ st', replace_chain settings consensus clock candidate st = (st', Ok accept) ∧
    chain st' = candidate ∧ shows (take k (chain st) ++ drop k candidate) (storage st') ∧
    (take k (chain st) = take k candidate → shows candidate (storage st')) ∧
    ∀ h, h ∈ Transaction.tx_hash <$> chain_txs (drop k candidate) →
         Mempool.get_transaction h (mempool st') = None.
Proof.
  intros. destruct (adoptable_accepted clock candidate st B k) as (st' & ? & ? & Hshows & ?); [done|].
  exists st'. split_and!; [done..| |done]. by apply shows_shared.
Qed.

(** ** Mining *)

Lemma total_supply_replays c bal total :
  replays (reward settings) (max_supply settings) c bal total →
  Forall (λ b, Block.index b = 0 → coinbases b = []) c →
  sum_Z ((λ b, sum_Z (Transaction.amount_base_units <$> coinbases b)) <$> c) = total.
Proof.
  intros Hr Hg. revert bal total Hr. induction c as [|b c IH] using rev_ind; intros bal total Hr.
  { by injection Hr as _ <-. }
  apply Forall_app in Hg as [Hg Hb]. apply replays_snoc in Hr as (bal0 & t0 & Hr & Hab).
  rewrite fmap_app, sum_Z_app, (IH Hg _ _ Hr). cbn [fmap list_fmap]. rewrite sum_Z_cons, sum_Z_nil.
  pose proof (proj1 (Forall_singleton _ _) Hb) as Hb'. cbn beta in Hb'.
  destruct (decide (Block.index b = 0)) as [Hi|Hi].
  - rewrite Hb' by done. unfold apply_block in Hab. rewrite Hi in Hab. injection Hab as _ <-.
    cbn. lia.
  - apply apply_block_issue in Hab as (cb & -> & Ha & _ & _ & ->); [|done].
    cbn. rewrite Ha. lia.
Qed.

Lemma coinbase_for_valid addr amount ts :
  is_valid_address addr = true → 0 < amount ≤ MAX_SUPPLY_BASE_UNITS →
  validate_transaction (coinbase_for addr amount ts) = accept.
Proof.
  intros Haddr Ha. apply validate_transaction_spec. split; [|by left].
  apply Transaction.verify_spec. split_and!; [cbn; lia|cbn; lia|done| |done].
  by apply Transaction.compute_hash_proper.
Qed.

Lemma selected_coinbases addr amount ts selected :
  Forall (λ tx, Transaction.is_coinbase tx = false) selected →
  filter (λ tx, Transaction.is_coinbase tx = true) (coinbase_for addr amount ts :: selected) =
  [coinbase_for addr amount ts].
Proof.
  intros Hsel. rewrite filter_cons_True by done. f_equal.
  induction Hsel as [|tx l Htx _ IH]; [done|]. rewrite filter_cons_False by congruence. done.
Qed.

Lemma apply_transactions_valid bal txs bal' :
  apply_transactions bal txs = inl bal' →
  Forall (λ tx, Transaction.is_coinbase tx = false → validate_transaction tx = accept) txs.
Proof.
  revert bal; induction txs as [|tx txs IH]; intros bal; cbn [apply_transactions]; [constructor|].
  destruct (apply_transaction bal tx) as [bal1|] eqn:Ht; [|done]. intros Hr.
  constructor; [|by eapply IH]. intros Hc.
  by apply apply_transaction_inl in Ht as [[? _]|(_ & ? & _)]; [congruence|].
Qed.

(** The pool's selection can be applied after the coinbase. *)
Definition pool_applies (addr : string) st (bal : balances) (amount : Z) : Prop :=
  let selected := Mempool.get_pending (Some MAX_TRANSACTIONS_PER_BLOCK) (mempool st) in
  Forall (λ tx, Transaction.is_coinbase tx = false) selected ∧
  ∃ bal', apply_transactions (<[addr := get0 bal addr + amount]> bal) selected = inl bal'.

Lemma mined_block_accepted `{ConsensusLaws consensus} clock addr st b hs bal total :
  valid_chain (chain st) → state_from_chain (chain st) (reward settings) (max_supply settings) = (bal, total, "") →
  Forall (λ b, Block.index b = 0 → coinbases b = []) (chain st) →
  is_valid_address addr = true → 0 < reward settings → max_supply settings ≤ MAX_SUPPLY_BASE_UNITS →
  pool_applies addr st bal (Z.min (reward settings) (max_supply settings - total)) →
  mine_prepare settings consensus clock addr st = Ok (b, hs) →
  validate_block_against_chain b (chain st) consensus (config settings) (reward settings)
    (max_supply settings) = Ok accept ∧
  ∃ ts, coinbases b = [coinbase_for addr (Z.min (reward settings) (max_supply settings - total)) ts].
Proof.
  intros Hv Hst Hg Haddr Hrew Hmax [Hsel [bal' Hbal']]. apply validate_chain_spec in Hv as Hspec.
  apply state_from_chain_ok in Hst. pose proof (replays_nonneg _ _ _ _ _ Hst) as Hnn.
  unfold mine_prepare. intros (d & Hd & Hb)%res_bind_Ok.
  unfold total_supply_base_units in Hb. rewrite (total_supply_replays _ _ _ Hst Hg) in Hb.
  destruct (Z.leb_spec (max_supply settings - total) 0); [done|].
  set (amount := Z.min _ _) in *. assert (0 < amount ≤ MAX_SUPPLY_BASE_UNITS) as Hamt by lia.
  unfold latest_block in Hb. destruct (last (chain st)) as [tip|] eqn:Htip; [|done].
  cbn [mbind res_bind] in Hb.
  apply mine_block_Ok in Hb as (Hi & Hp & Hts & Htx & Hs & Hdf & Hval & _); [|done].
  cbn [miner_consensus] in Hval.
  set (selected := Mempool.get_pending (Some MAX_TRANSACTIONS_PER_BLOCK) (mempool st)) in *.
  assert (Hcb : coinbases b = [coinbase_for addr amount (Block.timestamp b)]).
  { unfold coinbases. rewrite Htx, <-Hts. by apply selected_coinbases. }
  pose proof (tip_index _ _ (chain_spec_index _ _ _ _ _ Hspec) Htip) as Htip0.
  split; [|by eexists].
  apply block_accepted_iff; [by eapply chain_spec_index|]. exists tip. split; try done.
  - rewrite Hts, num_val_max. pose proof (num_int_succ (Block.timestamp tip)). cbn [num_val] in *. lia.
  - by rewrite Hdf.
  - by rewrite Hdf.
  - rewrite Htx, <-Hts. constructor; [by apply coinbase_for_valid|].
    apply apply_transactions_valid in Hbal'. rewrite Forall_forall in Hsel, Hbal' |- *. eauto.
  - exists bal, total. unfold apply_block. rewrite (proj2 (Z.eqb_neq _ 0)) by lia. rewrite Hcb.
    fold amount. rewrite (proj2 (Z.leb_gt amount 0)) by lia.
    cbn [coinbase_for Transaction.set_tx_hash Transaction.amount_base_units Transaction.receiver].
    rewrite Z.eqb_refl. cbn [negb]. rewrite (proj2 (Z.ltb_ge _ _)) by lia.
    rewrite Htx. cbn [apply_transactions]. unfold apply_transaction at 1.
    change (Transaction.is_coinbase (coinbase_for _ _ _)) with true. cbv iota.
    rewrite Hbal'. by do 2 eexists.
Qed.

(** C7: Mining works: on a valid chain with supply left, when the pool's
    selection applies after the coinbase and the search finds a nonce, when the
    database holds the chain ([matches]) and the mined block is [insertable]
    (storable, with a fresh hash and fresh transactions, 64-bit numbers and a
    timestamp that a double holds), and the balances stay below 2^63, the
    mined block passes the node's own validation, is appended to the chain and
    stored with its balances, its transactions leave the pool, and its one
    coinbase pays the miner the reward or what is left of the supply. *)
Theorem mining_succeeds `{ConsensusLaws consensus} clock addr st b hs bal total B :
  valid_chain (chain st) → state_from_chain (chain st) (reward settings) (max_supply settings) = (bal, total, "") →
  Forall (λ b, Block.index b = 0 → coinbases b = []) (chain st) →
  is_valid_address addr = true → 0 < reward settings → max_supply settings ≤ MAX_SUPPLY_BASE_UNITS →
  pool_applies addr st bal (Z.min (reward settings) (max_supply settings - total)) →
  mine_prepare settings consensus clock addr st = Ok (b, hs) →
  matches (chain st) (storage st) → insertable (chain st) b →
  (∀ a, Z.abs (full_ledger a (chain st)) ≤ B) → B + volume (Block.transactions b) < 2 ^ 63 →
  ∃ st', mine_pending_transactions settings consensus clock addr st = (st', Ok b) ∧
    chain st' = chain st ++ [b] ∧ valid_chain (chain st') ∧ matches (chain st') (storage st') ∧
    mempool st' = Mempool.remove_transactions hs (mempool st) ∧
    ∃ ts, coinbases b = [coinbase_for addr (Z.min (reward settings) (max_supply settings - total)) ts].
Proof.
  intros Hv Hst Hg Haddr Hrew Hmax Hpool Hprep Hm Hins HB Hvol.
  destruct (mined_block_accepted clock addr st b hs bal total) as [Hacc Hcb]; [done..|].
  destruct (save_and_update_ok (chain st) (storage st) b B) as (db1 & db2 & Hs & Hu & Hm2); [done..|].
  unfold mine_pending_transactions. rewrite Hprep. unfold mine_commit. rewrite Hacc. cbn [negb].
  change (storage (set_chain _ st)) with (storage st). rewrite Hs, Hu.
  eexists; split; [done|]. split_and!; [done| |done|done|done].
  apply validate_chain_spec. apply validate_chain_spec in Hv. by apply accepted_iff.
Qed.

(** ** A coinbase in the pool *)

Lemma coinbase_selected_fails `{ConsensusLaws consensus} clock addr st tx :
  valid_chain (chain st) →
  tx ∈ Mempool.get_pending (Some MAX_TRANSACTIONS_PER_BLOCK) (mempool st) →
  Transaction.is_coinbase tx = true →
  ∃ e, mine_pending_transactions settings consensus clock addr st = (st, Err e).
Proof.
  intros Hv Hin Hc. unfold mine_pending_transactions.
  destruct (mine_prepare settings consensus clock addr st) as [[b hs]|e] eqn:Hp; [|by exists e].
  apply validate_chain_spec in Hv. pose proof (chain_spec_index _ _ _ _ _ Hv) as Hidx.
  unfold mine_commit.
  destruct (validate_block_against_chain _ _ _ _ _ _) as [[[] r]|e] eqn:Hb; cbn [negb];
    [exfalso|by eexists..].
  apply block_verdict_true in Hb as Hr. subst r.
  apply block_accepted_iff in Hb as [prev Hext]; [|done].
  pose proof (ext_index _ _ _ _ _ _ _ Hext) as Hi.
  pose proof (tip_index _ _ Hidx (ext_tip _ _ _ _ _ _ _ Hext)) as Hpi.
  destruct (ext_state _ _ _ _ _ _ _ Hext) as (? & ? & ? & ? & _ & Hab).
  apply apply_block_issue in Hab as (cb & Hcb & _); [|lia].
  unfold mine_prepare in Hp. apply res_bind_Ok in Hp as (d & _ & Hp).
  case_match; [done|]. apply res_bind_Ok in Hp as (tip & _ & Hp).
  apply mine_block_Ok in Hp as (_ & _ & _ & Htx & _); [|done].
  unfold coinbases in Hcb. rewrite Htx, filter_cons_True in Hcb by done. apply (f_equal tail) in Hcb as Hnil. cbn [tail] in Hnil.
  assert (Hf : tx ∈ filter (λ tx, Transaction.is_coinbase tx = true)
    (Mempool.get_pending (Some MAX_TRANSACTIONS_PER_BLOCK) (mempool st))) by by apply list_elem_of_filter.
  rewrite Hnil in Hf. by apply elem_of_nil in Hf.
Qed.

(** C32: One submitted coinbase stops the miner: on a valid chain, a self-made
    coinbase transaction, which needs no key, passes [submit_transaction] unless
    it is pending already; when fewer transactions are pending than a block
    selects ([MAX_TRANSACTIONS_PER_BLOCK], 500), so that it is selected, every
    attempt to mine from then on fails and leaves the node as it is, and the
    transaction stays in the pool. *)
Theorem coinbase_submission_stops_mining `{ConsensusLaws consensus} tx st :
  valid_chain (chain st) → Transaction.verify tx = true → Transaction.is_coinbase tx = true →
  Mempool.contains (Transaction.tx_hash tx) (mempool st) = false →
  Mempool.size (mempool st) < MAX_TRANSACTIONS_PER_BLOCK →
  ∃ st', submit_transaction tx st = (st', accept) ∧
    ∀ clock addr, ∃ e, mine_pending_transactions settings consensus clock addr st' = (st', Err e).
Proof.
  intros Hv Hver Hc Hnew Hsize.
  assert (Hval : validate_transaction tx = accept) by (apply validate_transaction_spec; auto).
  assert (Hs : submit_transaction tx st =
    (set_mempool (mempool st ++ [(Transaction.tx_hash tx, tx)]) st, accept)).
  { unfold submit_transaction. rewrite Hval, Hc. cbn [negb andb].
    unfold Mempool.add_transaction. rewrite Hnew, Hver. cbn [negb].
    rewrite dict_set_fresh; [done|]. apply dict_get_None.
    unfold Mempool.contains in Hnew. apply bool_decide_eq_false in Hnew.
    by apply eq_None_not_Some. }
  rewrite Hs. eexists; split; [done|]. intros clock addr.
  apply (coinbase_selected_fails clock addr _ tx); [done| |done].
  cbn [set_mempool mempool]. unfold Mempool.get_pending, slice_to.
  change (0 <=? MAX_TRANSACTIONS_PER_BLOCK) with true. cbv iota.
  unfold Mempool.size, MAX_TRANSACTIONS_PER_BLOCK in *.
  rewrite take_ge.
  - rewrite sorted_by_perm. unfold Mempool.values. rewrite fmap_app. apply elem_of_app. right. left.
  - rewrite (Permutation_length (sorted_by_perm _ _)). unfold Mempool.values.
    rewrite length_fmap, length_app. cbn. lia.
Qed.
End facts.

(** ** Concrete nodes *)

#[local] Existing Instances ToyECDSA.ecdsa ListSql.sql ListSql.sql_laws.

Definition sample_settings : Settings := {|
  genesis_settings := default_genesis_config;
  consensus_settings := sample_config;
  mining_settings := {| block_reward := sample_reward; coinbase_address := COINBASE_SENDER;
                        halving_interval := 210000 |};
  network_settings := network_config ∅;
  storage_settings := storage_config "" ∅;
  logging_settings := logging_config "" ∅;
  asset_settings := native_asset_config;
  future_consensus_settings := future_consensus_options;
  p2p_settings := sample_p2p;
|}.

Abbreviation pow := ProofOfWorkConsensus.engine.

Definition node_of (c : list Block.t) : node ListSql.t :=
  {| chain := c; mempool := Mempool.init; storage := sample_db c |}.

Definition carol_coinbase : Transaction.t := coinbase_for bob 7 (PInt 1735700090).

Lemma sample_is_valid :
  validate_chain sample_chain pow (config sample_settings) (reward sample_settings)
    (max_supply sample_settings) = Ok accept.
Proof. exact sample_chain_valid. Qed.

Lemma sample_short_valid :
  validate_chain short_chain pow (config sample_settings) (reward sample_settings)
    (max_supply sample_settings) = Ok accept.
Proof. exact short_chain_valid. Qed.

Lemma chain_always_valid_witness :
  let st := node_of sample_chain in
  let st' := (submit_transaction Transaction.toy_transfer st).1 in
  validate_chain (chain st') pow (config sample_settings) (reward sample_settings)
    (max_supply sample_settings) = Ok accept ∧ head_hash st' = head_hash st ∧
  (chain st' = chain st ∨ chain_work (chain st) < chain_work (chain st')).
Proof.
  cbv zeta. apply (chain_always_valid sample_settings pow).
  - apply rtc_once, step_submit.
  - discriminate.
  - exact sample_is_valid.
Defined.

Lemma submissions_never_overspend_witness :
  Mempool.pending_spend_for alice
    (mempool (submit_all [Transaction.toy_transfer; carol_coinbase] (node_of sample_chain)))
  ≤ node_balance alice (node_of sample_chain).
Proof.
  apply submissions_never_overspend; [|vm_compute; discriminate].
  intros a Ha. unfold node_balance.
  change (storage (node_of sample_chain)) with (sample_db sample_chain).
  rewrite (get_balance_ledger sample_chain (sample_db sample_chain) a sample_chain_matches Ha).
  change (Mempool.pending_spend_for a (mempool (node_of sample_chain))) with 0.
  destruct (state_from_chain sample_chain sample_reward MAX_SUPPLY_BASE_UNITS) as [[bal total] r] eqn:Hst.
  assert (r = "") as -> by (change r with ((bal, total, r).2); rewrite <-Hst; vm_compute; reflexivity).
  apply state_from_chain_ok, apply_blocks_facts in Hst as (Hnn & _ & _ & _ & Hnet);
    [|intros x; by rewrite get0_empty|discriminate].
  pose proof (Hnn a) as Hna. rewrite Hnet, get0_empty in Hna. etrans; [exact Hna|].
  rewrite full_ledger_ledger; [apply Z.le_refl|]. apply (bool_decide_unpack _). vm_compute. exact I.
Defined.

Lemma node_matches c :
  insertables_check [] c = true → volume (chain_txs c) < 2 ^ 63 →
  matches (chain (node_of c)) (storage (node_of c)).
Proof. apply sample_matches. Qed.

Lemma short_bound a : Z.abs (full_ledger a short_chain) ≤ 5000000000.
Proof.
  etrans; [apply ledger_bound|]; [|vm_compute; discriminate].
  apply (bool_decide_unpack _). vm_compute. exact I.
Qed.

Lemma replace_chain_accepts_witness :
  ∃ st', replace_chain sample_settings pow 0 sample_chain (node_of short_chain) = (st', Ok accept) ∧
    chain st' = sample_chain ∧
    shows (take 2 short_chain ++ drop 2 sample_chain) (storage st') ∧
    (take 2 short_chain = take 2 sample_chain → shows sample_chain (storage st')) ∧
    ∀ h, h ∈ Transaction.tx_hash <$> chain_txs (drop 2 sample_chain) →
         Mempool.get_transaction h (mempool st') = None.
Proof.
  refine (replace_chain_accepts sample_settings pow 0 sample_chain (node_of short_chain) 5000000000 2
    _ _ _ _ _ _ _ _ _ _ _ _).
  - vm_compute. reflexivity.
  - exact sample_is_valid.
  - vm_compute. reflexivity.
  - exists Samples.genesis_block, Samples.genesis_block. auto.
  - apply node_matches; vm_compute; reflexivity.
  - vm_compute. auto.
  - vm_compute. auto.
  - apply insertables_check_sound. vm_compute. reflexivity.
  - apply short_bound.
  - vm_compute. discriminate.
  - vm_compute. reflexivity.
  - constructor.
Defined.

(** A node with one block, and the transfer pending. *)
Definition mining_node : node ListSql.t :=
  {| chain := short_chain;
     mempool := (Mempool.add_transaction Transaction.toy_transfer Mempool.init).1;
     storage := sample_db short_chain |}.

Definition prepared : res (Block.t * list string) :=
  mine_prepare sample_settings pow (1735700036 * ticks) alice mining_node.
Definition from_res {A} (d : A) (r : res A) : A := match r with Ok a => a | Err _ => d end.
Definition mined : Block.t * list string := Eval vm_compute in from_res (Samples.genesis_block, []) prepared.

Lemma prepared_mined : prepared = Ok mined.
Proof. vm_compute. reflexivity. Qed.


Definition short_balances : gmap string Z :=
  (state_from_chain short_chain sample_reward MAX_SUPPLY_BASE_UNITS).1.1.

Lemma short_state :
  state_from_chain short_chain sample_reward MAX_SUPPLY_BASE_UNITS = (short_balances, 5000000000, "").
Proof. apply pair_eq; vm_compute; reflexivity. Qed.

Lemma short_genesis_free : Forall (λ b, Block.index b = 0 → coinbases b = []) (chain mining_node).
Proof. apply (bool_decide_unpack _). vm_compute. exact I. Qed.

Lemma inl_exists {A B} (x : A + B) : (if x is inl _ then true else false) = true → ∃ a, x = inl a.
Proof. destruct x; [eauto|done]. Qed.

Lemma short_pool_applies :
  pool_applies alice mining_node short_balances
    (Z.min (reward sample_settings) (max_supply sample_settings - 5000000000)).
Proof. split; [apply (bool_decide_unpack _); vm_compute; exact I|].
  apply inl_exists. vm_compute. reflexivity.
Qed.

Lemma short_matches : matches (chain mining_node) (storage mining_node).
Proof. apply sample_matches; vm_compute; reflexivity. Qed.

Lemma mined_insertable : insertable (chain mining_node) mined.1.
Proof. apply insertable_check_sound. vm_compute. reflexivity. Qed.

Lemma mining_succeeds_witness :
  ∃ st', mine_pending_transactions sample_settings pow (1735700036 * ticks) alice mining_node = (st', Ok mined.1) ∧
    chain st' = chain mining_node ++ [mined.1] ∧
    validate_chain (chain st') pow (config sample_settings) (reward sample_settings)
      (max_supply sample_settings) = Ok accept ∧
    matches (chain st') (storage st') ∧
    mempool st' = Mempool.remove_transactions mined.2 (mempool mining_node) ∧
    ∃ ts, coinbases mined.1 =
      [coinbase_for alice (Z.min (reward sample_settings) (max_supply sample_settings - 5000000000)) ts].
Proof.
  refine (mining_succeeds sample_settings pow (1735700036 * ticks) alice mining_node mined.1 mined.2 short_balances
    5000000000 5000000000 sample_short_valid short_state short_genesis_free _ _ _ short_pool_applies _
    short_matches mined_insertable short_bound _).
  - vm_compute. reflexivity.
  - vm_compute. reflexivity.
  - vm_compute. discriminate.
  - exact prepared_mined.
  - vm_compute. reflexivity.
Defined.

Lemma coinbase_submission_stops_mining_witness :
  ∃ st', submit_transaction carol_coinbase (node_of short_chain) = (st', accept) ∧
    ∀ clock addr, ∃ e, mine_pending_transactions sample_settings pow clock addr st' = (st', Err e).
Proof.
  apply (coinbase_submission_stops_mining sample_settings pow);
    [exact sample_short_valid|vm_compute; reflexivity..].
Defined.

(** The node after a confirmed transfer is submitted and mined once more. *)
Definition replayed : node ListSql.t * res Block.t :=
  mine_pending_transactions sample_settings pow (1735700074 * ticks) alice
    (submit_transaction Transaction.toy_transfer (node_of sample_chain)).1.

(** Memory and disk part ways on a repeated transfer: the confirmed
    transfer is admitted to the pool again, the block that repeats it is
    appended to the chain in memory, and only then does storing it fail, so
    the node is left with four blocks in memory and three in the database,
    the transfer is still pending, and the next attempt to mine fails too. *)
Theorem replay_splits_memory_and_disk :
  (submit_transaction Transaction.toy_transfer (node_of sample_chain)).2 = accept ∧
  replayed.2 = Err (StorageError "Failed to save block 3") ∧
  chain_len replayed.1 = 4 ∧ chain_length (storage replayed.1) = 3 ∧
  Mempool.size (mempool replayed.1) = 1 ∧
  (mine_pending_transactions sample_settings pow (1735700144 * ticks) alice replayed.1).2 =
    Err (StorageError "Failed to save block 4").
Proof. vm_compute. auto 10. Qed.

(** The genesis block with its transaction turned into a coinbase of the whole
    supply; the recorded transaction hash is the same. *)
Definition forged_genesis : Block.t :=
  let g := Samples.genesis_block in
  Block.Make (Block.index g) (Block.previous_hash g)
    [Transaction.Make COINBASE_SENDER bob MAX_SUPPLY_BASE_UNITS (Block.timestamp g) None None
       (Utils.sha256 (genesis_message default_genesis_config))]
    (Block.timestamp g) (Block.nonce g) (Block.difficulty g) (Block.merkle_root g) (Block.hash g).

Definition forged_node : node ListSql.t * res verdict :=
  replace_chain sample_settings pow 0 [forged_genesis; block1; block2] (node_of short_chain).

(** The genesis transaction is not bound to its block: a candidate chain
    whose genesis block has the local hash but another transaction, a coinbase
    of the whole supply, is adopted like any heavier chain, and the node can
    then no longer mine, since it counts the supply as issued. *)
Theorem forged_genesis_adopted :
  forged_node.2 = Ok accept ∧ head (chain forged_node.1) = Some forged_genesis ∧
  forged_genesis ≠ Samples.genesis_block ∧
  ∀ clock addr, (mine_pending_transactions sample_settings pow clock addr forged_node.1).2 =
    Err (ValidationError "Maximum SYJ supply has been reached; mining issuance is exhausted.").
Proof.
  split_and!; [vm_compute; reflexivity..| |].
  - intros Heq. apply (f_equal (λ b, Transaction.sender <$> Block.transactions b)) in Heq.
    vm_compute in Heq. discriminate.
  - intros clock addr. unfold mine_pending_transactions, mine_prepare.
    assert (∃ d, current_difficulty sample_settings pow forged_node.1 = Ok d) as [d ->]
      by (eexists; vm_compute; reflexivity).
    cbn [mbind res_bind].
    assert ((max_supply sample_settings - total_supply_base_units forged_node.1 <=? 0) = true) as ->
      by (vm_compute; reflexivity).
    done.
Qed.

(** The node after a block of the timestamp 2^53 + 1, and after a restart. *)
Definition late_node : node ListSql.t * res Block.t :=
  mine_commit sample_settings pow (late_block, []) (node_of sample_chain).
Definition restarted : res (node ListSql.t) := init sample_settings 0 (storage late_node.1).

(** A late timestamp does not survive a restart: a block whose timestamp is
    no double is accepted, the chain with it is valid, and it is stored; the
    node that is started on that database loads it with another timestamp, and
    its chain is not valid any more. *)
Theorem late_timestamp_lost :
  late_node.2 = Ok late_block ∧
  is_chain_valid sample_settings pow late_node.1 = Ok accept ∧
  match restarted with
  | Ok st => last (chain st) = Some (with_time (PInt (2 ^ 53)) late_block) ∧
             is_chain_valid sample_settings pow st =
               Ok (false, "Block 3 invalid: Block does not satisfy consensus (proof-of-work) rules.")
  | Err _ => False
  end.
Proof. vm_compute. auto. Qed.
