(* ===== verification/StateRoot.v ===== *)
(** * blockchain/state_root.py: the state commitment and the checkpoint codec

    Byte strings are lists of integers [0 .. 255].  The two dictionaries are
    finite maps, whose iteration order the code sorts away. *)
From Stdlib Require Import Ascii.
From stdpp Require Import options.
From S2P Require Import Prelude Sha256 PyText Json Wallet.

Local Open Scope Z_scope.

(** [b"..."] *)
Definition ascii_bytes (s : string) : list Z := code <$> chars s.

Definition VERSION : Z := 1.
Definition MAGIC : list Z := ascii_bytes "SYJSTATE1".

(** [_u64]: [struct.pack] of a big-endian unsigned 64-bit integer. *)
Definition u64 (v : Z) : res (list Z) :=
  if (0 <=? v) && (v <=? 2 ^ 64 - 1) then Ok (Sha.be_bytes 8 v)
  else Err (ValueError "uint64 out of range").

(** [_bytes] *)
Definition bytes_field (v : list Z) : res (list Z) :=
  len ← u64 (Z.of_nat (length v)); Ok (len ++ v).

Record state := State {
  balances : gmap string Z;
  nonces : gmap string Z;
  genesis_supply : Z;
  mining_issued : Z;
  supply : Z;
}.

(** [sorted(set(balances) | set(nonces))] *)
Definition sorted_keys (s : state) : list string :=
  (sort_keys ((λ k, (k, ())) <$> elements (dom (balances s) ∪ dom (nonces s)))).*1.

(** The two numbers of one account. *)
Definition account_numbers (s : state) (key : string) : res (list Z) :=
  b ← u64 (get0 (balances s) key);
  n ← u64 (get0 (nonces s) key);
  Ok (b ++ n).

(** One iteration over the keys, behind the account's tag. *)
Definition account_bytes (tag : list Z) (s : state) (key : string) : res (list Z) :=
  raw ← bytes_field (utf8 key);
  numbers ← account_numbers s key;
  Ok (tag ++ raw ++ numbers).

Definition header_bytes (s : state) : res (list Z) :=
  g ← u64 (genesis_supply s);
  m ← u64 (mining_issued s);
  t ← u64 (supply s);
  n ← u64 (Z.of_nat (length (sorted_keys s)));
  Ok (g ++ m ++ t ++ n).

Definition ROOT_TAG : list Z := ascii_bytes "SYJ-STATE-ROOT-V1" ++ [0].
Definition ACCOUNT_TAG : list Z := ascii_bytes "SYJ-STATE-ACCOUNT-V1" ++ [0].

(** Everything [h.update] is given, in order. *)
Definition state_stream (s : state) : res (list Z) :=
  header ← header_bytes s;
  accounts ← res_map (account_bytes ACCOUNT_TAG s) (sorted_keys s);
  Ok (ROOT_TAG ++ [VERSION] ++ header ++ mjoin accounts).

Definition state_root (s : state) : res string :=
  stream ← state_stream s; Ok (Sha.hex (Sha.digest stream)).

Definition encode_checkpoint (s : state) : res (list Z) :=
  header ← header_bytes s;
  accounts ← res_map (account_bytes [] s) (sorted_keys s);
  root ← state_root s;
  Ok (MAGIC ++ [VERSION] ++ header ++ mjoin accounts ++ ascii_bytes root).

(** ** Fields of known width *)

Lemma app_inj_prefix {A} (a b r s : list A) :
  length a = length b → a ++ r = b ++ s → a = b ∧ r = s.
Proof. intros Hl. by apply app_inj_1. Qed.

Lemma u64_Ok v bs : u64 v = Ok bs → 0 ≤ v < 2 ^ 64 ∧ bs = Sha.be_bytes 8 v.
Proof.
  unfold u64. destruct (Z.leb_spec 0 v), (Z.leb_spec v (2 ^ 64 - 1)); try done.
  intros [= <-]. split; [lia|done].
Qed.

Lemma u64_prefix v w a b r s :
  u64 v = Ok a → u64 w = Ok b → a ++ r = b ++ s → v = w ∧ r = s.
Proof.
  intros [Hv ->]%u64_Ok [Hw ->]%u64_Ok [E ->]%app_inj_prefix; [|by rewrite !Sha.length_be_bytes].
  split; [|done]. apply (f_equal int_from_bytes) in E.
  by rewrite !int_from_be_bytes in E.
Qed.

Lemma bytes_prefix v w a b r s :
  bytes_field v = Ok a → bytes_field w = Ok b → a ++ r = b ++ s → v = w ∧ r = s.
Proof.
  intros (l & Hl & [= <-])%res_bind_Ok (m & Hm & [= <-])%res_bind_Ok. rewrite <-!app_assoc.
  intros [Hn E]%(u64_prefix _ _ _ _ _ _ Hl Hm). apply app_inj_prefix; [lia|done].
Qed.

Lemma code_range c : 0 ≤ code c < 256.
Proof. unfold code. pose proof (N_ascii_bounded c). lia. Qed.

#[global] Instance code_inj : Inj (=) (=) code.
Proof.
  unfold code. intros c d E. apply N2Z.inj in E.
  rewrite <-(ascii_N_embedding c), <-(ascii_N_embedding d). by rewrite E.
Qed.

Lemma utf8_char_prefix c d r s : utf8_char c ++ r = utf8_char d ++ s → c = d ∧ r = s.
Proof.
  unfold utf8_char. pose proof (code_range c). pose proof (code_range d).
  destruct (Z.ltb_spec (code c) 128), (Z.ltb_spec (code d) 128); cbn [app]; intros [=].
  - split; [by apply code_inj|done].
  - exfalso. pose proof (Z.div_pos (code d) 64). lia.
  - exfalso. pose proof (Z.div_pos (code c) 64). lia.
  - split; [apply code_inj|done].
    rewrite (Z.div_mod (code c) 64), (Z.div_mod (code d) 64) by lia. lia.
Qed.

#[global] Instance utf8_inj : Inj (=) (=) utf8.
Proof.
  intros s. unfold utf8. induction s as [|c s IH]; intros [|d t]; cbn [chars fmap list_fmap mjoin list_join].
  - done.
  - unfold utf8_char. by case_match.
  - unfold utf8_char. by case_match.
  - intros [-> E]%utf8_char_prefix. f_equal. by apply IH.
Qed.

#[global] Instance ascii_bytes_inj : Inj (=) (=) ascii_bytes.
Proof.
  intros s t E. unfold ascii_bytes in E. apply (inj (fmap code)) in E.
  by rewrite <-(of_chars_chars s), E, of_chars_chars.
Qed.

Lemma hex_inj a b :
  Forall (λ x, 0 ≤ x < 256) a → Forall (λ x, 0 ≤ x < 256) b → Sha.hex a = Sha.hex b → a = b.
Proof.
  intros Ha Hb E. pose proof (fromhex_hex a Ha) as Ea. rewrite E in Ea.
  rewrite (fromhex_hex b Hb) in Ea. congruence.
Qed.

(** ** Reading the encodings back *)

(** What an encoding determines: the totals, the keys, and for every address,
    listed or not, its balance and nonce. *)
Definition same_state (s t : state) : Prop :=
  genesis_supply s = genesis_supply t ∧ mining_issued s = mining_issued t ∧ supply s = supply t ∧
  sorted_keys s = sorted_keys t ∧
  ∀ k, get0 (balances s) k = get0 (balances t) k ∧ get0 (nonces s) k = get0 (nonces t) k.

Lemma sorted_keys_elem s k : k ∈ sorted_keys s ↔ k ∈ dom (balances s) ∪ dom (nonces s).
Proof.
  unfold sorted_keys. rewrite sort_keys_perm, <-list_fmap_compose.
  rewrite (list_fmap_ext _ id), list_fmap_id by done. by rewrite elem_of_elements.
Qed.

Lemma unlisted s k : k ∉ sorted_keys s → get0 (balances s) k = 0 ∧ get0 (nonces s) k = 0.
Proof.
  rewrite sorted_keys_elem, not_elem_of_union, !not_elem_of_dom. unfold get0. by intros [-> ->].
Qed.

Lemma header_prefix s t a b r r' :
  header_bytes s = Ok a → header_bytes t = Ok b → a ++ r = b ++ r' →
  genesis_supply s = genesis_supply t ∧ mining_issued s = mining_issued t ∧ supply s = supply t ∧
  length (sorted_keys s) = length (sorted_keys t) ∧ r = r'.
Proof.
  unfold header_bytes.
  intros (g & Hg & (m & Hm & (u & Hu & (n & Hn & [= <-])%res_bind_Ok)%res_bind_Ok)%res_bind_Ok)%res_bind_Ok.
  intros (g' & Hg' & (m' & Hm' & (u' & Hu' & (n' & Hn' & [= <-])%res_bind_Ok)%res_bind_Ok)%res_bind_Ok)%res_bind_Ok.
  rewrite <-!app_assoc.
  intros [-> [-> [-> [Hl ->]%(u64_prefix _ _ _ _ _ _ Hn Hn')]%(u64_prefix _ _ _ _ _ _ Hu Hu')]%(u64_prefix
    _ _ _ _ _ _ Hm Hm')]%(u64_prefix _ _ _ _ _ _ Hg Hg').
  split_and!; [done..|lia|done].
Qed.

Lemma account_prefix tag s t k k' a b r r' :
  account_bytes tag s k = Ok a → account_bytes tag t k' = Ok b → a ++ r = b ++ r' →
  k = k' ∧ get0 (balances s) k = get0 (balances t) k ∧ get0 (nonces s) k = get0 (nonces t) k ∧ r = r'.
Proof.
  unfold account_bytes, account_numbers.
  intros (raw & Hraw & (? & (x & Hx & (y & Hy & [= <-])%res_bind_Ok)%res_bind_Ok & [= <-])%res_bind_Ok)%res_bind_Ok.
  intros (raw' & Hraw' & (? & (x' & Hx' & (y' & Hy' & [= <-])%res_bind_Ok)%res_bind_Ok & [= <-])%res_bind_Ok)%res_bind_Ok.
  rewrite <-!app_assoc. intros E%app_inv_head.
  apply (bytes_prefix _ _ _ _ _ _ Hraw Hraw') in E as [->%(inj utf8) E].
  apply (u64_prefix _ _ _ _ _ _ Hx Hx') in E as [? E].
  by apply (u64_prefix _ _ _ _ _ _ Hy Hy') in E as [? ->].
Qed.

Lemma accounts_prefix tag s t ks ks' xs ys r r' :
  length ks = length ks' →
  res_map (account_bytes tag s) ks = Ok xs → res_map (account_bytes tag t) ks' = Ok ys →
  mjoin xs ++ r = mjoin ys ++ r' →
  ks = ks' ∧ r = r' ∧ Forall (λ k, get0 (balances s) k = get0 (balances t) k ∧
                                   get0 (nonces s) k = get0 (nonces t) k) ks.
Proof.
  rewrite !res_map_Ok. intros Hl Hxs. revert ks' ys Hl.
  induction Hxs as [|k x ks xs Hk Hks IH]; intros [|k' ks'] ys Hl Hys; try done.
  - inversion Hys; subst; cbn. intros ->. by repeat constructor.
  - inversion Hys as [|? y ? ys' Hk' Hks']; subst; cbn [mjoin list_join].
    rewrite <-!app_assoc. intros E.
    apply (account_prefix _ _ _ _ _ _ _ _ _ Hk Hk') in E as (-> & ? & ? & E).
    destruct (IH ks' ys') as (-> & -> & ?); [by injection Hl|done|done|]. by repeat constructor.
Qed.

(** The header and the accounts behind a common prefix. *)
Lemma body_inj tag s t a b xs ys r r' :
  header_bytes s = Ok a → header_bytes t = Ok b →
  res_map (account_bytes tag s) (sorted_keys s) = Ok xs →
  res_map (account_bytes tag t) (sorted_keys t) = Ok ys →
  a ++ mjoin xs ++ r = b ++ mjoin ys ++ r' → same_state s t.
Proof.
  intros Ha Hb Hx Hy (? & ? & ? & Hl & E)%(header_prefix _ _ _ _ _ _ Ha Hb).
  apply (accounts_prefix _ _ _ _ _ _ _ _ _ Hl Hx Hy) in E as (Hk & _ & Hall).
  split_and!; try done. intros k. destruct (decide (k ∈ sorted_keys s)) as [Hin|Hout].
  - by rewrite Forall_forall in Hall; apply Hall.
  - pose proof (unlisted s k Hout) as [-> ->]. rewrite Hk in Hout.
    by pose proof (unlisted t k Hout) as [-> ->].
Qed.

Lemma state_stream_inj s t x : state_stream s = Ok x → state_stream t = Ok x → same_state s t.
Proof.
  unfold state_stream.
  intros (a & Ha & (xs & Hx & [= <-])%res_bind_Ok)%res_bind_Ok.
  intros (b & Hb & (ys & Hy & [= E])%res_bind_Ok)%res_bind_Ok.
  eapply (body_inj _ _ _ _ _ _ _ [] [] Ha Hb Hx Hy). by rewrite !app_nil_r.
Qed.

(** Two byte strings with one digest. *)
Definition collide_bytes (x y : list Z) : Prop := x ≠ y ∧ Sha.digest x = Sha.digest y.

(** C29: The state root commits to the state: two states with the same root have
    the same totals, the same addresses and, for every address, the same
    balance and nonce, unless the two byte streams hashed are a SHA-256
    collision. *)
Theorem state_root_binding s t root :
  state_root s = Ok root → state_root t = Ok root →
  same_state s t ∨
  ∃ x y, state_stream s = Ok x ∧ state_stream t = Ok y ∧ collide_bytes x y.
Proof.
  intros (x & Hx & [= <-])%res_bind_Ok (y & Hy & [= E])%res_bind_Ok.
  apply hex_inj in E; [|apply Sha.digest_range..].
  destruct (decide (x = y)) as [->|Hne]; [left; by eapply state_stream_inj|right].
  by exists x, y.
Qed.

(** A checkpoint determines the state it was taken of, without any
    assumption on the hash: two states with the same checkpoint bytes agree on
    the totals, the addresses, and every balance and nonce. *)
Theorem encode_checkpoint_inj s t bytes :
  encode_checkpoint s = Ok bytes → encode_checkpoint t = Ok bytes → same_state s t.
Proof.
  unfold encode_checkpoint.
  intros (a & Ha & (xs & Hx & (r & _ & [= <-])%res_bind_Ok)%res_bind_Ok)%res_bind_Ok.
  intros (b & Hb & (ys & Hy & (r' & _ & [= E])%res_bind_Ok)%res_bind_Ok)%res_bind_Ok.
  eapply (body_inj _ _ _ _ _ _ _ _ _ Ha Hb Hx Hy). done.
Qed.

(** ** Witnesses *)

Definition sample_state : state :=
  State (<["bob" := 7]> {["alice" := 5]}) ∅ 0 12 12.

(** The same accounts, with a nonce of zero written out. *)
Definition sample_state' : state :=
  State (<["bob" := 7]> {["alice" := 5]}) {["bob" := 0]} 0 12 12.

Definition sample_root : string := Eval vm_compute in
  match state_root sample_state with Ok r => r | Err _ => "" end.

Lemma state_root_binding_witness :
  same_state sample_state sample_state' ∨
  ∃ x y, state_stream sample_state = Ok x ∧ state_stream sample_state' = Ok y ∧ collide_bytes x y.
Proof. apply (state_root_binding _ _ sample_root); vm_compute; reflexivity. Defined.

Definition sample_checkpoint : list Z := Eval vm_compute in
  match encode_checkpoint sample_state with Ok bytes => bytes | Err _ => [] end.

Lemma encode_checkpoint_inj_witness : same_state sample_state sample_state'.
Proof. apply (encode_checkpoint_inj _ _ sample_checkpoint); vm_compute; reflexivity. Defined.
