(* ===== verification/RateLimit.v ===== *)
(** * blockchain/network/ratelimit.py: the per-peer rate limiter

    Clock readings and the window are whole numbers of clock ticks (a
    [time.time()] of this century is a multiple of [2^-22] seconds, and the
    subtraction of two such floats is exact). [_hits] is an ordered
    dictionary, least recently used key first. *)
From stdpp Require Import options.
From S2P Require Import Prelude Json.

Local Open Scope Z_scope.

Module RateLimiter.

Record t := Make {
  max_requests : Z;
  window : Z;
  max_keys : Z;
  hits : list (string * list Z);
}.

Definition init (max_requests window max_keys : Z) : t := Make max_requests window max_keys [].

Definition set_hits (h : list (string * list Z)) (s : t) : t :=
  Make (max_requests s) (window s) (max_keys s) h.

(** The [popleft] loop. *)
Fixpoint pop_stale (window_start : Z) (l : list Z) : list Z :=
  match l with
  | x :: l' => if x <? window_start then pop_stale window_start l' else l
  | [] => []
  end.

(** The branch on [key in self._hits]: the dictionary, in which the key is
    last unless it was evicted at once, and the key's queue. *)
Definition touch (key : string) (s : t) : list (string * list Z) * list Z :=
  match dict_get key (hits s) with
  | Some q => (dict_pop key (hits s) ++ [(key, q)], q)
  | None =>
      let h := hits s ++ [(key, [])] in
      (if max_keys s <? Z.of_nat (length h) then tail h else h, [])
  end.

(** The queue is shared with the dictionary as long as the key is there. *)
Definition store (key : string) (q : list Z) (h : list (string * list Z)) : list (string * list Z) :=
  (λ e, if decide (e.1 = key) then (key, q) else e) <$> h.

Definition allow (now : Z) (key : string) (s : t) : t * bool :=
  let window_start := now - window s in
  let '(h, q) := touch key s in
  let q := pop_stale window_start q in
  if max_requests s <=? Z.of_nat (length q) then (set_hits (store key q h) s, false)
  else (set_hits (store key (q ++ [now]) h) s, true).

Definition tracked_key_count (s : t) : Z := Z.of_nat (length (hits s)).

Definition reset (s : t) : t := set_hits [] s.

(** A sequence of requests, each with its clock reading; the answers. *)
Fixpoint requests (l : list (Z * string)) (s : t) : t * list bool :=
  match l with
  | [] => (s, [])
  | (now, key) :: l =>
      let '(s, b) := allow now key s in
      let '(s, bs) := requests l s in (s, b :: bs)
  end.

(** The times at which [key] was let through. *)
Definition granted (key : string) (l : list (Z * string)) (bs : list bool) : list Z :=
  (λ x, x.1.1) <$> filter (λ x : Z * string * bool, x.1.2 = key ∧ x.2 = true) (zip l bs).

(** ** The dictionary stays within its bounds *)

Definition wf (s : t) : Prop :=
  NoDup (hits s).*1 ∧ tracked_key_count s ≤ Z.max 0 (max_keys s) ∧
  Forall (λ e, Z.of_nat (length e.2) ≤ Z.max 0 (max_requests s)) (hits s).

Lemma store_keys key q h : (store key q h).*1 = h.*1.
Proof.
  unfold store. induction h as [|[k v] h IH]; [done|]. cbn. rewrite IH. case_decide; by subst.
Qed.

Lemma length_store key q h : length (store key q h) = length h.
Proof. unfold store. by rewrite length_fmap. Qed.

Lemma store_Forall (P : string * list Z → Prop) key q h :
  Forall P h → (key ∈ h.*1 → P (key, q)) → Forall P (store key q h).
Proof.
  intros Hh Hq. unfold store. apply Forall_fmap, Forall_forall. intros e He. cbn.
  rewrite Forall_forall in Hh. case_decide; [|by apply Hh].
  apply Hq. subst. by apply list_elem_of_fmap_2.
Qed.

Lemma length_pop_stale x q : (length (pop_stale x q) ≤ length q)%nat.
Proof. induction q as [|y q IH]; cbn; [done|]. case_match; cbn; lia. Qed.

Lemma touch_wf key s h q : wf s → touch key s = (h, q) →
  NoDup h.*1 ∧ Z.of_nat (length h) ≤ Z.max 0 (max_keys s) ∧
  Forall (λ e, Z.of_nat (length e.2) ≤ Z.max 0 (max_requests s)) h ∧
  Z.of_nat (length q) ≤ Z.max 0 (max_requests s).
Proof.
  intros (Hnd & Hn & Hq). unfold touch, tracked_key_count in *.
  destruct (dict_get key (hits s)) as [q'|] eqn:E; intros [= <- <-].
  - assert (Hperm : dict_pop key (hits s) ++ [(key, q')] ≡ₚ hits s)
      by (rewrite <-Permutation_cons_append; by apply dict_pop_perm).
    rewrite Hperm. split_and!; try done.
    apply dict_get_elem in E. rewrite Forall_forall in Hq. by apply Hq in E.
  - apply dict_get_None in E.
    assert (NoDup (hits s ++ [(key, [])]).*1).
    { rewrite fmap_app. apply NoDup_app. split_and!; [done|set_solver|apply NoDup_singleton]. }
    assert (Forall (λ e, Z.of_nat (length e.2) ≤ Z.max 0 (max_requests s)) (hits s ++ [(key, [])])).
    { apply Forall_app. split; [done|]. constructor; [cbn; lia|constructor]. }
    rewrite length_app. cbn [length]. case_match eqn:Hmax.
    + destruct (hits s) as [|e h]; cbn [tail app length fmap list_fmap] in *.
      * split_and!; [constructor|lia|constructor|lia].
      * split_and!; [by eapply NoDup_cons_1_2|rewrite length_app; cbn [length]; lia| |lia].
        by eapply Forall_cons_1.
    + apply Z.ltb_ge in Hmax. rewrite length_app. cbn [length]. split_and!; [done|lia|done|lia].
Qed.

Lemma wf_allow now key s : wf s → wf (allow now key s).1.
Proof.
  intros Hwf. unfold allow. destruct (touch key s) as [h q] eqn:Ht.
  destruct (touch_wf _ _ _ _ Hwf Ht) as (Hnd & Hn & Hh & Hq).
  pose proof (length_pop_stale (now - window s) q).
  destruct (Z.leb_spec (max_requests s) (Z.of_nat (length (pop_stale (now - window s) q))));
    unfold wf, tracked_key_count; cbn [fst set_hits hits max_keys max_requests];
    rewrite store_keys, length_store; (split_and!; [done|done|]);
    (apply store_Forall; [done|]); intros _; cbn [snd]; [lia|].
  rewrite length_app. cbn [length]. lia.
Qed.

Lemma allow_params now key s :
  max_requests (allow now key s).1 = max_requests s ∧ window (allow now key s).1 = window s ∧
  max_keys (allow now key s).1 = max_keys s.
Proof. unfold allow. destruct (touch key s). by case_match. Qed.

Lemma requests_cons now key l s :
  requests ((now, key) :: l) s =
  ((requests l (allow now key s).1).1, (allow now key s).2 :: (requests l (allow now key s).1).2).
Proof. cbn. destruct (allow now key s) as [s' b]. cbn. by destruct (requests l s'). Qed.

Lemma wf_requests l s : wf s → wf (requests l s).1.
Proof.
  revert s. induction l as [|[now key] l IH]; intros s Hs; [done|].
  rewrite requests_cons. by apply IH, wf_allow.
Qed.

(** ** The rate *)

Definition queue (key : string) (s : t) : list Z := default [] (dict_get key (hits s)).

(** The readings of the window that ends at [now]. *)
Definition recent (window now : Z) (l : list Z) : list Z := filter (λ x, now - window ≤ x) l.

Lemma pop_stale_filter x q : StronglySorted Z.le q → pop_stale x q = filter (λ y, x ≤ y) q.
Proof.
  induction 1 as [|y q Hq IH Hy]; [done|]. rewrite filter_cons. cbn [pop_stale].
  destruct (Z.ltb_spec y x); [by rewrite decide_False by lia|].
  rewrite decide_True by done. f_equal. clear IH. induction Hy as [|z q]; [done|].
  rewrite filter_cons_True by lia. f_equal. apply IHHy. by inversion Hq.
Qed.

Lemma recent_recent window now now' l :
  now ≤ now' → recent window now' (recent window now l) = recent window now' l.
Proof.
  intros Hle. unfold recent. rewrite list_filter_filter_l; [done|]. intros x ?. lia.
Qed.

Lemma dict_get_store k key q h :
  dict_get k (store key q h) = if decide (k = key) then (if decide (key ∈ h.*1) then Some q else None)
                               else dict_get k h.
Proof.
  unfold store. induction h as [|[k' v] h IH]; cbn.
  { case_decide; [|done]. by rewrite decide_False by set_solver. }
  destruct (decide (k' = key)) as [->|Hk']; cbn; rewrite IH.
  - destruct (decide (k = key)) as [->|]; [|done]. by rewrite decide_True by set_solver.
  - destruct (decide (k = key)) as [->|]; [|done]. rewrite decide_False by congruence.
    apply decide_ext. set_solver.
Qed.

(** The requests that a key has left before its queue is full, if none grows stale. *)
Definition remaining (key : string) (s : t) : Z := max_requests s - Z.of_nat (length (queue key s)).

Lemma allow_remaining now key s :
  0 < remaining key s →
  (allow now key s).2 = true ∧ remaining key s - 1 ≤ remaining key (allow now key s).1.
Proof.
  unfold remaining. intros Hleft. unfold allow. destruct (touch key s) as [h q] eqn:Ht.
  assert (q = queue key s) as ->.
  { unfold touch, queue in *. by destruct (dict_get key (hits s)); injection Ht. }
  pose proof (length_pop_stale (now - window s) (queue key s)) as Hpop.
  destruct (Z.leb_spec (max_requests s) (Z.of_nat (length (pop_stale (now - window s) (queue key s))))); [lia|].
  split; [done|]. cbn [fst]. set (q := queue key s) in *. unfold queue. cbn [hits set_hits max_requests].
  rewrite dict_get_store, decide_True by done.
  case_decide; cbn; [rewrite length_app; cbn; lia|lia].
Qed.

(** The dictionary tracks keys of [ks] only. *)
Definition tracks (ks : list string) (s : t) : Prop :=
  NoDup (hits s).*1 ∧ (hits s).*1 ⊆ ks.

Lemma touch_tracks ks key s h q :
  tracks ks s → key ∈ ks → Z.of_nat (length ks) ≤ max_keys s → touch key s = (h, q) →
  NoDup h.*1 ∧ h.*1 ⊆ ks ∧ key ∈ h.*1 ∧ q = queue key s ∧
  ∀ k, k ≠ key → dict_get k h = dict_get k (hits s).
Proof.
  intros [Hnd Hsub] Hkey Hmax. unfold touch, queue.
  assert (Hfresh : ∀ k (d : list (string * list Z)) v, k ≠ key → dict_get k (d ++ [(key, v)]) = dict_get k d).
  { clear. intros k d v Hk. induction d as [|[k' w] d IH]; cbn; [by rewrite decide_False|].
    by rewrite IH. }
  destruct (dict_get key (hits s)) as [q'|] eqn:E; intros [= <- <-]; cbn.
  - assert (Hperm : dict_pop key (hits s) ++ [(key, q')] ≡ₚ hits s)
      by (rewrite <-Permutation_cons_append; by apply dict_pop_perm).
    assert (Hk : (dict_pop key (hits s) ++ [(key, q')]).*1 ≡ₚ (hits s).*1) by by rewrite Hperm.
    split_and!; [by apply (NoDup_Permutation_proper _ _ Hk)| | |done|].
    + intros x Hx. apply Hsub. by rewrite <-Hk.
    + rewrite fmap_app. set_solver.
    + intros k Hne. rewrite Hfresh by done. clear -Hne.
      induction (hits s) as [|[k' w] d IH]; cbn; [done|].
      destruct (decide (key = k')) as [<-|]; [by rewrite decide_False|]. cbn. by rewrite IH.
  - apply dict_get_None in E.
    assert (Hnd' : NoDup (hits s ++ [(key, [])]).*1).
    { rewrite fmap_app. apply NoDup_app. split_and!; [done|set_solver|apply NoDup_singleton]. }
    assert (Hsub' : (hits s ++ [(key, [])]).*1 ⊆ ks) by (rewrite fmap_app; set_solver).
    assert (Hl : (length (hits s ++ [(key, [])]) ≤ length ks)%nat).
    { rewrite <-(length_fmap fst). by apply submseteq_length, NoDup_submseteq. }
    destruct (Z.ltb_spec (max_keys s) (Z.of_nat (length (hits s ++ [(key, [])])))); [lia|].
    split_and!; [done|done|rewrite fmap_app; set_solver|done|].
    intros k Hk. by apply Hfresh.
Qed.

(** What the queue of [k] holds, and the rate over every window. *)
Record follows (ks : list string) (k : string) (granted : list Z) (last : Z) (s : t) : Prop := {
  f_tracks : tracks ks s;
  f_sorted : StronglySorted Z.le granted;
  f_last : Forall (λ x, x ≤ last) granted;
  f_queue : queue k s = recent (window s) last granted;
  f_rate : ∀ w, Z.of_nat (length (filter (λ x, w ≤ x ≤ w + window s) granted)) ≤ Z.max 0 (max_requests s);
}.

Lemma sorted_snoc (l : list Z) x : StronglySorted Z.le l → Forall (λ y, y ≤ x) l → StronglySorted Z.le (l ++ [x]).
Proof.
  induction 1 as [|y l Hl IH Hy]; intros Hx; [by repeat constructor|].
  apply Forall_cons in Hx as [? Hx]. cbn. constructor; [by apply IH|].
  apply Forall_app. split; [done|]. by repeat constructor.
Qed.

Lemma recent_sorted w now l : StronglySorted Z.le l → StronglySorted Z.le (recent w now l).
Proof.
  unfold recent. induction 1 as [|y l Hl IH Hy]; [constructor|].
  rewrite filter_cons. case_decide; [|done]. constructor; [done|].
  apply Forall_forall. intros x [_ Hx]%list_elem_of_filter. rewrite Forall_forall in Hy. by apply Hy.
Qed.

Lemma rate_snoc (g : list Z) now last win n :
  0 ≤ win → last ≤ now → Forall (λ x, x ≤ last) g →
  (∀ w, Z.of_nat (length (filter (λ x, w ≤ x ≤ w + win) g)) ≤ n) →
  Z.of_nat (length (recent win now g)) < n →
  ∀ w, Z.of_nat (length (filter (λ x, w ≤ x ≤ w + win) (g ++ [now]))) ≤ n.
Proof.
  intros Hwin Hle Hg Hrate Hlen w. rewrite filter_app, length_app, filter_cons, filter_nil.
  case_decide as Hw; cbn [length]; [|rewrite Nat.add_0_r; apply Hrate].
  enough (length (filter (λ x, (w ≤ x ≤ w + win)%Z) g) ≤ length (recent win now g))%nat by lia.
  unfold recent. clear -Hw. induction g as [|x g IH]; [done|].
  rewrite !filter_cons. repeat case_decide; cbn [length]; lia.
Qed.

Lemma follows_allow ks k g last now key s :
  0 ≤ window s → key ∈ ks → Z.of_nat (length ks) ≤ max_keys s → last ≤ now →
  follows ks k g last s →
  follows ks k (g ++ (if bool_decide (key = k ∧ (allow now key s).2 = true) then [now] else []))
    (if decide (key = k) then now else last) (allow now key s).1.
Proof.
  intros Hwin Hkey Hmax Hle [Htr Hs Hlast Hq Hrate].
  unfold allow. destruct (touch key s) as [h q] eqn:Ht.
  destruct (touch_tracks _ _ _ _ _ Htr Hkey Hmax Ht) as (Hnd & Hsub & Hin & -> & Hother).
  assert (Htracks : ∀ q, tracks ks (set_hits (store key q h) s)).
  { intros q. unfold tracks. cbn. by rewrite store_keys. }
  assert (Hqueue : ∀ q, queue k (set_hits (store key q h) s) = if decide (key = k) then q else queue k s).
  { intros q. unfold queue. cbn. rewrite dict_get_store.
    destruct (decide (key = k)) as [->|]; [by rewrite !decide_True|].
    rewrite decide_False by congruence. by rewrite Hother. }
  destruct (decide (key = k)) as [->|Hne].
  - rewrite Hq, pop_stale_filter by by apply recent_sorted.
    change (filter _ (recent _ _ _)) with (recent (window s) now (recent (window s) last g)).
    rewrite recent_recent by done.
    assert (Hg : Forall (λ x, x ≤ now) g) by (eapply Forall_impl; [done|]; cbn; lia).
    destruct (Z.leb_spec (max_requests s) (Z.of_nat (length (recent (window s) now g)))); cbn.
    + rewrite bool_decide_eq_false_2 by naive_solver. rewrite app_nil_r.
      split; [done..|by rewrite Hqueue|done].
    + rewrite bool_decide_eq_true_2 by done.
      split; [done|by apply sorted_snoc| | |].
      * apply Forall_app. by repeat constructor.
      * rewrite Hqueue. cbn. unfold recent. rewrite filter_app. f_equal.
        by rewrite filter_cons_True by lia.
      * cbn. intros w. apply (rate_snoc g now last); try done; lia.
  - rewrite bool_decide_eq_false_2 by naive_solver. rewrite app_nil_r.
    case_match; cbn; (split; [apply Htracks|done|done|by rewrite Hqueue|done]).
Qed.

(** C28: The limiter limits: as long as at most [max_keys] different keys are in
    use and the clock does not run backwards, no key gets more than
    [max_requests] requests through in any interval as long as the window,
    whatever the other keys do; and the dictionary never holds more than
    [max_keys] keys or a queue longer than [max_requests]. *)
Theorem rate_is_limited l s ks k w :
  hits s = [] → 0 ≤ window s → Z.of_nat (length ks) ≤ max_keys s →
  Forall (λ x, x.2 ∈ ks) l → StronglySorted Z.le l.*1 →
  Z.of_nat (length (filter (λ x, w ≤ x ≤ w + window s) (granted k l (requests l s).2)))
    ≤ Z.max 0 (max_requests s) ∧
  wf (requests l s).1.
Proof.
  intros Hempty Hwin Hmax Hkeys Hclock.
  assert (Hwf : wf s).
  { unfold wf, tracked_key_count. rewrite Hempty. split_and!; [constructor|cbn; lia|constructor]. }
  split; [|by apply wf_requests].
  assert (Hgen : ∀ l g last s, 0 ≤ window s → Z.of_nat (length ks) ≤ max_keys s →
    Forall (λ x, x.2 ∈ ks) l → StronglySorted Z.le l.*1 → Forall (λ x, last ≤ x.1) l →
    follows ks k g last s → ∃ last',
    follows ks k (g ++ granted k l (requests l s).2) last' (requests l s).1 ∧
    window (requests l s).1 = window s ∧ max_requests (requests l s).1 = max_requests s).
  { clear. induction l as [|[now key] l IH]; intros g last s Hwin Hmax Hkeys Hclock Hlast Hf.
    { exists last. by rewrite app_nil_r. }
    rewrite requests_cons. apply Forall_cons in Hkeys as [Hkey Hkeys], Hlast as [Hnow Hlast].
    rewrite fmap_cons in Hclock. apply StronglySorted_inv in Hclock as [Hclock Hle].
    destruct (allow_params now key s) as (Hr & Hw & Hk).
    apply (follows_allow ks k g last now key s) in Hf; [|done..].
    assert (Hl : Forall (λ x, (if decide (key = k) then now else last) ≤ x.1) l).
    { apply Forall_forall. intros x Hx. rewrite Forall_forall in Hle. rewrite Forall_forall in Hlast.
      case_decide; [|by apply Hlast]. by apply Hle, list_elem_of_fmap_2. }
    destruct (IH _ _ _ ltac:(by rewrite Hw) ltac:(by rewrite Hk) Hkeys Hclock Hl Hf)
      as (last' & Hf' & Hw' & Hr').
    exists last'. cbn [fst snd]. rewrite Hw', Hr', Hw, Hr. split_and!; [|done..].
    rewrite <-app_assoc in Hf'. unfold granted in *. cbn [zip zip_with]. rewrite filter_cons.
    cbn [fst snd]. destruct (decide (key = k ∧ (allow now key s).2 = true)) as [Hd|Hd].
    - by rewrite bool_decide_eq_true_2 in Hf'.
    - by rewrite bool_decide_eq_false_2 in Hf'. }
  destruct l as [|[now key] l']; [cbn; lia|]. set (l := (now, key) :: l') in *.
  destruct (Hgen l [] now s) as (last' & Hf & Hw & Hr); try done.
  - subst l. constructor; [done|]. rewrite fmap_cons in Hclock. apply StronglySorted_inv in Hclock as [_ Hle].
    rewrite Forall_fmap in Hle. exact Hle.
  - split; [|constructor|constructor| |].
    + split; rewrite Hempty; [constructor|apply list_subseteq_nil].
    + unfold queue. by rewrite Hempty.
    + intros w'. cbn. lia.
  - pose proof (f_rate _ _ _ _ _ Hf w) as Hrate. by rewrite Hw, Hr in Hrate.
Qed.

Lemma rate_is_limited_witness :
  let l := [(0, "a"); (10, "b"); (20, "a"); (30, "a"); (70, "a"); (75, "a")] in
  let s := init 2 60 8 in
  (requests l s).2 = [true; true; true; false; true; false] ∧
  Z.of_nat (length (filter (λ x, 15 ≤ x ≤ 15 + window s) (granted "a" l (requests l s).2))) ≤ 2 ∧
  wf (requests l s).1.
Proof.
  intros l s. split; [vm_compute; reflexivity|].
  apply (rate_is_limited l s ["a"; "b"]);
    [reflexivity|discriminate|discriminate|apply (bool_decide_unpack _); vm_compute; exact I|].
  repeat (constructor; [|repeat constructor; discriminate]). constructor.
Defined.

End RateLimiter.
