(* ===== verification/Handshake.v ===== *)
(** * blockchain/network/handshake.py: authenticated envelopes and challenges

    Envelopes are JSON objects.  [time.time()] is a float, in ticks as
    everywhere in the development.  The refusal reasons that quote a Python
    [repr] are cut before it.  The known credential of
    [verify_auth_envelope] only decides whether a warning is logged and is no
    argument here. *)
From Stdlib Require Import Ascii.
From stdpp Require Import options.
From S2P Require Import Prelude PyText Json Utils Sha256 NativeAsset Wallet Transaction.

Local Open Scope Z_scope.

(** ** Verdicts of the network layer: [(bool, reason)] *)

Definition verdict : Type := bool * string.
Definition accept : verdict := (true, "").
Definition reject (reason : string) : verdict := (false, reason).

Definition PROTOCOL_NAME : string := "sayanjali-p2p".
Definition SUPPORTED_PROTOCOL_VERSIONS : list string := ["1.0"].

Definition REQUIRED_ENVELOPE_FIELDS : list string :=
  ["protocol_name"; "protocol_version"; "node_id"; "public_key"; "network_name"; "genesis_hash";
   "advertised_address"; "capabilities"; "timestamp"; "nonce"; "signature"].

Record AuthContext := {
  identity : P2PIdentity.t;
  network_name : string;
  genesis_hash : string;
  advertised_address : string;
  capabilities : list string;
}.

(** ** Building *)

(** [_signing_fields] *)
Definition SIGNED_FIELDS : list string :=
  ["protocol_name"; "protocol_version"; "node_id"; "public_key"; "network_name"; "genesis_hash";
   "advertised_address"; "capabilities"; "timestamp"; "nonce"].

Definition signing_fields (envelope : py_dict) (payload_hash : string) : res py_dict :=
  fields ← res_map (λ k, v ← dict_index k envelope; Ok (k, v)) SIGNED_FIELDS;
  Ok (fields ++ [("payload_hash", JStr payload_hash)]).

(** [sha256(deterministic_json(operational_payload or {}))] *)
Definition hash_of_payload (payload : option py_dict) : string :=
  sha256 (deterministic_json (JObj (default [] payload))).

Definition signing_message (fields : py_dict) : string := deterministic_json (JObj fields).

Section build.
Context `{E : ECDSA}.

(** The envelope before it is signed; [entropy] is what [os.urandom(16)] gives. *)
Definition unsigned_envelope (context : AuthContext) (clock : Z) (entropy : list Z) : py_dict :=
  [("protocol_name", JStr PROTOCOL_NAME);
   ("protocol_version", JStr "1.0");
   ("node_id", JStr (P2PIdentity.node_id (identity context)));
   ("public_key", JStr (P2PIdentity.public_key_hex (identity context)));
   ("network_name", JStr (network_name context));
   ("genesis_hash", JStr (genesis_hash context));
   ("advertised_address", JStr (advertised_address context));
   ("capabilities", JArr (JStr <$> capabilities context));
   ("timestamp", JNum (PFlt clock));
   ("nonce", JStr (Sha.hex entropy))].

Definition build_auth_envelope (context : AuthContext) (payload : option py_dict)
    (clock : Z) (entropy : list Z) (rnd : Z) : res py_dict :=
  let envelope := unsigned_envelope context clock entropy in
  fields ← signing_fields envelope (hash_of_payload payload);
  signature ← P2PIdentity.sign (identity context) (signing_message fields) rnd;
  Ok (dict_set "signature" (JStr signature) envelope).

Definition challenge_payload (challenge : json) : py_dict := [("challenge", challenge)].

(** Built as an envelope, then signed again with the challenge as a field. *)
Definition build_handshake_envelope (context : AuthContext) (challenge : json)
    (clock : Z) (entropy : list Z) (rnd rnd' : Z) : res py_dict :=
  envelope ← build_auth_envelope context (Some (challenge_payload challenge)) clock entropy rnd;
  let envelope := dict_set "challenge" challenge envelope in
  fields ← signing_fields envelope (hash_of_payload (Some (challenge_payload challenge)));
  let fields := dict_set "challenge" challenge fields in
  signature ← P2PIdentity.sign (identity context) (signing_message fields) rnd';
  Ok (dict_set "signature" (JStr signature) envelope).
End build.

(** ** The checks both verifiers share *)

(** [value != text] of a JSON value and a string. *)
Definition differs (value : json) (text : string) : bool :=
  match value with JStr s => negb (String.eqb s text) | _ => true end.

(** [value not in SUPPORTED_PROTOCOL_VERSIONS]: a list or a dictionary has no hash. *)
Definition unsupported (value : json) : res bool :=
  match value with
  | JStr s => Ok (negb (bool_decide (s ∈ SUPPORTED_PROTOCOL_VERSIONS)))
  | JArr _ => Err (TypeError "unhashable type: 'list'")
  | JObj _ => Err (TypeError "unhashable type: 'dict'")
  | _ => Ok true
  end.

Definition valid_public_key `{E : ECDSA} (value : json) : bool :=
  match value with JStr s => is_valid_public_key s | _ => false end.

Definition nonempty_string (value : json) : option string :=
  match value with
  | JStr s => if String.eqb s "" then None else Some s
  | _ => None
  end.

(** The checks up to the [node_id], which both verifiers make in this order:
    the node's name, or why the envelope is refused. *)
Definition check_envelope `{E : ECDSA} (required : list string) (envelope : py_dict)
    (context : AuthContext) : res (string + verdict) :=
  if negb (forallb (λ k, bool_decide (is_Some (dict_get k envelope))) required)
  then Ok (inr (reject "Malformed authentication: missing fields"))
  else
    name ← dict_index "protocol_name" envelope;
    if differs name PROTOCOL_NAME
    then Ok (inr (reject "Malformed authentication: unknown protocol name."))
    else
      version ← dict_index "protocol_version" envelope;
      bad ← unsupported version;
      if (bad : bool) then Ok (inr (reject "Unsupported protocol version"))
      else
        network ← dict_index "network_name" envelope;
        genesis ← dict_index "genesis_hash" envelope;
        key ← dict_index "public_key" envelope;
        node ← dict_index "node_id" envelope;
        if differs network (network_name context)
        then Ok (inr (reject "Peer belongs to a different network."))
        else if differs genesis (genesis_hash context)
        then Ok (inr (reject "Peer has a different genesis identity."))
        else if negb (valid_public_key key)
        then Ok (inr (reject "Malformed authentication: invalid public key."))
        else
          match nonempty_string node with
          | None => Ok (inr (reject "Malformed authentication: invalid node_id."))
          | Some node_id => Ok (inl node_id)
          end.

(** The signature over the given fields. *)
Definition check_signature `{E : ECDSA} (envelope fields : py_dict) : res verdict :=
  key ← dict_index "public_key" envelope;
  sig ← dict_index "signature" envelope;
  match key, sig with
  | JStr pk, JStr s =>
      if negb (verify_identity_signature pk (signing_message fields) s)
      then Ok (reject "Invalid signature.")
      else Ok accept
  | _, _ => Ok (reject "Invalid signature.")
  end.

(** ** Replay cache *)

Module ReplayCache.

Definition t : Type := BoundedSet.t.
Definition init (max_size : Z) : t := BoundedSet.init max_size.

Definition key (node_id nonce : string) : string := node_id +:+ ":" +:+ nonce.

Definition check_and_record (node_id nonce : string) (cache : t) : t * bool :=
  if BoundedSet.contains cache (key node_id nonce) then (cache, false)
  else (BoundedSet.add (key node_id nonce) cache, true).

End ReplayCache.

(** ** Challenges *)

Module ChallengeStore.

(** Readings of the clock and the time to live are in clock ticks, as in the
    rate limiter. *)
Record t := Make {
  challenges : list (string * (string * Z));
  order : list string;
  max_size : Z;
  ttl : Z;
}.

Definition init (max_size ttl : Z) : t := Make [] [] max_size ttl.

(** [l.remove(x)] *)
Fixpoint list_remove (x : string) (l : list string) : option (list string) :=
  match l with
  | [] => None
  | y :: l => if String.eqb x y then Some l else cons y <$> list_remove x l
  end.

(** [entropy] is what [os.urandom(24)] gives. *)
Definition issue (node_id : string) (clock : Z) (entropy : list Z) (s : t) : t * res string :=
  let challenge := Sha.hex entropy in
  match (if bool_decide (is_Some (dict_get node_id (challenges s)))
         then list_remove node_id (order s) else Some (order s)) with
  | None => (s, Err (ValueError "list.remove(x): x not in list"))
  | Some order' =>
      let cs := dict_set node_id (challenge, clock) (challenges s) in
      let order' := order' ++ [node_id] in
      if max_size s <? Z.of_nat (length order') then
        match order' with
        | oldest :: rest => (Make (dict_pop oldest cs) rest (max_size s) (ttl s), Ok challenge)
        | [] => (s, Ok challenge)
        end
      else (Make cs order' (max_size s) (ttl s), Ok challenge)
  end.

Definition set_challenges (cs : list (string * (string * Z))) (s : t) : t :=
  Make cs (order s) (max_size s) (ttl s).

Definition verify_and_consume (node_id : string) (presented : json) (clock : Z) (s : t)
    : t * verdict :=
  match dict_get node_id (challenges s) with
  | None => (s, reject "No challenge was issued for this node_id.")
  | Some (issued_challenge, issued_at) =>
      if ttl s <? clock - issued_at
      then (set_challenges (dict_pop node_id (challenges s)) s, reject "Challenge expired.")
      else if differs presented issued_challenge
      then (s, reject "Challenge does not match the one issued.")
      else
        (Make (dict_pop node_id (challenges s))
              (default (order s) (list_remove node_id (order s))) (max_size s) (ttl s), accept)
  end.

End ChallengeStore.

(** ** Verification *)

(** [float(x)]: what the timestamp of an envelope turns into. *)
Inductive pyfloat := FNum (t : Z) | FInf | FNaN.

(** Text without surrounding spaces and sign, in lower case. *)
Definition float_word (s : string) : string :=
  lower (of_chars (split_sign (reverse (skip_spaces (reverse (skip_spaces (chars s)))))).2).

Definition special_float (s : string) : option pyfloat :=
  if bool_decide (s ∈ ["inf"; "infinity"]) then Some FInf
  else if String.eqb s "nan" then Some FNaN else None.

Definition float_of_Z (z : Z) : res pyfloat :=
  if float_limit <=? Z.abs z then Err (OverflowError "int too large to convert to float")
  else Ok (FNum (float_round z * ticks)).

(** Text of a fractional number; [Decimal] is laxer about underscores. *)
Definition float_of_fraction (s : string) : res pyfloat :=
  if existsb (λ c, code c =? 95) (chars s) then Err (Untyped "timestamp")
  else
    match Dec.of_string s with
    | None => Err (ValueError "could not convert string to float")
    | Some (Dec.Fin neg coef exp) =>
        match Dec.to_ticks neg coef exp with Some t => Ok (FNum t) | None => Err (Untyped "timestamp") end
    | Some _ => Err (Untyped "timestamp")
    end.

Definition py_float (x : json) : res pyfloat :=
  match x with
  | JNum (PInt z) => float_of_Z z
  | JNum (PFlt t) => Ok (FNum t)
  | JBool b => Ok (FNum (if b then ticks else 0))
  | JStr s =>
      match special_float (float_word s) with
      | Some f => Ok f
      | None =>
          match int_of_text 10 s with
          | Some z => if float_limit <=? Z.abs z then Ok FInf else Ok (FNum (float_round z * ticks))
          | None => float_of_fraction s
          end
      end
  | JNull => Err (TypeError "float() argument must be a string or a real number, not 'NoneType'")
  | JArr _ => Err (TypeError "float() argument must be a string or a real number, not 'list'")
  | JObj _ => Err (TypeError "float() argument must be a string or a real number, not 'dict'")
  end.

(** [abs(now - timestamp) > window] *)
Definition outside_window (now : Z) (timestamp : pyfloat) (window : Z) : bool :=
  match timestamp with
  | FNum t => window <? Z.abs (now - t)
  | FInf => true
  | FNaN => false
  end.

Section verify.
Context `{E : ECDSA}.

Definition verify_auth_envelope (envelope : json) (payload : option py_dict) (context : AuthContext)
    (freshness_window clock : Z) (cache : ReplayCache.t) : ReplayCache.t * res verdict :=
  match envelope with
  | JObj envelope =>
      match check_envelope REQUIRED_ENVELOPE_FIELDS envelope context with
      | Err e => (cache, Err e)
      | Ok (inr refusal) => (cache, Ok refusal)
      | Ok (inl node_id) =>
          match dict_index "timestamp" envelope ≫= py_float with
          | Err (TypeError _) | Err (ValueError _) =>
              (cache, Ok (reject "Malformed authentication: invalid timestamp."))
          | Err e => (cache, Err e)
          | Ok timestamp =>
              if outside_window clock timestamp freshness_window
              then (cache, Ok (reject "Authentication expired: timestamp outside the freshness window."))
              else
                match dict_index "nonce" envelope with
                | Err e => (cache, Err e)
                | Ok nonce =>
                    match nonempty_string nonce with
                    | None => (cache, Ok (reject "Malformed authentication: invalid nonce."))
                    | Some nonce =>
                        let '(cache, fresh) := ReplayCache.check_and_record node_id nonce cache in
                        if negb fresh
                        then (cache, Ok (reject "Authentication rejected: replayed nonce."))
                        else
                          (cache, fields ← signing_fields envelope (hash_of_payload payload);
                                  check_signature envelope fields)
                    end
                end
          end
      end
  | _ => (cache, Ok (reject "Malformed authentication: envelope is not an object."))
  end.

Definition verify_handshake_envelope (envelope : json) (context : AuthContext) (clock : Z)
    (store : ChallengeStore.t) : ChallengeStore.t * res verdict :=
  match envelope with
  | JObj envelope =>
      match check_envelope (REQUIRED_ENVELOPE_FIELDS ++ ["challenge"]) envelope context with
      | Err e => (store, Err e)
      | Ok (inr refusal) => (store, Ok refusal)
      | Ok (inl node_id) =>
          match dict_index "challenge" envelope with
          | Err e => (store, Err e)
          | Ok challenge =>
              let '(store, (ok, reason)) :=
                ChallengeStore.verify_and_consume node_id challenge clock store in
              if negb ok then (store, Ok (false, reason))
              else
                (store, fields ← signing_fields envelope (hash_of_payload (Some (challenge_payload challenge)));
                        check_signature envelope (dict_set "challenge" challenge fields))
          end
      end
  | _ => (store, Ok (reject "Malformed authentication: envelope is not an object."))
  end.
End verify.

(** ** Facts of the store *)

Module ChallengeFacts.
Import ChallengeStore.

(** What a node does with its store. *)
Inductive event :=
  | Issue (node_id : string) (clock : Z) (entropy : list Z)
  | Verify (node_id : string) (presented : json) (clock : Z).

Definition step (s : t) (e : event) : t :=
  match e with
  | Issue n c entropy => (issue n c entropy s).1
  | Verify n p c => (verify_and_consume n p c s).1
  end.

Definition run (es : list event) (s : t) : t := foldl step s es.

(** Every pending challenge has a place in the order. *)
Definition wf (s : t) : Prop :=
  NoDup (challenges s).*1 ∧ (challenges s).*1 ⊆ order s ∧
  Z.of_nat (length (order s)) ≤ Z.max 0 (max_size s).

Lemma list_remove_Some x l : x ∈ l → ∃ l', list_remove x l = Some l' ∧ l ≡ₚ x :: l'.
Proof.
  induction l as [|y l IH]; [set_solver|]. intros Hx. cbn.
  destruct (String.eqb_spec x y) as [->|]; [by eexists|].
  destruct IH as (l' & -> & Hl); [set_solver|]. exists (y :: l'). split; [done|].
  by rewrite Hl, Permutation_swap.
Qed.

Lemma issue_order n s : wf s →
  ∃ o, (if bool_decide (is_Some (dict_get n (challenges s)))
        then list_remove n (order s) else Some (order s)) = Some o ∧
    (challenges s).*1 ⊆ o ++ [n] ∧ Z.of_nat (length o) ≤ Z.max 0 (max_size s).
Proof.
  intros (Hnd & Hsub & Hlen). case_bool_decide as Hn.
  - destruct Hn as [v Hn%dict_get_elem]. apply (list_elem_of_fmap_2 fst) in Hn. cbn in Hn.
    destruct (list_remove_Some n (order s)) as (o & Ho & Hperm); [by apply Hsub|].
    exists o. rewrite Hperm in Hlen. cbn [length] in Hlen. split_and!; [done| |lia].
    intros k Hk. apply Hsub in Hk. rewrite Hperm in Hk. set_solver.
  - exists (order s). split_and!; [done|set_solver|done].
Qed.

(** With a place left, nothing goes. *)
Lemma issue_with_room n c entropy s : wf s → Z.of_nat (length (order s)) < max_size s →
  ∃ o, issue n c entropy s =
    (Make (dict_set n (Sha.hex entropy, c) (challenges s)) o (max_size s) (ttl s), Ok (Sha.hex entropy)).
Proof.
  intros (_ & Hsub & _) Hroom. unfold issue.
  assert (∃ o, (if bool_decide (is_Some (dict_get n (challenges s)))
                then list_remove n (order s) else Some (order s)) = Some o ∧ (length o ≤ length (order s))%nat)
    as (o & Ho & Hlen).
  { case_bool_decide as Hn; [|by exists (order s)].
    destruct Hn as [v Hn%dict_get_elem]. apply (list_elem_of_fmap_2 fst) in Hn.
    destruct (list_remove_Some n (order s)) as (o & Ho & Hperm); [by apply Hsub|].
    exists o. split; [done|]. rewrite Hperm. cbn. lia. }
  rewrite Ho. destruct (Z.ltb_spec (max_size s) (Z.of_nat (length (o ++ [n])))) as [Hover|_]; [|by eexists].
  rewrite length_app in Hover. cbn [length] in Hover. lia.
Qed.

(** Issuing, when the invariant holds: the oldest entry may go. *)
Lemma issue_spec n c entropy s : wf s →
  ∃ o cs, (issue n c entropy s).2 = Ok (Sha.hex entropy) ∧ (issue n c entropy s).1 = Make cs o (max_size s) (ttl s) ∧
    wf (Make cs o (max_size s) (ttl s)) ∧
    ∀ k, dict_get k cs = dict_get k (dict_set n (Sha.hex entropy, c) (challenges s)) ∨
         dict_get k cs = None.
Proof.
  intros Hwf. destruct (issue_order n s Hwf) as (o & Ho & Hsub & Hlen). destruct Hwf as (Hnd & _ & _).
  unfold issue. rewrite Ho. set (cs := dict_set _ _ _).
  assert (Hcs : NoDup cs.*1) by by apply dict_set_NoDup.
  assert (Hin : cs.*1 ⊆ o ++ [n]).
  { intros k. unfold cs. rewrite dict_set_keys. case_decide; [apply Hsub|]. set_solver. }
  destruct (Z.ltb_spec (max_size s) (Z.of_nat (length (o ++ [n])))) as [Hover|Hroom];
    rewrite length_app in *; cbn [length] in *.
  - destruct (o ++ [n]) as [|x o'] eqn:E; [by destruct o|].
    apply (f_equal length) in E. rewrite length_app in E. cbn [length] in E.
    exists o', (dict_pop x cs). split_and!; [done..| |].
    + split_and!; cbn; [by apply dict_pop_NoDup| |lia].
      intros k Hk. destruct (decide (k = x)) as [->|Hne].
      * exfalso. by eapply dict_get_None, Hk; apply dict_get_pop.
      * assert (k ∈ x :: o') as Hx; [|set_solver]. apply Hin.
        eapply elem_of_sublist; [done|]. apply fmap_sublist, dict_pop_sublist.
    + intros k. destruct (decide (k = x)) as [->|Hne]; [right; by apply dict_get_pop|left].
      by apply dict_get_pop_ne.
  - exists (o ++ [n]), cs. split_and!; [done..| |by left].
    split_and!; cbn; [done|done|rewrite length_app; cbn [length]; lia].
Qed.

Lemma consume_spec n p c s : wf s →
  wf (verify_and_consume n p c s).1 ∧
  (∀ k, k ≠ n → dict_get k (challenges (verify_and_consume n p c s).1) = dict_get k (challenges s)) ∧
  (dict_get n (challenges (verify_and_consume n p c s).1) = None ∨
   (verify_and_consume n p c s).1 = s ∧ (verify_and_consume n p c s).2 ≠ accept) ∧
  ((verify_and_consume n p c s).2 = accept →
   dict_get n (challenges (verify_and_consume n p c s).1) = None ∧
   ∃ issued t, dict_get n (challenges s) = Some (issued, t) ∧ p = JStr issued ∧ c - t ≤ ttl s).
Proof.
  intros Hwf. unfold verify_and_consume.
  destruct (dict_get n (challenges s)) as [[issued t]|] eqn:Hn;
    [|cbn; split_and!; [done|done|by left|done]].
  destruct Hwf as (Hnd & Hsub & Hlen).
  assert (Hpop : (dict_pop n (challenges s)).*1 ⊆ (challenges s).*1).
  { intros k Hk. eapply elem_of_sublist; [done|]. apply fmap_sublist, dict_pop_sublist. }
  pose proof (dict_pop_NoDup n _ Hnd) as Hnd'.
  pose proof (dict_get_pop n _ Hnd) as Hget.
  destruct (Z.ltb_spec (ttl s) (c - t)); cbn.
  { split_and!; [split_and!; cbn; [done|set_solver|done]| |by left|done].
    intros k Hk. by apply dict_get_pop_ne. }
  destruct (differs p issued) eqn:Hd; cbn.
  { split_and!; [by split_and!|done|by right|done]. }
  assert (p = JStr issued) as ->.
  { destruct p; try done. cbn in Hd. destruct (String.eqb_spec s0 issued); [by subst|done]. }
  split_and!; [|by intros; apply dict_get_pop_ne|by left|].
  - destruct (list_remove_Some n (order s)) as (o & Ho & Hperm).
    { apply Hsub. apply dict_get_elem in Hn. by apply (list_elem_of_fmap_2 fst) in Hn. }
    rewrite Ho. cbn. rewrite Hperm in Hlen. cbn [length] in Hlen. split_and!; cbn; [done| |lia].
    intros k Hk. assert (k ≠ n) by (intros ->; by eapply dict_get_None, Hk).
    apply Hpop, Hsub in Hk. rewrite Hperm in Hk. set_solver.
  - intros _. split; [done|]. exists issued, t. split_and!; [done|done|lia].
Qed.

Lemma run_snoc es e s : run (es ++ [e]) s = step (run es s) e.
Proof. unfold run. by rewrite foldl_app. Qed.

Lemma step_ok s e : wf s → wf (step s e) ∧ max_size (step s e) = max_size s ∧ ttl (step s e) = ttl s.
Proof.
  intros Hwf. destruct e as [n c entropy|n p c]; cbn.
  - by destruct (issue_spec n c entropy s Hwf) as (o & cs & _ & -> & ? & _).
  - split; [by apply consume_spec|]. unfold verify_and_consume. by repeat case_match.
Qed.

Lemma run_ok es s : wf s → wf (run es s) ∧ max_size (run es s) = max_size s ∧ ttl (run es s) = ttl s.
Proof.
  intros Hwf. induction es as [|e es IH] using rev_ind; [done|]. rewrite run_snoc.
  destruct IH as (? & <- & <-). by apply step_ok.
Qed.

Lemma wf_init n ttl : wf (init n ttl).
Proof. split_and!; cbn; [constructor|set_solver|lia]. Qed.

(** No new challenge for [n] is issued, and none is accepted. *)
Fixpoint quiet (n : string) (s : t) (es : list event) : Prop :=
  match es with
  | [] => True
  | e :: es =>
      match e with
      | Issue m _ _ => m ≠ n
      | Verify m p c => m = n → (verify_and_consume m p c s).2 ≠ accept
      end ∧ quiet n (step s e) es
  end.

Lemma quiet_snoc n s es e :
  quiet n s (es ++ [e]) ↔ quiet n s es ∧ quiet n (run es s) [e].
Proof.
  revert s. induction es as [|e' es IH]; intros s; cbn; [tauto|].
  rewrite IH. cbn. tauto.
Qed.

(** A pending challenge was issued, and nothing has happened to it since. *)
Lemma pending_issued n max_size ttl es c t :
  let s0 := init max_size ttl in
  dict_get n (challenges (run es s0)) = Some (c, t) →
  ∃ es1 entropy es2, es = es1 ++ [Issue n t entropy] ++ es2 ∧ c = Sha.hex entropy ∧
    quiet n (run (es1 ++ [Issue n t entropy]) s0) es2.
Proof.
  intros s0. revert c t. induction es as [|e es IH] using rev_ind; intros c t Hget; [done|].
  rewrite run_snoc in Hget. pose proof (run_ok es s0 (wf_init _ _)) as (Hwf & _ & _).
  assert (Hkeep : dict_get n (challenges (run es s0)) = Some (c, t) → quiet n (run es s0) [e] →
    ∃ es1 entropy es2, es ++ [e] = es1 ++ [Issue n t entropy] ++ es2 ∧ c = Sha.hex entropy ∧
      quiet n (run (es1 ++ [Issue n t entropy]) s0) es2).
  { intros (es1 & entropy & es2 & -> & -> & Hq)%IH Hlast. exists es1, entropy, (es2 ++ [e]).
    split_and!; [by rewrite <-!app_assoc|done|]. apply quiet_snoc. split; [done|].
    rewrite app_assoc in Hlast. unfold run in *. by rewrite foldl_app in Hlast. }
  destruct e as [m t' entropy|m p t']; cbn [step] in Hget.
  - destruct (issue_spec m t' entropy _ Hwf) as (o & cs & _ & Heq & _ & Hcs). rewrite Heq in Hget.
    cbn in Hget. destruct (Hcs n) as [Hn|Hn]; rewrite Hn in Hget; [|done].
    rewrite dict_get_set in Hget. case_decide; [|apply Hkeep; [done|by split]]. subst.
    injection Hget as <- <-. exists es, entropy, []. by rewrite app_nil_r.
  - destruct (consume_spec m p t' _ Hwf) as (_ & Hother & Hself & _).
    destruct (decide (n = m)) as [->|Hne].
    + destruct Hself as [Hself|[Heq Hno]]; [by rewrite Hself in Hget|].
      rewrite Heq in Hget. apply Hkeep; [done|by split].
    + rewrite Hother in Hget by done. apply Hkeep; [done|]. split; [congruence|done].
Qed.

(** A challenge answers for one login: whatever the store went through,
    when it accepts an answer for a node, the answer is the last challenge it
    issued for that node, no older than its time to live, and no answer for
    that node has been accepted since; issuing never raises, and the store
    holds at most [max_size] challenges. *)
Theorem challenge_single_use es n presented clock max_size ttl :
  let s := run es (init max_size ttl) in
  (verify_and_consume n presented clock s).2 = accept →
  (∃ es1 t entropy es2, es = es1 ++ [Issue n t entropy] ++ es2 ∧
    presented = JStr (Sha.hex entropy) ∧ clock - t ≤ ttl ∧
    quiet n (run (es1 ++ [Issue n t entropy]) (init max_size ttl)) es2) ∧
  (∀ m c entropy, (issue m c entropy s).2 = Ok (Sha.hex entropy)) ∧
  Z.of_nat (length (challenges s)) ≤ Z.max 0 max_size.
Proof.
  intros s Hacc. pose proof (run_ok es (init max_size ttl) (wf_init _ _)) as (Hwf & Hsize & Httl).
  fold s in Hwf, Hsize, Httl. split_and!.
  - apply (consume_spec n presented clock s Hwf) in Hacc as (_ & c & t & Hget & -> & Ht).
    apply pending_issued in Hget as (es1 & entropy & es2 & -> & -> & Hq).
    exists es1, t, entropy, es2. split_and!; [done..|by rewrite Httl in Ht|done].
  - intros m c entropy. by destruct (issue_spec m c entropy s Hwf) as (? & ? & ? & _).
  - destruct Hwf as (Hnd & Hsub & Hlen). rewrite Hsize in Hlen. cbn in Hlen.
    etrans; [|exact Hlen]. apply inj_le. rewrite <-(length_fmap fst).
    by apply submseteq_length, NoDup_submseteq.
Qed.

Lemma challenge_single_use_witness :
  let es := [Issue "a" 0 [1]; Issue "b" 1 [2]; Verify "a" (JStr "02") 2; Verify "b" (JStr "02") 3] in
  (∃ es1 t entropy es2, es = es1 ++ [Issue "a" t entropy] ++ es2 ∧
    JStr "01" = JStr (Sha.hex entropy) ∧ 60 - t ≤ 60 ∧
    quiet "a" (run (es1 ++ [Issue "a" t entropy]) (init 2 60)) es2) ∧
  (∀ m c entropy, (issue m c entropy (run es (init 2 60))).2 = Ok (Sha.hex entropy)) ∧
  Z.of_nat (length (challenges (run es (init 2 60)))) ≤ 2.
Proof. intros es. apply (challenge_single_use es "a" (JStr "01") 60 2 60). vm_compute. reflexivity. Defined.

(** An expired challenge leaves its place in the order behind, so a fresh
    challenge for the same node can be dropped before its time: with room for
    two, the node that asks again after its first challenge has expired loses
    the new one as soon as another node asks, and its correct answer is
    refused. *)
Theorem stale_order_entry_drops_challenge :
  let es := [Issue "a" 0 [1]; Verify "a" (JStr "01") 100; Issue "a" 101 [3]; Issue "b" 102 [2]] in
  let s := run es (init 2 60) in
  order s = ["a"; "b"] ∧ (challenges s).*1 = ["b"] ∧
  (verify_and_consume "a" (JStr "03") 103 s).2 = reject "No challenge was issued for this node_id.".
Proof. vm_compute. auto. Qed.

End ChallengeFacts.
