(* ===== verification/HandshakeFacts.v ===== *)
(** * What the envelopes guarantee

    An envelope this program builds is accepted by a peer of the same network;
    an accepted envelope is not accepted again while the replay cache remembers
    its nonce; and the cache can be made to forget. *)
From Stdlib Require Import Ascii.
From stdpp Require Import options.
From S2P Require Import Prelude PyText Json Utils Sha256 Wallet Transaction Handshake.

Local Open Scope Z_scope.

(** ** Generated identities *)

Section identities.
Context `{L : ECDSALaws}.

Lemma generate_key_pair id k i :
  P2PIdentity.generate id k = Ok i → 0 < k < SECP256K1_ORDER →
  P2PIdentity.node_id i = id ∧
  ∃ point, key_pair (P2PIdentity.private_key_hex i) (P2PIdentity.public_key_hex i) k point.
Proof.
  unfold P2PIdentity.generate, Wallet.derive_private_key. intros Hi Hk.
  destruct (public_numbers k) as [pub|] eqn:Hpub; [|done]. cbn [mbind res_bind] in Hi.
  apply res_bind_Ok in Hi as (priv & Hpriv & Hi). apply res_bind_Ok in Hi as (ph & Hph & Hi).
  apply (inj Ok) in Hi as <-. split; [done|]. exists pub.
  unfold key_pair. cbn [P2PIdentity.private_key_hex P2PIdentity.public_key_hex].
  split_and!; [|lia|lia|done|done].
  pose proof (hex32_range _ _ Hpriv). rewrite hex32_Ok in Hpriv by done.
  apply (inj Ok) in Hpriv as <-. apply fromhex_hex, Sha.be_bytes_range.
Qed.

Lemma key_pair_valid priv pub k point : key_pair priv pub k point → is_valid_public_key pub = true.
Proof using L.
  intros (_ & Hk & Hpub & Hhex). destruct (public_numbers_ok k Hk) as (x & y & Hxy & Hcurve & Hx & Hy).
  rewrite Hpub in Hxy. injection Hxy as ->. unfold Wallet.public_hex in Hhex. cbn [fst snd] in Hhex.
  rewrite !hex32_Ok in Hhex by lia. cbn [mbind res_bind] in Hhex. apply (inj Ok) in Hhex as <-.
  unfold is_valid_public_key. rewrite fromhex_pair.
  rewrite length_app, !Sha.length_be_bytes. cbn [Nat.add Nat.eqb negb].
  by rewrite int_take_pair, int_drop_pair by lia.
Qed.

Lemma identity_sign_verifies id k i message rnd :
  P2PIdentity.generate id k = Ok i → 0 < k < SECP256K1_ORDER →
  ∃ sig, P2PIdentity.sign i message rnd = Ok sig ∧
         verify_identity_signature (P2PIdentity.public_key_hex i) message sig = true.
Proof using L.
  intros Hi Hk. destruct (generate_key_pair id k i Hi Hk) as (_ & point & Hkp).
  by destruct (sign_with_verifies _ _ k point message rnd Hkp) as (sig & Hs & Hv); exists sig.
Qed.
End identities.

(** ** An envelope that is built is accepted *)

Section envelopes.
Context `{L : ECDSALaws}.

Lemma dict_index_get k d v : dict_get k d = Some v → dict_index k d = Ok v.
Proof. unfold dict_index. by intros ->. Qed.

(** The parties agree on the network. *)
Definition same_network (a b : AuthContext) : Prop :=
  network_name a = network_name b ∧ genesis_hash a = genesis_hash b.

(** The fields that are signed, as the sender and the receiver read them. *)
Definition signed_by (context : AuthContext) (clock : Z) (entropy : list Z) (payload : option py_dict)
    : py_dict :=
  unsigned_envelope context clock entropy ++ [("payload_hash", JStr (hash_of_payload payload))].

Lemma built_fields context clock entropy payload rest :
  signing_fields (unsigned_envelope context clock entropy ++ rest) (hash_of_payload payload) =
  Ok (signed_by context clock entropy payload).
Proof. reflexivity. Qed.

Lemma built_checks required context own clock entropy rest id k :
  P2PIdentity.generate id k = Ok (identity context) → 0 < k < SECP256K1_ORDER → id ≠ "" →
  same_network context own →
  forallb (λ k, bool_decide (is_Some (dict_get k (unsigned_envelope context clock entropy ++ rest)))) required
    = true →
  check_envelope required (unsigned_envelope context clock entropy ++ rest) own = Ok (inl id).
Proof using L.
  intros Hi Hk Hid [Hn Hg] Hreq. unfold check_envelope. rewrite Hreq. cbn [negb].
  destruct (generate_key_pair id k _ Hi Hk) as (Hnode & point & Hkp).
  apply key_pair_valid in Hkp.
  change (dict_index "protocol_name" _) with (Ok (JStr PROTOCOL_NAME)).
  change (dict_index "protocol_version" _) with (Ok (JStr "1.0")).
  change (dict_index "network_name" _) with (Ok (JStr (network_name context))).
  change (dict_index "genesis_hash" _) with (Ok (JStr (genesis_hash context))).
  change (dict_index "public_key" _) with (Ok (JStr (P2PIdentity.public_key_hex (identity context)))).
  change (dict_index "node_id" _) with (Ok (JStr (P2PIdentity.node_id (identity context)))).
  cbn [mbind res_bind]. change (differs (JStr PROTOCOL_NAME) PROTOCOL_NAME) with false.
  change (unsupported (JStr "1.0")) with (Ok false). cbn [mbind res_bind].
  unfold differs, valid_public_key. rewrite Hn, Hg, !String.eqb_refl, Hkp, Hnode. cbn [negb].
  unfold nonempty_string. by destruct (String.eqb_spec id "").
Qed.

Lemma built_accepted id k context own payload clock now window entropy rnd cache :
  P2PIdentity.generate id k = Ok (identity context) → 0 < k < SECP256K1_ORDER → id ≠ "" →
  same_network context own → Z.abs (now - clock) ≤ window → entropy ≠ [] →
  BoundedSet.contains cache (ReplayCache.key id (Sha.hex entropy)) = false →
  ∃ envelope, build_auth_envelope context payload clock entropy rnd = Ok envelope ∧
    verify_auth_envelope (JObj envelope) payload own window now cache =
      (BoundedSet.add (ReplayCache.key id (Sha.hex entropy)) cache, Ok accept).
Proof using L.
  intros Hi Hk Hid Hnet Hclock Hent Hnew.
  destruct (identity_sign_verifies id k _ (signing_message (signed_by context clock entropy payload)) rnd Hi Hk)
    as (sig & Hsig & Hver).
  assert (Hbuilt : build_auth_envelope context payload clock entropy rnd =
    Ok (unsigned_envelope context clock entropy ++ [("signature", JStr sig)])).
  { unfold build_auth_envelope. rewrite <-(app_nil_r (unsigned_envelope _ _ _)), built_fields.
    cbn [mbind res_bind]. rewrite Hsig. reflexivity. }
  eexists; split; [exact Hbuilt|]. unfold verify_auth_envelope.
  rewrite (built_checks _ _ _ _ _ _ _ _ Hi Hk Hid Hnet) by reflexivity.
  change (dict_index "timestamp" _) with (Ok (JNum (PFlt clock))). cbn [mbind res_bind py_float outside_window].
  destruct (Z.ltb_spec window (Z.abs (now - clock))); [lia|].
  change (dict_index "nonce" _) with (Ok (JStr (Sha.hex entropy))). cbv iota.
  assert (nonempty_string (JStr (Sha.hex entropy)) = Some (Sha.hex entropy)) as ->.
  { unfold nonempty_string. destruct entropy as [|b bs]; [done|]. reflexivity. }
  unfold ReplayCache.check_and_record. rewrite Hnew. cbn [negb].
  rewrite built_fields. cbn [mbind res_bind]. unfold check_signature.
  change (dict_index "public_key" _) with (Ok (JStr (P2PIdentity.public_key_hex (identity context)))).
  change (dict_index "signature" _) with (Ok (JStr sig)). cbn [mbind res_bind].
  by rewrite Hver.
Qed.

(** The fields of a handshake, signed with the challenge among them. *)
Definition handshake_fields (context : AuthContext) (clock : Z) (entropy : list Z) (challenge : string)
    : py_dict :=
  signed_by context clock entropy (Some (challenge_payload (JStr challenge))) ++ [("challenge", JStr challenge)].

Definition signed_handshake (context : AuthContext) (clock : Z) (entropy : list Z) (challenge sig : string)
    : py_dict :=
  unsigned_envelope context clock entropy ++ [("signature", JStr sig); ("challenge", JStr challenge)].

Lemma built_handshake id k context challenge clock entropy rnd rnd' :
  P2PIdentity.generate id k = Ok (identity context) → 0 < k < SECP256K1_ORDER →
  ∃ sig, build_handshake_envelope context (JStr challenge) clock entropy rnd rnd' =
      Ok (signed_handshake context clock entropy challenge sig) ∧
    verify_identity_signature (P2PIdentity.public_key_hex (identity context))
      (signing_message (handshake_fields context clock entropy challenge)) sig = true.
Proof using L.
  intros Hi Hk.
  destruct (identity_sign_verifies id k _ (signing_message (signed_by context clock entropy
    (Some (challenge_payload (JStr challenge))))) rnd Hi Hk) as (sig & Hsig & _).
  destruct (identity_sign_verifies id k _
    (signing_message (handshake_fields context clock entropy challenge)) rnd' Hi Hk) as (sig' & Hsig' & Hver).
  exists sig'. split; [|done]. unfold build_handshake_envelope, build_auth_envelope.
  rewrite <-(app_nil_r (unsigned_envelope _ _ _)), built_fields. cbn [mbind res_bind]. rewrite Hsig.
  cbn [mbind res_bind]. rewrite app_nil_r. unfold challenge_payload in *.
  change (dict_set "challenge" (JStr challenge) (dict_set "signature" (JStr sig)
    (unsigned_envelope context clock entropy))) with (signed_handshake context clock entropy challenge sig).
  change (signing_fields (signed_handshake _ _ _ _ _) _)
    with (Ok (signed_by context clock entropy (Some [("challenge", JStr challenge)]))). cbn [mbind res_bind].
  change (dict_set "challenge" _ (signed_by _ _ _ _)) with (handshake_fields context clock entropy challenge).
  rewrite Hsig'. reflexivity.
Qed.

(** It is accepted where the challenge is pending and has not expired. *)
Lemma built_handshake_accepted id k context own challenge clock entropy sig now store issued :
  P2PIdentity.generate id k = Ok (identity context) → 0 < k < SECP256K1_ORDER → id ≠ "" →
  same_network context own →
  verify_identity_signature (P2PIdentity.public_key_hex (identity context))
    (signing_message (handshake_fields context clock entropy challenge)) sig = true →
  dict_get id (ChallengeStore.challenges store) = Some (challenge, issued) →
  now - issued ≤ ChallengeStore.ttl store →
  (verify_handshake_envelope (JObj (signed_handshake context clock entropy challenge sig)) own now store).2 =
    Ok accept.
Proof using L.
  intros Hi Hk Hid Hnet Hver Hpending Hnow. unfold verify_handshake_envelope, signed_handshake.
  rewrite (built_checks _ _ _ _ _ _ _ _ Hi Hk Hid Hnet) by reflexivity.
  change (dict_index "challenge" _) with (Ok (JStr challenge)). cbv iota.
  unfold ChallengeStore.verify_and_consume. rewrite Hpending.
  destruct (Z.ltb_spec (ChallengeStore.ttl store) (now - issued)); [lia|].
  unfold differs. rewrite String.eqb_refl. cbn [negb accept].
  unfold challenge_payload. rewrite built_fields. cbn [mbind res_bind snd]. unfold check_signature.
  change (dict_set "challenge" _ (signed_by _ _ _ _)) with (handshake_fields context clock entropy challenge).
  change (dict_index "public_key" _) with (Ok (JStr (P2PIdentity.public_key_hex (identity context)))).
  change (dict_index "signature" _) with (Ok (JStr sig)). cbn [mbind res_bind]. by rewrite Hver.
Qed.

(** Envelopes work: one that [build_auth_envelope] makes with a generated
    identity is accepted by every node of the same network and genesis whose
    clock is within the freshness window and whose replay cache has not seen
    the nonce, for the same payload; and the nonce is recorded. *)
Theorem built_envelope_accepted id k context own payload clock now window entropy rnd cache :
  P2PIdentity.generate id k = Ok (identity context) → 0 < k < SECP256K1_ORDER → id ≠ "" →
  same_network context own → Z.abs (now - clock) ≤ window → entropy ≠ [] →
  BoundedSet.contains cache (ReplayCache.key id (Sha.hex entropy)) = false →
  ∃ envelope, build_auth_envelope context payload clock entropy rnd = Ok envelope ∧
    verify_auth_envelope (JObj envelope) payload own window now cache =
      (BoundedSet.add (ReplayCache.key id (Sha.hex entropy)) cache, Ok accept).
Proof using L. apply built_accepted. Qed.
End envelopes.

(** ** Replays *)

Section replays.
Context `{E : ECDSA} (context : AuthContext) (window : Z).

(** What the replay cache remembers an envelope by. *)
Definition nonce_key (envelope : json) : option string :=
  match envelope with
  | JObj kvs =>
      match dict_get "node_id" kvs, dict_get "nonce" kvs with
      | Some (JStr node_id), Some (JStr nonce) => Some (ReplayCache.key node_id nonce)
      | _, _ => None
      end
  | _ => None
  end.

Lemma nonempty_string_Some v s : nonempty_string v = Some s → v = JStr s.
Proof. destruct v; try done. cbn. destruct (String.eqb s0 ""); [done|]. congruence. Qed.

Lemma dict_index_Ok k d v : dict_index k d = Ok v → dict_get k d = Some v.
Proof. unfold dict_index. case_match; congruence. Qed.

Lemma check_envelope_node required kvs ctx node_id :
  check_envelope required kvs ctx = Ok (inl node_id) → dict_get "node_id" kvs = Some (JStr node_id).
Proof.
  unfold check_envelope. case_match; [done|].
  intros (name & _ & Hrest)%res_bind_Ok. case_match; [done|].
  apply res_bind_Ok in Hrest as (v & _ & Hrest). apply res_bind_Ok in Hrest as (bad & _ & Hrest).
  destruct bad; [done|].
  apply res_bind_Ok in Hrest as (? & _ & Hrest). apply res_bind_Ok in Hrest as (? & _ & Hrest).
  apply res_bind_Ok in Hrest as (? & _ & Hrest). apply res_bind_Ok in Hrest as (node & Hnode & Hrest).
  repeat (case_match; [done|]). case_match; [|done]. injection Hrest as ->.
  apply dict_index_Ok in Hnode. rewrite Hnode. f_equal. by apply nonempty_string_Some.
Qed.

Lemma check_envelope_refuses required kvs ctx v :
  check_envelope required kvs ctx = Ok (inr v) → v.1 = false.
Proof.
  unfold check_envelope. case_match; [by intros [= <-]|].
  intros (name & _ & Hrest)%res_bind_Ok. revert Hrest. case_match; [by intros [= <-]|].
  intros (u & _ & (bad & _ & Hrest)%res_bind_Ok)%res_bind_Ok. revert Hrest. destruct bad; [by intros [= <-]|].
  intros (? & _ & (? & _ & (? & _ & (node & _ & Hrest)%res_bind_Ok)%res_bind_Ok)%res_bind_Ok)%res_bind_Ok.
  revert Hrest. repeat case_match; by intros [= <-].
Qed.

(** A verification either leaves the cache alone and refuses, or records a key
    that was not there. *)
Lemma verify_cases envelope payload clock cache :
  let r := verify_auth_envelope envelope payload context window clock cache in
  (r.1 = cache ∧ r.2 ≠ Ok accept) ∨
  ∃ key, nonce_key envelope = Some key ∧ BoundedSet.contains cache key = false ∧
         r.1 = BoundedSet.add key cache.
Proof.
  cbv zeta. unfold verify_auth_envelope. destruct envelope as [| | | | |kvs]; try by left.
  destruct (check_envelope _ _ _) as [[node_id|v]|e] eqn:Hcheck.
  - apply check_envelope_node in Hcheck.
    destruct (dict_index "timestamp" kvs ≫= py_float) as [ts|[]]; try by left.
    destruct (outside_window _ _ _); [by left|].
    destruct (dict_index "nonce" kvs) as [nonce|] eqn:Hnonce; [|by left].
    apply dict_index_Ok in Hnonce.
    destruct (nonempty_string nonce) as [s|] eqn:Hs; [|by left]. apply nonempty_string_Some in Hs as ->.
    unfold ReplayCache.check_and_record.
    destruct (BoundedSet.contains cache _) eqn:Hc; [by left|]. right.
    exists (ReplayCache.key node_id s). unfold nonce_key. by rewrite Hcheck, Hnonce.
  - left. split; [done|]. intros [= ->]. by apply check_envelope_refuses in Hcheck.
  - by left.
Qed.

Lemma check_signature_accepts kvs fields v :
  check_signature kvs fields = Ok v → v.1 = true →
  ∃ key sig, dict_get "public_key" kvs = Some (JStr key) ∧ dict_get "signature" kvs = Some (JStr sig) ∧
    verify_identity_signature key (signing_message fields) sig = true.
Proof.
  unfold check_signature. intros (key & Hkey%dict_index_Ok & Hsig)%res_bind_Ok Hv.
  apply res_bind_Ok in Hsig as (sig & Hs%dict_index_Ok & Hsig).
  destruct key as [| | |key| |]; try (injection Hsig as <-; done).
  destruct sig as [| | |sig| |]; try (injection Hsig as <-; done).
  destruct (verify_identity_signature key (signing_message fields) sig) eqn:Hver; cbn in Hsig;
    injection Hsig as <-; [|done]. by exists key, sig.
Qed.

Lemma check_signature_reason kvs fields reason :
  check_signature kvs fields = Ok (true, reason) → reason = "".
Proof.
  unfold check_signature. intros (key & _ & (sig & _ & Hsig)%res_bind_Ok)%res_bind_Ok.
  destruct key, sig; try done. by destruct (verify_identity_signature _ _ _); injection Hsig.
Qed.

(** Who signed what, of an accepted envelope. *)
Lemma verify_accepted envelope payload clock cache cache' reason :
  verify_auth_envelope envelope payload context window clock cache = (cache', Ok (true, reason)) →
  reason = "" ∧ ∃ kvs node_id key sig fields, envelope = JObj kvs ∧
    dict_get "node_id" kvs = Some (JStr node_id) ∧
    dict_get "public_key" kvs = Some (JStr key) ∧ dict_get "signature" kvs = Some (JStr sig) ∧
    signing_fields kvs (hash_of_payload payload) = Ok fields ∧
    verify_identity_signature key (signing_message fields) sig = true.
Proof.
  unfold verify_auth_envelope. destruct envelope as [| | | | |kvs]; try done.
  destruct (check_envelope _ _ _) as [[node_id|v]|e] eqn:Hcheck; [| |done].
  2: { intros [= _ ->]. apply check_envelope_refuses in Hcheck. done. }
  apply check_envelope_node in Hcheck.
  destruct (dict_index "timestamp" kvs ≫= py_float) as [ts|[]]; try done.
  destruct (outside_window _ _ _); [done|]. destruct (dict_index "nonce" kvs) as [nonce|]; [|done].
  destruct (nonempty_string nonce); [|done].
  destruct (ReplayCache.check_and_record _ _ _) as [c []]; [|done]. cbn [negb].
  intros [= _ (fields & Hf & Hsig)%res_bind_Ok].
  split; [by eapply check_signature_reason|].
  destruct (check_signature_accepts _ _ _ Hsig eq_refl) as (key & sig & ? & ? & ?).
  by exists kvs, node_id, key, sig, fields.
Qed.

(** An accepted handshake: the challenge was issued to that very name, is
    still pending and not expired, and is signed by the key of the envelope. *)
Definition handshake_proven (kvs : py_dict) (clock : Z) (store : ChallengeStore.t) (node_id key : string) : Prop :=
  ∃ challenge issued sig fields,
    dict_get "node_id" kvs = Some (JStr node_id) ∧ dict_get "public_key" kvs = Some (JStr key) ∧
    dict_get "signature" kvs = Some (JStr sig) ∧ dict_get "challenge" kvs = Some (JStr challenge) ∧
    dict_get node_id (ChallengeStore.challenges store) = Some (challenge, issued) ∧
    clock - issued ≤ ChallengeStore.ttl store ∧
    signing_fields kvs (hash_of_payload (Some (challenge_payload (JStr challenge)))) = Ok fields ∧
    verify_identity_signature key (signing_message (dict_set "challenge" (JStr challenge) fields)) sig = true.

Lemma verify_handshake_accepted kvs clock store store' v :
  verify_handshake_envelope (JObj kvs) context clock store = (store', Ok v) → v.1 = true →
  ∃ node_id key, handshake_proven kvs clock store node_id key.
Proof.
  unfold verify_handshake_envelope.
  destruct (check_envelope _ _ _) as [[node_id|u]|e] eqn:Hcheck; [| |done].
  2: { intros [= _ <-]. apply check_envelope_refuses in Hcheck. by rewrite Hcheck. }
  apply check_envelope_node in Hcheck.
  destruct (dict_index "challenge" kvs) as [presented|] eqn:Hp; [|done]. apply dict_index_Ok in Hp.
  unfold ChallengeStore.verify_and_consume.
  destruct (dict_get node_id _) as [[challenge issued]|] eqn:Hpend; [|by intros [= _ <-]].
  destruct (Z.ltb_spec (ChallengeStore.ttl store) (clock - issued)); [by intros [= _ <-]|].
  destruct (differs presented challenge) eqn:Hd; [by intros [= _ <-]|].
  assert (presented = JStr challenge) as ->.
  { destruct presented as [| | |p| |]; try done. cbn in Hd. by destruct (String.eqb_spec p challenge) as [->|]. }
  cbn [negb accept]. intros Hr Hv.
  assert (Hsig : ∃ fields, signing_fields kvs (hash_of_payload (Some (challenge_payload (JStr challenge)))) = Ok fields ∧
    check_signature kvs (dict_set "challenge" (JStr challenge) fields) = Ok v).
  { injection Hr as _ Hr. by apply res_bind_Ok in Hr. }
  destruct Hsig as (fields & Hf & Hsig). destruct (check_signature_accepts _ _ _ Hsig Hv) as (key & sig & ? & ? & ?).
  exists node_id, key, challenge, issued, sig, fields. by split_and!.
Qed.

(** An inbound envelope with its payload and the time it is looked at. *)
Record attempt := Attempt { a_envelope : json; a_payload : option py_dict; a_clock : Z }.

Definition attempts (l : list attempt) (cache : ReplayCache.t) : ReplayCache.t :=
  foldl (λ c a, (verify_auth_envelope (a_envelope a) (a_payload a) context window (a_clock a) c).1) cache l.

Lemma attempts_adds l cache :
  ∃ ys, (length ys ≤ length l)%nat ∧ attempts l cache = BoundedSet.adds ys cache.
Proof.
  revert cache. induction l as [|a l IH]; intros cache; [by exists []|].
  change (attempts (a :: l) cache) with (attempts l
    (verify_auth_envelope (a_envelope a) (a_payload a) context window (a_clock a) cache).1).
  destruct (verify_cases (a_envelope a) (a_payload a) (a_clock a) cache) as [[-> _]|(key & _ & _ & ->)].
  - destruct (IH cache) as (ys & ? & ->). exists ys. split; [cbn [length]; lia|done].
  - destruct (IH (BoundedSet.add key cache)) as (ys & ? & ->). exists (key :: ys). cbn [length]. split; [lia|done].
Qed.

(** C27: A replayed request is refused: once an envelope has been accepted, no
    envelope of the same node with the same nonce is accepted, whatever it
    carries and whenever it comes, as long as fewer other requests than the
    capacity of the replay cache have been looked at in between. *)
Theorem replay_refused envelope payload clock cache cache' l envelope' payload' clock' :
  BoundedSet.wf cache →
  verify_auth_envelope envelope payload context window clock cache = (cache', Ok accept) →
  nonce_key envelope' = nonce_key envelope →
  Z.of_nat (length l) < BoundedSet.max_size cache →
  (verify_auth_envelope envelope' payload' context window clock' (attempts l cache')).2 ≠ Ok accept.
Proof.
  intros Hwf Hv Hkey Hl.
  destruct (verify_cases envelope payload clock cache) as [[_ Hno]|(key & Hk & Hfresh & Hc)];
    rewrite Hv in *; [done|]. cbn [fst] in Hc. subst cache'.
  destruct (attempts_adds l (BoundedSet.add key cache)) as (ys & Hys & ->).
  destruct (verify_cases envelope' payload' clock' (BoundedSet.adds ys (BoundedSet.add key cache)))
    as [[_ Hno]|(key' & Hk' & Hfresh' & _)]; [done|].
  rewrite Hk', Hk in Hkey. injection Hkey as ->.
  rewrite BoundedSet.adds_keep in Hfresh'; [done|done|lia].
Qed.
End replays.

(** ** Samples and witnesses *)

#[local] Existing Instance ToyECDSA.ecdsa.

Definition toy_identity (id : string) (k : Z) : P2PIdentity.t :=
  match P2PIdentity.generate id k with Ok i => i | Err _ => P2PIdentity.Make "" "" "" end.

Definition toy_context (id : string) (k : Z) (address : string) : AuthContext := {|
  identity := toy_identity id k;
  network_name := "sayanjali-mainnet-mvp";
  genesis_hash := "5c95d2d7b63bde94fbfcfe4c2a95850ca96e0fc649e93e545b8b32f3a9c7cc1b";
  advertised_address := address;
  capabilities := ["blocks"; "transactions"; "sync"];
|}.

Definition peer_context : AuthContext := toy_context "peer" 7 "http://10.0.0.2:8000".
Definition own_context : AuthContext := toy_context "node" 9 "http://10.0.0.1:8000".

Definition built (payload : option py_dict) (clock : Z) (entropy : list Z) : py_dict :=
  match build_auth_envelope peer_context payload clock entropy 0 with Ok e => e | Err _ => [] end.

Definition sample_envelope : py_dict := Eval vm_compute in built None (1735700000 * ticks) [1; 2; 3].

Lemma built_envelope_accepted_witness :
  ∃ envelope, build_auth_envelope peer_context None (1735700000 * ticks) [1; 2; 3] 0 = Ok envelope ∧
    verify_auth_envelope (JObj envelope) None own_context (300 * ticks) (1735700100 * ticks) (ReplayCache.init 10) =
      (BoundedSet.add (ReplayCache.key "peer" "010203") (ReplayCache.init 10), Ok accept).
Proof.
  refine (built_envelope_accepted (L := ToyECDSA.ecdsa_laws) "peer" 7 peer_context own_context None
    (1735700000 * ticks) (1735700100 * ticks) (300 * ticks) [1; 2; 3] 0 (ReplayCache.init 10) _ _ _ _ _ _ _).
  - vm_compute. reflexivity.
  - split; vm_compute; reflexivity.
  - discriminate.
  - split; reflexivity.
  - vm_compute. discriminate.
  - discriminate.
  - vm_compute. reflexivity.
Defined.

Definition sample_cache : ReplayCache.t :=
  BoundedSet.add (ReplayCache.key "peer" "010203") (ReplayCache.init 2).

Lemma sample_accepted :
  verify_auth_envelope (JObj sample_envelope) None own_context (300 * ticks) (1735700000 * ticks) (ReplayCache.init 2) =
  (sample_cache, Ok accept).
Proof. vm_compute. reflexivity. Qed.

(** The same envelope under another nonce: its signature is wrong. *)
Definition forged (nonce : string) : json := JObj (dict_set "nonce" (JStr nonce) sample_envelope).

Lemma replay_refused_witness :
  (verify_auth_envelope (JObj sample_envelope) None own_context (300 * ticks) (1735700005 * ticks)
     (attempts own_context (300 * ticks) [Attempt (forged "aa") None (1735700001 * ticks)] sample_cache)).2 ≠ Ok accept.
Proof.
  exact (replay_refused own_context (300 * ticks) (JObj sample_envelope) None (1735700000 * ticks) (ReplayCache.init 2)
    sample_cache [Attempt (forged "aa") None (1735700001 * ticks)] (JObj sample_envelope) None (1735700005 * ticks)
    (BoundedSet.set_wf_init 2) sample_accepted eq_refl eq_refl).
Defined.

(** The nonce is recorded before the signature is checked, so anyone can
    make the cache forget: after as many envelopes with wrong signatures as the
    cache has room for, each of them refused, the captured envelope is accepted
    a second time inside its freshness window. *)
Theorem forged_nonces_reopen_replay :
  verify_auth_envelope (JObj sample_envelope) None own_context (300 * ticks) (1735700000 * ticks) (ReplayCache.init 2) =
    (sample_cache, Ok accept) ∧
  Forall (λ n, ∀ cache, BoundedSet.contains cache (ReplayCache.key "peer" n) = false →
    (verify_auth_envelope (forged n) None own_context (300 * ticks) (1735700001 * ticks) cache).2 =
      Ok (reject "Invalid signature.")) ["aa"; "bb"] ∧
  (verify_auth_envelope (JObj sample_envelope) None own_context (300 * ticks) (1735700002 * ticks)
     (attempts own_context (300 * ticks) [Attempt (forged "aa") None (1735700001 * ticks); Attempt (forged "bb") None (1735700001 * ticks)]
        sample_cache)).2 = Ok accept.
Proof.
  split_and!; [exact sample_accepted| |vm_compute; reflexivity].
  repeat constructor; intros cache Hc; unfold verify_auth_envelope, forged.
  all: match goal with |- context [check_envelope ?r ?e ?c] =>
    assert (check_envelope r e c = Ok (inl "peer")) as -> by (vm_compute; reflexivity) end.
  all: change (dict_index "timestamp" _) with (Ok (JNum (PFlt (1735700000 * ticks)))).
  all: cbn [mbind res_bind py_float].
  all: unfold outside_window; rewrite (proj2 (Z.ltb_ge _ _)) by (vm_compute; discriminate).
  1: change (dict_index "nonce" _) with (Ok (JStr "aa")).
  2: change (dict_index "nonce" _) with (Ok (JStr "bb")).
  all: cbv iota; unfold ReplayCache.check_and_record; cbn [nonempty_string String.eqb]; rewrite Hc; cbn [negb snd].
  all: vm_compute; reflexivity.
Qed.
