(* ===== verification/PeerStore.v ===== *)
(** * blockchain/storage.py: the peer, identity and credential tables

    The tables the network layer keeps beside the chain, over the same [Sql]
    interface.  [upsert] is the pattern two of the operations share: select by
    the key, then insert or update; with the laws of the engine it acts on the
    table as an update of a finite map does. *)
From Stdlib Require Import Ascii.
From stdpp Require Import options.
From S2P Require Import Prelude PyText Json Wallet Mempool Sql Storage.

Local Open Scope Z_scope.
#[local] Set Default Proof Using "Type*".

(** ** Rows *)

Record PeerRow := {
  pr_address : string;
  pr_node_id : option string;
  pr_status : string;
  pr_last_seen : option pynum;
  pr_registered_at : pynum;
}.

Record NodeIdentityRow := { ni_node_id : string; ni_created_at : pynum }.

Record P2PIdentityRow := {
  pi_node_id : string;
  pi_private_key_hex : string;
  pi_public_key_hex : string;
  pi_created_at : pynum;
}.

Record CredentialRow := {
  cr_address : string;
  cr_node_id : string;
  cr_public_key_hex : string;
  cr_trusted : Z;
  cr_authenticated_at : pynum;
}.

#[export] Instance peer_schema : Schema PeerRow := {
  conflict r r' := String.eqb (pr_address r) (pr_address r');
  storable r := true;
}.
(** The key is a generated row number. *)
#[export] Instance node_identity_schema : Schema NodeIdentityRow := {
  conflict r r' := false;
  storable r := true;
}.
#[export] Instance p2p_identity_schema : Schema P2PIdentityRow := {
  conflict r r' := String.eqb (pi_node_id r) (pi_node_id r');
  storable r := true;
}.
#[export] Instance credential_schema : Schema CredentialRow := {
  conflict r r' := String.eqb (cr_address r) (cr_address r');
  storable r := int64 (cr_trusted r);
}.

Section peer_tables.
Context {T : Type → Type} `{Sql T}.

Record PeerDB := {
  peers_table : T PeerRow;
  node_identity_table : T NodeIdentityRow;
  p2p_identity_table : T P2PIdentityRow;
  peer_credentials_table : T CredentialRow;
}.

Definition empty_peer_db : PeerDB :=
  {| peers_table := tbl_empty; node_identity_table := tbl_empty;
     p2p_identity_table := tbl_empty; peer_credentials_table := tbl_empty |}.

Definition set_peers (t : T PeerRow) (db : PeerDB) : PeerDB :=
  {| peers_table := t; node_identity_table := node_identity_table db;
     p2p_identity_table := p2p_identity_table db;
     peer_credentials_table := peer_credentials_table db |}.
Definition set_node_identity (t : T NodeIdentityRow) (db : PeerDB) : PeerDB :=
  {| peers_table := peers_table db; node_identity_table := t;
     p2p_identity_table := p2p_identity_table db;
     peer_credentials_table := peer_credentials_table db |}.
Definition set_p2p_identity (t : T P2PIdentityRow) (db : PeerDB) : PeerDB :=
  {| peers_table := peers_table db; node_identity_table := node_identity_table db;
     p2p_identity_table := t; peer_credentials_table := peer_credentials_table db |}.
Definition set_credentials (t : T CredentialRow) (db : PeerDB) : PeerDB :=
  {| peers_table := peers_table db; node_identity_table := node_identity_table db;
     p2p_identity_table := p2p_identity_table db; peer_credentials_table := t |}.

(** The row of a key, then an insert or an update of it. *)
Definition select_key {Row} (key : Row → string) (k : string) (t : T Row) : list Row :=
  tbl_select (λ r, String.eqb (key r) k) t.

Definition upsert {Row} `{Schema Row} (key : Row → string) (k : string) (new : Row)
    (update : Row → Row) (t : T Row) : res (T Row) :=
  match select_key key k t with
  | [] => insert_row new t
  | _ :: _ =>
      match tbl_update (λ r, String.eqb (key r) k) update t with
      | Some t' => Ok t'
      | None => Err integrity_error
      end
  end.

(** ** This node *)

(** [fresh] is what [uuid.uuid4().hex] gives. *)
Definition get_or_create_node_id (fresh : string) (clock : Z) (db : PeerDB) : res (string * PeerDB) :=
  match rows (node_identity_table db) with
  | r :: _ => Ok (ni_node_id r, db)
  | [] =>
      t ← insert_row {| ni_node_id := fresh; ni_created_at := PFlt clock |} (node_identity_table db);
      Ok (fresh, set_node_identity t db)
  end.

(** [scalar] is the key the library generates. *)
Definition get_or_create_p2p_identity `{E : ECDSA} (node_id : string) (scalar clock : Z) (db : PeerDB)
    : res (string * string * PeerDB) :=
  match select_key pi_node_id node_id (p2p_identity_table db) with
  | r :: _ => Ok (pi_private_key_hex r, pi_public_key_hex r, db)
  | [] =>
      i ← P2PIdentity.generate node_id scalar;
      t ← insert_row {| pi_node_id := node_id;
                        pi_private_key_hex := P2PIdentity.private_key_hex i;
                        pi_public_key_hex := P2PIdentity.public_key_hex i;
                        pi_created_at := PFlt clock |} (p2p_identity_table db);
      Ok (P2PIdentity.private_key_hex i, P2PIdentity.public_key_hex i, set_p2p_identity t db)
  end.

(** ** Peers *)

Definition upsert_peer (address : string) (node_id : option string) (status : string)
    (last_seen : option pynum) (clock : Z) (db : PeerDB) : res PeerDB :=
  t ← upsert pr_address address
        {| pr_address := address; pr_node_id := node_id; pr_status := status;
           pr_last_seen := num_float <$> last_seen; pr_registered_at := PFlt clock |}
        (λ r, {| pr_address := pr_address r;
                 pr_node_id := match node_id with Some _ => node_id | None => pr_node_id r end;
                 pr_status := status;
                 pr_last_seen := match last_seen with
                                 | Some x => Some (num_float x) | None => pr_last_seen r end;
                 pr_registered_at := pr_registered_at r |})
        (peers_table db);
  Ok (set_peers t db).

(** Most recently registered first. *)
Definition list_peers (db : PeerDB) : list PeerRow :=
  sorted_by (λ r, num_sub (PInt 0) (pr_registered_at r)) (rows (peers_table db)).

Definition get_peer (address : string) (db : PeerDB) : option PeerRow :=
  head (select_key pr_address address (peers_table db)).

Definition peer_count (db : PeerDB) : Z := Z.of_nat (length (rows (peers_table db))).

Definition remove_peer (address : string) (db : PeerDB) : PeerDB :=
  set_peers (tbl_delete (λ r, String.eqb (pr_address r) address) (peers_table db)) db.

(** ** Credentials *)

Definition get_peer_credential (address : string) (db : PeerDB) : option CredentialRow :=
  head (select_key cr_address address (peer_credentials_table db)).

Definition upsert_peer_credential (address node_id public_key_hex : string) (trusted : bool)
    (clock : Z) (db : PeerDB) : res PeerDB :=
  let row := {| cr_address := address; cr_node_id := node_id; cr_public_key_hex := public_key_hex;
                cr_trusted := if trusted then 1 else 0; cr_authenticated_at := PFlt clock |} in
  t ← upsert cr_address address row (λ _, row) (peer_credentials_table db);
  Ok (set_credentials t db).

Definition is_peer_trusted (address : string) (db : PeerDB) : bool :=
  match get_peer_credential address db with
  | Some c => negb (cr_trusted c =? 0)
  | None => false
  end.
End peer_tables.
Arguments PeerDB T : clear implicits.

(** ** Upserts act as updates of a finite map *)

Section keyed.
Context {T : Type → Type} `{SqlLaws T}.
Context {Row : Type} `{Schema Row} (key : Row → string).
Hypothesis conflict_key : ∀ r r', conflict r r' = String.eqb (key r) (key r').

(** At most one row for a key. *)
Definition keyed (t : T Row) : Prop := NoDup (key <$> rows t).

Lemma keyed_unique t r r' : keyed t → r ∈ rows t → r' ∈ rows t → key r = key r' → r = r'.
Proof.
  unfold keyed. generalize (rows t). induction l as [|x l IH]; [set_solver|].
  rewrite fmap_cons, NoDup_cons. intros [Hx Hl] Hr Hr' E.
  apply elem_of_cons in Hr as [->|Hr], Hr' as [->|Hr']; [done| | |by apply IH].
  - destruct Hx. rewrite E. by apply list_elem_of_fmap_2.
  - destruct Hx. rewrite <-E. by apply list_elem_of_fmap_2.
Qed.

Lemma elem_of_select k t r : r ∈ select_key key k t ↔ r ∈ rows t ∧ key r = k.
Proof.
  unfold select_key. rewrite select_rows. unfold where_rows. rewrite list_elem_of_filter.
  rewrite String.eqb_eq. tauto.
Qed.

Lemma lookup_select k t r : keyed t → head (select_key key k t) = Some r ↔ r ∈ rows t ∧ key r = k.
Proof.
  intros Hk. rewrite <-elem_of_select. pose proof (elem_of_select k t) as Hsel.
  destruct (select_key key k t) as [|x l]; [set_solver|]. cbn. split; [intros [= ->]; left|].
  intros Hr. f_equal. apply (keyed_unique t); [done| | |].
  - apply Hsel. left.
  - by apply Hsel.
  - apply Hsel in Hr as [_ ->]. apply (Hsel x). left.
Qed.

Lemma select_nil k t : select_key key k t = [] ↔ k ∉ key <$> rows t.
Proof.
  pose proof (elem_of_select k t) as Hsel. split.
  - intros E (r & -> & Hr)%list_elem_of_fmap. rewrite E in Hsel.
    by apply (not_elem_of_nil r), Hsel.
  - intros Hk. destruct (select_key key k t) as [|x l]; [done|]. destruct Hk.
    destruct (proj1 (Hsel x)) as [Hx <-]; [left|]. by apply list_elem_of_fmap_2.
Qed.

(** [t'] is [t] with the row of [k] inserted or updated. *)
Record upserted (k : string) (new : Row) (update : Row → Row) (t t' : T Row) : Prop := {
  up_keyed : keyed t';
  up_lookup : ∀ k', head (select_key key k' t') =
    if decide (k' = k) then Some (default new (update <$> head (select_key key k t)))
    else head (select_key key k' t);
  up_length : length (rows t') = (length (rows t) + if decide (k ∈ key <$> rows t) then 0 else 1)%nat;
}.

Lemma upsert_insert k new update t :
  keyed t → key new = k → storable new = true → select_key key k t = [] →
  ∃ t', insert_row new t = Ok t' ∧ upserted k new update t t'.
Proof.
  intros Hk Hnew Hst Hsel0. pose proof Hsel0 as Hsel.
  apply select_nil in Hsel. unfold insert_row.
  destruct (tbl_insert new t) as [t'|] eqn:Hins.
  2: { apply insert_none in Hins as [?|(r & Hr & Hc)]; [congruence|]. destruct Hsel.
       rewrite conflict_key, String.eqb_eq in Hc. rewrite <-Hnew, Hc. by apply list_elem_of_fmap_2. }
  apply insert_some in Hins. exists t'. assert (Hk' : keyed t').
  { unfold keyed. rewrite Hins, fmap_cons, NoDup_cons, Hnew. done. }
  split; [done|]. split; [done| |].
  + intros k'. apply option_eq. intros r. rewrite lookup_select, Hins, elem_of_cons by done.
    destruct (decide (k' = k)) as [->|Hne].
    * rewrite Hsel0. cbn. split; [intros [[->|Hr] E]; [done|]|intros [= ->]; by auto].
      destruct Hsel. rewrite <-E. by apply list_elem_of_fmap_2.
    * rewrite lookup_select by done. naive_solver.
  + rewrite Hins, decide_False by done. cbn. lia.
Qed.

Lemma upsert_update k new update t x l :
  keyed t → (∀ r, key r = k → key (update r) = k ∧ storable (update r) = true) →
  select_key key k t = x :: l →
  ∃ t', tbl_update (λ r, String.eqb (key r) k) update t = Some t' ∧ upserted k new update t t'.
Proof.
  intros Hk Hupd Hsel.
  assert (Hin : k ∈ key <$> rows t).
  { destruct (decide (k ∈ key <$> rows t)) as [|Hno]; [done|]. apply select_nil in Hno. congruence. }
  destruct (tbl_update _ update t) as [t'|] eqn:Hup.
  2: { apply update_none in Hup as (r & _ & Hr%String.eqb_eq & Hs).
       - destruct (Hupd r Hr). congruence.
       - intros r r' Hr%String.eqb_eq. rewrite !conflict_key. destruct (Hupd r Hr) as [-> _]. by rewrite Hr. }
  apply update_some in Hup. exists t'.
  assert (Hkeys : key <$> ((λ r, if String.eqb (key r) k then update r else r) <$> rows t) = key <$> rows t).
  { rewrite <-list_fmap_compose. apply list_fmap_ext. intros i r _. cbn.
    destruct (String.eqb_spec (key r) k) as [Hr|]; [|done]. by destruct (Hupd r Hr) as [-> _]. }
  assert (Hk' : keyed t') by (unfold keyed; by rewrite Hup, Hkeys).
  split; [done|]. split; [done| |].
  + intros k'. apply option_eq. intros r.
    rewrite lookup_select, Hup by done. rewrite list_elem_of_fmap.
    assert (Hx : x ∈ rows t ∧ key x = k) by (apply elem_of_select; rewrite Hsel; left).
    destruct Hx as [Hx Hxk]. rewrite Hsel. destruct (decide (k' = k)) as [->|Hne]; cbn.
    * split.
      -- intros [(y & -> & Hy) Hyk]. destruct (String.eqb_spec (key y) k) as [E|]; [|done].
         f_equal. f_equal. apply (keyed_unique t); [done..|congruence].
      -- intros [= <-]. destruct (Hupd x Hxk) as [Hux _]. split; [|done]. exists x.
         split; [|done]. by destruct (String.eqb_spec (key x) k).
    * rewrite lookup_select by done. split.
      -- intros [(y & -> & Hy) Hyk]. destruct (String.eqb_spec (key y) k) as [E|]; [|done].
         destruct (Hupd y E). congruence.
      -- intros [Hr E]. split; [|done]. exists r. split; [|done].
         destruct (String.eqb_spec (key r) k); [congruence|done].
  + rewrite Hup, length_fmap, decide_True by done. lia.
Qed.

Lemma upsert_ok k new update t :
  keyed t → key new = k → storable new = true →
  (∀ r, key r = k → key (update r) = k ∧ storable (update r) = true) →
  ∃ t', upsert key k new update t = Ok t' ∧ upserted k new update t t'.
Proof.
  intros Hk Hnew Hst Hupd. unfold upsert. destruct (select_key key k t) as [|x l] eqn:Hsel.
  - by apply upsert_insert.
  - destruct (upsert_update k new update t x l Hk Hupd Hsel) as (t' & -> & ?). by exists t'.
Qed.
End keyed.

(** ** The operations, as operations on maps *)

Section promises.
Context {T : Type → Type} `{SqlLaws T}.

(** One row for each address in both tables. *)
Definition peer_wf (db : PeerDB T) : Prop :=
  keyed pr_address (peers_table db) ∧ keyed cr_address (peer_credentials_table db).

Definition peer_known (address : string) (db : PeerDB T) : Prop :=
  address ∈ pr_address <$> rows (peers_table db).

#[global] Instance peer_known_dec address db : Decision (peer_known address db).
Proof. unfold peer_known. apply _. Defined.

Lemma peer_conflict (r r' : PeerRow) : conflict r r' = String.eqb (pr_address r) (pr_address r').
Proof. reflexivity. Qed.

Lemma credential_conflict (r r' : CredentialRow) :
  conflict r r' = String.eqb (cr_address r) (cr_address r').
Proof. reflexivity. Qed.

Lemma upsert_peer_ok address node_id status last_seen clock db :
  peer_wf db →
  ∃ db', upsert_peer address node_id status last_seen clock db = Ok db' ∧ peer_wf db' ∧
    peer_credentials_table db' = peer_credentials_table db ∧
    (∀ a, a ≠ address → get_peer a db' = get_peer a db) ∧
    (∃ r, get_peer address db' = Some r ∧ pr_address r = address ∧ pr_status r = status) ∧
    peer_count db' = peer_count db + (if decide (peer_known address db) then 0 else 1).
Proof.
  intros [Hp Hc]. unfold upsert_peer.
  match goal with |- context [upsert _ _ ?n ?u _] =>
    destruct (upsert_ok pr_address peer_conflict address n u (peers_table db)) as (t' & -> & [Hk Hl Hn]) end;
    [done|done|done|done|].
  cbn [mbind res_bind]. eexists; split; [done|]. unfold get_peer, peer_count, peer_known. cbn.
  split_and!; [by split|done| | |].
  - intros a Ha. by rewrite Hl, decide_False.
  - eexists. rewrite Hl, decide_True by done. split; [done|].
    destruct (head _) as [r|] eqn:E; [|done]. apply lookup_select in E as [_ E]; done.
  - rewrite Hn. repeat case_decide; first [done|lia].
Qed.

Lemma upsert_credential_ok address node_id public_key_hex trusted clock db :
  peer_wf db →
  ∃ db' c, upsert_peer_credential address node_id public_key_hex trusted clock db = Ok db' ∧
    peer_wf db' ∧ peers_table db' = peers_table db ∧
    get_peer_credential address db' = Some c ∧ cr_node_id c = node_id ∧
    cr_public_key_hex c = public_key_hex ∧ negb (cr_trusted c =? 0) = trusted ∧
    ∀ a, a ≠ address → get_peer_credential a db' = get_peer_credential a db.
Proof.
  intros [Hp Hc]. unfold upsert_peer_credential. set (row := Build_CredentialRow _ _ _ _ _).
  destruct (upsert_ok cr_address credential_conflict address row (λ _, row) (peer_credentials_table db))
    as (t' & -> & [Hk Hl _]); [done|done|by destruct trusted|by destruct trusted|].
  cbn [mbind res_bind]. eexists _, row; split; [done|].
  unfold get_peer_credential. cbn [peer_credentials_table set_credentials].
  split_and!; [by split|done| |done|done|by destruct trusted|].
  - rewrite Hl, decide_True by done. by destruct (head _).
  - intros a Ha. by rewrite Hl, decide_False.
Qed.

(** A credential is stored under its address and nowhere else: recording
    one succeeds, makes exactly that address answer with the new node, key and
    trust, whatever it answered before, and leaves the credentials of every
    other address and all peers as they are. *)
Theorem upsert_peer_credential_refines address node_id public_key_hex trusted clock db :
  peer_wf db →
  ∃ db', upsert_peer_credential address node_id public_key_hex trusted clock db = Ok db' ∧
    peer_wf db' ∧ peers_table db' = peers_table db ∧
    is_peer_trusted address db' = trusted ∧
    (∃ c, get_peer_credential address db' = Some c ∧ cr_node_id c = node_id ∧
          cr_public_key_hex c = public_key_hex) ∧
    ∀ a, a ≠ address → get_peer_credential a db' = get_peer_credential a db ∧
                       is_peer_trusted a db' = is_peer_trusted a db.
Proof.
  intros Hwf. destruct (upsert_credential_ok address node_id public_key_hex trusted clock db Hwf)
    as (db' & c & Hu & Hwf' & Hp & Hc & Hn & Hk & Ht & Ho).
  exists db'. unfold is_peer_trusted. split_and!; [done..| | |].
  - by rewrite Hc, Ht.
  - by exists c.
  - intros a Ha. by rewrite (Ho a Ha).
Qed.

Lemma insert_row_some {Row} `{Schema Row} (r : Row) (t t' : T Row) :
  insert_row r t = Ok t' → rows t' ≡ₚ r :: rows t.
Proof. unfold insert_row. destruct (tbl_insert r t) eqn:E; [|done]. intros [= ->]. by eapply insert_some. Qed.

Lemma node_id_stored fresh clock db id db' :
  get_or_create_node_id fresh clock db = Ok (id, db') →
  ∃ r l, rows (node_identity_table db') = r :: l ∧ ni_node_id r = id.
Proof.
  unfold get_or_create_node_id. destruct (rows (node_identity_table db)) as [|r l] eqn:Hr.
  - intros (t & Ht%insert_row_some & [= <- <-])%res_bind_Ok. rewrite Hr in Ht.
    apply Permutation_singleton_r in Ht. by eexists _, [].
  - intros [= <- <-]. by eexists _, _.
Qed.

Lemma p2p_identity_stored `{E : ECDSA} id scalar clock db priv pub db' :
  get_or_create_p2p_identity id scalar clock db = Ok (priv, pub, db') →
  node_identity_table db' = node_identity_table db ∧
  ∃ r l, select_key pi_node_id id (p2p_identity_table db') = r :: l ∧
         pi_private_key_hex r = priv ∧ pi_public_key_hex r = pub.
Proof.
  unfold get_or_create_p2p_identity.
  destruct (select_key pi_node_id id (p2p_identity_table db)) as [|r l] eqn:Hr.
  - intros (i & _ & (t & Ht%insert_row_some & Heq)%res_bind_Ok)%res_bind_Ok.
    injection Heq as <- <- <-. split; [done|]. cbn [p2p_identity_table set_p2p_identity].
    set (row := Build_P2PIdentityRow _ _ _ _) in Ht. exists row, []. split; [|done].
    apply Permutation_singleton_r. unfold select_key in *. rewrite select_rows. unfold where_rows.
    rewrite Ht, filter_cons_True by by apply String.eqb_eq.
    pose proof (select_rows (λ r, String.eqb (pi_node_id r) id) (p2p_identity_table db)) as Hold.
    rewrite Hr in Hold. apply Permutation_nil_l in Hold. unfold where_rows in Hold. by rewrite <-Hold.
  - intros [= <- <- <-]. split; [done|]. by eexists _, _.
Qed.

(** A node keeps its name and its key: once they have been read or
    created, every later call gives the same ones and leaves the database as it
    is, whatever fresh name, key or time it is offered. *)
Theorem identity_persists `{E : ECDSA} db fresh clock id db1 scalar clock1 priv pub db2 :
  get_or_create_node_id fresh clock db = Ok (id, db1) →
  get_or_create_p2p_identity id scalar clock1 db1 = Ok (priv, pub, db2) →
  ∀ fresh' scalar' clock', get_or_create_node_id fresh' clock' db2 = Ok (id, db2) ∧
    get_or_create_p2p_identity id scalar' clock' db2 = Ok (priv, pub, db2).
Proof.
  intros (r & l & Hr & Hrid)%node_id_stored (Hsame & r' & l' & Hr' & <- & <-)%p2p_identity_stored.
  intros fresh' scalar' clock'. unfold get_or_create_node_id, get_or_create_p2p_identity.
  by rewrite Hsame, Hr, Hr', Hrid.
Qed.
End promises.

(** ** Witnesses *)

#[local] Existing Instances ListSql.sql ListSql.sql_laws ToyECDSA.ecdsa.

Lemma empty_peer_wf : peer_wf (empty_peer_db : PeerDB ListSql.t).
Proof. split; constructor. Qed.

Lemma upsert_peer_credential_refines_witness :
  ∃ db', upsert_peer_credential "http://10.0.0.2:8000" "peer" "aa" true 5 (empty_peer_db : PeerDB ListSql.t)
    = Ok db' ∧ peer_wf db' ∧ peers_table db' = peers_table (empty_peer_db : PeerDB ListSql.t) ∧
    is_peer_trusted "http://10.0.0.2:8000" db' = true ∧
    (∃ c, get_peer_credential "http://10.0.0.2:8000" db' = Some c ∧ cr_node_id c = "peer" ∧
          cr_public_key_hex c = "aa") ∧
    ∀ a, a ≠ "http://10.0.0.2:8000" →
      get_peer_credential a db' = get_peer_credential a (empty_peer_db : PeerDB ListSql.t) ∧
      is_peer_trusted a db' = is_peer_trusted a (empty_peer_db : PeerDB ListSql.t).
Proof. exact (upsert_peer_credential_refines _ "peer" "aa" true 5 empty_peer_db empty_peer_wf). Defined.

(** The database of the first start: a name, then a key pair. *)
Definition named_db : PeerDB ListSql.t :=
  match get_or_create_node_id "n1" 5 empty_peer_db with Ok (_, db) => db | Err _ => empty_peer_db end.
Definition keyed_db : string * string * PeerDB ListSql.t :=
  match get_or_create_p2p_identity "n1" 7 6 named_db with
  | Ok r => r
  | Err _ => ("", "", empty_peer_db)
  end.

Lemma identity_persists_witness :
  get_or_create_node_id "n2" 9 keyed_db.2 = Ok ("n1", keyed_db.2) ∧
  get_or_create_p2p_identity "n1" 8 9 keyed_db.2 = Ok (keyed_db.1.1, keyed_db.1.2, keyed_db.2).
Proof.
  apply (identity_persists empty_peer_db "n1" 5 "n1" named_db 7 6 keyed_db.1.1 keyed_db.1.2 keyed_db.2);
    vm_compute; reflexivity.
Defined.
