(* ===== verification/Migration.v ===== *)
(** * blockchain/storage.py: opening a database of an older version

    Amounts were floats once.  [Storage] renames such a table, creates the
    current ones and copies the rows with their amounts in base units.  A
    [file] is what the database holds before it is opened.  What a failed
    transaction leaves behind depends on the driver: [ddl_commits] says that
    it carries out [ALTER] and [CREATE] at once, as Python's [sqlite3] does,
    so that a rollback only takes back the rows inserted since. *)
From stdpp Require Import options.
From S2P Require Import Prelude PyText Json NativeAsset Utils Sql Storage StorageFacts PeerStore.

Local Open Scope Z_scope.
#[local] Set Default Proof Using "Type*".

(** ** Old rows; an amount is the text [str] gives of the float *)

Record LegacyTxRow := {
  lt_tx_hash : string;
  lt_block_index : Z;
  lt_sender : string;
  lt_receiver : string;
  lt_amount : string;
  lt_timestamp : pynum;
  lt_sender_public_key : option string;
  lt_signature : option string;
}.

Record LegacyWalletRow := { lw_address : string; lw_balance : string }.

Definition convert_tx (r : LegacyTxRow) : res TxRow :=
  amount ← to_base_units (AStr (lt_amount r));
  Ok {| tr_tx_hash := lt_tx_hash r; tr_block_index := lt_block_index r; tr_sender := lt_sender r;
        tr_receiver := lt_receiver r; tr_amount_base_units := amount; tr_timestamp := lt_timestamp r;
        tr_sender_public_key := lt_sender_public_key r; tr_signature := lt_signature r |}.

Definition convert_wallet (r : LegacyWalletRow) : res WalletRow :=
  balance ← to_base_units (AStr (lw_balance r));
  Ok {| wr_address := lw_address r; wr_balance_base_units := balance |}.

(** ** One table and the name it is renamed to *)

(** What has the table's name, if anything does. *)
Inductive content (Old New : Type) :=
  | Missing
  | Old_columns (t : Old)
  | New_columns (t : New).
Arguments Missing {_ _}.
Arguments Old_columns {_ _}.
Arguments New_columns {_ _}.

Section migration.
Context {T : Type → Type} `{Sql T}.

Record table (Old New : Type) := Table {
  current : content (T Old) (T New);
  renamed : option (T Old);
}.
Arguments Table {_ _}.
Arguments current {_ _}.
Arguments renamed {_ _}.

(** [create_all] creates what is missing. *)
Definition create {Old New} (t : table Old New) : table Old New :=
  match current t with Missing => Table (New_columns tbl_empty) (renamed t) | _ => t end.

Fixpoint copy_rows {Old New} `{Schema New} (convert : Old → res New) (old : list Old) (t : T New)
    : res (T New) :=
  match old with
  | [] => Ok t
  | r :: old => r' ← convert r; t ← insert_row r' t; copy_rows convert old t
  end.

Record file := File {
  f_blocks : option (T BlockRow);
  f_transactions : table LegacyTxRow TxRow;
  f_wallets : table LegacyWalletRow WalletRow;
  f_peers : option (PeerDB T);
}.

Definition create_all (f : file) : file :=
  File (Some (default tbl_empty (f_blocks f))) (create (f_transactions f)) (create (f_wallets f))
    (Some (default empty_peer_db (f_peers f))).

Context (ddl_commits : bool).

(** The transaction that moves one table: [put] stores it in the file.  The
    result is the file left behind. *)
Definition migrate_table {Old New} `{Schema New} (convert : Old → res New)
    (get : file → table Old New) (put : table Old New → file → file) (f : file) : file * res () :=
  match current (get f) with
  | Old_columns old =>
      match renamed (get f) with
      | Some _ => (f, Err (Untyped "OperationalError"))
      | None =>
          let created := create_all (put (Table Missing (Some old)) f) in
          match copy_rows convert (rows old) tbl_empty with
          | Ok t => (put (Table (New_columns t) None) created, Ok tt)
          | Err e => (if ddl_commits then created else f, Err e)
          end
      end
  | _ => (f, Ok tt)
  end.

Definition put_transactions (t : table LegacyTxRow TxRow) (f : file) : file :=
  File (f_blocks f) t (f_wallets f) (f_peers f).
Definition put_wallets (t : table LegacyWalletRow WalletRow) (f : file) : file :=
  File (f_blocks f) (f_transactions f) t (f_peers f).

Definition migrate_legacy_monetary_schema (f : file) : file * res () :=
  match migrate_table convert_tx f_transactions put_transactions f with
  | (f, Ok _) => migrate_table convert_wallet f_wallets put_wallets f
  | (f, Err e) => (f, Err e)
  end.

(** The tables that [create_all] has left in place. *)
Definition opened (f : file) : res (DB T * PeerDB T) :=
  match f_blocks f, current (f_transactions f), current (f_wallets f), f_peers f with
  | Some blocks, New_columns txs, New_columns wallets, Some peers =>
      Ok ({| blocks_table := blocks; transactions_table := txs; wallets_table := wallets |}, peers)
  | _, _, _, _ => Err (Untyped "OperationalError")
  end.

(** [Storage(database_url)] *)
Definition open_storage (f : file) : file * res (DB T * PeerDB T) :=
  match migrate_legacy_monetary_schema f with
  | (f, Ok _) => let f := create_all f in (f, storage_error "Failed to initialize database: " (opened f))
  | (f, Err _) => (f, Err (StorageError "Failed to initialize database: "))
  end.
End migration.
Arguments table T Old New : clear implicits.
Arguments Table {T Old New}.
Arguments current {T Old New}.
Arguments renamed {T Old New}.
Arguments file T : clear implicits.
Arguments File {T}.

Section facts.
Context {T : Type → Type} `{SqlLaws T}.
Implicit Types (f : file T).

(** ** Copying rows *)

Lemma copy_rows_ok {Old New} `{Schema New} (convert : Old → res New) old new (t : T New) :
  Forall2 (λ o n, convert o = Ok n) old new → Forall (λ n, storable n = true) new →
  ForallOrdPairs (λ a b, conflict b a = false) new →
  Forall (λ b, ∀ a, a ∈ rows t → conflict b a = false) new →
  ∃ t', copy_rows convert old t = Ok t' ∧ rows t' ≡ₚ new ++ rows t.
Proof.
  intros Hnew. revert t. induction Hnew as [|o n old new Ho _ IH]; intros t Hs Hp Hf; [by exists t|].
  apply Forall_cons in Hs as [Hn Hs]. apply Forall_cons in Hf as [Hfn Hf].
  inversion Hp as [|? ? Hpn Hp']; subst. cbn [copy_rows]. rewrite Ho. cbn [mbind res_bind].
  assert (∃ t1, insert_row n t = Ok t1) as [t1 Hins].
  { unfold insert_row. destruct (tbl_insert n t) as [t1|] eqn:Hi; [by exists t1|].
    apply insert_none in Hi as [Hi|(a & Ha & Hc)]; [congruence|]. by rewrite Hfn in Hc. }
  rewrite Hins. cbn [mbind res_bind]. apply insert_row_some in Hins.
  destruct (IH t1) as (t' & Ht' & Hr); [done|done| |].
  - apply Forall_forall. intros b Hb a Ha. rewrite Hins in Ha. apply elem_of_cons in Ha as [->|Ha].
    + rewrite Forall_forall in Hpn. auto.
    + rewrite Forall_forall in Hf. eauto.
  - exists t'. split; [done|]. by rewrite Hr, Hins, <-Permutation_middle.
Qed.

Lemma copy_rows_fails {Old New} `{Schema New} (convert : Old → res New) old o (t : T New) :
  o ∈ old → is_ok (convert o) = false → ∃ e, copy_rows convert old t = Err e.
Proof.
  intros Ho He. revert t. induction old as [|o' old IH]; intros t; [by apply elem_of_nil in Ho|].
  cbn [copy_rows]. apply elem_of_cons in Ho as [<-|Ho].
  - destruct (convert o) as [n|e]; [done|by exists e].
  - destruct (convert o') as [n|e]; cbn [mbind res_bind]; [|by exists e].
    destruct (insert_row n t) as [t1|e]; cbn [mbind res_bind]; [auto|by exists e].
Qed.

(** ** Opening again *)

Lemma settled_open ddl_commits f d : opened f = Ok d → open_storage ddl_commits f = (f, Ok d).
Proof.
  intros Ho. unfold open_storage, migrate_legacy_monetary_schema, migrate_table.
  pose proof Ho as Ho'. unfold opened in Ho'.
  destruct f as [[blocks|] [[|old|txs] rt] [[|oldw|ws] rw] [peers|]]; try done.
  injection Ho as <-. reflexivity.
Qed.

Lemma migrate_current {Old New} `{Schema New} ddl_commits (convert : Old → res New)
    (get : file T → table T Old New) put f :
  (∀ old, current (get f) ≠ Old_columns old) → migrate_table ddl_commits convert get put f = (f, Ok tt).
Proof. intros Hc. unfold migrate_table. destruct (current (get f)) as [|old|t]; [done| |done]. by edestruct Hc. Qed.

Lemma NoDup_pairs {A B} (key : A → B) (l : list A) :
  NoDup (key <$> l) → ForallOrdPairs (λ a b, key b ≠ key a) l.
Proof.
  induction l as [|a l IH]; intros Hl; [constructor|]. rewrite fmap_cons in Hl.
  apply NoDup_cons in Hl as [Ha Hl]. constructor; [|auto].
  apply Forall_forall. intros b Hb E. apply Ha. rewrite <-E. by apply list_elem_of_fmap_2.
Qed.

Lemma copy_keyed {Old New K} `{Schema New} (convert : Old → res New) (key : Old → K) (key' : New → K) old new :
  (∀ o n, convert o = Ok n → key' n = key o) → (∀ a b, key' b ≠ key' a → conflict b a = false) →
  Forall2 (λ o n, convert o = Ok n) old new → Forall (λ n, storable n = true) new → NoDup (key <$> old) →
  ∃ t : T New, copy_rows convert old tbl_empty = Ok t ∧ rows t ≡ₚ new.
Proof.
  intros Hkey Hconf Hnew Hs Hnd.
  assert (Hkeys : key' <$> new = key <$> old).
  { clear -Hnew Hkey. induction Hnew as [|o n old new Ho _ IH]; [done|]. rewrite !fmap_cons. f_equal; auto. }
  rewrite <-Hkeys in Hnd. apply NoDup_pairs in Hnd.
  destruct (copy_rows_ok convert old new tbl_empty) as (t & Ht & Hr); [done|done| | |].
  - clear -Hnd Hconf. induction Hnd as [|a l Ha _ IH]; constructor; [|done]. eapply Forall_impl; [exact Ha|]. intros b Hb. by apply Hconf.
  - apply Forall_forall. intros b _ a Ha. rewrite rows_empty in Ha. by apply elem_of_nil in Ha.
  - exists t. split; [done|]. by rewrite Hr, rows_empty, app_nil_r.
Qed.

Lemma copy_txs old new :
  Forall2 (λ o n, convert_tx o = Ok n) old new → Forall (λ n, storable n = true) new →
  NoDup (lt_tx_hash <$> old) → ∃ t : T TxRow, copy_rows convert_tx old tbl_empty = Ok t ∧ rows t ≡ₚ new.
Proof.
  apply (copy_keyed convert_tx lt_tx_hash tr_tx_hash).
  - intros o n. unfold convert_tx. by intros (a & _ & [= <-])%res_bind_Ok.
  - intros a b Hab. by apply String.eqb_neq.
Qed.

Lemma copy_wallets old new :
  Forall2 (λ o n, convert_wallet o = Ok n) old new → Forall (λ n, storable n = true) new →
  NoDup (lw_address <$> old) → ∃ t : T WalletRow, copy_rows convert_wallet old tbl_empty = Ok t ∧ rows t ≡ₚ new.
Proof.
  apply (copy_keyed convert_wallet lw_address wr_address).
  - intros o n. unfold convert_wallet. by intros (a & _ & [= <-])%res_bind_Ok.
  - intros a b Hab. by apply String.eqb_neq.
Qed.

(** C39: A database of floats becomes one of base units: when every amount
    converts, and the keys are distinct as the tables require, opening it
    succeeds on any driver, with exactly the converted rows and the blocks it
    had, and opening it once more changes nothing. *)
Theorem migration_preserves ddl_commits f txs ws new_txs new_ws :
  current (f_transactions f) = Old_columns txs → renamed (f_transactions f) = None →
  current (f_wallets f) = Old_columns ws → renamed (f_wallets f) = None →
  Forall2 (λ o n, convert_tx o = Ok n) (rows txs) new_txs → NoDup (lt_tx_hash <$> rows txs) →
  Forall2 (λ o n, convert_wallet o = Ok n) (rows ws) new_ws → NoDup (lw_address <$> rows ws) →
  Forall (λ n, storable n = true) new_txs → Forall (λ n, storable n = true) new_ws →
  ∃ f' db p, open_storage ddl_commits f = (f', Ok (db, p)) ∧
    rows (transactions_table db) ≡ₚ new_txs ∧ rows (wallets_table db) ≡ₚ new_ws ∧
    blocks_table db = default tbl_empty (f_blocks f) ∧ p = default empty_peer_db (f_peers f) ∧
    open_storage ddl_commits f' = (f', Ok (db, p)).
Proof.
  destruct f as [blocks [ct rt] [cw rw] peers]; cbn. intros -> -> -> -> Htx Hndt Hw Hndw Hst Hsw.
  destruct (copy_txs _ _ Htx Hst Hndt) as (t & Ht & Hrt).
  destruct (copy_wallets _ _ Hw Hsw Hndw) as (w & Hcw & Hrw).
  set (f' := File (Some (default tbl_empty blocks)) (Table (New_columns t) None) (Table (New_columns w) None)
               (Some (default empty_peer_db peers))).
  set (d := ({| blocks_table := default tbl_empty blocks; transactions_table := t; wallets_table := w |},
             default empty_peer_db peers)).
  exists f', d.1, d.2. split_and!; [|done..|by apply settled_open].
  unfold open_storage, migrate_legacy_monetary_schema, migrate_table. cbn. rewrite Ht. cbn. by rewrite Hcw.
Qed.

(** The file after a failed transaction whose statements the driver carried
    out: the old transactions under the other name, the rest as it was. *)
Definition half_migrated txs f : file T :=
  File (Some (default tbl_empty (f_blocks f))) (Table (New_columns tbl_empty) (Some txs))
    (create (f_wallets f)) (Some (default empty_peer_db (f_peers f))).

(** The history is gone: no transactions, under an unchanged table of blocks. *)
Definition without_history blocks (db : DB T) : Prop :=
  blocks_table db = blocks ∧ rows (transactions_table db) = [] ∧ ∀ a, compute_balance_from_history a db = 0.

Lemma no_rows_no_history db : rows (transactions_table db) = [] → ∀ a, compute_balance_from_history a db = 0.
Proof.
  intros Hr a. assert (Hsel : ∀ p : TxRow → bool, tbl_select p (transactions_table db) = []).
  { intros p. apply Permutation_nil_r. by rewrite select_rows, Hr. }
  unfold compute_balance_from_history. by rewrite !Hsel.
Qed.

Lemma transactions_fail ddl_commits f txs bad :
  current (f_transactions f) = Old_columns txs → renamed (f_transactions f) = None →
  bad ∈ rows txs → is_ok (convert_tx bad) = false →
  open_storage ddl_commits f =
    (if ddl_commits then half_migrated txs f else f, Err (StorageError "Failed to initialize database: ")).
Proof.
  destruct f as [blocks [ct rt] [cw rw] peers]; cbn. intros -> -> Hbad Hbad'.
  destruct (copy_rows_fails convert_tx (rows txs) bad (tbl_empty : T TxRow) Hbad Hbad') as [e He].
  unfold open_storage, migrate_legacy_monetary_schema, migrate_table. cbn. rewrite He. by destruct ddl_commits.
Qed.

(** The wallets of such a file are migrated, or left under the other name; the
    opening after that finds only current tables. *)
Lemma half_migrated_opens txs f :
  (∀ ws, current (f_wallets f) = Old_columns ws → renamed (f_wallets f) = None) →
  ∃ f2, (f2 = half_migrated txs f ∨
         open_storage true (half_migrated txs f) = (f2, Err (StorageError "Failed to initialize database: "))) ∧
    ∃ f3 db p, open_storage true f2 = (f3, Ok (db, p)) ∧ opened f3 = Ok (db, p) ∧
      renamed (f_transactions f3) = Some txs ∧ blocks_table db = default tbl_empty (f_blocks f) ∧
      transactions_table db = tbl_empty.
Proof.
  destruct f as [blocks [ct rt] [cw rw] peers]; cbn. intros Hw. set (f1 := half_migrated _ _).
  destruct cw as [|old|w].
  1,3: exists f1; split; [by left|]; exists f1; eexists _, _; split; [by apply settled_open|done].
  specialize (Hw old eq_refl) as ->.
  destruct (copy_rows convert_wallet (rows old) (tbl_empty : T WalletRow)) as [w|e] eqn:Hc.
  - exists f1. split; [by left|]. eexists _, _, _. split.
    + unfold f1, half_migrated, open_storage, migrate_legacy_monetary_schema, migrate_table. cbn.
      rewrite Hc. reflexivity.
    + done.
  - exists (put_wallets (Table (New_columns tbl_empty) (Some old)) f1). split.
    + right. unfold f1, half_migrated, open_storage, migrate_legacy_monetary_schema, migrate_table. cbn.
      by rewrite Hc.
    + eexists _, _, _. split; [by apply settled_open|done].
Qed.

(** C40: One amount that does not convert costs the history: the database has
    transactions in the old columns, one of which does not convert, and no table
    under their other name; a table of old wallets has none under its other name
    either.  With a driver that carries out [ALTER] and [CREATE] at once the
    first opening fails after it has renamed the transactions and created an
    empty table.  The next opening succeeds, or, where it finds old wallets whose
    balances cannot be copied either, it fails in the same way and the one after
    it succeeds; every further one gives the same: the blocks are there, no
    transaction is, and the old rows stay under the other name.  With a driver
    that takes everything back each opening fails, and nothing is lost. *)
Theorem failed_migration_loses_history f txs bad :
  current (f_transactions f) = Old_columns txs → renamed (f_transactions f) = None →
  bad ∈ rows txs → is_ok (convert_tx bad) = false →
  (∀ ws, current (f_wallets f) = Old_columns ws → renamed (f_wallets f) = None) →
  (∃ f1 f2 f3 db p, open_storage true f = (f1, Err (StorageError "Failed to initialize database: ")) ∧
     (f2 = f1 ∨ open_storage true f1 = (f2, Err (StorageError "Failed to initialize database: "))) ∧
     open_storage true f2 = (f3, Ok (db, p)) ∧ open_storage true f3 = (f3, Ok (db, p)) ∧
     renamed (f_transactions f3) = Some txs ∧ without_history (default tbl_empty (f_blocks f)) db) ∧
  open_storage false f = (f, Err (StorageError "Failed to initialize database: ")).
Proof.
  intros Hc Hr Hbad Hbad' Hw. rewrite !(transactions_fail _ f txs bad) by done. split; [|done].
  destruct (half_migrated_opens txs f Hw) as (f2 & Hf2 & f3 & db & p & Ho & Hopen & Hren & Hb & Ht).
  assert (rows (transactions_table db) = []) as Hnone by (rewrite Ht; apply rows_empty).
  exists (half_migrated txs f), f2, f3, db, p. split_and!; [done|done|done|by apply settled_open|done|].
  split_and!; [done|done|by apply no_rows_no_history].
Qed.
End facts.

(** ** Witnesses *)

#[local] Existing Instances ListSql.sql ListSql.sql_laws.

Definition old_tx (hash amount : string) : LegacyTxRow :=
  {| lt_tx_hash := hash; lt_block_index := 1; lt_sender := "a"; lt_receiver := "b"; lt_amount := amount;
     lt_timestamp := PFlt (1735700000 * ticks); lt_sender_public_key := None; lt_signature := None |}.

Definition old_file (amounts : list string) : file ListSql.t :=
  File None (Table (Old_columns ((λ a, old_tx a a) <$> amounts)) None)
    (Table (Old_columns [{| lw_address := "b"; lw_balance := "50.0" |}]) None) None.

Lemma migration_preserves_witness :
  ∃ f' db p, open_storage true (old_file ["50.0"; "1.5"]) = (f', Ok (db, p)) ∧
    tr_amount_base_units <$> rows (transactions_table db) ≡ₚ [5000000000; 150000000].
Proof.
  destruct (migration_preserves true (old_file ["50.0"; "1.5"]) [old_tx "50.0" "50.0"; old_tx "1.5" "1.5"]
    [{| lw_address := "b"; lw_balance := "50.0" |}]
    [{| tr_tx_hash := "50.0"; tr_block_index := 1; tr_sender := "a"; tr_receiver := "b";
        tr_amount_base_units := 5000000000; tr_timestamp := PFlt (1735700000 * ticks);
        tr_sender_public_key := None; tr_signature := None |};
     {| tr_tx_hash := "1.5"; tr_block_index := 1; tr_sender := "a"; tr_receiver := "b";
        tr_amount_base_units := 150000000; tr_timestamp := PFlt (1735700000 * ticks);
        tr_sender_public_key := None; tr_signature := None |}]
    [{| wr_address := "b"; wr_balance_base_units := 5000000000 |}])
    as (f' & db & p & Ho & Ht & _); try reflexivity.
  - repeat constructor.
  - refine (bool_decide_eq_true_1 _ _); vm_compute; reflexivity.
  - repeat constructor.
  - refine (bool_decide_eq_true_1 _ _); vm_compute; reflexivity.
  - repeat constructor.
  - repeat constructor.
  - exists f', db, p. split; [exact Ho|]. by rewrite Ht.
Defined.

(** [str(0.1 + 0.2)] has seventeen decimal places. *)
Lemma failed_migration_loses_history_witness :
  ∃ f1 f2 f3 db p, open_storage true (old_file ["50.0"; "0.30000000000000004"]) =
      (f1, Err (StorageError "Failed to initialize database: ")) ∧
    (f2 = f1 ∨ open_storage true f1 = (f2, Err (StorageError "Failed to initialize database: "))) ∧
    open_storage true f2 = (f3, Ok (db, p)) ∧ rows (transactions_table db) = [].
Proof.
  destruct (failed_migration_loses_history (old_file ["50.0"; "0.30000000000000004"])
    [old_tx "50.0" "50.0"; old_tx "0.30000000000000004" "0.30000000000000004"]
    (old_tx "0.30000000000000004" "0.30000000000000004"))
    as [(f1 & f2 & f3 & db & p & H1 & H2 & H3 & _ & _ & _ & H4 & _) _].
  - reflexivity.
  - reflexivity.
  - apply list_elem_of_In. vm_compute. right. left. reflexivity.
  - vm_compute. reflexivity.
  - intros ws _. reflexivity.
  - exists f1, f2, f3, db, p. exact (conj H1 (conj H2 (conj H3 H4))).
Defined.
