(* ===== verification/Url.v ===== *)
(** * urllib.parse and ipaddress, as far as the node's address checks use them

    The checks of peer.py and address_security.py go through [urlparse] and
    [ipaddress.ip_address] of Python's standard library, version 3.13.  Both are written out
    for texts of code points below 256; for these the NFKC check of the
    library finds nothing.  Texts are lists of characters here. *)
From Stdlib Require Import Ascii.
From stdpp Require Import options.
From S2P Require Import Prelude PyText NativeAsset.

Local Open Scope Z_scope.

(** ** Splitting texts *)

(** The text before the first character that satisfies [p], and the rest from it. *)
Fixpoint break (p : ascii → bool) (l : list ascii) : list ascii * list ascii :=
  match l with
  | c :: l' => if p c then ([], l) else let '(a, b) := break p l' in (c :: a, b)
  | [] => ([], [])
  end.

Definition is_char (n : Z) (c : ascii) : bool := code c =? n.

Definition has (n : Z) (l : list ascii) : bool := existsb (is_char n) l.

(** [s.partition(c)]: the middle says whether [c] was found. *)
Definition partition (n : Z) (l : list ascii) : list ascii * bool * list ascii :=
  match break (is_char n) l with
  | (a, _ :: b) => (a, true, b)
  | (a, []) => (a, false, [])
  end.

(** [s.rpartition(c)] *)
Definition rpartition (n : Z) (l : list ascii) : list ascii * bool * list ascii :=
  match break (is_char n) (reverse l) with
  | (after, _ :: before) => (reverse before, true, reverse after)
  | (after, []) => ([], false, l)
  end.

(** [s.split(c)] *)
Fixpoint split (n : Z) (l : list ascii) : list (list ascii) :=
  match l with
  | [] => [[]]
  | c :: l =>
      if is_char n c then [] :: split n l
      else match split n l with w :: ws => (c :: w) :: ws | [] => [[c]] end
  end.

(** ** ipaddress *)

Module Ip.

(** [IPv4Address] and [IPv6Address]; the scope of the latter plays no part. *)
Inductive t := V4 (n : Z) | V6 (n : Z).

Definition parse_octet (l : list ascii) : option Z :=
  if is_nil l || negb (forallb is_digit l) then None
  else if (3 <? length l)%nat then None
  else if bool_decide (l ≠ [char 48]) && bool_decide (head l = Some (char 48)) then None
  else
    let n := foldl (λ acc c, acc * 10 + (code c - 48)) 0 l in
    if 255 <? n then None else Some n.

Definition ipv4_int (l : list ascii) : option Z :=
  let octets := split 46 l in
  if (length octets =? 4)%nat then int_from_bytes <$> mapM parse_octet octets else None.

Definition ipv4 (l : list ascii) : option Z := if has 47 l then None else ipv4_int l.

Definition hex_value (c : ascii) : option Z :=
  n ← digit_value c; if n <? 16 then Some n else None.

Definition parse_hextet (l : list ascii) : option Z :=
  digits ← mapM hex_value l;
  if (4 <? length l)%nat || is_nil l then None else Some (foldl (λ acc d, acc * 16 + d) 0 digits).

(** [%x] of a number of sixteen bits. *)
Definition hex_text (n : Z) : list ascii :=
  let digit k := let d := Z.land (Z.shiftr n k) 15 in if d <? 10 then char (48 + d) else char (87 + d) in
  Dec.drop_while (is_char 48) [digit 12; digit 8; digit 4] ++ [digit 0].

(** The parts, with a final IPv4 address turned into two of them. *)
Definition ipv6_parts (l : list ascii) : option (list (list ascii)) :=
  let parts := split 58 l in
  if (length parts <? 3)%nat then None
  else
    match last parts with
    | Some p =>
        if has 46 p then
          n ← ipv4 p;
          Some (removelast parts ++ [hex_text (Z.land (Z.shiftr n 16) 65535); hex_text (Z.land n 65535)])
        else Some parts
    | None => None
    end.

(** The positions of the empty parts between the first and the last. *)
Definition skips (parts : list (list ascii)) : list nat :=
  filter (λ i, parts !! i = Some []) (seq 1 (length parts - 2)).

Fixpoint hextets (parts : list (list ascii)) (acc : Z) : option Z :=
  match parts with
  | [] => Some acc
  | p :: parts => h ← parse_hextet p; hextets parts (Z.lor (Z.shiftl acc 16) h)
  end.

Definition ipv6_int (l : list ascii) : option Z :=
  parts ← ipv6_parts l;
  let first := default [] (head parts) in
  let final := default [] (last parts) in
  if (9 <? length parts)%nat then None
  else
    match skips parts with
    | _ :: _ :: _ => None
    | [k] =>
        let hi := if is_nil first then (k - 1)%nat else k in
        let lo := (length parts - k - 1 - if is_nil final then 1 else 0)%nat in
        if is_nil first && (0 <? hi)%nat then None
        else if is_nil final && (0 <? lo)%nat then None
        else if (7 <? hi + lo)%nat then None
        else
          n ← hextets (take hi parts) 0;
          hextets (drop (length parts - lo) parts) (Z.shiftl n (16 * (8 - Z.of_nat (hi + lo))))
    | [] =>
        if negb (length parts =? 8)%nat || is_nil first || is_nil final then None
        else hextets parts 0
    end.

Definition ipv6 (l : list ascii) : option Z :=
  if has 47 l then None
  else
    let '(addr, sep, scope) := partition 37 l in
    if sep && (is_nil scope || has 37 scope) then None else ipv6_int addr.

Definition ip_address (l : list ascii) : option t :=
  match ipv4 l with
  | Some n => Some (V4 n)
  | None => V6 <$> ipv6 l
  end.

(** [n in network], of addresses of [width] bits. *)
Definition in_net (width n : Z) (net : Z * Z) : bool :=
  let '(base, len) := net in Z.shiftr n (width - len) =? Z.shiftr base (width - len).

Definition in_nets (width n : Z) (nets : list (Z * Z)) : bool := existsb (in_net width n) nets.

(** Four octets. *)
Definition quad (a b c d : Z) : Z := ((a * 256 + b) * 256 + c) * 256 + d.

Definition private4 : list (Z * Z) :=
  [(quad 0 0 0 0, 8); (quad 10 0 0 0, 8); (quad 127 0 0 0, 8); (quad 169 254 0 0, 16);
   (quad 172 16 0 0, 12); (quad 192 0 0 0, 24); (quad 192 0 0 170, 31); (quad 192 0 2 0, 24);
   (quad 192 168 0 0, 16); (quad 198 18 0 0, 15); (quad 198 51 100 0, 24); (quad 203 0 113 0, 24);
   (quad 240 0 0 0, 4); (quad 255 255 255 255, 32)].
Definition private4_exceptions : list (Z * Z) := [(quad 192 0 0 9, 32); (quad 192 0 0 10, 32)].

Definition is_private4 (n : Z) : bool := in_nets 32 n private4 && negb (in_nets 32 n private4_exceptions).

(** The first three groups of sixteen bits; the rest is zero. *)
Definition groups (a b c : Z) : Z := Z.shiftl (Z.shiftl (Z.shiftl a 16 + b) 16 + c) 80.

Definition private6 : list (Z * Z) :=
  [(1, 128); (0, 128); (Z.shiftl 65535 32, 96); (groups 100 65435 1, 48); (groups 256 0 0, 64);
   (groups 8193 0 0, 23); (groups 8193 3512 0, 32); (groups 8194 0 0, 16); (groups 16383 0 0, 20);
   (groups 64512 0 0, 7); (groups 65152 0 0, 10)].
Definition private6_exceptions : list (Z * Z) :=
  [(groups 8193 1 0 + 1, 128); (groups 8193 1 0 + 2, 128); (groups 8193 3 0, 32);
   (groups 8193 4 274, 48); (groups 8193 32 0, 28); (groups 8193 48 0, 28)].
Definition reserved6 : list (Z * Z) :=
  [(0, 8); (groups 256 0 0, 8); (groups 512 0 0, 7); (groups 1024 0 0, 6); (groups 2048 0 0, 5);
   (groups 4096 0 0, 4); (groups 16384 0 0, 3); (groups 24576 0 0, 3); (groups 32768 0 0, 3);
   (groups 40960 0 0, 3); (groups 49152 0 0, 3); (groups 57344 0 0, 4); (groups 61440 0 0, 5);
   (groups 63488 0 0, 6); (groups 65024 0 0, 9)].

(** The IPv4 address that an address of [::ffff:0:0/96] carries. *)
Definition ipv4_mapped (n : Z) : option Z :=
  if Z.shiftr n 32 =? 65535 then Some (Z.land n (2 ^ 32 - 1)) else None.

(** Since Python 3.13 such an address has the properties of the one it carries. *)
Definition carried (ip : t) : t :=
  match ip with
  | V4 n => V4 n
  | V6 n => match ipv4_mapped n with Some m => V4 m | None => V6 n end
  end.

Definition is_private6 (n : Z) : bool := in_nets 128 n private6 && negb (in_nets 128 n private6_exceptions).

Definition is_loopback (ip : t) : bool :=
  match carried ip with V4 n => in_net 32 n (quad 127 0 0 0, 8) | V6 n => n =? 1 end.
Definition is_private (ip : t) : bool :=
  match carried ip with V4 n => is_private4 n | V6 n => is_private6 n end.
Definition is_link_local (ip : t) : bool :=
  match carried ip with
  | V4 n => in_net 32 n (quad 169 254 0 0, 16) | V6 n => in_net 128 n (groups 65152 0 0, 10)
  end.
Definition is_reserved (ip : t) : bool :=
  match carried ip with V4 n => in_net 32 n (quad 240 0 0 0, 4) | V6 n => in_nets 128 n reserved6 end.
Definition is_multicast (ip : t) : bool :=
  match carried ip with
  | V4 n => in_net 32 n (quad 224 0 0 0, 4) | V6 n => in_net 128 n (groups 65280 0 0, 8)
  end.
Definition is_unspecified (ip : t) : bool := match carried ip with V4 n | V6 n => n =? 0 end.

(** An address of 32 or of 128 bits. *)
Definition in_range (ip : t) : Prop :=
  match ip with V4 n => 0 ≤ n < 2 ^ 32 | V6 n => 0 ≤ n < 2 ^ 128 end.

Lemma in_net_interval width n base len :
  0 ≤ len ≤ width → base mod 2 ^ (width - len) = 0 →
  in_net width n (base, len) = bool_decide (base ≤ n < base + 2 ^ (width - len)).
Proof.
  intros Hlen Hbase. unfold in_net. rewrite !Z.shiftr_div_pow2 by lia.
  assert (0 < 2 ^ (width - len)) by lia. set (m := 2 ^ (width - len)) in *.
  apply Bool.eq_iff_eq_true. rewrite Z.eqb_eq, bool_decide_eq_true.
  pose proof (Z.div_mod n m ltac:(lia)) as Hn. pose proof (Z.div_mod base m ltac:(lia)) as Hb.
  pose proof (Z.mod_pos_bound n m ltac:(lia)). rewrite Hbase in Hb. split.
  - intros E. rewrite E in Hn. lia.
  - intros Hr. symmetry. apply Z.div_unique with (r := n - base); lia.
Qed.

Lemma int_from_bytes_bound bs acc :
  Forall (λ b, 0 ≤ b < 256) bs → 0 ≤ acc →
  0 ≤ foldl (λ acc b, acc * 256 + b) acc bs < (acc + 1) * 256 ^ Z.of_nat (length bs).
Proof.
  intros Hbs. revert acc. induction Hbs as [|b bs Hb _ IH]; intros acc Hacc; cbn [foldl length]; [lia|].
  rewrite Nat2Z.inj_succ, Z.pow_succ_r by lia. specialize (IH (acc * 256 + b)). nia.
Qed.

Lemma parse_octet_bound l n : parse_octet l = Some n → 0 ≤ n < 256.
Proof.
  unfold parse_octet. destruct (is_nil l || _) eqn:Hd; [done|]. apply orb_false_iff in Hd as [_ Hd].
  apply negb_false_iff in Hd. 
  case_match; [done|]. case_match; [done|].
  destruct (Z.ltb_spec 255 (foldl (λ acc c, acc * 10 + (code c - 48)) 0 l)); [done|].
  intros [= <-]. split; [|lia]. clear - Hd.
  assert (Hf : ∀ acc, 0 ≤ acc → 0 ≤ foldl (λ acc c, acc * 10 + (code c - 48)) acc l); [|by apply Hf].
  induction l as [|c l IH]; intros acc Hacc; [done|]. cbn in *. apply andb_true_iff in Hd as [Hc Hd].
  apply IH; [done|]. unfold is_digit in Hc. lia.
Qed.

Lemma ipv4_bound l n : ipv4 l = Some n → 0 ≤ n < 2 ^ 32.
Proof.
  unfold ipv4, ipv4_int. case_match; [done|]. destruct (Nat.eqb_spec (length (split 46 l)) 4) as [H4|]; [|done].
  intros (bs & Hbs & ->)%fmap_Some. apply mapM_Some in Hbs.
  assert (Hb : Forall (λ b, 0 ≤ b < 256) bs).
  { apply Forall_lookup. intros i b Hb. destruct (Forall2_lookup_r _ _ _ _ _ Hbs Hb) as (o & _ & Ho).
    by eapply parse_octet_bound. }
  pose proof (int_from_bytes_bound bs 0 Hb ltac:(done)) as Hn. apply Forall2_length in Hbs.
  rewrite <-Hbs, H4 in Hn. unfold int_from_bytes. lia.
Qed.

Lemma parse_hextet_bound l n : parse_hextet l = Some n → 0 ≤ n < 65536.
Proof.
  unfold parse_hextet. intros (ds & Hds & Hn)%bind_Some. apply mapM_Some in Hds.
  destruct (_ || _) eqn:Hlen; [done|]. apply orb_false_iff in Hlen as [Hlen _]. injection Hn as <-.
  assert (Hb : Forall (λ d, 0 ≤ d < 16) ds).
  { apply Forall_lookup. intros i d Hd. destruct (Forall2_lookup_r _ _ _ _ _ Hds Hd) as (c & _ & Hc).
    unfold hex_value in Hc. apply bind_Some in Hc as (v & Hv & Hc). unfold digit_value in Hv.
    repeat case_match; simplify_eq; lia. }
  assert (Hfold : ∀ acc, 0 ≤ acc → 0 ≤ foldl (λ acc d, acc * 16 + d) acc ds < (acc + 1) * 16 ^ Z.of_nat (length ds)).
  { clear - Hb. induction Hb as [|d ds Hd _ IH]; intros acc Hacc; cbn [foldl length]; [lia|].
    rewrite Nat2Z.inj_succ, Z.pow_succ_r by lia. specialize (IH (acc * 16 + d)). nia. }
  specialize (Hfold 0). apply Forall2_length in Hds.
  apply Nat.ltb_ge in Hlen. rewrite Hds in Hlen.
  assert (16 ^ Z.of_nat (length ds) ≤ 16 ^ 4) by (apply Z.pow_le_mono_r; lia). lia.
Qed.

Lemma hextets_bound parts acc n :
  hextets parts acc = Some n → 0 ≤ acc → 0 ≤ n < (acc + 1) * 65536 ^ Z.of_nat (length parts).
Proof.
  revert acc. induction parts as [|p parts IH]; intros acc; cbn [hextets length].
  { intros [= <-]. lia. }
  intros (h & Hh & Hn)%bind_Some Hacc. apply parse_hextet_bound in Hh.
  pose proof (Z.add_lor_land (Z.shiftl acc 16) h) as Hlor.
  assert (0 ≤ Z.land (Z.shiftl acc 16) h) by (apply Z.land_nonneg; lia).
  assert (0 ≤ Z.shiftl acc 16) by (by apply Z.shiftl_nonneg).
  assert (0 ≤ Z.lor (Z.shiftl acc 16) h) by (apply Z.lor_nonneg; lia).
  rewrite Z.shiftl_mul_pow2 in * by lia. apply IH in Hn; [|done].
  rewrite Nat2Z.inj_succ, Z.pow_succ_r by lia. nia.
Qed.

Lemma ipv6_bound l n : ipv6 l = Some n → 0 ≤ n < 2 ^ 128.
Proof.
  unfold ipv6. case_match; [done|]. destruct (partition 37 l) as [[addr sep] scope].
  case_match; [done|]. clear. unfold ipv6_int. intros (parts & _ & Hn)%bind_Some.
  set (first := default [] (head parts)) in Hn. set (final := default [] (last parts)) in Hn.
  case_match; [done|]. destruct (skips parts) as [|k [|]]; [| |done].
  - destruct (Nat.eqb_spec (length parts) 8) as [H8|]; [|done]. cbn [negb orb] in Hn.
    destruct (_ || _); [done|]. apply hextets_bound in Hn; [|done]. rewrite H8 in Hn. lia.
  - set (hi := if is_nil first then _ else _) in Hn. set (lo := (_ - _ - _ - _)%nat) in Hn.
    do 2 (case_match; [done|]). destruct (Nat.ltb_spec 7 (hi + lo)); [done|].
    apply bind_Some in Hn as (m & Hm & Hn). apply hextets_bound in Hm; [|done].
    apply hextets_bound in Hn; [|apply Z.shiftl_nonneg; lia].
    rewrite length_take in Hm. rewrite length_drop, Z.shiftl_mul_pow2 in Hn by lia.
    assert (Hhi : m + 1 ≤ 65536 ^ Z.of_nat hi).
    { transitivity (65536 ^ Z.of_nat (hi `min` length parts)); [lia|]. apply Z.pow_le_mono_r; lia. }
    assert (Hs : 0 < 2 ^ (16 * (8 - Z.of_nat (hi + lo)))) by (apply Z.pow_pos_nonneg; lia).
    split; [lia|]. eapply Z.lt_le_trans; [apply Hn|].
    transitivity (65536 ^ Z.of_nat hi * 2 ^ (16 * (8 - Z.of_nat (hi + lo))) * 65536 ^ Z.of_nat lo).
    + apply Z.mul_le_mono_nonneg; [nia|nia|apply Z.pow_nonneg; lia|apply Z.pow_le_mono_r; lia].
    + change 65536 with (2 ^ 16). rewrite <-!Z.pow_mul_r, <-!Z.pow_add_r by lia.
      apply Z.pow_le_mono_r; lia.
Qed.

Lemma ip_address_bound l ip : ip_address l = Some ip → in_range ip.
Proof.
  unfold ip_address. destruct (ipv4 l) as [n|] eqn:H4; [intros [= <-]; by eapply ipv4_bound|].
  intros (n & H6 & ->)%fmap_Some. by eapply ipv6_bound.
Qed.

End Ip.

(** ** urllib.parse *)

(** What [urlsplit] drops: leading control characters and spaces, then every
    tab and line break. *)
Definition clean (l : list ascii) : list ascii :=
  filter (λ c, code c ≠ 9 ∧ code c ≠ 10 ∧ code c ≠ 13) (Dec.drop_while (λ c, code c <=? 32) l).

Definition is_letter (c : ascii) : bool :=
  ((65 <=? code c) && (code c <=? 90)) || ((97 <=? code c) && (code c <=? 122)).

(** Letters, digits, [+], [-] and [.]. *)
Definition is_scheme_char (c : ascii) : bool :=
  is_letter c || is_digit c || is_char 43 c || is_char 45 c || is_char 46 c.

Definition split_scheme (l : list ascii) : string * list ascii :=
  match break (is_char 58) l with
  | (c :: s, _ :: rest) =>
      if is_letter c && forallb is_scheme_char s then (lower (of_chars (c :: s)), rest) else ("", l)
  | _ => ("", l)
  end.

(** After [//], up to the first of [/], [?] and [#]. *)
Definition split_netloc (l : list ascii) : list ascii * list ascii :=
  match l with
  | c1 :: c2 :: rest =>
      if is_char 47 c1 && is_char 47 c2
      then break (λ c, is_char 47 c || is_char 63 c || is_char 35 c) rest else ([], l)
  | _ => ([], l)
  end.

(** [v], hexadecimal digits, a dot and something. *)
Definition is_ipvfuture (l : list ascii) : bool :=
  match l with
  | c :: l =>
      match break (λ c, negb (bool_decide (is_Some (Ip.hex_value c)))) l with
      | (_ :: _, d :: _ :: _) => is_char 118 c && is_char 46 d
      | _ => false
      end
  | [] => false
  end.

Definition bracketed_host_ok (l : list ascii) : bool :=
  if bool_decide (head l = Some (char 118)) then is_ipvfuture l
  else match Ip.ip_address l with Some (Ip.V6 _) => true | _ => false end.

(** [_check_bracketed_netloc] *)
Definition bracketed_netloc_ok (netloc : list ascii) : bool :=
  let '(_, _, hostinfo) := rpartition 64 netloc in
  let '(before, open, bracketed) := partition 91 hostinfo in
  if open then
    let '(hostname, _, port) := partition 93 bracketed in
    is_nil before && (is_nil port || bool_decide (head port = Some (char 58))) &&
    bracketed_host_ok hostname
  else
    let '(hostname, _, _) := partition 58 hostinfo in bracketed_host_ok hostname.

(** [_splitparams]: parameters start at a semicolon in the last segment. *)
Definition drop_params (l : list ascii) : list ascii :=
  let '(dir, slash, segment) := rpartition 47 l in
  (if slash then dir ++ [char 47] else []) ++ (break (is_char 59) segment).1.

Definition uses_params : list string :=
  [""; "ftp"; "hdl"; "prospero"; "http"; "imap"; "https"; "shttp"; "rtsp"; "rtspu"; "sip"; "sips";
   "mms"; "sftp"; "tel"].

Record parsed := Parsed {
  scheme : string;
  netloc : list ascii;
  path : list ascii;
  query : list ascii;
  fragment : list ascii;
}.

Definition urlparse (address : string) : res parsed :=
  let '(scheme, rest) := split_scheme (clean (chars address)) in
  let '(netloc, rest) := split_netloc rest in
  if negb (Bool.eqb (has 91 netloc) (has 93 netloc)) then Err (ValueError "Invalid IPv6 URL")
  else if has 91 netloc && negb (bracketed_netloc_ok netloc)
  then Err (ValueError "Invalid IPv6 URL")
  else
    let '(rest, _, fragment) := partition 35 rest in
    let '(rest, _, query) := partition 63 rest in
    let path := if bool_decide (scheme ∈ uses_params) then drop_params rest else rest in
    Ok (Parsed scheme netloc path query fragment).

(** The user and the password, where the address gives them. *)
Definition userinfo (u : parsed) : option (list ascii) * option (list ascii) :=
  let '(userinfo, have_info, _) := rpartition 64 (netloc u) in
  if have_info then
    let '(username, have_password, password) := partition 58 userinfo in
    (Some username, if have_password then Some password else None)
  else (None, None).

(** The host and the text of the port. *)
Definition hostinfo (u : parsed) : list ascii * list ascii :=
  let '(_, _, hostinfo) := rpartition 64 (netloc u) in
  let '(_, have_open, bracketed) := partition 91 hostinfo in
  if have_open then
    let '(hostname, _, port) := partition 93 bracketed in
    let '(_, _, port) := partition 58 port in (hostname, port)
  else
    let '(hostname, _, port) := partition 58 hostinfo in (hostname, port).

(** In lower case up to a zone. *)
Definition hostname (u : parsed) : list ascii :=
  let '(name, percent, zone) := partition 37 (hostinfo u).1 in
  (lower_char <$> name) ++ (if percent then [char 37] else []) ++ zone.

Definition port (u : parsed) : res (option Z) :=
  match (hostinfo u).2 with
  | [] => Ok None
  | text =>
      if negb (forallb is_digit text)
      then Err (ValueError "Port could not be cast to integer value")
      else
        let n := foldl (λ acc c, acc * 10 + (code c - 48)) 0 text in
        if 65535 <? n then Err (ValueError "Port out of range 0-65535") else Ok (Some n)
  end.

Definition ip_of_text (s : string) : option Ip.t := Ip.ip_address (chars s).

Example loopback6 : ip_of_text "::1" = Some (Ip.V6 1).
Proof. reflexivity. Qed.
Example mapped6 : ip_of_text "::ffff:10.0.0.1" = Some (Ip.V6 (Z.shiftl 65535 32 + Ip.quad 10 0 0 1)).
Proof. reflexivity. Qed.
Example leading_zero : ip_of_text "10.0.0.01" = None.
Proof. reflexivity. Qed.
Example full6 : ip_of_text "2001:db8:0:0:0:0:0:1" = ip_of_text "2001:DB8::1".
Proof. reflexivity. Qed.
Example odd6 : ip_of_text ":1::2" = None.
Proof. reflexivity. Qed.
Example not_a_port : (u ← urlparse "http://a:b/"; port u) = Err (ValueError "Port could not be cast to integer value").
Proof. reflexivity. Qed.
Example no_closing : urlparse "http://[::1/" = Err (ValueError "Invalid IPv6 URL").
Proof. reflexivity. Qed.
Example upper_scheme : scheme <$> urlparse "HTTP://a" = Ok "http".
Proof. reflexivity. Qed.
