(* ===== verification/AddressSecurity.v ===== *)
(** * blockchain/network/address_security.py: which addresses may be dialled

    Name resolution is outside the program: [dns] says what the resolver
    answers, addresses, a resolution error or any other exception. *)
From Stdlib Require Import Ascii.
From stdpp Require Import options.
From S2P Require Import Prelude PyText Url Handshake.

Local Open Scope Z_scope.

(** What [socket.getaddrinfo] does with a name. *)
Inductive dns_answer :=
  | Addresses (l : list string)
  | GaiError
  | Raises (e : exn).

Definition VALID_SCHEMES : list string := ["http"; "https"].
Definition MAX_ADDRESS_LENGTH : nat := 256.

Definition is_disallowed_ip (ip : Ip.t) : bool :=
  Ip.is_loopback ip || Ip.is_private ip || Ip.is_link_local ip || Ip.is_reserved ip ||
  Ip.is_multicast ip || Ip.is_unspecified ip.

Section validate.
Context (getaddrinfo : string → dns_answer).

Definition resolve_hostname_ips (hostname : string) : res (list string) :=
  match getaddrinfo hostname with
  | Addresses l => Ok l
  | GaiError => Ok []
  | Raises e => Err e
  end.

(** The addresses the target stands for, or why there are none. *)
Definition candidate_ips (hostname : string) : res (string + list Ip.t) :=
  match ip_of_text hostname with
  | Some ip => Ok (inr [ip])
  | None =>
      resolved ← resolve_hostname_ips hostname;
      match resolved with
      | [] => Ok (inl "Could not resolve hostname")
      | _ =>
          match mapM ip_of_text resolved with
          | Some ips => Ok (inr ips)
          | None => Ok (inl "Resolved address was not a valid IP.")
          end
      end
  end.

(** The reasons that quote a value are cut before it. *)
Definition validate_peer_address (address : string) (allow_private_addresses : bool) : res verdict :=
  if String.eqb address "" then Ok (reject "Address is empty or not a string.")
  else if (MAX_ADDRESS_LENGTH <? String.length address)%nat
  then Ok (reject "Address exceeds 256 characters.")
  else
    match urlparse address with
    | Err (ValueError _) => Ok (reject "Malformed address")
    | Err e => Err e
    | Ok parsed =>
        if negb (bool_decide (lower (scheme parsed) ∈ VALID_SCHEMES))
        then Ok (reject "Unsupported scheme")
        else if bool_decide (is_Some (userinfo parsed).1) || bool_decide (is_Some (userinfo parsed).2)
        then Ok (reject "Credentials embedded in the address are not allowed.")
        else if is_nil (hostname parsed) then Ok (reject "Address has no hostname.")
        else if negb (bool_decide (of_chars (path parsed) ∈ [""; "/"]))
        then Ok (reject "Address must not include a path.")
        else if negb (is_nil (query parsed)) || negb (is_nil (fragment parsed))
        then Ok (reject "Address must not include a query string or fragment.")
        else
          port ← port parsed;
          if match port with Some p => negb ((1 <=? p) && (p <=? 65535)) | None => false end
          then Ok (reject "Invalid port")
          else if allow_private_addresses then Ok accept
          else
            ips ← candidate_ips (of_chars (hostname parsed));
            match ips with
            | inl reason => Ok (reject reason)
            | inr ips =>
                if existsb is_disallowed_ip ips
                then Ok (reject "Address resolves to a non-public IP range")
                else Ok accept
            end
    end.

End validate.

(** ** Which targets are public *)

(** [a.b.c.d] to [e.f.g.h], as numbers. *)
Definition between (lo hi : Z * Z * Z * Z) (n : Z) : Prop :=
  let q x := let '(a, b, c, d) := x in Ip.quad a b c d in q lo ≤ n ≤ q hi.

(** The ranges the module's documentation promises to refuse. *)
Definition private_v4 (n : Z) : Prop :=
  between (10, 0, 0, 0) (10, 255, 255, 255) n ∨
  between (172, 16, 0, 0) (172, 31, 255, 255) n ∨
  between (192, 168, 0, 0) (192, 168, 255, 255) n.
Definition loopback_v4 (n : Z) : Prop := between (127, 0, 0, 0) (127, 255, 255, 255) n.
(** With the metadata service at 169.254.169.254. *)
Definition link_local_v4 (n : Z) : Prop := between (169, 254, 0, 0) (169, 254, 255, 255) n.
(** Multicast and everything that follows it. *)
Definition high_v4 (n : Z) : Prop := between (224, 0, 0, 0) (255, 255, 255, 255) n.

Definition public4 (n : Z) : Prop :=
  ¬ private_v4 n ∧ ¬ loopback_v4 n ∧ ¬ link_local_v4 n ∧ ¬ high_v4 n ∧ n ≠ 0.

(** What is left of the IPv6 addresses: those that carry a public IPv4 address,
    those that start with the bits 001, and the site-local block of RFC 3513. *)
Definition public (ip : Ip.t) : Prop :=
  match Ip.carried ip with
  | Ip.V4 n => public4 n
  | Ip.V6 n => 2 ^ 125 ≤ n < 2 ^ 126 ∨ 0xfec0 * 2 ^ 112 ≤ n < 0xff00 * 2 ^ 112
  end.

(** Tests for a network become bounds. *)
Ltac net_bounds :=
  unfold Ip.in_nets in *; cbn [existsb Ip.private4 Ip.private4_exceptions Ip.private6
    Ip.private6_exceptions Ip.reserved6] in *;
  rewrite ?Ip.in_net_interval in * by (first [lia | vm_compute; reflexivity]);
  rewrite ?orb_false_iff, ?bool_decide_eq_false in *; destruct_and?.

(** What an address answers is what the address it carries answers. *)
Lemma disallowed_carried ip : is_disallowed_ip ip = is_disallowed_ip (Ip.carried ip).
Proof.
  assert (Ip.carried (Ip.carried ip) = Ip.carried ip) as Hc.
  { destruct ip as [n|n]; [done|]. cbn [Ip.carried]. destruct (Ip.ipv4_mapped n) eqn:Hm; [done|].
    cbn [Ip.carried]. by rewrite Hm. }
  unfold is_disallowed_ip, Ip.is_loopback, Ip.is_private, Ip.is_link_local, Ip.is_reserved,
    Ip.is_multicast, Ip.is_unspecified. by rewrite Hc.
Qed.

Lemma allowed_public_v4 n : is_disallowed_ip (Ip.V4 n) = false → public4 n.
Proof.
  unfold is_disallowed_ip, Ip.is_private, Ip.is_private4. cbn [Ip.carried].
  destruct (Ip.in_nets 32 n Ip.private4_exceptions) eqn:Hx.
  - intros _. unfold public4, private_v4, loopback_v4, link_local_v4, high_v4, between.
    unfold Ip.in_nets in Hx. cbn [existsb Ip.private4_exceptions] in Hx.
    rewrite !Ip.in_net_interval in Hx by first [lia | vm_compute; reflexivity].
    rewrite !orb_true_iff, !bool_decide_eq_true in Hx. unfold Ip.quad in *. lia.
  - rewrite andb_true_r. intros H. cbn [Ip.is_loopback Ip.is_link_local Ip.is_reserved
      Ip.is_multicast Ip.is_unspecified Ip.carried] in H. clear Hx. net_bounds.
    clear H10 H11 H13 H14 H15 H17.
    unfold public4, private_v4, loopback_v4, link_local_v4, high_v4, between, Ip.quad in *.
    split_and!; lia.
Qed.

Ltac group_values :=
  repeat match goal with
  | H : context [Ip.groups ?a ?b ?c] |- _ =>
      let v := eval vm_compute in (Ip.groups a b c) in change (Ip.groups a b c) with v in H
  end.

(** The exceptions start with the bits 001. *)
Lemma public6_or_high n :
  0 ≤ n → Ip.is_private6 n = false →
  2 ^ 125 ≤ n < 2 ^ 126 ∨ Ip.in_net 128 n (Ip.groups 64512 0 0, 7) = false.
Proof.
  unfold Ip.is_private6. intros Hn [H|H%negb_false_iff]%andb_false_iff; [right|left].
  - unfold Ip.in_nets in H. cbn [existsb Ip.private6] in H.
    rewrite !orb_false_iff in H. tauto.
  - unfold Ip.in_nets in H. cbn [existsb Ip.private6_exceptions] in H.
    rewrite !Ip.in_net_interval in H by first [lia | vm_compute; reflexivity].
    rewrite !orb_true_iff, !bool_decide_eq_true in H. group_values. lia.
Qed.

Lemma allowed_public_v6 n :
  0 ≤ n < 2 ^ 128 → Ip.ipv4_mapped n = None → is_disallowed_ip (Ip.V6 n) = false →
  2 ^ 125 ≤ n < 2 ^ 126 ∨ 0xfec0 * 2 ^ 112 ≤ n < 0xff00 * 2 ^ 112.
Proof.
  unfold is_disallowed_ip. intros Hn Hmapped H.
  apply orb_false_iff in H as [H _]. apply orb_false_iff in H as [H Hm].
  apply orb_false_iff in H as [H Hr]. apply orb_false_iff in H as [H Hl].
  apply orb_false_iff in H as [_ Hp].
  unfold Ip.is_link_local, Ip.is_reserved, Ip.is_multicast, Ip.is_private in *.
  cbn [Ip.carried] in *. rewrite Hmapped in *. apply public6_or_high in Hp as [|Hul]; [by left| |lia].
  net_bounds. group_values. lia.
Qed.

Lemma allowed_public ip : Ip.in_range ip → is_disallowed_ip ip = false → public ip.
Proof.
  rewrite disallowed_carried. unfold public. destruct ip as [n|n]; cbn [Ip.carried Ip.in_range].
  { intros _. apply allowed_public_v4. }
  intros Hn. destruct (Ip.ipv4_mapped n) eqn:Hm; [apply allowed_public_v4|by apply allowed_public_v6].
Qed.

Section promises.
Context (getaddrinfo : string → dns_answer).

Lemma ip_of_text_bound s ip : ip_of_text s = Some ip → Ip.in_range ip.
Proof. apply Ip.ip_address_bound. Qed.

Lemma candidate_ips_in_range hostname ips :
  candidate_ips getaddrinfo hostname = Ok (inr ips) → ips ≠ [] ∧ Forall Ip.in_range ips.
Proof.
  unfold candidate_ips. destruct (ip_of_text hostname) as [ip|] eqn:Hip.
  { intros [= <-]. split; [done|]. constructor; [by eapply ip_of_text_bound|done]. }
  intros (l & _ & H)%res_bind_Ok. destruct l as [|s l]; [done|].
  destruct (mapM ip_of_text (s :: l)) as [ips'|] eqn:Hips; [|done]. injection H as <-.
  apply mapM_Some in Hips. split; [by inversion Hips|].
  apply Forall_lookup. intros i ip Hi. destruct (Forall2_lookup_r _ _ _ _ _ Hips Hi) as (o & _ & Ho).
  by eapply ip_of_text_bound.
Qed.

(** What an accepted address looks like. *)
Lemma validate_accept address allow :
  validate_peer_address getaddrinfo address allow = Ok accept →
  ∃ u, urlparse address = Ok u ∧ lower (scheme u) ∈ VALID_SCHEMES ∧ userinfo u = (None, None) ∧
    hostname u ≠ [] ∧ query u = [] ∧ fragment u = [] ∧
    (allow = false → ∃ ips, candidate_ips getaddrinfo (of_chars (hostname u)) = Ok (inr ips) ∧
                            existsb is_disallowed_ip ips = false).
Proof.
  unfold validate_peer_address. do 2 (case_match; [done|]).
  destruct (urlparse address) as [u|[]]; try done.
  destruct (bool_decide (lower (scheme u) ∈ VALID_SCHEMES)) eqn:Hs; [|done].
  apply bool_decide_eq_true in Hs. cbn [negb].
  destruct (userinfo u) as [[|] [|]] eqn:Hu; try done. cbn.
  destruct (hostname u) as [|c h] eqn:Hh; [done|]. cbn [is_nil].
  case_match; [done|]. destruct (query u) eqn:Hq; [|done]. destruct (fragment u) eqn:Hf; [|done].
  cbn [is_nil negb orb]. intros (p & _ & H')%res_bind_Ok. case_match; [done|].
  exists u. rewrite Hu, Hh. split_and!; try done. intros ->.
  apply res_bind_Ok in H' as ([|ips] & Hips & H'); [done|]. exists ips. split; [done|].
  by destruct (existsb is_disallowed_ip ips).
Qed.

(** C30: Unless private addresses are allowed, every address the target of an
    accepted request stands for is public: a literal address, or every answer
    of the resolver, is neither private (RFC 1918), loopback, link-local (the
    metadata service included), multicast nor unspecified; of the IPv6
    addresses only global unicast and site-local ones remain, and those that
    carry an IPv4 address (::ffff:0:0/96) for which all this holds; and the
    address carries no credentials, query or fragment. *)
Theorem accepted_target_public address :
  validate_peer_address getaddrinfo address false = Ok accept →
  ∃ u ips, urlparse address = Ok u ∧ userinfo u = (None, None) ∧ query u = [] ∧ fragment u = [] ∧
    candidate_ips getaddrinfo (of_chars (hostname u)) = Ok (inr ips) ∧ ips ≠ [] ∧ Forall public ips.
Proof.
  intros (u & Hu & _ & Hinfo & _ & Hq & Hf & Hips)%validate_accept.
  destruct Hips as (ips & Hips & Hall); [done|].
  destruct (candidate_ips_in_range _ _ Hips) as [Hne Hrange]. exists u, ips. split_and!; try done.
  clear - Hall Hrange. induction Hrange as [|ip ips Hip _ IH]; [done|]. cbn in Hall.
  apply orb_false_iff in Hall as [Hip' Hall]. constructor; [by apply allowed_public|by apply IH].
Qed.

(** The shared address space of RFC 6598, 100.64.0.0/10, counts as public:
    its addresses are accepted although they are not globally reachable. *)
Theorem shared_address_space_accepted :
  validate_peer_address getaddrinfo "http://100.64.0.1:8000" false = Ok accept.
Proof. vm_compute. reflexivity. Qed.

(** A port that is no number or is too large is not refused but raises:
    the property [port] of the parsed address is read outside the [try]. *)
Theorem bad_port_raises allow :
  validate_peer_address getaddrinfo "http://peer:port" allow =
    Err (ValueError "Port could not be cast to integer value") ∧
  validate_peer_address getaddrinfo "http://peer:65536" allow =
    Err (ValueError "Port out of range 0-65535").
Proof. split; vm_compute; reflexivity. Qed.
End promises.

(** A resolver with one entry. *)
Definition toy_dns (name : string) : dns_answer :=
  if String.eqb name "seed.example" then Addresses ["203.0.114.7"; "2606:4700::1111"] else GaiError.

Lemma accepted_target_public_witness :
  ∃ u ips, urlparse "https://Seed.Example:8000/" = Ok u ∧ userinfo u = (None, None) ∧ query u = [] ∧
    fragment u = [] ∧ candidate_ips toy_dns (of_chars (hostname u)) = Ok (inr ips) ∧ ips ≠ [] ∧
    Forall public ips.
Proof. apply (accepted_target_public toy_dns). vm_compute. reflexivity. Defined.

Example metadata_refused :
  validate_peer_address toy_dns "http://169.254.169.254" false =
    Ok (reject "Address resolves to a non-public IP range").
Proof. vm_compute. reflexivity. Qed.
Example mapped_accepted :
  validate_peer_address toy_dns "http://[::ffff:8.8.8.8]" false = Ok accept.
Proof. vm_compute. reflexivity. Qed.
Example mapped_refused :
  validate_peer_address toy_dns "http://[::ffff:127.0.0.1]:80" false =
    Ok (reject "Address resolves to a non-public IP range").
Proof. vm_compute. reflexivity. Qed.
