(* ===== verification/Peers.v ===== *)
(** * blockchain/network/peer.py: addresses and the peer registry

    The registry keeps peers in the database and their retry state in memory;
    clock readings are floats, in ticks. *)
From Stdlib Require Import Ascii.
From stdpp Require Import options.
From S2P Require Import Prelude PyText Json NativeAsset Wallet Settings Url Sql Storage Handshake PeerStore.

Local Open Scope Z_scope.
#[local] Set Default Proof Using "Type*".

(** ** Addresses *)

(** [address.strip().rstrip("/")] *)
Definition normalize_address (address : string) : string :=
  of_chars (rstrip_slash (Dec.strip (chars address))).

Definition VALID_SCHEMES : list string := ["http"; "https"].

Definition is_valid_peer_address (address : string) : bool :=
  if String.eqb address "" then false
  else if (256 <? String.length address)%nat then false
  else
    match urlparse address with
    | Err _ => false
    | Ok parsed =>
        if negb (bool_decide (lower (scheme parsed) ∈ VALID_SCHEMES)) then false
        else if is_nil (hostname parsed) then false
        else if negb (bool_decide (of_chars (path parsed) ∈ [""; "/"])) then false
        else true
    end.

(** ** The registry *)

(** One entry of [_health]. *)
Record Health := MkHealth {
  failures : Z;
  backoff : option pynum;
  health_capabilities : list string;
}.

Definition default_health : Health := MkHealth 0 None [].

Record RegistryConfig := {
  self_address : string;
  self_node_id : string;
  max_peers : Z;
}.

(** [PeerRegistry.__init__] normalises the address. *)
Definition registry_config (self_address self_node_id : string) (max_peers : Z) : RegistryConfig :=
  {| self_address := normalize_address self_address; self_node_id := self_node_id;
     max_peers := max_peers |}.

Record Peer := {
  p_address : string;
  p_node_id : option string;
  p_status : string;
  p_last_seen : option pynum;
  p_registered_at : pynum;
  p_failure_count : Z;
  p_backoff_until : option pynum;
  p_capabilities : list string;
}.

Section registry.
Context {T : Type → Type} `{Sql T}.
Context (cfg : RegistryConfig).

Record registry := Registry { peer_db : PeerDB T; health : gmap string Health }.

Definition set_peer_db (db : PeerDB T) (s : registry) : registry := Registry db (health s).
Definition set_health (h : gmap string Health) (s : registry) : registry := Registry (peer_db s) h.

(** [_health.setdefault(normalized, ...)] *)
Definition health_of (address : string) (s : registry) : Health :=
  default default_health (health s !! address).

(** A database call at the end of a method: the new state, or the exception,
    which leaves the database as it was. *)
Definition save (s : registry) (r : res (PeerDB T)) : registry * res () :=
  match r with
  | Ok db => (set_peer_db db s, Ok tt)
  | Err e => (s, Err e)
  end.

Definition register (address : string) (node_id : option string) (clock : Z) (s : registry)
    : registry * res verdict :=
  if negb (is_valid_peer_address address) then (s, Ok (reject "Malformed peer address."))
  else
    let normalized := normalize_address address in
    if String.eqb normalized (self_address cfg)
    then (s, Ok (reject "Refusing to register self as a peer."))
    else if match node_id with Some n => String.eqb n (self_node_id cfg) | None => false end
    then (s, Ok (reject "Refusing to register self (matching node_id) as a peer."))
    else
      let existing := get_peer normalized (peer_db s) in
      if bool_decide (existing = None) && (max_peers cfg <=? peer_count (peer_db s))
      then (s, Ok (reject ("Peer limit reached (" +:+ str_Z (max_peers cfg) +:+ ").")))
      else
        let s := set_health (<[normalized := health_of normalized s]> (health s)) s in
        let '(s, r) := save s (upsert_peer normalized node_id
            (match existing with Some e => pr_status e | None => "unknown" end)
            (match existing with Some e => pr_last_seen e | None => None end) clock (peer_db s)) in
        (s, _ ← r; Ok accept).

Definition mark_seen (address status : string) (node_id : option string) (clock : Z) (s : registry)
    : registry * res () :=
  let normalized := normalize_address address in
  let h := health_of normalized s in
  let h := if String.eqb status "online" then MkHealth 0 None (health_capabilities h) else h in
  let s := set_health (<[normalized := h]> (health s)) s in
  save s (upsert_peer normalized node_id status (Some (PFlt clock)) clock (peer_db s)).

(** [min(300.0, 2.0 ** min(failures - 1, 8))], in seconds *)
Definition backoff_delay (failures : Z) : Z := Z.min 300 (2 ^ Z.min (failures - 1) 8).

Definition mark_failure (address : string) (clock : Z) (s : registry) : registry * res Z :=
  let normalized := normalize_address address in
  let h := health_of normalized s in
  let count := failures h + 1 in
  let h := MkHealth count (Some (PFlt (clock + backoff_delay count * ticks))) (health_capabilities h) in
  let s := set_health (<[normalized := h]> (health s)) s in
  let '(s, r) := save s (upsert_peer normalized None "offline" (Some (PFlt clock)) clock (peer_db s)) in
  (s, _ ← r; Ok count).

(** [float(state.get("backoff_until") or 0) <= time.time()] *)
Definition is_eligible (address : string) (clock : Z) (s : registry) : bool :=
  match health s !! normalize_address address with
  | None => true
  | Some h => num_val (default (PInt 0) (backoff h)) <=? clock
  end.

Definition failure_count (address : string) (s : registry) : Z :=
  failures (health_of (normalize_address address) s).

Definition backoff_until (address : string) (s : registry) : option pynum :=
  backoff (health_of (normalize_address address) s).

(** [tuple(sorted(set(capabilities)))] of strings. *)
Definition set_capabilities (address : string) (caps : list string) (s : registry) : registry :=
  let normalized := normalize_address address in
  let h := health_of normalized s in
  let sorted := (sort_keys ((λ c, (c, ())) <$> remove_dups caps)).*1 in
  set_health (<[normalized := MkHealth (failures h) (backoff h) sorted]> (health s)) s.

Definition remove (address : string) (s : registry) : registry :=
  set_peer_db (remove_peer (normalize_address address) (peer_db s)) s.

(** [Peer.from_row], with the runtime state filled in. *)
Definition peer_of (s : registry) (r : PeerRow) : Peer :=
  let h := health_of (pr_address r) s in
  {| p_address := pr_address r; p_node_id := pr_node_id r; p_status := pr_status r;
     p_last_seen := pr_last_seen r; p_registered_at := pr_registered_at r;
     p_failure_count := failures h; p_backoff_until := backoff h;
     p_capabilities := health_capabilities h |}.

Definition registered_peers (s : registry) : list Peer := peer_of s <$> list_peers (peer_db s).

Definition get (address : string) (s : registry) : option Peer :=
  peer_of s <$> get_peer (normalize_address address) (peer_db s).

Definition count (s : registry) : Z := peer_count (peer_db s).

Definition addresses (s : registry) : list string := p_address <$> registered_peers s.

(** [health_snapshot]: the state of every address it has met. *)
Definition health_snapshot (s : registry) : gmap string Health := health s.

Definition healthy_count (clock : Z) (s : registry) : Z :=
  Z.of_nat (length (filter (λ p, String.eqb (p_status p) "online" && is_eligible (p_address p) clock s = true)
    (registered_peers s))).
End registry.
Arguments registry T : clear implicits.

(** ** What the registry promises *)

Section promises.
Context {T : Type → Type} `{SqlLaws T}.
Context (cfg : RegistryConfig).
Implicit Types s : registry T.

Definition registry_wf s : Prop := peer_wf (peer_db s).

Lemma get_peer_None a (db : PeerDB T) : get_peer a db = None ↔ ¬ peer_known a db.
Proof.
  unfold get_peer, peer_known. rewrite head_None. apply (select_nil pr_address peer_conflict).
Qed.

Lemma health_of_insert a b h (db : PeerDB T) s :
  health_of a (Registry db (<[b := h]> (health s))) = if decide (b = a) then h else health_of a s.
Proof. unfold health_of. cbn [health]. rewrite lookup_insert. by case_decide. Qed.

(** When [register] admits an address. *)
Definition admissible (address : string) (node_id : option string) s : bool :=
  is_valid_peer_address address &&
  negb (String.eqb (normalize_address address) (self_address cfg)) &&
  bool_decide (node_id ≠ Some (self_node_id cfg)) &&
  bool_decide (peer_known (normalize_address address) (peer_db s) ∨ count s < max_peers cfg).

(** Writing the row of a peer, as every operation that stores one does. *)
Lemma save_peer_ok s address node_id status last_seen clock :
  registry_wf s →
  ∃ db', save s (upsert_peer address node_id status last_seen clock (peer_db s)) =
      (set_peer_db db' s, Ok tt) ∧ peer_wf db' ∧ peer_known address db' ∧
    (∀ a, a ≠ address → get_peer a db' = get_peer a (peer_db s)) ∧
    peer_credentials_table db' = peer_credentials_table (peer_db s) ∧
    peer_count db' = count s + (if decide (peer_known address (peer_db s)) then 0 else 1).
Proof.
  intros Hwf. destruct (upsert_peer_ok address node_id status last_seen clock (peer_db s) Hwf)
    as (db' & -> & Hwf' & Hcred & Hother & (r & Hr & _) & Hcount).
  exists db'. split_and!; try done. destruct (decide (peer_known address db')) as [|Hno]; [done|].
  apply get_peer_None in Hno. congruence.
Qed.

(** The test for this node's own name. *)
Lemma own_name node_id :
  match node_id with Some n => String.eqb n (self_node_id cfg) | None => false end =
  negb (bool_decide (node_id ≠ Some (self_node_id cfg))).
Proof.
  destruct node_id as [n|]; [|done]. destruct (String.eqb_spec n (self_node_id cfg)) as [->|Hn].
  - rewrite bool_decide_false by (intros E; by apply E). done.
  - by rewrite bool_decide_true by congruence.
Qed.

(** The test for room. *)
Lemma no_room (address : string) s :
  bool_decide (get_peer address (peer_db s) = None) && (max_peers cfg <=? peer_count (peer_db s)) =
  negb (bool_decide (peer_known address (peer_db s) ∨ count s < max_peers cfg)).
Proof.
  apply Bool.eq_iff_eq_true.
  rewrite andb_true_iff, negb_true_iff, bool_decide_eq_true, bool_decide_eq_false, get_peer_None, Z.leb_le.
  unfold count. split; [intros [? ?] [?|?]; [done|lia]|]. intros Hno. split; [tauto|].
  destruct (Z.le_gt_cases (max_peers cfg) (peer_count (peer_db s))); [done|]. destruct Hno. right. lia.
Qed.

Lemma register_refused address node_id clock s :
  admissible address node_id s = false →
  ∃ reason, register cfg address node_id clock s = (s, Ok (reject reason)) ∧ reason ≠ "".
Proof.
  unfold admissible, register. destruct (is_valid_peer_address address); cbn [negb andb].
  2: { intros _. by eexists. }
  destruct (String.eqb _ (self_address cfg)); cbn [negb andb]; [intros _; by eexists|].
  rewrite own_name. destruct (bool_decide (node_id ≠ _)); cbn [negb andb]; [|intros _; by eexists].
  rewrite no_room. intros ->. cbn [negb]. by eexists.
Qed.

Lemma register_admitted address node_id clock s :
  registry_wf s → admissible address node_id s = true →
  let norm := normalize_address address in
  ∃ db', register cfg address node_id clock s =
      (Registry db' (<[norm := health_of norm s]> (health s)), Ok accept) ∧
    peer_wf db' ∧ peer_known norm db' ∧ peer_credentials_table db' = peer_credentials_table (peer_db s) ∧
    (∀ a, a ≠ norm → get_peer a db' = get_peer a (peer_db s)) ∧
    peer_count db' = count s + (if decide (peer_known norm (peer_db s)) then 0 else 1).
Proof.
  intros Hwf Hadm norm. unfold admissible in Hadm. rewrite !andb_true_iff, negb_true_iff in Hadm.
  destruct Hadm as [[[Hv Hself] Hid] Hroom]. unfold register. fold norm. fold norm in Hself, Hroom.
  rewrite Hv, Hself, own_name, Hid, no_room, Hroom. cbn [negb].
  set (s1 := set_health _ s).
  edestruct (save_peer_ok s1 norm node_id) as (db' & -> & ? & ? & ? & ? & ?); [done|].
  exists db'. by split_and!.
Qed.

(** Registering a peer: it is admitted exactly when its address is well
    formed, it is not this node, and it is known already or there is room;
    a refusal gives a reason and changes nothing; an admitted peer is known
    from then on, the cap is not passed, no other peer and nobody's retry
    state is touched. *)
Theorem register_spec address node_id clock s :
  registry_wf s →
  ∃ s' v, register cfg address node_id clock s = (s', Ok v) ∧ registry_wf s' ∧
    v.1 = admissible address node_id s ∧
    (v.1 = false → s' = s ∧ v.2 ≠ "") ∧
    (v.1 = true →
      peer_known (normalize_address address) (peer_db s') ∧
      count s ≤ count s' ≤ Z.max (count s) (max_peers cfg) ∧
      (∀ a, a ≠ normalize_address address → get_peer a (peer_db s') = get_peer a (peer_db s)) ∧
      ∀ a, failure_count a s' = failure_count a s ∧ backoff_until a s' = backoff_until a s).
Proof.
  intros Hwf. destruct (admissible address node_id s) eqn:Hadm.
  - destruct (register_admitted _ _ clock _ Hwf Hadm) as (db' & -> & Hwf' & Hk & _ & Ho & Hc).
    eexists _, _; split; [done|]. unfold registry_wf, count in *. cbn [peer_db fst snd].
    split_and!; [done|done|done|]. intros _.
    split_and!; [done| | |done|].
    + rewrite Hc. case_decide; lia.
    + rewrite Hc. unfold admissible in Hadm. rewrite !andb_true_iff, !bool_decide_eq_true in Hadm.
      unfold count in Hadm. case_decide; naive_solver lia.
    + intros a. unfold failure_count, backoff_until. rewrite health_of_insert.
      destruct (decide (_ = normalize_address a)) as [<-|]; done.
  - destruct (register_refused _ _ clock _ Hadm) as (reason & -> & Hr).
    exists s, (reject reason). by split_and!.
Qed.

Lemma mark_failure_ok address clock s :
  registry_wf s →
  let norm := normalize_address address in
  let n := failures (health_of norm s) + 1 in
  ∃ db', mark_failure address clock s =
      (Registry db' (<[norm := MkHealth n (Some (PFlt (clock + backoff_delay n * ticks)))
                                (health_capabilities (health_of norm s))]> (health s)), Ok n) ∧
    peer_wf db' ∧ peer_known norm db' ∧ peer_credentials_table db' = peer_credentials_table (peer_db s) ∧
    peer_count db' = count s + (if decide (peer_known norm (peer_db s)) then 0 else 1).
Proof.
  intros Hwf norm n. unfold mark_failure. fold norm. fold n. set (s1 := set_health _ s).
  edestruct (save_peer_ok s1 norm) as (db' & -> & ? & ? & _ & ? & ?); [done|].
  exists db'. by split_and!.
Qed.

Lemma mark_seen_ok address status node_id clock s :
  registry_wf s →
  let norm := normalize_address address in
  let h := health_of norm s in
  ∃ db', mark_seen address status node_id clock s =
      (Registry db' (<[norm := if String.eqb status "online" then MkHealth 0 None (health_capabilities h)
                                else h]> (health s)), Ok tt) ∧
    peer_wf db' ∧ peer_known norm db' ∧ peer_credentials_table db' = peer_credentials_table (peer_db s) ∧
    peer_count db' = count s + (if decide (peer_known norm (peer_db s)) then 0 else 1).
Proof.
  intros Hwf norm h. unfold mark_seen. fold norm. fold h. set (s1 := set_health _ s).
  edestruct (save_peer_ok s1 norm) as (db' & -> & ? & ? & _ & ? & ?); [done|].
  exists db'. by split_and!.
Qed.

(** ** Backoff *)

(** Failures of one peer, at the given times. *)
Definition fail_all (address : string) (clocks : list Z) s : registry T :=
  foldl (λ s clock, (mark_failure address clock s).1) s clocks.

Lemma mark_failure_counts address clock s :
  registry_wf s →
  let s' := (mark_failure address clock s).1 in
  registry_wf s' ∧ failure_count address s' = failure_count address s + 1 ∧
  backoff_until address s' = Some (PFlt (clock + backoff_delay (failure_count address s + 1) * ticks)).
Proof.
  intros Hwf s'. subst s'. destruct (mark_failure_ok address clock s Hwf) as (db' & -> & Hwf' & _).
  cbn [fst]. split; [done|]. unfold failure_count, backoff_until.
  by rewrite health_of_insert, decide_True.
Qed.

Lemma fail_all_spec address clocks last s :
  registry_wf s →
  let n := failure_count address s + Z.of_nat (length clocks) + 1 in
  let s' := fail_all address (clocks ++ [last]) s in
  registry_wf s' ∧ failure_count address s' = n ∧
  backoff_until address s' = Some (PFlt (last + backoff_delay n * ticks)).
Proof.
  revert s. induction clocks as [|c clocks IH]; intros s Hwf.
  - destruct (mark_failure_counts address last s Hwf) as (? & Hc & Hb). cbn [length]. rewrite Z.add_0_r.
    split_and!; done.
  - destruct (mark_failure_counts address c s Hwf) as (Hwf' & Hc & _).
    specialize (IH _ Hwf'). rewrite Hc in IH. cbv zeta in *. cbn [length].
    rewrite Nat2Z.inj_succ, <-Z.add_1_r, (Z.add_comm (Z.of_nat _) 1), Z.add_assoc. exact IH.
Qed.

(** Retries back off exponentially and recover at once: after [n] failures
    in a row a peer is left alone for [2 ^ (n - 1)] seconds after the last
    one, never longer than 256 (the limit of 300 in the code is never
    reached), and one sign of life clears the count and makes it eligible. *)
Theorem backoff_spec address clocks last s :
  registry_wf s → failure_count address s = 0 →
  let n := Z.of_nat (length clocks) + 1 in
  let s' := fail_all address (clocks ++ [last]) s in
  failure_count address s' = n ∧
  (∀ now, is_eligible address now s' = true ↔ last + 2 ^ Z.min (n - 1) 8 * ticks ≤ now) ∧
  ∀ node_id clock now, 0 ≤ now →
    let s'' := (mark_seen address "online" node_id clock s').1 in
    failure_count address s'' = 0 ∧ is_eligible address now s'' = true.
Proof.
  intros Hwf H0' n s'. destruct (fail_all_spec address clocks last s Hwf) as (Hwf' & Hn & Hb).
  rewrite H0', Z.add_0_l in Hn, Hb. fold n in Hn, Hb. fold s' in Hwf', Hn, Hb.
  split; [done|]. split.
  - intros now. unfold is_eligible. unfold backoff_until, health_of in Hb.
    destruct (health s' !! normalize_address address) as [h|] eqn:Hh; [|done].
    cbn in Hb. rewrite Hb. cbn [default num_val]. rewrite Z.leb_le. unfold backoff_delay.
    assert (2 ^ Z.min (n - 1) 8 ≤ 2 ^ 8) by (apply Z.pow_le_mono_r; lia). rewrite Z.min_r by lia. done.
  - intros node_id clock now Hnow s''. subst s''.
    destruct (mark_seen_ok address "online" node_id clock s' Hwf') as (db' & -> & _). cbn [fst].
    unfold failure_count, is_eligible. rewrite health_of_insert, decide_True by done. split; [done|].
    cbn [health]. rewrite lookup_insert, decide_True by done. cbn. lia.
Qed.

(** ** The cap *)

(** A call that keeps to the peers it knows: what the code would have to do
    for the cap to hold. *)
Inductive known_step : registry T → registry T → Prop :=
  | known_register address node_id clock s :
      known_step s (register cfg address node_id clock s).1
  | known_seen address status node_id clock s :
      peer_known (normalize_address address) (peer_db s) →
      known_step s (mark_seen address status node_id clock s).1
  | known_failure address clock s :
      peer_known (normalize_address address) (peer_db s) →
      known_step s (mark_failure address clock s).1
  | known_capabilities address caps s : known_step s (set_capabilities address caps s)
  | known_remove address s : known_step s (remove address s).

Lemma remove_wf address s : registry_wf s → registry_wf (remove address s) ∧ count (remove address s) ≤ count s.
Proof.
  intros [Hp Hc]. unfold registry_wf, peer_wf, count, peer_count, remove, remove_peer, keyed in *.
  cbn [peer_db set_peer_db peers_table set_peers peer_credentials_table].
  rewrite delete_rows. split; [split; [|done]|].
  - eapply sublist_NoDup; [apply Hp|]. apply fmap_sublist, sublist_filter.
  - apply Nat2Z.inj_le, length_filter.
Qed.

Lemma known_step_capped s s' :
  known_step s s' → registry_wf s → count s ≤ max_peers cfg → registry_wf s' ∧ count s' ≤ max_peers cfg.
Proof.
  intros Hstep Hwf Hc. destruct Hstep as [a i clock s|a st i clock s Hk|a clock s Hk| |a s].
  - destruct (admissible a i s) eqn:Hadm.
    + destruct (register_admitted _ _ clock _ Hwf Hadm) as (db' & -> & Hwf' & _ & _ & _ & Hcount).
      split; [done|]. unfold count in *. cbn [fst peer_db]. rewrite Hcount.
      unfold admissible in Hadm. rewrite !andb_true_iff, !bool_decide_eq_true in Hadm.
      unfold count in Hadm. case_decide; naive_solver lia.
    + destruct (register_refused _ _ clock _ Hadm) as (? & -> & _). done.
  - destruct (mark_seen_ok a st i clock s Hwf) as (db' & -> & Hwf' & _ & _ & Hcount).
    split; [done|]. unfold count in *. cbn [fst peer_db]. rewrite Hcount, decide_True by done. lia.
  - destruct (mark_failure_ok a clock s Hwf) as (db' & -> & Hwf' & _ & _ & Hcount).
    split; [done|]. unfold count in *. cbn [fst peer_db]. rewrite Hcount, decide_True by done. lia.
  - done.
  - destruct (remove_wf a s Hwf). split; [done|lia].
Qed.

(** The peer cap: in whatever order peers are registered, seen, lost and
    removed, the registry never holds more than [max_peers] of them, provided
    [mark_seen] and [mark_failure] are only called for peers it knows. *)
Theorem registry_capped s s' :
  registry_wf s → count s ≤ max_peers cfg → rtc known_step s s' →
  registry_wf s' ∧ count s' ≤ max_peers cfg.
Proof.
  intros Hwf Hc Hsteps. induction Hsteps as [|s s1 s' Hstep _ IH]; [done|].
  destruct (known_step_capped _ _ Hstep Hwf Hc). by apply IH.
Qed.

(** The proviso matters: a failure of an address that is no peer makes it
    one, whatever the cap. *)
Theorem failure_adds_peer address clock s :
  registry_wf s → ¬ peer_known (normalize_address address) (peer_db s) →
  count (mark_failure address clock s).1 = count s + 1.
Proof.
  intros Hwf Hk. destruct (mark_failure_ok address clock s Hwf) as (db' & -> & _ & _ & _ & Hcount).
  unfold count in *. cbn [fst peer_db]. by rewrite Hcount, decide_False.
Qed.
End promises.

(** Normalising twice is not normalising once: the trailing slash goes
    after the spaces, so what the registry stores for an address with a space
    before the slash is not what it looks up.  The stored peer is then not
    found, and its first failure makes a second peer of it, beyond the cap. *)
Theorem stored_address_not_found {T : Type → Type} `{SqlLaws T} :
  let cfg := registry_config "http://node:8000" "node" 1 in
  let s : registry T := Registry empty_peer_db ∅ in
  ∃ s', register cfg "http://peer /" None 0 s = (s', Ok accept) ∧
    peer_known "http://peer " (peer_db s') ∧ get "http://peer " s' = None ∧
    count s' = 1 ∧ count (mark_failure "http://peer " 1 s').1 = 2.
Proof.
  intros cfg s. assert (Hrows : rows (peers_table (peer_db s)) = []).
  { apply rows_empty. }
  assert (Hwf : registry_wf s).
  { split; unfold keyed; [rewrite Hrows|cbn; rewrite rows_empty]; constructor. }
  assert (Hcount : count s = 0) by (unfold count, peer_count; by rewrite Hrows).
  assert (Hno : ∀ a, ¬ peer_known a (peer_db s)) by (intros a; unfold peer_known; rewrite Hrows; set_solver).
  destruct (register_admitted cfg "http://peer /" None 0 s Hwf) as (db' & Hs & Hwf' & Hk & _ & Ho & Hc).
  { unfold admissible. rewrite (bool_decide_true (_ ∨ _)); [by vm_compute|]. right. by rewrite Hcount. }
  rewrite decide_False, Hcount in Hc by apply Hno.
  assert (Hno' : ¬ peer_known "http://peer" db').
  { apply get_peer_None. rewrite Ho by done. apply get_peer_None, Hno. }
  eexists. split; [exact Hs|]. split_and!; [exact Hk| |exact Hc|].
  - unfold get. cbn [peer_db]. replace (get_peer _ db') with (@None PeerRow); [done|].
    symmetry. by apply get_peer_None.
  - match goal with |- context [mark_failure _ _ ?s1] =>
      destruct (mark_failure_ok "http://peer " 1 s1 Hwf') as (db2 & -> & _ & _ & _ & Hc2) end.
    unfold count in *. cbn [fst peer_db] in *. rewrite Hc2, decide_False by done. lia.
Qed.

Example scheme_case_kept :
  is_valid_peer_address "HTTP://peer" = true ∧ is_valid_peer_address "http://peer" = true ∧
  normalize_address "HTTP://peer" ≠ normalize_address "http://peer".
Proof. vm_compute. by split_and!. Qed.

(** ** Witnesses *)

#[local] Existing Instances ListSql.sql ListSql.sql_laws.

Definition toy_registry : RegistryConfig := registry_config "http://node:8000/" "node" 2.
Definition no_peers : registry ListSql.t := Registry empty_peer_db ∅.

Lemma no_peers_wf : registry_wf no_peers.
Proof. split; constructor. Qed.

Lemma register_spec_witness :
  ∃ s' v, register toy_registry "http://peer:1/" (Some "p") 0 no_peers = (s', Ok v) ∧ registry_wf s' ∧
    v.1 = admissible toy_registry "http://peer:1/" (Some "p") no_peers ∧
    (v.1 = false → s' = no_peers ∧ v.2 ≠ "") ∧
    (v.1 = true →
      peer_known (normalize_address "http://peer:1/") (peer_db s') ∧
      count no_peers ≤ count s' ≤ Z.max (count no_peers) (max_peers toy_registry) ∧
      (∀ a, a ≠ normalize_address "http://peer:1/" →
        get_peer a (peer_db s') = get_peer a (peer_db no_peers)) ∧
      ∀ a, failure_count a s' = failure_count a no_peers ∧ backoff_until a s' = backoff_until a no_peers).
Proof. exact (register_spec toy_registry "http://peer:1/" (Some "p") 0 no_peers no_peers_wf). Defined.

Lemma backoff_spec_witness :
  failure_count "http://peer" (fail_all "http://peer" [0; 1; 3; 7] no_peers) = 4 ∧
  (∀ now, is_eligible "http://peer" now (fail_all "http://peer" [0; 1; 3; 7] no_peers) = true ↔
    7 + 2 ^ Z.min (4 - 1) 8 * ticks ≤ now) ∧
  ∀ node_id clock now, 0 ≤ now →
    let s := (mark_seen "http://peer" "online" node_id clock
                (fail_all "http://peer" [0; 1; 3; 7] no_peers)).1 in
    failure_count "http://peer" s = 0 ∧ is_eligible "http://peer" now s = true.
Proof. exact (backoff_spec "http://peer" [0; 1; 3] 7 no_peers no_peers_wf eq_refl). Defined.

Definition one_peer : registry ListSql.t := (register toy_registry "http://peer" None 0 no_peers).1.

Lemma one_peer_wf : registry_wf one_peer.
Proof. split; apply (bool_decide_unpack _); vm_compute; exact I. Qed.

Lemma registry_capped_witness :
  registry_wf (mark_failure "http://peer" 5 one_peer).1 ∧
  count (mark_failure "http://peer" 5 one_peer).1 ≤ max_peers toy_registry.
Proof.
  apply (registry_capped toy_registry no_peers); [apply no_peers_wf|by vm_compute|].
  eapply rtc_l; [apply (known_register _ "http://peer" None 0)|]. apply rtc_once.
  apply (known_failure _ "http://peer" 5 one_peer). change (peer_known "http://peer" (peer_db one_peer)).
  apply (bool_decide_unpack _). vm_compute. exact I.
Defined.

Lemma failure_adds_peer_witness :
  count (mark_failure "http://other" 5 one_peer).1 = count one_peer + 1.
Proof.
  apply (failure_adds_peer "http://other" 5 one_peer one_peer_wf).
  apply (bool_decide_unpack _). vm_compute. exact I.
Defined.
