(* ===== verification/Effects.v ===== *)
(** * Effects: state, exceptions and the world outside

    The network layer reads clocks, draws randomness and calls other nodes.
    Its operations are computations [io S A]: they turn a state into a state
    and a result, an exception keeping the state reached.  [moves R m] says
    that [m] takes every state along [R]; it is closed under the ways
    computations are put together, so that an invariant of a long operation
    follows from those of its calls. *)
From stdpp Require Import options.
From S2P Require Import Prelude Json AddressSecurity.

#[local] Set Default Proof Using "Type*".

(** ** The monad *)

Definition io (S A : Type) : Type := S → S * res A.

#[global] Instance io_ret {S} : MRet (io S) := λ A a s, (s, Ok a).
#[global] Instance io_bind {S} : MBind (io S) := λ A B f m s,
  match m s with
  | (s', Ok a) => f a s'
  | (s', Err e) => (s', Err e)
  end.

Section operations.
Context {S : Type}.

Definition raise {A} (e : exn) : io S A := λ s, (s, Err e).

(** A call that touches no state. *)
Definition pure {A} (r : res A) : io S A := λ s, (s, r).

Definition gets {A} (f : S → A) : io S A := λ s, (s, Ok (f s)).

Definition modify (f : S → S) : io S () := λ s, (f s, Ok ()).

(** A call on a part of the state. *)
Definition on {P A} (view : S → P) (put : P → S → S) (m : P → P * res A) : io S A :=
  λ s, let '(p, r) := m (view s) in (put p s, r).

(** [try: m except: handler]; the handler answers the exceptions it catches. *)
Definition attempt {A} (m : io S A) (handler : exn → option (io S A)) : io S A := λ s,
  match m s with
  | (s', Ok a) => (s', Ok a)
  | (s', Err e) => match handler e with Some h => h s' | None => (s', Err e) end
  end.

(** A loop whose body returns what it appends to the result. *)
Fixpoint collect {A B} (body : A → io S (list B)) (l : list A) : io S (list B) :=
  match l with
  | [] => mret []
  | a :: l => bs ← body a; rest ← collect body l; mret (bs ++ rest)
  end.
End operations.

(** ** Running a computation *)

Lemma io_bind_Ok {S A B} (m : io S A) (f : A → io S B) s s' b :
  (m ≫= f) s = (s', Ok b) ↔ ∃ s1 a, m s = (s1, Ok a) ∧ f a s1 = (s', Ok b).
Proof.
  unfold mbind, io_bind. destruct (m s) as [s1 [a|e]]; split.
  - eauto.
  - by intros (? & ? & [= <- <-] & ?).
  - done.
  - by intros (? & ? & [=] & ?).
Qed.

Lemma gets_Ok {S A} (f : S → A) s s' a : gets f s = (s', Ok a) ↔ s' = s ∧ a = f s.
Proof. unfold gets. naive_solver. Qed.

Lemma pure_Ok {S A} (r : res A) (s s' : S) a : pure r s = (s', Ok a) ↔ s' = s ∧ r = Ok a.
Proof. unfold pure. naive_solver. Qed.

Lemma on_Ok {S P A} (view : S → P) put (m : P → P * res A) s s' a :
  on view put m s = (s', Ok a) ↔ ∃ p, m (view s) = (p, Ok a) ∧ s' = put p s.
Proof. unfold on. destruct (m (view s)) as [p r]. naive_solver. Qed.

Lemma mret_Ok {S A} (a b : A) (s s' : S) : (mret a : io S A) s = (s', Ok b) ↔ s' = s ∧ b = a.
Proof. unfold mret, io_ret. naive_solver. Qed.

(** The first call of a computation, run. *)
Lemma bind_run {S A B} (m : io S A) (f : A → io S B) s s' a : m s = (s', Ok a) → (m ≫= f) s = f a s'.
Proof. unfold mbind, io_bind. by intros ->. Qed.

Lemma pure_run {S A B} (a : A) (f : A → io S B) s : (pure (Ok a) ≫= f) s = f a s.
Proof. done. Qed.

(** Takes a run that returned apart into the runs of its calls. *)
Ltac run_inv H :=
  repeat lazymatch type of H with
    | (_ ≫= _) _ = _ =>
        let s := fresh "s" in let a := fresh "a" in let Hm := fresh "Hrun" in
        apply io_bind_Ok in H as (s & a & Hm & H);
        first [apply gets_Ok in Hm as [-> ->] | apply pure_Ok in Hm as [-> Hm] | idtac]
    | mret _ _ = _ => first [apply mret_Ok in H as [-> ->] | apply mret_Ok in H as [-> H]]
    end.

(** ** Invariants of computations *)

Section moves.
Context {S : Type} (R : relation S) `{!PreOrder R}.

Definition moves {A} (m : io S A) : Prop := ∀ s, R s (m s).1.

Lemma moves_run {A} (m : io S A) s s' r : moves m → m s = (s', r) → R s s'.
Proof. intros Hm Hs. specialize (Hm s). by rewrite Hs in Hm. Qed.

Lemma moves_ret {A} (a : A) : moves (mret a).
Proof. intros s. done. Qed.

Lemma moves_raise {A} e : moves (@raise S A e).
Proof. intros s. done. Qed.

Lemma moves_pure {A} (r : res A) : moves (pure r).
Proof. intros s. done. Qed.

Lemma moves_gets {A} (f : S → A) : moves (gets f).
Proof. intros s. done. Qed.

Lemma moves_modify f : (∀ s, R s (f s)) → moves (modify f).
Proof. intros Hf s. apply Hf. Qed.

Lemma moves_on {P A} view put (m : P → P * res A) :
  (∀ s p, R s (put p s)) → moves (on view put m).
Proof. intros Hp s. unfold on. destruct (m (view s)) as [p r]. apply Hp. Qed.

Lemma moves_bind {A B} (m : io S A) (f : A → io S B) :
  moves m → (∀ a, moves (f a)) → moves (m ≫= f).
Proof.
  intros Hm Hf s. unfold mbind, io_bind. specialize (Hm s).
  destruct (m s) as [s' [a|e]]; [|done]. etrans; [exact Hm|]. apply Hf.
Qed.

Lemma moves_attempt {A} (m : io S A) h :
  moves m → (∀ e m', h e = Some m' → moves m') → moves (attempt m h).
Proof.
  intros Hm Hh s. unfold attempt. specialize (Hm s).
  destruct (m s) as [s' [a|e]]; [done|]. destruct (h e) as [m'|] eqn:He; [|done].
  etrans; [exact Hm|]. exact (Hh e m' He s').
Qed.

Lemma moves_collect {A B} (body : A → io S (list B)) l :
  (∀ a, moves (body a)) → moves (collect body l).
Proof.
  intros Hb. induction l as [|a l IH]; cbn [collect]; [apply moves_ret|].
  apply moves_bind; [done|]. intros bs. apply moves_bind; [done|]. intros. apply moves_ret.
Qed.
End moves.

(** Walks through a computation: binds, branches, loops; what is left are the
    calls that change the state. *)
Ltac walk_moves :=
  repeat lazymatch goal with
    | |- ∀ _, _ => intros
    | |- moves _ (mret _) => apply moves_ret; apply _
    | |- moves _ (raise _) => apply moves_raise; apply _
    | |- moves _ (pure _) => apply moves_pure; apply _
    | |- moves _ (gets _) => apply moves_gets; apply _
    | |- moves _ (_ ≫= _) => apply moves_bind; [apply _| |]
    | |- moves _ (collect _ _) => apply moves_collect; [apply _|]
    | |- moves _ (if ?b then _ else _) => destruct b
    | |- moves _ (match ?x with _ => _ end) => destruct x
    end.

(** ** What computations return *)

Section returns.
Context {S : Type}.

(** Whenever [m] returns, what it returns satisfies [P]. *)
Definition returns {A} (P : A → Prop) (m : io S A) : Prop := ∀ s s' a, m s = (s', Ok a) → P a.

Lemma returns_ret {A} (P : A → Prop) a : P a → returns P (mret a).
Proof. intros Ha s s' b [_ ->]%mret_Ok. done. Qed.

Lemma returns_raise {A} (P : A → Prop) e : returns P (@raise S A e).
Proof. by intros s s' a [=]. Qed.

Lemma returns_pure {A} (P : A → Prop) r : (∀ a, r = Ok a → P a) → returns P (pure r).
Proof. intros Hr s s' a [_ Ha]%pure_Ok. auto. Qed.

(** [Q] says what the second call needs of the first. *)
Lemma returns_bind_with {A B} (Q : A → Prop) (P : B → Prop) (m : io S A) (f : A → io S B) :
  returns Q m → (∀ a, Q a → returns P (f a)) → returns P (m ≫= f).
Proof. intros Hm Hf s s' b (s1 & a & H1 & H2)%io_bind_Ok. eapply Hf; eauto. Qed.

Lemma returns_bind {A B} (P : B → Prop) (m : io S A) (f : A → io S B) :
  (∀ a, returns P (f a)) → returns P (m ≫= f).
Proof. intros Hf. apply (returns_bind_with (λ _, True)); [done|auto]. Qed.
End returns.

(** Walks to the ends of a computation. *)
Ltac walk_returns :=
  repeat lazymatch goal with
    | |- ∀ _, _ => intros
    | |- returns _ (mret _) => apply returns_ret
    | |- returns _ (raise _) => apply returns_raise
    | |- returns _ (_ ≫= _) => apply returns_bind
    | |- returns _ (if ?b then _ else _) => destruct b
    | |- returns _ (match ?x with _ => _ end) => destruct x
    end.

(** ** The world *)

Record HttpRequest := {
  method : string;
  base_url : string;
  url_path : string;
  request_body : option json;
  timeout : Z;
}.

(** What [httpx] gives: a response, with what [response.json()] makes of its
    body; an [httpx.HTTPError]; or any other exception. *)
Inductive HttpAnswer :=
  | Response (status_code : Z) (body : res json)
  | HTTPError
  | OtherError (e : exn).

(** Clock, randomness, resolver and peers; each reading may differ from the
    one before. *)
Class World (W : Type) := {
  time : W → W * Z;
  urandom : nat → W → W * list Z;
  signing_nonce : W → W * Z;
  new_key : W → W * Z;
  new_uuid : W → W * string;
  http : HttpRequest → W → W * HttpAnswer;
  getaddrinfo : W → string → dns_answer;
}.
