(* ===== verification/Logging.v ===== *)
(** * blockchain/utils.py: the loggers

    [get_logger] configures a logger of the standard library once per name.  A
    [process] holds the loggers of the [logging] module and the cache [LOGGERS];
    the disk, which may refuse to make the directory or to open the file, and
    the settings, which may not load, are arguments of each call.  What the
    handlers write is the library's. *)
From Stdlib Require Import Ascii.
From stdpp Require Import options.
From S2P Require Import Prelude PyText Settings Effects.

Local Open Scope Z_scope.

(** ** Levels *)

(** [str.upper] on the letters that the names of the library have. *)
Definition upper_char (c : ascii) : ascii :=
  let n := nat_of_ascii c in
  if ((97 <=? n) && (n <=? 122))%nat then ascii_of_nat (n - 32) else c.

Definition upper (s : string) : string := of_chars (upper_char <$> chars s).

(** An attribute of the module [logging]: a level, a text, or something else. *)
Inductive attribute := Level (n : Z) | Text (s : string) | Other.

Definition DEBUG : Z := 10.
Definition INFO : Z := 20.
Definition WARNING : Z := 30.

(** The attributes whose name has no small letter. *)
Definition logging_attributes : gmap string attribute := list_to_map
  [("CRITICAL", Level 50); ("FATAL", Level 50); ("ERROR", Level 40); ("WARNING", Level WARNING);
   ("WARN", Level WARNING); ("INFO", Level INFO); ("DEBUG", Level DEBUG); ("NOTSET", Level 0);
   ("BASIC_FORMAT", Text "%(levelname)s:%(name)s:%(message)s"); ("_STYLES", Other)].

(** [getattr(logging, name, logging.INFO)] *)
Definition logging_attr (name : string) : attribute := default (Level INFO) (logging_attributes !! name).

(** What [Logger.setLevel] takes: a level, or the name of one. *)
Definition check_level (a : attribute) : res Z :=
  match a with
  | Level n => Ok n
  | Text _ => Err (ValueError "Unknown level")
  | Other => Err (TypeError "Level not an integer or a valid string")
  end.

Definition level_of (cfg : LoggingConfig) : res Z := check_level (logging_attr (upper (level cfg))).

(** ** Loggers and handlers *)

Record Formatter := { fmt : string; datefmt : string }.

Inductive Handler :=
  | RotatingFileHandler (filename : string) (maxBytes backupCount : Z) (encoding : string)
      (formatter : Formatter) (handler_level : Z)
  | StreamHandler (formatter : Formatter) (handler_level : Z).

Record Logger := { logger_level : Z; propagate : bool; handlers : list Handler }.

Definition setLevel (n : Z) (l : Logger) : Logger :=
  {| logger_level := n; propagate := propagate l; handlers := handlers l |}.
Definition set_propagate (b : bool) (l : Logger) : Logger :=
  {| logger_level := logger_level l; propagate := b; handlers := handlers l |}.
Definition addHandler (h : Handler) (l : Logger) : Logger :=
  {| logger_level := logger_level l; propagate := propagate l; handlers := handlers l ++ [h] |}.

Definition formatter : Formatter := {|
  fmt := "%(asctime)s | %(levelname)-8s | %(name)s | %(message)s";
  datefmt := "%Y-%m-%d %H:%M:%S";
|}.

Definition log_path (cfg : LoggingConfig) : string := path_join (log_dir cfg) (log_file cfg).

Definition file_handler (cfg : LoggingConfig) : Handler :=
  RotatingFileHandler (log_path cfg) (max_bytes cfg) (backup_count cfg) "utf-8" formatter DEBUG.

Definition stream_handler : Handler := StreamHandler formatter INFO.

(** ** The process *)

Record process := {
  (** The loggers of the library, the root one under its own name. *)
  loggers : gmap string Logger;
  (** [_LOGGERS]: the logger handed out for a name. *)
  LOGGERS : gmap string string;
}.

(** What the disk answers during a call. *)
Record disk := { mkdir : string → res (); open_file : string → res () }.

(** [logging.getLogger(name)] hands out the root logger for two names. *)
Definition logger_key (name : string) : string := if String.eqb name "" then "root" else name.

Definition new_logger (key : string) : Logger :=
  {| logger_level := if String.eqb key "root" then WARNING else 0; propagate := true; handlers := [] |}.

Definition logger_of (key : string) (p : process) : Logger := default (new_logger key) (loggers p !! key).

Definition change_logger (key : string) (f : Logger → Logger) : io process () := modify (λ p,
  {| loggers := <[key := f (logger_of key p)]> (loggers p); LOGGERS := LOGGERS p |}).

Definition remember (name key : string) : io process () := modify (λ p,
  {| loggers := loggers p; LOGGERS := <[name := key]> (LOGGERS p) |}).

(** The handlers of a logger that has none. *)
Definition attach (d : disk) (cfg : LoggingConfig) (key : string) : io process () :=
  logger ← gets (logger_of key);
  if is_nil (handlers logger) then
    _ ← pure (open_file d (log_path cfg));
    _ ← change_logger key (addHandler (file_handler cfg));
    change_logger key (addHandler stream_handler)
  else mret ().

Definition get_logger (get_settings : res Settings) (d : disk) (name : string) : io process string :=
  cached ← gets (λ p, LOGGERS p !! name);
  match cached with
  | Some key => mret key
  | None =>
      settings ← pure get_settings;
      let log_cfg := logging_settings settings in
      _ ← pure (mkdir d (log_dir log_cfg));
      let key := logger_key name in
      level ← pure (level_of log_cfg);
      _ ← change_logger key (setLevel level);
      _ ← change_logger key (set_propagate false);
      _ ← attach d log_cfg key;
      _ ← remember name key;
      mret key
  end.

(** ** What it keeps *)

(** The two handlers, for some configuration. *)
Definition both_handlers (l : Logger) : Prop := ∃ cfg, handlers l = [file_handler cfg; stream_handler].

Definition configured (l : Logger) : Prop := propagate l = false ∧ both_handlers l.

(** Of the loggers of the library, none has part of its handlers or has them
    twice; those handed out have both. *)
Definition tidy (p : process) : Prop :=
  (∀ key, handlers (logger_of key p) = [] ∨ both_handlers (logger_of key p)) ∧
  (∀ name key, LOGGERS p !! name = Some key → key = logger_key name ∧ configured (logger_of key p)).

(** A process in which nothing has configured a logger. *)
Definition fresh (p : process) : Prop :=
  (∀ key, handlers (logger_of key p) = []) ∧ LOGGERS p = ∅.

Lemma fresh_tidy p : fresh p → tidy p.
Proof. intros [Hh He]. split; [auto|]. rewrite He. done. Qed.

(** A logger is replaced by one with as many handlers, or with both, that
    propagates nothing. *)
Lemma change_tidy p key l :
  tidy p → propagate l = false →
  handlers l = handlers (logger_of key p) ∨ both_handlers l →
  tidy {| loggers := <[key := l]> (loggers p); LOGGERS := LOGGERS p |}.
Proof.
  intros [Hall Hcached] Hpropagate Hl.
  assert (∀ k, logger_of k {| loggers := <[key := l]> (loggers p); LOGGERS := LOGGERS p |} =
    if decide (k = key) then l else logger_of k p) as Hof.
  { intros k. unfold logger_of; simpl. case_decide; subst; by simplify_map_eq. }
  split.
  - intros k. rewrite Hof. case_decide; [subst|apply Hall].
    destruct Hl as [Hl|Hl]; [|by right]. unfold both_handlers. rewrite Hl. apply Hall.
  - intros name k Hk. apply Hcached in Hk as [Hkey Hconf]. split; [done|].
    rewrite Hof. case_decide as Hd; [|done]. split; [done|].
    destruct Hl as [Hl|Hl]; [|done]. unfold both_handlers. rewrite Hl, <- Hd. apply Hconf.
Qed.

(** Where the settings come to the configuration of the logger. *)
Definition prepared (level : Z) (key : string) (p : process) : process :=
  {| loggers := <[key := set_propagate false (setLevel level (logger_of key p))]> (loggers p);
     LOGGERS := LOGGERS p |}.

Lemma prepared_logger level key p :
  logger_of key (prepared level key p) = set_propagate false (setLevel level (logger_of key p)).
Proof. unfold logger_of, prepared; simpl. by simplify_map_eq. Qed.

Lemma prepared_tidy level key p : tidy p → tidy (prepared level key p).
Proof. intros Hp. apply change_tidy; [done..|by left]. Qed.

Lemma change_change key f g p :
  (_ ← change_logger key f; change_logger key g) p = change_logger key (g ∘ f) p.
Proof.
  unfold change_logger, modify, mbind, io_bind, logger_of; simpl. by rewrite lookup_insert_eq, insert_insert_eq.
Qed.

(** [get_logger] on a name it has not handed out. *)
Lemma get_logger_runs settings d name p level :
  let cfg := logging_settings settings in
  LOGGERS p !! name = None → mkdir d (log_dir cfg) = Ok () → level_of cfg = Ok level →
  get_logger (Ok settings) d name p =
  (_ ← attach d cfg (logger_key name); _ ← remember name (logger_key name); mret (logger_key name))
    (prepared level (logger_key name) p).
Proof.
  intros cfg Hname Hdir Hlevel. unfold get_logger, gets, pure, mbind, io_bind; simpl. rewrite Hname.
  fold cfg. rewrite Hdir, Hlevel. unfold change_logger, modify, prepared, logger_of; simpl.
  by rewrite lookup_insert_eq, insert_insert_eq.
Qed.

(** The logger with its two handlers. *)
Definition with_handlers (cfg : LoggingConfig) (l : Logger) : Logger :=
  addHandler stream_handler (addHandler (file_handler cfg) l).

Definition attached (cfg : LoggingConfig) (key : string) (p : process) : process :=
  {| loggers := <[key := with_handlers cfg (logger_of key p)]> (loggers p); LOGGERS := LOGGERS p |}.

Lemma attach_runs d cfg key p :
  attach d cfg key p =
  if is_nil (handlers (logger_of key p)) then
    match open_file d (log_path cfg) with
    | Ok _ => (attached cfg key p, Ok ())
    | Err e => (p, Err e)
    end
  else (p, Ok ()).
Proof.
  unfold attach, gets, pure, mbind at 1 2, io_bind at 1 2. destruct (is_nil _); [|done].
  destruct (open_file d (log_path cfg)) as [[]|e]; [|done]. apply change_change.
Qed.

Lemma attached_logger cfg key p : logger_of key (attached cfg key p) = with_handlers cfg (logger_of key p).
Proof. unfold logger_of, attached; simpl. by simplify_map_eq. Qed.

(** A logger that propagates nothing, with the handlers it had or both. *)
Lemma attach_tidy d cfg key p :
  tidy p → propagate (logger_of key p) = false →
  let q := attach d cfg key p in
  tidy q.1 ∧ LOGGERS q.1 = LOGGERS p ∧ (q.2 = Ok () → configured (logger_of key q.1)).
Proof.
  intros Hp Hpropagate. rewrite attach_runs. destruct (handlers (logger_of key p)) as [|h hs] eqn:Hh; simpl.
  - destruct (open_file d _) as [[]|e]; [|done]. cbn.
    assert (both_handlers (with_handlers cfg (logger_of key p))) as Hboth.
    { exists cfg. simpl. by rewrite Hh. }
    split; [|split; [done|]].
    + apply change_tidy; [done..|]. by right.
    + intros _. by rewrite attached_logger.
  - split; [done|split; [done|]]. intros _. split; [done|].
    destruct (proj1 Hp key) as [He|Hboth]; [by rewrite Hh in He|done].
Qed.

Lemma remember_tidy name p :
  tidy p → configured (logger_of (logger_key name) p) →
  tidy {| loggers := loggers p; LOGGERS := <[name := logger_key name]> (LOGGERS p) |}.
Proof.
  intros [Hall Hcached] Hconf. split; [exact Hall|]. intros n k. simpl.
  rewrite lookup_insert_Some. intros [[<- <-]|[_ Hk]]; [done|]. exact (Hcached n k Hk).
Qed.

Lemma get_logger_tidy settings d name p : tidy p → tidy (get_logger settings d name p).1.
Proof.
  intros Hp. destruct (LOGGERS p !! name) as [key|] eqn:Hname.
  { unfold get_logger, gets, mbind, io_bind. by rewrite Hname. }
  destruct settings as [st|e]; [|unfold get_logger, gets, mbind, io_bind; by rewrite Hname].
  destruct (mkdir d (log_dir (logging_settings st))) as [[]|e] eqn:Hdir;
    [|unfold get_logger, gets, pure, mbind, io_bind; by rewrite Hname, Hdir].
  destruct (level_of (logging_settings st)) as [level|e] eqn:Hlevel;
    [|unfold get_logger, gets, pure, mbind, io_bind; by rewrite Hname, Hdir, Hlevel].
  rewrite (get_logger_runs _ _ _ _ level Hname Hdir Hlevel).
  destruct (attach_tidy d (logging_settings st) (logger_key name) (prepared level (logger_key name) p))
    as (Htidy & _ & Hconf); [by apply prepared_tidy|by rewrite prepared_logger|].
  unfold mbind, io_bind. destruct (attach _ _ _ _) as [q [[]|e]]; [|done]. apply remember_tidy; auto.
Qed.

(** A process after some calls, whatever each of them meets. *)
Definition call : Type := res Settings * disk * string.

Definition after_calls (calls : list call) (p : process) : process :=
  foldl (λ p c, (get_logger c.1.1 c.1.2 c.2 p).1) p calls.

Lemma after_calls_tidy calls p : tidy p → tidy (after_calls calls p).
Proof. revert p; induction calls as [|c calls IH]; intros p Hp; [done|]. apply IH, get_logger_tidy, Hp. Qed.

(** A name that was handed out is answered without looking at the disk. *)
Lemma get_logger_cached settings d name key p :
  LOGGERS p !! name = Some key → get_logger settings d name p = (p, Ok key).
Proof. intros Hname. unfold get_logger, gets, mbind, io_bind. by rewrite Hname. Qed.

(** A disk that refuses nothing. *)
Definition working (d : disk) : Prop := (∀ dir, mkdir d dir = Ok ()) ∧ (∀ file, open_file d file = Ok ()).

Lemma get_logger_succeeds settings d name p level :
  tidy p → working d → level_of (logging_settings settings) = Ok level →
  let q := get_logger (Ok settings) d name p in
  q.2 = Ok (logger_key name) ∧ LOGGERS q.1 !! name = Some (logger_key name).
Proof.
  intros Hp [Hdir Hopen] Hlevel. destruct (LOGGERS p !! name) as [key|] eqn:Hname.
  { rewrite (get_logger_cached _ _ _ _ _ Hname). split; simpl.
    all: by destruct (proj2 Hp name key Hname) as [-> _]. }
  rewrite (get_logger_runs _ _ _ _ level Hname (Hdir _) Hlevel).
  unfold mbind, io_bind. rewrite attach_runs, Hopen. destruct (is_nil _); simpl; by simplify_map_eq.
Qed.

(** Logging is set up once whatever fails on the way: after any calls of
    [get_logger] in a fresh process, the disk refusing any of them and the
    settings being what they may, no logger has part of its handlers or has
    them twice; a call whose settings load and whose disk works returns the
    logger of its name with both handlers, propagating nothing; and from then
    on the name is answered with the same logger, unchanged by the call, even
    when nothing works any more. *)
Theorem loggers_set_up_once calls p settings d name level settings' d' :
  fresh p → working d → level_of (logging_settings settings) = Ok level →
  let q := get_logger (Ok settings) d name (after_calls calls p) in
  (∀ key, handlers (logger_of key (after_calls calls p)) = [] ∨ both_handlers (logger_of key (after_calls calls p))) ∧
  q.2 = Ok (logger_key name) ∧ configured (logger_of (logger_key name) q.1) ∧
  get_logger settings' d' name q.1 = (q.1, Ok (logger_key name)).
Proof.
  intros Hp Hd Hlevel q. assert (tidy (after_calls calls p)) as Htidy by apply after_calls_tidy, fresh_tidy, Hp.
  destruct (get_logger_succeeds settings d name _ level Htidy Hd Hlevel) as [Hr Hcached].
  assert (tidy q.1) as Hq by apply get_logger_tidy, Htidy.
  split; [apply Htidy|split; [exact Hr|split; [apply (proj2 Hq name), Hcached|apply get_logger_cached, Hcached]]].
Qed.

(** The variable of the level may hold what no level is called: then no module
    of the program can be loaded, since each asks for its logger. *)
Lemma unusable_level settings d name p :
  level_of (logging_settings settings) = Err (ValueError "Unknown level") →
  mkdir d (log_dir (logging_settings settings)) = Ok () → LOGGERS p !! name = None →
  get_logger (Ok settings) d name p = (p, Err (ValueError "Unknown level")).
Proof.
  intros Hlevel Hdir Hname. unfold get_logger, gets, pure, mbind, io_bind; simpl. by rewrite Hname, Hdir, Hlevel.
Qed.

Definition level_variable (value : string) : res Z :=
  s ← settings "/srv" {["SYJ_LOG_LEVEL" := value]}; level_of (logging_settings s).

Example a_level : level_variable "debug" = Ok 10.
Proof. vm_compute. reflexivity. Qed.
Example no_level : level_variable "verbose" = Ok 20.
Proof. vm_compute. reflexivity. Qed.
Example not_a_level : level_variable "basic_format" = Err (ValueError "Unknown level").
Proof. vm_compute. reflexivity. Qed.

(** Two modules at start, the first of which meets a full disk. *)
Definition empty_process : process := {| loggers := ∅; LOGGERS := ∅ |}.
Definition good_disk : disk := {| mkdir := λ _, Ok (); open_file := λ _, Ok () |}.
Definition full_disk : disk := {| mkdir := λ _, Ok (); open_file := λ _, Err (StorageError "No space left on device") |}.

Definition default_settings : Settings :=
  ltac:(let r := eval vm_compute in (settings "/srv" ∅) in lazymatch r with Ok ?s => exact s end).

Lemma loggers_set_up_once_witness :
  let calls := [(Ok default_settings, full_disk, "blockchain.wallet"); (Ok default_settings, good_disk, "api.main")] in
  let q := get_logger (Ok default_settings) good_disk "blockchain.wallet" (after_calls calls empty_process) in
  q.2 = Ok "blockchain.wallet" ∧ configured (logger_of "blockchain.wallet" q.1) ∧
  get_logger (Err (StorageError "")) full_disk "blockchain.wallet" q.1 = (q.1, Ok "blockchain.wallet").
Proof.
  intros calls q.
  apply (loggers_set_up_once calls empty_process default_settings good_disk "blockchain.wallet" 20
           (Err (StorageError "")) full_disk); [done|done|reflexivity].
Defined.

(** The failed call leaves the logger with its level and no handlers. *)
Example after_full_disk :
  logger_of "api.main" (get_logger (Ok default_settings) full_disk "api.main" empty_process).1 =
  {| logger_level := 20; propagate := false; handlers := [] |}.
Proof. vm_compute. reflexivity. Qed.
