(* ===== verification/Network.v ===== *)
(** * blockchain/network/node.py and protocol.py: the network node

    A [net] is what a [NetworkNode] mutates: the wrapped [Blockchain], the
    peer registry with the peer tables of the same database, the replay and
    seen caches, the propagation counters and the lifecycle; together with the
    [World] it talks to.  [NodeConfig] is what its constructor fixes.  The
    HTTP client's retries, timeouts and transport are the [World]'s. *)
From Stdlib Require Import Ascii.
From stdpp Require Import options.
From S2P Require Import Prelude PyText Json Utils Wallet Transaction Block Consensus Mempool Settings.
From S2P Require Import Sql Storage Blockchain Handshake PeerStore Url AddressSecurity Peers Effects.

Local Open Scope Z_scope.

(** ** JSON values from other nodes *)

(** [if value] *)
Definition truthy (value : json) : bool :=
  match value with
  | JNull => false
  | JBool b => b
  | JNum n => negb (num_val n =? 0)
  | JStr s => negb (String.eqb s "")
  | JArr l => negb (is_nil l)
  | JObj kvs => negb (is_nil kvs)
  end.

(** [value.get(key)] *)
Definition json_get (key : string) (value : json) : res json :=
  match value with
  | JObj kvs => Ok (dict_get_or key JNull kvs)
  | _ => Err (AttributeError "get")
  end.

(** [value.get(key, default)] *)
Definition json_get_or (key : string) (default : json) (value : json) : res json :=
  match value with
  | JObj kvs => Ok (dict_get_or key default kvs)
  | _ => Err (AttributeError "get")
  end.

(** [for x in value] *)
Definition iterate (value : json) : res (list json) :=
  match value with
  | JArr l => Ok l
  | JObj kvs => Ok (JStr ∘ fst <$> kvs)
  | JStr s => Ok ((λ c, JStr (String c EmptyString)) <$> chars s)
  | _ => Err (TypeError "object is not iterable")
  end.

(** Why a verdict refuses. *)
Definition refusal (v : verdict) : option string := if v.1 then None else Some v.2.

(** ** The node *)

(** blockchain/network/lifecycle.py *)
Inductive NodeLifecycle := STARTING | RUNNING | SYNCING | DEGRADED | STOPPING | STOPPED.

Definition lifecycle_value (l : NodeLifecycle) : string :=
  match l with
  | STARTING => "STARTING" | RUNNING => "RUNNING" | SYNCING => "SYNCING"
  | DEGRADED => "DEGRADED" | STOPPING => "STOPPING" | STOPPED => "STOPPED"
  end.

(** blockchain/network/protocol.py *)
Inductive MessageType :=
  | HELLO | PEER_LIST | PING | PONG | GET_CHAIN | GET_BLOCK | GET_BLOCKS
  | NEW_TRANSACTION | NEW_BLOCK | SYNC_REQUEST | SYNC_RESPONSE.

Definition message_value (m : MessageType) : string :=
  match m with
  | HELLO => "HELLO" | PEER_LIST => "PEER_LIST" | PING => "PING" | PONG => "PONG"
  | GET_CHAIN => "GET_CHAIN" | GET_BLOCK => "GET_BLOCK" | GET_BLOCKS => "GET_BLOCKS"
  | NEW_TRANSACTION => "NEW_TRANSACTION" | NEW_BLOCK => "NEW_BLOCK"
  | SYNC_REQUEST => "SYNC_REQUEST" | SYNC_RESPONSE => "SYNC_RESPONSE"
  end.

Definition SEEN_CACHE_SIZE : Z := 5000.

Definition initial_stats : list (string * Z) :=
  [("blocks_sent", 0); ("transactions_sent", 0); ("blocks_received", 0);
   ("transactions_received", 0); ("sync_attempts", 0)].

Record NodeConfig := {
  node_settings : Settings;
  node_consensus : ConsensusEngine;
  own_id : string;
  own_address : string;
  auth_context : AuthContext;
  registry_settings : RegistryConfig;
}.

Definition p2p (cfg : NodeConfig) : P2PConfig.t := p2p_settings (node_settings cfg).

Section net.
Context `{E : ECDSA} {T : Type → Type} `{Sql T} {W : Type} `{World W}.

Record net := Net {
  world : W;
  blockchain : node T;
  peers : registry T;
  replay_cache : ReplayCache.t;
  seen_blocks : BoundedSet.t;
  seen_transactions : BoundedSet.t;
  stats : list (string * Z);
  lifecycle : NodeLifecycle;
}.

Definition set_world (w : W) (s : net) : net :=
  Net w (blockchain s) (peers s) (replay_cache s) (seen_blocks s) (seen_transactions s) (stats s) (lifecycle s).
Definition set_blockchain (b : node T) (s : net) : net :=
  Net (world s) b (peers s) (replay_cache s) (seen_blocks s) (seen_transactions s) (stats s) (lifecycle s).
Definition set_registry (p : registry T) (s : net) : net :=
  Net (world s) (blockchain s) p (replay_cache s) (seen_blocks s) (seen_transactions s) (stats s) (lifecycle s).
Definition set_replay_cache (c : ReplayCache.t) (s : net) : net :=
  Net (world s) (blockchain s) (peers s) c (seen_blocks s) (seen_transactions s) (stats s) (lifecycle s).
Definition set_seen_blocks (c : BoundedSet.t) (s : net) : net :=
  Net (world s) (blockchain s) (peers s) (replay_cache s) c (seen_transactions s) (stats s) (lifecycle s).
Definition set_seen_transactions (c : BoundedSet.t) (s : net) : net :=
  Net (world s) (blockchain s) (peers s) (replay_cache s) (seen_blocks s) c (stats s) (lifecycle s).
Definition set_stats (c : list (string * Z)) (s : net) : net :=
  Net (world s) (blockchain s) (peers s) (replay_cache s) (seen_blocks s) (seen_transactions s) c (lifecycle s).
Definition set_lifecycle (l : NodeLifecycle) (s : net) : net :=
  Net (world s) (blockchain s) (peers s) (replay_cache s) (seen_blocks s) (seen_transactions s) (stats s) l.

(** Calls on the parts. *)
Definition draw {A} (f : W → W * A) : io net A := λ s, let '(w, a) := f (world s) in (set_world w s, Ok a).
Definition on_blockchain {A} (f : node T → node T * res A) : io net A := on blockchain set_blockchain f.
Definition on_peers {A} (f : registry T → registry T * res A) : io net A := on peers set_registry f.

Definition now : io net Z := draw time.

(** ** blockchain/network/protocol.py *)

Section client.
Context (cfg : NodeConfig).

Definition validate_target (base_url : string) : io net (option string) :=
  w ← gets world;
  v ← pure (validate_peer_address (getaddrinfo w) base_url (P2PConfig.allow_private_peer_addresses (p2p cfg)));
  mret (refusal v).

(** A body of [null] is Python's [None]. *)
Definition some_json (body : json) : option json := match body with JNull => None | _ => Some body end.

Definition request (timeout : Z) (req_method : string) (address path : string) (payload : option json)
    (expected : list Z) : io net (option json) :=
  refused ← validate_target address;
  match refused with
  | Some _ => mret None
  | None =>
      answer ← draw (http {| method := req_method; base_url := address; url_path := path;
                             request_body := payload; timeout := timeout |});
      match answer with
      | HTTPError => mret None
      | OtherError e => raise e
      | Response status body =>
          if negb (bool_decide (status ∈ expected)) then mret None
          else value ← pure body; mret (some_json value)
      end
  end.

Definition client_get (timeout : Z) (address path : string) : io net (option json) :=
  request timeout "GET" address path None [200].

Definition client_post (timeout : Z) (address path : string) (payload : py_dict) : io net (option json) :=
  request timeout "POST" address path (Some (JObj payload)) [200; 201].

(** [node.client] and [node.sync_client] differ in the timeout. *)
Definition propagation_timeout : Z := P2PConfig.propagation_timeout_seconds (p2p cfg).
Definition sync_timeout : Z := P2PConfig.sync_timeout_seconds (p2p cfg).

Definition get_status (address : string) : io net (option json) :=
  client_get propagation_timeout address "/network/status".

Definition get_chain (address : string) : io net (option json) :=
  client_get sync_timeout address "/network/chain".

Definition get_peers (address : string) : io net (option json) :=
  client_get propagation_timeout address "/network/peers".

(** The bodies of the calls. *)
Definition registration_message (node_id self_address : string) : py_dict :=
  [("node_id", JStr node_id); ("address", JStr self_address)].

Definition challenge_message (node_id : string) : py_dict := [("node_id", JStr node_id)].

Definition authentication_message (auth_envelope : py_dict) : py_dict := [("auth", JObj auth_envelope)].

Definition block_message (block : py_dict) (from_peer : string) (auth_envelope : py_dict) : py_dict :=
  [("message_type", JStr (message_value NEW_BLOCK)); ("block", JObj block); ("from_peer", JStr from_peer);
   ("auth", JObj auth_envelope)].

Definition transaction_message (transaction : py_dict) (from_peer : string) (auth_envelope : py_dict) : py_dict :=
  [("message_type", JStr (message_value NEW_TRANSACTION)); ("transaction", JObj transaction);
   ("from_peer", JStr from_peer); ("auth", JObj auth_envelope)].

Definition sync_message (auth_envelope : py_dict) (target : option string) : py_dict :=
  [("message_type", JStr (message_value SYNC_REQUEST)); ("auth", JObj auth_envelope);
   ("peer_address", opt_str_json target)].

Definition register_with (address node_id self_address : string) : io net (option json) :=
  client_post propagation_timeout address "/network/peers/register" (registration_message node_id self_address).

Definition request_challenge (address node_id : string) : io net (option json) :=
  client_post propagation_timeout address "/network/peers/challenge" (challenge_message node_id).

Definition authenticate_with (address : string) (auth_envelope : py_dict) : io net (option json) :=
  client_post propagation_timeout address "/network/peers/authenticate" (authentication_message auth_envelope).

Definition send_block (address : string) (block : py_dict) (from_peer : string) (auth_envelope : py_dict)
    : io net (option json) :=
  client_post propagation_timeout address "/network/blocks/receive" (block_message block from_peer auth_envelope).

Definition send_transaction (address : string) (transaction : py_dict) (from_peer : string)
    (auth_envelope : py_dict) : io net (option json) :=
  client_post propagation_timeout address "/network/transactions/receive"
    (transaction_message transaction from_peer auth_envelope).

Definition request_sync (address : string) (auth_envelope : py_dict) (target : option string)
    : io net (option json) :=
  client_post propagation_timeout address "/network/sync" (sync_message auth_envelope target).

(** ** Registry calls of the node *)

Definition register_peer (address : string) (node_id : option string) : io net verdict :=
  clock ← now; on_peers (register (registry_settings cfg) address node_id clock).

Definition peer_seen (address : string) (node_id : option string) : io net () :=
  clock ← now; on_peers (mark_seen address "online" node_id clock).

Definition peer_failed (address : string) : io net () :=
  clock ← now; _ ← on_peers (mark_failure address clock); mret tt.

Definition peer_eligible (address : string) : io net bool :=
  clock ← now; gets (λ s, is_eligible address clock (peers s)).

Definition is_trusted_peer (address : string) (s : net) : bool :=
  is_peer_trusted address (peer_db (peers s)).

(** [record_propagation]: the counters of a kind of message. *)
Definition add_stat (key : string) (n : Z) : io net () :=
  counters ← gets stats;
  match dict_get key counters with
  | Some v => modify (set_stats (dict_set key (v + n) counters))
  | None => raise (KeyError key)
  end.

Definition record_propagation (kind : string) (sent received : Z) : io net () :=
  _ ← add_stat (kind +:+ "_sent") sent;
  add_stat (kind +:+ "_received") received.

(** An envelope for this node, with fresh randomness. *)
Definition auth_envelope (payload : option py_dict) : io net py_dict :=
  clock ← now; entropy ← draw (urandom 16); rnd ← draw signing_nonce;
  pure (build_auth_envelope (auth_context cfg) payload clock entropy rnd).

Definition handshake_envelope (challenge : json) : io net py_dict :=
  clock ← now; entropy ← draw (urandom 16); rnd ← draw signing_nonce; rnd' ← draw signing_nonce;
  pure (build_handshake_envelope (auth_context cfg) challenge clock entropy rnd rnd').

(** ** blockchain/network/handshake.py: the client side *)

(** The reason a peer gives, where it is text. *)
Definition reason_of (response : json) : res string :=
  reason ← json_get "reason" response;
  if truthy reason then as_str "reason" reason else Ok "Peer rejected the handshake.".

Definition perform_handshake (peer_address : string) : io net verdict :=
  response ← request_challenge peer_address (own_id cfg);
  match response with
  | None => mret (reject "Could not obtain a challenge from the peer (unreachable or rejected).")
  | Some response =>
      challenge ← pure (json_get "challenge" response);
      if negb (truthy challenge) then mret (reject "Peer did not return a valid challenge.")
      else
        envelope ← handshake_envelope challenge;
        answer ← authenticate_with peer_address envelope;
        match answer with
        | None => mret (reject "Peer was unreachable while submitting the handshake response.")
        | Some answer =>
            authenticated ← pure (json_get "authenticated" answer);
            if negb (truthy authenticated)
            then reason ← pure (reason_of answer); mret (reject reason)
            else mret accept
        end
  end.

(** ** Discovery *)

(** A node name from a peer; only text and [null] are names. *)
Definition as_node_id (value : json) : res (option string) := as_opt_str "node_id" value.

(** [except Exception]; a value outside the model's types still stops it. *)
Definition on_exception {S A} (handler : io S A) (e : exn) : option (io S A) :=
  match e with Untyped _ => None | _ => Some handler end.

(** One configured peer: registration, then the handshake.  Any exception
    counts as a failure. *)
Definition discover_bootstrap_peer (address : string) : io net () :=
  attempt
    (registration ← register_with address (own_id cfg) (own_address cfg);
     match registration with
     | None => peer_failed address
     | Some registration =>
         name ← pure (json_get "self_node_id" registration);
         name ← pure (as_node_id name);
         _ ← register_peer address name;
         challenge ← request_challenge address (own_id cfg);
         value ← pure (match challenge with
                       | Some c => if truthy c then json_get "challenge" c else Ok JNull
                       | None => Ok JNull
                       end);
         if negb (truthy value) then peer_failed address
         else
           envelope ← handshake_envelope value;
           result ← authenticate_with address envelope;
           authenticated ← pure (match result with
                                 | Some r => if truthy r then json_get "authenticated" r else Ok JNull
                                 | None => Ok JNull
                                 end);
           match result with
           | Some r =>
               if truthy authenticated then
                 name ← pure (json_get "self_node_id" r);
                 name ← pure (as_node_id name);
                 peer_seen address name
               else peer_failed address
           | None => peer_failed address
           end
     end)
    (on_exception (peer_failed address)).

Definition discover_bootstrap_peers : io net () :=
  _ ← collect (λ address, _ ← discover_bootstrap_peer address; mret [tt])
        (P2PConfig.bootstrap_peers (p2p cfg));
  mret tt.

(** One entry of a peer's list of peers: whether it was added. *)
Definition learn_peer (peer_info : json) : io net (list ()) :=
  let is_dict := match peer_info with JObj _ => true | _ => false end in
  address ← pure (if is_dict then json_get "address" peer_info else Ok peer_info);
  if negb (truthy address) then mret []
  else
    match address with
    | JStr address =>
        node_id ← pure (if is_dict then json_get "node_id" peer_info ≫= as_node_id else Ok None);
        v ← register_peer address node_id;
        match refusal v with
        | Some _ => mret []
        | None =>
            if is_dict then
              capabilities ← pure (json_get_or "capabilities" (JArr []) peer_info);
              capabilities ← pure (iterate capabilities);
              capabilities ← pure (res_map (as_str "capabilities") capabilities);
              _ ← modify (λ s, set_registry (set_capabilities address capabilities (peers s)) s);
              mret [tt]
            else mret [tt]
        end
    (** No text is no address: [register] refuses it. *)
    | _ => mret []
    end.

Definition discover_from (peer : string) : io net (list ()) :=
  eligible ← peer_eligible peer;
  if negb (eligible : bool) then mret []
  else
    payload ← get_peers peer;
    match payload with
    | None => _ ← peer_failed peer; mret []
    | Some payload =>
        _ ← peer_seen peer None;
        listed ← pure (json_get_or "peers" (JArr []) payload);
        listed ← pure (iterate listed);
        collect learn_peer listed
    end.

Definition discover_peers : io net Z :=
  known ← gets (λ s, addresses (peers s));
  added ← collect discover_from known;
  mret (Z.of_nat (length added)).

(** ** Lifecycle *)

(** The background task that [start] creates runs [maintenance_round]. *)
Definition start : io net () :=
  current ← gets lifecycle;
  match current with
  | RUNNING => mret tt
  | _ =>
      _ ← modify (set_lifecycle STARTING);
      _ ← discover_bootstrap_peers;
      modify (set_lifecycle RUNNING)
  end.

Definition stop : io net () :=
  current ← gets lifecycle;
  match current with
  | STOPPED => mret tt
  | _ => _ ← modify (set_lifecycle STOPPING); modify (set_lifecycle STOPPED)
  end.

Definition net_status (clock : Z) (s : net) : res py_dict :=
  let settings := node_settings cfg in
  d ← current_difficulty settings (node_consensus cfg) (blockchain s);
  Ok [("node_id", JStr (own_id cfg));
      ("self_address", JStr (own_address cfg));
      ("public_key", JStr (P2PIdentity.public_key_hex (identity (auth_context cfg))));
      ("peer_count", JNum (PInt (count (peers s))));
      ("chain_length", JNum (PInt (chain_len (blockchain s))));
      ("chain_work", JNum (PInt (total_work (blockchain s))));
      ("network_name", JStr (Settings.network_name (network_settings settings)));
      ("chain_id", JNum (PInt (chain_id (network_settings settings))));
      ("lifecycle", JStr (lifecycle_value (lifecycle s)));
      ("healthy_peer_count", JNum (PInt (healthy_count clock (peers s))));
      ("sync_state", JStr (lifecycle_value (lifecycle s)));
      ("mempool_size", JNum (PInt (Mempool.size (mempool (blockchain s)))));
      ("current_difficulty", JNum (PInt d));
      ("total_supply_base_units", JNum (PInt (total_supply_base_units (blockchain s))));
      ("propagation", JObj ((λ kv, (kv.1, JNum (PInt kv.2))) <$> stats s))].

End client.

(** ** Construction *)

Section construction.
Context (settings : Settings) (consensus : ConsensusEngine).

(** [get_or_create_node_id] and [get_or_create_p2p_identity] of the storage;
    the readings are drawn whether they are needed or not. *)
Definition load_identity (db : PeerDB T) (w : W) : W * res (PeerDB T * P2PIdentity.t) :=
  let '(w, fresh) := new_uuid w in
  let '(w, clock) := time w in
  let '(w, scalar) := new_key w in
  let override := P2PConfig.node_id_override (p2p_settings settings) in
  (w, '(node_id, db) ← (if negb (String.eqb override "") then Ok (override, db)
                         else get_or_create_node_id fresh clock db);
      '(priv, pub, db) ← get_or_create_p2p_identity node_id scalar clock db;
      Ok (db, P2PIdentity.Make node_id priv pub)).

Definition node_config (self : P2PIdentity.t) (genesis : Block.t) : NodeConfig :=
  let address := resolved_advertised_address settings in
  {| node_settings := settings; node_consensus := consensus;
     own_id := P2PIdentity.node_id self; own_address := address;
     auth_context := {| identity := self;
                        network_name := Settings.network_name (network_settings settings);
                        genesis_hash := Block.hash genesis;
                        advertised_address := address;
                        capabilities := ["blocks"; "transactions"; "sync"] |};
     registry_settings := registry_config address (P2PIdentity.node_id self)
                            (P2PConfig.max_peers (p2p_settings settings)) |}.

(** [NetworkNode(blockchain)] *)
Definition init_net (chain : node T) (db : PeerDB T) (w : W) : res (NodeConfig * net) :=
  let '(w, loaded) := load_identity db w in
  '(db, self) ← loaded;
  genesis ← genesis_block chain;
  let cfg := node_config self genesis in
  let s := {| world := w; blockchain := chain; peers := Registry db ∅;
              replay_cache := ReplayCache.init (P2PConfig.replay_cache_size (p2p_settings settings));
              seen_blocks := BoundedSet.init SEEN_CACHE_SIZE;
              seen_transactions := BoundedSet.init SEEN_CACHE_SIZE;
              stats := initial_stats; lifecycle := STARTING |} in
  let '(s, r) := collect (λ address, _ ← register_peer cfg address None; mret [tt])
                   (P2PConfig.bootstrap_peers (p2p_settings settings)) s in
  _ ← r;
  Ok (cfg, s).
End construction.
End net.
Arguments net T W : clear implicits.
