(* ===== verification/Propagation.v ===== *)
(** * blockchain/network/propagation.py: sending and receiving blocks and transactions *)
From Stdlib Require Import Ascii.
From stdpp Require Import options.
From S2P Require Import Prelude PyText Json Utils NativeAsset Wallet Transaction Block Consensus Mempool.
From S2P Require Import Settings Validators Sql Storage Blockchain Handshake PeerStore Peers Effects Network.

Local Open Scope Z_scope.

Section propagation.
Context `{E : ECDSA} {T : Type → Type} `{Sql T} {W : Type} `{World W}.
Context (cfg : NodeConfig).

Abbreviation net := (net T W).

(** ** Authentication *)

(** [if claimed_address] *)
Definition claimed (address : option string) : option string :=
  match address with
  | Some a => if String.eqb a "" then None else Some a
  | None => None
  end.

(** [credential["node_id"] != envelope["node_id"] or ...] *)
Definition other_identity (credential : CredentialRow) (envelope : json) : res bool :=
  match envelope with
  | JObj kvs =>
      node ← dict_index "node_id" kvs;
      if differs node (cr_node_id credential) then Ok true
      else key ← dict_index "public_key" kvs; Ok (differs key (cr_public_key_hex credential))
  | _ => Err (TypeError "envelope")
  end.

Definition authenticate_request (auth_envelope : option json) (operational_payload : option py_dict)
    (claimed_address : option string) : io net verdict :=
  match auth_envelope with
  | None => mret (reject "Authentication required: no auth envelope provided.")
  | Some envelope =>
      let claimed_address := claimed claimed_address in
      known_credential ← gets (λ s, a ← claimed_address; get_peer_credential a (peer_db (peers s)));
      clock ← now;
      v ← on replay_cache set_replay_cache
            (verify_auth_envelope envelope operational_payload (auth_context cfg)
               (P2PConfig.auth_freshness_window_seconds (p2p cfg)) clock);
      match refusal v, claimed_address, known_credential with
      | Some reason, _, _ => mret (reject reason)
      | None, None, _ => mret accept
      | None, Some _, None =>
          mret (reject "Address is not a trusted peer yet. Complete /network/peers/authenticate first.")
      | None, Some _, Some credential =>
          other ← pure (other_identity credential envelope);
          if other : bool
          then mret (reject "Identity mismatch: this address previously authenticated under a different identity. Re-run /network/peers/authenticate explicitly.")
          else mret accept
      end
  end.

(** ** Sending *)

(** One turn of either broadcast loop. *)
Definition broadcast_to (message : py_dict) (send : string → py_dict → io net (option json))
    (exclude_address : option string) (address : string) : io net (list string) :=
  if bool_decide (Some address = exclude_address) then mret []
  else
    trusted ← gets (is_trusted_peer address);
    if negb (trusted : bool) then mret []
    else
      eligible ← peer_eligible address;
      if negb (eligible : bool) then mret []
      else
        envelope ← auth_envelope cfg (Some message);
        result ← send address envelope;
        match result with
        | Some _ => _ ← peer_seen address None; mret [address]
        | None => _ ← peer_failed address; mret []
        end.

Definition broadcast_block (block : Block.t) (exclude_address : option string) : io net (list string) :=
  _ ← modify (λ s, set_seen_blocks (BoundedSet.add (Block.hash block) (seen_blocks s)) s);
  block_dict ← pure (Block.to_dict block);
  targets ← gets (λ s, addresses (peers s));
  acknowledged ← collect (broadcast_to block_dict
    (λ address envelope, send_block cfg address block_dict (own_address cfg) envelope) exclude_address) targets;
  _ ← record_propagation "blocks" (Z.of_nat (length acknowledged)) 0;
  mret acknowledged.

Definition broadcast_transaction (transaction : Transaction.t) (exclude_address : option string)
    : io net (list string) :=
  _ ← modify (λ s, set_seen_transactions
                     (BoundedSet.add (Transaction.tx_hash transaction) (seen_transactions s)) s);
  tx_dict ← pure (Transaction.to_dict transaction);
  targets ← gets (λ s, addresses (peers s));
  acknowledged ← collect (broadcast_to tx_dict
    (λ address envelope, send_transaction cfg address tx_dict (own_address cfg) envelope) exclude_address)
    targets;
  _ ← record_propagation "transactions" (Z.of_nat (length acknowledged)) 0;
  mret acknowledged.

(** ** Receiving *)

(** [(accepted, reason, should_rebroadcast)] *)
Definition outcome : Type := verdict * bool.
Definition refused (reason : string) : outcome := (reject reason, false).

(** [except (KeyError, TypeError, ValueError)] *)
Definition malformed (e : exn) : bool :=
  match e with KeyError _ | TypeError _ | ValueError _ => true | _ => false end.

(** A value parsed from the payload, or the refusal of a malformed one; the
    message, which quotes the exception, is cut before it. *)
Definition parse {A} (r : res A) : res (option A) :=
  match r with
  | Ok a => Ok (Some a)
  | Err e => if malformed e then Ok None else Err e
  end.

(** The critical section of [receive_block]: the call of
    [validate_block_against_chain] leaves the supply cap to its default. *)
Definition append_received (block : Block.t) (st : node T) : node T * res (option string) :=
  match latest_block st with
  | Err e => (st, Err e)
  | Ok tip =>
      if negb (Block.index block =? Block.index tip + 1)
      then (st, Ok (Some "Block does not extend the local chain tip; a full sync is required."))
      else
        match validate_block_against_chain block (chain st) (node_consensus cfg)
                (consensus_settings (node_settings cfg)) (block_reward (mining_settings (node_settings cfg)))
                MAX_SUPPLY_BASE_UNITS with
        | Err e => (st, Err e)
        | Ok (is_valid, reason) =>
            if negb is_valid then (st, Ok (Some ("Invalid block: " +:+ reason)))
            else
              let st := set_chain (chain st ++ [block]) st in
              match save_block block (storage st) with
              | Err e => (st, Err e)
              | Ok db =>
                  let '(db, r) := update_balances_for_block block db in
                  let st := set_storage db st in
                  match r with
                  | Err e => (st, Err e)
                  | Ok _ =>
                      (set_mempool (Mempool.remove_transactions
                         (Transaction.tx_hash <$> Block.transactions block) (mempool st)) st, Ok None)
                  end
              end
        end
  end.

Definition see_block (hash : string) : io net () :=
  modify (λ s, set_seen_blocks (BoundedSet.add hash (seen_blocks s)) s).

Definition see_transaction (hash : string) : io net () :=
  modify (λ s, set_seen_transactions (BoundedSet.add hash (seen_transactions s)) s).

(** [if from_peer: node.peers.mark_seen(from_peer, "online")] *)
Definition sender_seen (from_peer : option string) : io net () :=
  match claimed from_peer with Some a => peer_seen a None | None => mret tt end.

(** From the seen check on. *)
Definition take_block (block : Block.t) (from_peer : option string) : io net outcome :=
  let hash := Block.hash block in
  seen ← gets (λ s, BoundedSet.contains (seen_blocks s) hash);
  if seen : bool then mret (refused "Duplicate block (already seen).")
  else
    existing ← gets (λ s, get_block_at (Block.index block) (blockchain s));
    if bool_decide (Block.hash <$> existing = Some hash)
    then _ ← see_block hash; mret (refused "Duplicate block (already on chain).")
    else
      _ ← see_block hash;
      refusal ← on_blockchain (append_received block);
      match refusal with
      | Some reason => mret (refused reason)
      | None =>
          _ ← record_propagation "blocks" 0 1;
          _ ← sender_seen from_peer;
          mret (accept, true)
      end.

Definition receive_block (block_dict : py_dict) (from_peer : option string) (envelope : option json)
    : io net outcome :=
  v ← authenticate_request envelope (Some block_dict) from_peer;
  match refusal v with
  | Some reason => mret (refused reason)
  | None =>
      clock ← now;
      parsed ← pure (parse (Block.from_dict clock block_dict));
      match parsed with
      | None => mret (refused "Malformed block payload")
      | Some block => take_block block from_peer
      end
  end.

(** The critical section of [receive_transaction]. *)
Definition submit_received (transaction : Transaction.t) : io net verdict :=
  let hash := Transaction.tx_hash transaction in
  pending ← gets (λ s, Mempool.contains hash (mempool (blockchain s)));
  if pending : bool
  then _ ← see_transaction hash; mret (reject "Duplicate transaction (already pending).")
  else
    _ ← see_transaction hash;
    on_blockchain (λ st, let '(st, v) := submit_transaction transaction st in (st, Ok v)).

Definition take_transaction (transaction : Transaction.t) (from_peer : option string) : io net outcome :=
  seen ← gets (λ s, BoundedSet.contains (seen_transactions s) (Transaction.tx_hash transaction));
  if seen : bool then mret (refused "Duplicate transaction (already seen).")
  else
    v ← submit_received transaction;
    match refusal v with
    | Some reason => mret (refused reason)
    | None =>
        _ ← record_propagation "transactions" 0 1;
        _ ← sender_seen from_peer;
        mret (accept, true)
    end.

Definition receive_transaction (tx_dict : py_dict) (from_peer : option string) (envelope : option json)
    : io net outcome :=
  v ← authenticate_request envelope (Some tx_dict) from_peer;
  match refusal v with
  | Some reason => mret (refused reason)
  | None =>
      clock ← now;
      parsed ← pure (parse (Transaction.from_dict clock tx_dict));
      match parsed with
      | None => mret (refused "Malformed transaction payload")
      | Some transaction => take_transaction transaction from_peer
      end
  end.
End propagation.
