(* ===== verification/Sync.v ===== *)
(** * blockchain/network/sync.py: adopting a peer's chain; the maintenance loop of node.py *)
From Stdlib Require Import Ascii.
From stdpp Require Import options.
From S2P Require Import Prelude PyText Json Utils Wallet Transaction Block Consensus Settings Validators.
From S2P Require Import Sql Storage Blockchain Handshake Url AddressSecurity Peers Effects Network Propagation.

Local Open Scope Z_scope.

Record SyncResult := {
  peer_address : string;
  accepted : bool;
  reason : string;
  local_length_before : Z;
  local_length_after : Z;
}.

(** [needle in text] *)
Fixpoint contains (needle text : string) : bool :=
  starts_with text needle ||
  match text with
  | EmptyString => false
  | String _ text => contains needle text
  end.

(** [Block.from_dict] of any value: it starts with [data.get]. *)
Definition block_of_json (clock : Z) (value : json) : res Block.t :=
  match value with
  | JObj kvs => Block.from_dict clock kvs
  | _ => Err (AttributeError "get")
  end.

Definition parse_candidate_chain (clock : Z) (raw_blocks : list json) (max_blocks : Z)
    : res (string + list Block.t) :=
  if max_blocks <? Z.of_nat (length raw_blocks)
  then Ok (inl ("Candidate chain has " +:+ str_Z (Z.of_nat (length raw_blocks)) +:+
                " blocks, exceeding the configured maximum of " +:+ str_Z max_blocks +:+ "."))
  else
    parsed ← parse (res_map (block_of_json clock) raw_blocks);
    match parsed with
    | Some blocks => Ok (inr blocks)
    | None => Ok (inl "Candidate chain contained malformed blocks")
    end.

Section sync.
Context `{E : ECDSA} {T : Type → Type} `{Sql T} {W : Type} `{World W}.
Context (cfg : NodeConfig).

Abbreviation net := (net T W).

Definition blockchain_length (s : net) : Z := chain_len (blockchain s).

Definition unchanged (address reason : string) (before : Z) : SyncResult :=
  {| peer_address := address; accepted := false; reason := reason;
     local_length_before := before; local_length_after := before |}.

(** The blocks of a response, where it has any. *)
Definition raw_chain (payload : json) : res (option (list json)) :=
  value ← json_get "chain" payload;
  match value with
  | JArr (b :: l) => Ok (Some (b :: l))
  | _ => Ok None
  end.

(** The decision on a parsed chain. *)
Definition adopt (address : string) (before : Z) (candidate : list Block.t) : io net SyncResult :=
  clock ← now;
  v ← on_blockchain (replace_chain (node_settings cfg) (node_consensus cfg) clock candidate);
  _ ← (match refusal v with
       | None => peer_seen address None
       | Some reason =>
           if starts_with (lower reason) "peer" || contains "unreachable" (lower reason)
           then peer_failed address else mret tt
       end);
  after ← gets blockchain_length;
  mret {| peer_address := address; accepted := v.1; reason := v.2;
          local_length_before := before; local_length_after := after |}.

Definition sync_with_peer (address : string) : io net SyncResult :=
  before ← gets blockchain_length;
  refused ← validate_target cfg address;
  match refused with
  | Some reason => mret (unchanged address ("Invalid peer address: " +:+ reason) before)
  | None =>
      eligible ← peer_eligible address;
      if negb (eligible : bool) then mret (unchanged address "Peer is in retry backoff." before)
      else
        payload ← get_chain cfg address;
        _ ← add_stat "sync_attempts" 1;
        match payload with
        | None =>
            _ ← peer_failed address;
            mret (unchanged address "Peer unreachable or returned an error." before)
        | Some payload =>
            raw ← pure (raw_chain payload);
            match raw with
            | None => mret (unchanged address "Peer response did not contain a chain." before)
            | Some raw_blocks =>
                clock ← now;
                candidate ← pure (parse_candidate_chain clock raw_blocks
                                    (P2PConfig.max_sync_blocks (p2p cfg)));
                match candidate with
                | inl reason => mret (unchanged address reason before)
                | inr candidate => adopt address before candidate
                end
            end
        end
  end.

Definition sync_with_all_peers : io net (list SyncResult) :=
  known ← gets (λ s, addresses (peers s));
  collect (λ address, r ← sync_with_peer address; mret [r]) known.

(** One round of [_maintenance_loop], up to its wait. *)
Definition maintenance_round : io net () :=
  attempt
    (_ ← discover_peers cfg;
     _ ← modify (set_lifecycle SYNCING);
     _ ← sync_with_all_peers;
     modify (set_lifecycle RUNNING))
    (on_exception (modify (set_lifecycle DEGRADED))).
End sync.
