(* ===== verification/NetworkSamples.v ===== *)
(** * A small network world for the witnesses

    A clock that does not move, a script of HTTP answers given in order, no
    name server. *)
From Stdlib Require Import Ascii.
From stdpp Require Import options.
From S2P Require Import Prelude PyText Json Utils Wallet Transaction Block Consensus Mempool.
From S2P Require Import Settings Samples Validators Sql Storage StorageFacts Blockchain BlockchainFacts.
From S2P Require Import Handshake HandshakeFacts PeerStore Url AddressSecurity Peers Effects Network.

Local Open Scope Z_scope.

#[local] Existing Instances ToyECDSA.ecdsa ListSql.sql ListSql.sql_laws.

Record toy_world := ToyWorld { toy_clock : N; answers : list HttpAnswer }.

#[export] Instance toy_world_world : World toy_world := {
  time w := (w, Z.of_N (toy_clock w) * ticks + 3407872);
  urandom n w := (w, repeat 5 n);
  signing_nonce w := (w, 0);
  new_key w := (w, 9);
  new_uuid w := (w, "node");
  http _ w := match answers w with
              | a :: l => (ToyWorld (toy_clock w) l, a)
              | [] => (w, HTTPError)
              end;
  getaddrinfo _ _ := GaiError;
}.

Lemma toy_clock_nonneg (w : toy_world) : 0 ≤ (time w).2.
Proof. cbn. lia. Qed.

(** A run from what it returns. *)
Lemma run_eq {A B} (p : A * B) b : p.2 = b → p = (p.1, b).
Proof. destruct p. by intros [= <-]. Qed.

(** This node, and the node at [other_address]. *)
Definition own_config : NodeConfig :=
  node_config sample_settings pow (toy_identity "node" 9) Samples.genesis_block.
Definition other_address : string := "http://10.0.0.2:8000".

(** A node with the given chain, registry and script. *)
Definition sample_net (c : list Block.t) (p : registry ListSql.t) (script : list HttpAnswer)
    : net ListSql.t toy_world := {|
  world := ToyWorld 1735700100 script;
  blockchain := node_of c;
  peers := p;
  replay_cache := ReplayCache.init 10;
  seen_blocks := BoundedSet.init SEEN_CACHE_SIZE;
  seen_transactions := BoundedSet.init SEEN_CACHE_SIZE;
  stats := initial_stats;
  lifecycle := RUNNING;
|}.

Definition json_of_block (b : Block.t) : json :=
  match Block.to_dict b with Ok d => JObj d | Err _ => JNull end.

(** The answer of [/network/chain]. *)
Definition chain_answer (c : list Block.t) : HttpAnswer :=
  Response 200 (Ok (JObj [("chain", JArr (json_of_block <$> c))])).

Example init_example :
  (λ r, own_id r.1) <$> init_net sample_settings pow (node_of short_chain) (empty_peer_db : PeerDB ListSql.t)
     (ToyWorld 0 []) = Ok "node".
Proof. vm_compute. reflexivity. Qed.
