(* ===== verification/NetworkFacts.v ===== *)
(** * What the network node guarantees *)
From Stdlib Require Import Ascii.
From stdpp Require Import options.
From S2P Require Import Prelude PyText Json Utils NativeAsset Wallet Transaction Block Consensus Mempool.
From S2P Require Import Settings Samples Validators Sql Storage StorageFacts Blockchain BlockchainFacts.
From S2P Require Import Handshake HandshakeFacts PeerStore Url AddressSecurity Peers Effects Network.
From S2P Require Import NetworkSamples Propagation Sync.

Local Open Scope Z_scope.
#[local] Set Default Proof Using "Type*".

(** ** What an operation leaves alone *)

Create HintDb quiet discriminated.

Section frame.
Context `{E : ECDSA} {T : Type → Type} {SQL : Sql T} {W : Type} {Wo : World W}.

Abbreviation net := (net T W).
Implicit Types (s : net).

(** The credentials decide whom the node trusts. *)
Definition credentials s : T CredentialRow := peer_credentials_table (peer_db (peers s)).

(** Everything but the wrapped node and the credentials may have changed. *)
Definition quiet : relation net := λ s s',
  blockchain s' = blockchain s ∧ credentials s' = credentials s.

(** A relation that allows at least quiet changes. *)
Context (cfg : NodeConfig) (R : relation net) `{!PreOrder R}.
Hypothesis quiet_R : ∀ s s', quiet s s' → R s s'.

Lemma draw_moves {A} (f : W → W * A) : moves R (draw f).
Proof. intros s. unfold draw. destruct (f (world s)). by apply quiet_R. Qed.

Lemma modify_moves f : (∀ s, quiet s (f s)) → moves R (modify f).
Proof. intros Hf s. apply quiet_R, Hf. Qed.

Lemma on_replay_cache_moves {A} (f : ReplayCache.t → ReplayCache.t * res A) :
  moves R (on replay_cache set_replay_cache f).
Proof. apply moves_on; [apply _|]. intros. by apply quiet_R. Qed.

(** A registry operation that keeps the credentials. *)
Lemma on_peers_moves {A} (f : registry T → registry T * res A) :
  (∀ p, peer_credentials_table (peer_db (f p).1) = peer_credentials_table (peer_db p)) →
  moves R (on_peers f).
Proof.
  intros Hf s. unfold on_peers, on. specialize (Hf (peers s)).
  destruct (f (peers s)). by apply quiet_R.
Qed.

Lemma save_credentials (p : registry T) address node_id status last_seen clock :
  peer_credentials_table (peer_db
    (save p (upsert_peer address node_id status last_seen clock (peer_db p))).1) =
  peer_credentials_table (peer_db p).
Proof. unfold save, upsert_peer. by destruct (upsert _ _ _ _ _). Qed.

Lemma register_credentials rc a i clock (p : registry T) :
  peer_credentials_table (peer_db (register rc a i clock p).1) = peer_credentials_table (peer_db p).
Proof.
  unfold register. do 3 (case_match; [done|]). destruct (_ && _); [done|]. set (p1 := set_health _ p).
  change (peer_db p) with (peer_db p1).
  match goal with |- context [save p1 (upsert_peer ?x1 ?x2 ?x3 ?x4 ?x5 _)] =>
    pose proof (save_credentials p1 x1 x2 x3 x4 x5) as Hs; destruct (save p1 _) end.
  exact Hs.
Qed.

Lemma mark_seen_credentials a st i clock (p : registry T) :
  peer_credentials_table (peer_db (mark_seen a st i clock p).1) = peer_credentials_table (peer_db p).
Proof. unfold mark_seen. apply (save_credentials (set_health _ p)). Qed.

Lemma mark_failure_credentials a clock (p : registry T) :
  peer_credentials_table (peer_db (mark_failure a clock p).1) = peer_credentials_table (peer_db p).
Proof.
  unfold mark_failure. set (p1 := set_health _ p). change (peer_db p) with (peer_db p1).
  match goal with |- context [save p1 (upsert_peer ?x1 ?x2 ?x3 ?x4 ?x5 _)] =>
    pose proof (save_credentials p1 x1 x2 x3 x4 x5) as Hs; destruct (save p1 _) end.
  exact Hs.
Qed.

(** Walks to the calls an operation ends in. *)
Ltac walk :=
  walk_moves; first
    [ apply draw_moves | apply on_replay_cache_moves | apply modify_moves; done | solve [auto with quiet] | idtac ].

Lemma request_moves t m a p b l : moves R (request cfg t m a p b l).
Proof. unfold request, validate_target. walk. Qed.

Lemma validate_target_moves a : moves R (validate_target (T := T) (W := W) cfg a).
Proof. unfold validate_target. walk. Qed.

Lemma now_moves : moves R (now (T := T) (W := W)).
Proof. unfold now. walk. Qed.

Lemma add_stat_moves key n : moves R (add_stat (T := T) (W := W) key n).
Proof. unfold add_stat. walk. Qed.
#[local] Hint Resolve request_moves add_stat_moves : quiet.

Lemma get_chain_moves a : moves R (get_chain (T := T) (W := W) cfg a).
Proof. unfold get_chain, client_get. walk. Qed.

Lemma register_peer_moves a i : moves R (register_peer (T := T) (W := W) cfg a i).
Proof. unfold register_peer, now. walk. apply on_peers_moves. apply register_credentials. Qed.
Lemma peer_seen_moves a i : moves R (peer_seen (T := T) (W := W) a i).
Proof. unfold peer_seen, now. walk. apply on_peers_moves. apply mark_seen_credentials. Qed.
Lemma peer_failed_moves a : moves R (peer_failed (T := T) (W := W) a).
Proof. unfold peer_failed, now. walk. apply on_peers_moves. apply mark_failure_credentials. Qed.
Lemma peer_eligible_moves a : moves R (peer_eligible (T := T) (W := W) a).
Proof. unfold peer_eligible, now. walk. Qed.
#[local] Hint Resolve register_peer_moves peer_seen_moves peer_failed_moves
  peer_eligible_moves : quiet.

Lemma auth_envelope_moves p : moves R (auth_envelope (T := T) (W := W) cfg p).
Proof. unfold auth_envelope, now. walk. Qed.
Lemma handshake_envelope_moves c : moves R (handshake_envelope (T := T) (W := W) cfg c).
Proof. unfold handshake_envelope, now. walk. Qed.
Lemma record_propagation_moves k m n : moves R (record_propagation (T := T) (W := W) k m n).
Proof. unfold record_propagation. walk. Qed.
#[local] Hint Resolve auth_envelope_moves handshake_envelope_moves record_propagation_moves
  : quiet.

Lemma on_exception_moves {A} (h : io net A) e m' :
  moves R h → on_exception h e = Some m' → moves R m'.
Proof. unfold on_exception. destruct e; intros Hh [= <-]; done. Qed.

Lemma perform_handshake_moves a : moves R (perform_handshake (T := T) (W := W) cfg a).
Proof. unfold perform_handshake, request_challenge, authenticate_with, client_post. walk. Qed.

Lemma discover_bootstrap_peer_moves a : moves R (discover_bootstrap_peer (T := T) (W := W) cfg a).
Proof.
  unfold discover_bootstrap_peer, register_with, request_challenge, authenticate_with, client_post.
  apply moves_attempt; [apply _| |].
  - walk.
  - intros e m'. apply on_exception_moves. walk.
Qed.
#[local] Hint Resolve discover_bootstrap_peer_moves : quiet.

Lemma learn_peer_moves i : moves R (learn_peer (T := T) (W := W) cfg i).
Proof. unfold learn_peer. walk. Qed.
#[local] Hint Resolve learn_peer_moves : quiet.

Lemma discover_from_moves p : moves R (discover_from (T := T) (W := W) cfg p).
Proof. unfold discover_from, get_peers, client_get. walk. Qed.
#[local] Hint Resolve discover_from_moves : quiet.

Lemma discover_peers_moves : moves R (discover_peers (T := T) (W := W) cfg).
Proof. unfold discover_peers. walk. Qed.
#[local] Hint Resolve discover_peers_moves : quiet.

Lemma start_moves : moves R (start (T := T) (W := W) cfg).
Proof. unfold start, discover_bootstrap_peers. walk. Qed.

Lemma authenticate_request_moves e p a :
  moves R (authenticate_request (T := T) (W := W) cfg e p a).
Proof. unfold authenticate_request, now. walk. Qed.
#[local] Hint Resolve authenticate_request_moves : quiet.

Lemma broadcast_block_moves b x : moves R (broadcast_block (T := T) (W := W) cfg b x).
Proof. unfold broadcast_block, broadcast_to, send_block, client_post. walk. Qed.
Lemma broadcast_transaction_moves t x :
  moves R (broadcast_transaction (T := T) (W := W) cfg t x).
Proof. unfold broadcast_transaction, broadcast_to, send_transaction, client_post. walk. Qed.

(** The three that touch the wrapped node. *)

Lemma receive_block_moves d p e :
  (∀ b, moves R (on_blockchain (append_received cfg b))) → moves R (receive_block (T := T) (W := W) cfg d p e).
Proof. intros Hb. unfold receive_block, take_block, see_block, sender_seen, now. walk. Qed.

Lemma receive_transaction_moves d p e :
  (∀ tx, moves R (on_blockchain (λ st, let '(st, v) := submit_transaction tx st in (st, Ok v)))) →
  moves R (receive_transaction (T := T) (W := W) cfg d p e).
Proof.
  intros Hb. unfold receive_transaction, take_transaction, submit_received, see_transaction, sender_seen, now. walk.
Qed.

Context (replaces : ∀ clock c,
  moves R (on_blockchain (replace_chain (node_settings cfg) (node_consensus cfg) clock c))).

Lemma sync_with_peer_moves a : moves R (sync_with_peer (T := T) (W := W) cfg a).
Proof. unfold sync_with_peer, adopt, validate_target, get_chain, client_get, now. walk. Qed.
#[local] Hint Resolve sync_with_peer_moves : quiet.

Lemma sync_with_all_peers_moves : moves R (sync_with_all_peers (T := T) (W := W) cfg).
Proof. unfold sync_with_all_peers. walk. Qed.
#[local] Hint Resolve sync_with_all_peers_moves : quiet.

Lemma maintenance_round_moves : moves R (maintenance_round (T := T) (W := W) cfg).
Proof.
  unfold maintenance_round. apply moves_attempt; [apply _| |].
  - walk.
  - intros e m'. apply on_exception_moves. walk.
Qed.
End frame.

#[export] Hint Resolve validate_target_moves now_moves get_chain_moves add_stat_moves moves_pure
  register_peer_moves peer_seen_moves peer_failed_moves peer_eligible_moves auth_envelope_moves
  record_propagation_moves authenticate_request_moves : quiet.

(** ** Network operations are steps of the wrapped node *)

Section steps.
Context `{E : ECDSA} {T : Type → Type} {SQL : Sql T} {W : Type} {Wo : World W}.
Context (cfg : NodeConfig).

Abbreviation net := (net T W).
Abbreviation chain_step := (step (T := T) (node_settings cfg) (node_consensus cfg)).
Implicit Types (s : net).

(** What the node does: messages from peers, its own broadcasts and rounds, and
    the local calls on the wrapped node. *)
Inductive net_step : relation net :=
  | net_receive_block d p e s : net_step s (receive_block cfg d p e s).1
  | net_receive_transaction d p e s : net_step s (receive_transaction cfg d p e s).1
  | net_broadcast_block b x s : net_step s (broadcast_block cfg b x s).1
  | net_broadcast_transaction tx x s : net_step s (broadcast_transaction cfg tx x s).1
  | net_sync a s : net_step s (sync_with_peer cfg a s).1
  | net_maintenance s : net_step s (maintenance_round cfg s).1
  | net_start s : net_step s (start cfg s).1
  | net_local st s : chain_step (blockchain s) st → net_step s (set_blockchain st s).

Abbreviation valid_chain c :=
  (validate_chain c (node_consensus cfg) (config (node_settings cfg)) (reward (node_settings cfg))
     (max_supply (node_settings cfg)) = Ok accept).

(** ** Trust *)

Definition same_credentials : relation net := λ s s', credentials s' = credentials s.

#[local] Instance same_credentials_preorder : PreOrder same_credentials.
Proof. unfold same_credentials. split; [done|]. intros s1 s2 s3. congruence. Qed.

Lemma on_blockchain_credentials {A} (f : node T → node T * res A) :
  moves same_credentials (on_blockchain f).
Proof. apply moves_on; [apply _|]. done. Qed.

Lemma net_step_credentials s s' : net_step s s' → credentials s' = credentials s.
Proof.
  assert (Hq : ∀ s s', quiet s s' → same_credentials s s') by (by intros ?? [_ ?]).
  pose proof @on_blockchain_credentials. change (net_step s s' → same_credentials s s'). intros [].
  - apply receive_block_moves; [apply _|done|]. auto.
  - apply receive_transaction_moves; [apply _|done|]. auto.
  - apply broadcast_block_moves; [apply _|done].
  - apply broadcast_transaction_moves; [apply _|done].
  - apply sync_with_peer_moves; [apply _|done|]. auto.
  - apply maintenance_round_moves; [apply _|done|]. auto.
  - apply start_moves; [apply _|done].
  - done.
Qed.

(** Nobody becomes trusted, or another identity, through these operations:
    the stored credentials change in none of them. *)
Theorem trust_is_not_transitive s s' :
  rtc net_step s s' → credentials s' = credentials s.
Proof. induction 1 as [|s1 s2 s3 Hs _ IH]; [done|]. by rewrite IH, (net_step_credentials _ _ Hs). Qed.

(** ** Synchronisation *)

Definition same_blockchain : relation net := λ s s', blockchain s' = blockchain s.

#[local] Instance same_blockchain_preorder : PreOrder same_blockchain.
Proof. unfold same_blockchain. split; [done|]. intros s1 s2 s3. congruence. Qed.

Lemma quiet_blockchain s s' : quiet s s' → same_blockchain s s'.
Proof. by intros [? _]. Qed.

(** What a synchronisation of a node that wraps [st] may end in. *)
Definition sync_outcome (st : node T) s' (r : SyncResult) : Prop :=
  (accepted r = false ∧ blockchain s' = st ∨
   accepted r = true ∧ valid_chain (chain (blockchain s')) ∧
   chain_work (chain st) < chain_work (chain (blockchain s')) ∧
   head_hash (blockchain s') = head_hash st) ∧
  local_length_before r = chain_len st ∧ local_length_after r = chain_len (blockchain s').

Definition ends (st : node T) (m : io net SyncResult) : Prop :=
  ∀ s s' r, blockchain s = st → m s = (s', Ok r) → sync_outcome st s' r.

Lemma ends_bind {A} st (m : io net A) f :
  moves same_blockchain m → (∀ a, ends st (f a)) → ends st (m ≫= f).
Proof.
  intros Hm Hf s s' r Hs (s1 & a & Hrun & Hr)%io_bind_Ok.
  apply (moves_run _ _ _ _ _ Hm) in Hrun. apply (Hf a s1); [congruence|done].
Qed.

Lemma ends_unchanged st address reason : ends st (mret (unchanged address reason (chain_len st))).
Proof. intros s s' r <- [-> ->]%mret_Ok. split; [by left|done]. Qed.

Lemma ends_adopt st address candidate : ends st (adopt cfg address (chain_len st) candidate).
Proof.
  intros s s' r Hs H. unfold adopt in H. run_inv H. rename Hrun into Hnow, Hrun0 into Hrep, Hrun1 into Hseen.
  apply (moves_run same_blockchain) in Hnow;
    [|apply draw_moves; [apply _|apply quiet_blockchain]].
  apply (moves_run same_blockchain) in Hseen.
  2: { destruct (refusal a0); [case_match|]; first [apply moves_ret; apply _ | apply peer_seen_moves |
       apply peer_failed_moves]; first [apply _|apply quiet_blockchain]. }
  unfold same_blockchain in *. unfold on_blockchain, on in Hrep. rewrite Hnow, Hs in Hrep.
  pose proof (replace_chain_cases (node_settings cfg) (node_consensus cfg) a candidate st) as Hcases.
  pose proof (replace_chain_true (node_settings cfg) (node_consensus cfg) a candidate st) as Htrue.
  destruct (replace_chain _ _ _ _ _) as [st' v] eqn:Hr. injection Hrep as <- ->. cbn in Hseen, Hcases, Htrue.
  unfold sync_outcome. cbn [accepted local_length_before local_length_after].
  unfold blockchain_length. rewrite Hseen. split; [|done].
  destruct Hcases as [[-> Hno]|(Hok & Hc & Hv & Hw & (g & g' & Hg & Hg' & Hh) & _)].
  - left. split; [|done]. destruct a0 as [[] reason]; [|done]. by rewrite (Htrue reason) in Hno.
  - right. injection Hok as ->. unfold head_hash. rewrite Hc, Hg, Hg'. cbn. by rewrite Hh.
Qed.

(** C18: A synchronisation reports what it did: a peer's chain is adopted
    exactly when the result says so, and then it validates, starts at a block
    with the local genesis hash and has strictly more work than the chain it
    replaced; otherwise chain, database and pool are untouched; and the two
    lengths of the result are those before and after. *)
Theorem sync_with_peer_spec address s s' r :
  sync_with_peer cfg address s = (s', Ok r) →
  sync_outcome (blockchain s) s' r.
Proof.
  intros H. apply io_bind_Ok in H as (s1 & before & [-> ->]%gets_Ok & H). revert H.
  apply (λ m (Hm : ends (blockchain s) m), Hm s s' r eq_refl). clear s' r.
  pose proof quiet_blockchain. unfold blockchain_length.
  repeat lazymatch goal with
    | |- ∀ _, _ => intros
    | |- ends _ (_ ≫= _) => apply ends_bind
    | |- ends _ (mret _) => apply ends_unchanged
    | |- ends _ (adopt _ _ _ _) => apply ends_adopt
    | |- ends _ (if ?b then _ else _) => destruct b
    | |- ends _ (match ?x with _ => _ end) => destruct x
    end; auto with quiet typeclass_instances.
Qed.
(** ** The chain *)

(** The cap is the one of the asset, which [receive_block] takes. *)
Hypothesis supply_cap : max_supply (node_settings cfg) = MAX_SUPPLY_BASE_UNITS.

(** A block from a peer is committed as a mined one would be. *)
Lemma append_received_commit block st :
  (append_received cfg block st).1 = st ∨
  (append_received cfg block st).1 =
    (mine_commit (node_settings cfg) (node_consensus cfg)
       (block, Transaction.tx_hash <$> Block.transactions block) st).1.
Proof.
  unfold append_received, mine_commit, config, reward. rewrite supply_cap.
  destruct (latest_block st); [|by left]. case_match; [by left|].
  destruct (validate_block_against_chain _ _ _ _ _ _) as [[[] r]|]; cbn [negb]; [|by left..].
  right. destruct (save_block _ _) as [db|]; [|done].
  by destruct (update_balances_for_block block db) as [db' [[]|]].
Qed.

Lemma append_received_step block st : rtc chain_step st (append_received cfg block st).1.
Proof.
  destruct (append_received_commit block st) as [->| ->]; [done|]. apply rtc_once, step_commit.
Qed.

Lemma submit_received_step tx st :
  rtc chain_step st (let '(st, v) := submit_transaction tx st in (st, Ok (A := verdict) v)).1.
Proof using Type.
  apply rtc_once. pose proof (step_submit (node_settings cfg) (node_consensus cfg) tx st) as Hs.
  by destruct (submit_transaction tx st).
Qed.

(** The wrapped node moves by its own steps, whatever the network layer does. *)
Definition advances : relation net := λ s s', rtc chain_step (blockchain s) (blockchain s').

#[local] Instance advances_preorder : PreOrder advances.
Proof using Type. split; [intros s; apply rtc_refl|]. intros s1 s2 s3. apply rtc_trans. Qed.

Lemma quiet_advances s s' : quiet s s' → advances s s'.
Proof using Type. intros [Hb _]. unfold advances. rewrite Hb. apply rtc_refl. Qed.

Lemma on_blockchain_advances {A} (f : node T → node T * res A) :
  (∀ st, rtc chain_step st (f st).1) → moves advances (on_blockchain f).
Proof using Type.
  intros Hf s. unfold on_blockchain, on. specialize (Hf (blockchain s)).
  by destruct (f (blockchain s)).
Qed.

Lemma replace_advances clock c :
  moves advances (on_blockchain (replace_chain (node_settings cfg) (node_consensus cfg) clock c)).
Proof using Type. apply on_blockchain_advances. intros st. apply rtc_once, step_replace. Qed.

Lemma net_step_advances s s' : net_step s s' → advances s s'.
Proof.
  pose proof quiet_advances. intros [].
  - apply receive_block_moves; [apply _|done|]. intros b.
    apply on_blockchain_advances. intros st. apply append_received_step.
  - apply receive_transaction_moves; [apply _|done|]. intros tx.
    apply on_blockchain_advances. intros st. apply submit_received_step.
  - apply broadcast_block_moves; [apply _|done].
  - apply broadcast_transaction_moves; [apply _|done].
  - apply sync_with_peer_moves; [apply _|done|]. apply replace_advances.
  - apply maintenance_round_moves; [apply _|done|]. apply replace_advances.
  - apply start_moves; [apply _|done].
  - by apply rtc_once.
Qed.

Lemma net_steps_advance s s' : rtc net_step s s' → advances s s'.
Proof.
  induction 1 as [|s1 s2 s3 Hs _ IH]; [done|]. etrans; [by apply net_step_advances|done].
Qed.

(** Nothing a peer sends can make the node's chain invalid: after any
    sequence of received blocks and transactions, broadcasts, synchronisations,
    maintenance rounds and local calls, whatever the other nodes answer and
    whichever exceptions are raised on the way, the chain still validates from
    genesis to tip, has the same genesis hash, and has at least the work it
    had. *)
Theorem network_chain_valid s s' :
  rtc net_step s s' → chain (blockchain s) ≠ [] → valid_chain (chain (blockchain s)) →
  valid_chain (chain (blockchain s')) ∧ head_hash (blockchain s') = head_hash (blockchain s) ∧
  (chain (blockchain s') = chain (blockchain s) ∨
   chain_work (chain (blockchain s)) < chain_work (chain (blockchain s'))).
Proof. intros Hs. apply steps_valid. by apply net_steps_advance. Qed.

End steps.

(** ** What stops the maintenance loop *)

Section stops.
Context `{E : ECDSA} {T : Type → Type} {SQL : Sql T} {W : Type} {Wo : World W}.
Context (cfg : NodeConfig).

Abbreviation net := (net T W).
Implicit Types (s : net).

Definition bad_port : string := "http://peer:port".

(** Rounds of the maintenance loop. *)
Definition rounds (n : nat) s : net := Nat.iter n (λ s, (maintenance_round cfg s).1) s.

(** The registry asks the bad address first, and has nothing against it. *)
Definition asks_bad_port s : Prop :=
  head (addresses (peers s)) = Some bad_port ∧ backoff_until bad_port (peers s) = None.

(** The clock is past its epoch. *)
Hypothesis clock_nonneg : ∀ w : W, 0 ≤ (time w).2.

Lemma discover_raises s :
  asks_bad_port s →
  ∃ s' m, discover_peers cfg s = (s', Err (ValueError m)) ∧ blockchain s' = blockchain s ∧ peers s' = peers s.
Proof.
  intros [Hhead Hhealth]. unfold discover_peers.
  destruct (addresses (peers s)) as [|a rest] eqn:Haddr; [done|]. injection Hhead as ->.
  unfold mbind at 1, io_bind at 1, gets. rewrite Haddr. cbn [collect].
  destruct (time (world s)) as [w t] eqn:Htime.
  assert (Hel : peer_eligible bad_port s = (set_world w s, Ok true)).
  { unfold peer_eligible, now, draw, gets, mbind, io_bind. rewrite Htime. cbn [peers set_world].
    unfold is_eligible, backoff_until, health_of in *.
    change (normalize_address bad_port) with bad_port in *.
    pose proof (clock_nonneg (world s)) as Hnn. rewrite Htime in Hnn. cbn in Hnn.
    destruct (health (peers s) !! bad_port) as [h|]; [|done]. cbn in Hhealth. rewrite Hhealth.
    change (num_val (default (PInt 0) None)) with 0. by rewrite (proj2 (Z.leb_le _ _) Hnn). }
  assert (Hget : get_peers cfg bad_port (set_world w s) =
    (set_world w s, Err (ValueError "Port could not be cast to integer value"))) by reflexivity.
  eexists (set_world w s), _. split; [|done]. unfold discover_from, mbind, io_bind. rewrite Hel.
  cbn [negb]. by rewrite Hget.
Qed.

Lemma round_degrades s :
  asks_bad_port s →
  let s' := (maintenance_round cfg s).1 in
  lifecycle s' = DEGRADED ∧ blockchain s' = blockchain s ∧ peers s' = peers s.
Proof.
  intros Hs. destruct (discover_raises s Hs) as (s1 & m & Hd & Hb & Hp).
  unfold maintenance_round, attempt, mbind, io_bind. rewrite Hd. cbn. done.
Qed.

(** One address stops the maintenance loop for good: the registry accepts
    an address whose port is no number, from anyone; once such a peer is asked
    first (the last one to register is), every round ends as [DEGRADED] before
    another peer is asked and before any synchronisation; chain and registry
    stay as they are, so the next round fails in the same way. *)
Theorem bad_port_stops_maintenance n s :
  asks_bad_port s →
  is_valid_peer_address bad_port = true ∧
  let s' := rounds (S n) s in
  lifecycle s' = DEGRADED ∧ blockchain s' = blockchain s ∧ peers s' = peers s.
Proof.
  intros Hs. split; [by vm_compute|].
  assert (Hsame : ∀ k, blockchain (rounds k s) = blockchain s ∧ peers (rounds k s) = peers s).
  { induction k as [|k [IHb IHp]]; [done|].
    destruct (round_degrades (rounds k s)) as (_ & Hb & Hp); [unfold asks_bad_port; by rewrite IHp|].
    unfold rounds in *. rewrite Nat.iter_succ. by rewrite Hb, Hp. }
  destruct (Hsame n) as [Hb Hp].
  destruct (round_degrades (rounds n s)) as (Hl & Hb' & Hp'); [unfold asks_bad_port; by rewrite Hp|].
  unfold rounds in *. rewrite Nat.iter_succ. by rewrite Hl, Hb', Hp'.
Qed.
End stops.

(** ** Witnesses *)

#[local] Existing Instances ToyECDSA.ecdsa ListSql.sql ListSql.sql_laws.

(** A synchronisation that adopts a peer's longer chain. *)
Definition before_sync : Network.net ListSql.t toy_world :=
  sample_net short_chain no_peers [chain_answer sample_chain].
Definition after_sync : Network.net ListSql.t toy_world := (sync_with_peer own_config other_address before_sync).1.

Definition sync_result : SyncResult :=
  {| Sync.peer_address := other_address; accepted := true; reason := "";
     local_length_before := 2; local_length_after := 3 |}.

Lemma sync_adopts : sync_with_peer own_config other_address before_sync = (after_sync, Ok sync_result).
Proof.
  assert (Hr : (sync_with_peer own_config other_address before_sync).2 = Ok sync_result)
    by (vm_compute; reflexivity).
  exact (run_eq _ _ Hr).
Qed.

Lemma sync_with_peer_spec_witness : sync_outcome own_config (blockchain before_sync) after_sync sync_result.
Proof. exact (sync_with_peer_spec own_config other_address before_sync after_sync sync_result sync_adopts). Defined.

Lemma network_chain_valid_witness :
  validate_chain (chain (blockchain after_sync)) pow (config sample_settings) (reward sample_settings)
    (max_supply sample_settings) = Ok accept ∧
  head_hash (blockchain after_sync) = head_hash (blockchain before_sync) ∧
  (chain (blockchain after_sync) = chain (blockchain before_sync) ∨
   chain_work (chain (blockchain before_sync)) < chain_work (chain (blockchain after_sync))).
Proof.
  apply (network_chain_valid own_config eq_refl before_sync after_sync).
  - apply rtc_once, net_sync.
  - discriminate.
  - exact sample_short_valid.
Defined.

Lemma trust_is_not_transitive_witness : credentials after_sync = credentials before_sync.
Proof. apply (trust_is_not_transitive own_config). apply rtc_once, net_sync. Defined.

(** The bad address, announced by anyone. *)
Definition misled : Network.net ListSql.t toy_world :=
  sample_net short_chain (register (registry_settings own_config) bad_port None 5 no_peers).1
    [chain_answer sample_chain].

Lemma bad_port_stops_maintenance_witness :
  is_valid_peer_address bad_port = true ∧
  let s' := rounds own_config 3 misled in
  lifecycle s' = DEGRADED ∧ blockchain s' = blockchain misled ∧ peers s' = peers misled.
Proof.
  apply (bad_port_stops_maintenance own_config toy_clock_nonneg 2 misled).
  split; vm_compute; reflexivity.
Defined.
