(* ===== verification/PropagationFacts.v ===== *)
(** * Who may send blocks, and which are taken *)
From Stdlib Require Import Ascii.
From stdpp Require Import options.
From S2P Require Import Prelude PyText Json Utils NativeAsset Wallet Sha256 Transaction Block Consensus Mempool.
From S2P Require Import Settings Samples Validators Sql Storage StorageFacts Blockchain BlockchainFacts.
From S2P Require Import Handshake HandshakeFacts PeerStore Url AddressSecurity Peers Effects Network.
From S2P Require Import NetworkSamples Propagation NetworkFacts.

Local Open Scope Z_scope.
#[local] Set Default Proof Using "Type*".

Section receive.
Context `{E : ECDSA} {T : Type → Type} {SQL : Sql T} {W : Type} {Wo : World W}.
Context (cfg : NodeConfig).

Abbreviation net := (net T W).
Implicit Types (s : net) (kvs d : py_dict).

(** [key] signed the envelope, with the hash of the payload in it. *)
Definition signed_with (key : string) kvs (payload : option py_dict) : Prop :=
  ∃ sig fields, dict_get "public_key" kvs = Some (JStr key) ∧ dict_get "signature" kvs = Some (JStr sig) ∧
    signing_fields kvs (hash_of_payload payload) = Ok fields ∧
    verify_identity_signature key (signing_message fields) sig = true.

(** Everything but the readings of the world and the replay cache. *)
Definition only_authenticated s s' : Prop :=
  blockchain s' = blockchain s ∧ peers s' = peers s ∧ seen_blocks s' = seen_blocks s ∧
  seen_transactions s' = seen_transactions s ∧ stats s' = stats s ∧ lifecycle s' = lifecycle s.

#[local] Instance only_authenticated_preorder : PreOrder only_authenticated.
Proof. unfold only_authenticated. split; [done|]. intros s1 s2 s3. naive_solver congruence. Qed.

Lemma draw_authenticated {A} (f : W → W * A) : moves only_authenticated (draw (T := T) f).
Proof. intros s. unfold draw. by destruct (f (world s)). Qed.

Lemma authenticate_moves envelope payload address :
  moves only_authenticated (authenticate_request (T := T) (W := W) cfg envelope payload address).
Proof.
  unfold authenticate_request, now. walk_moves; try apply draw_authenticated.
  apply moves_on; [apply _|done].
Qed.

Lemma same_identity c kvs :
  other_identity c (JObj kvs) = Ok false →
  dict_get "node_id" kvs = Some (JStr (cr_node_id c)) ∧
  dict_get "public_key" kvs = Some (JStr (cr_public_key_hex c)).
Proof.
  assert (Hd : ∀ x t, differs x t = false → x = JStr t).
  { intros [| | |u| |] t; try done. cbn. by destruct (String.eqb_spec u t) as [->|]. }
  unfold other_identity. intros (node & Hn%dict_index_Ok & H)%res_bind_Ok.
  destruct (differs node _) eqn:Hdn; [done|]. apply Hd in Hdn as ->.
  apply res_bind_Ok in H as (key & Hk%dict_index_Ok & H). injection H as Hdk. apply Hd in Hdk as ->. done.
Qed.

Lemma authenticate_accepted envelope payload address s s' v :
  authenticate_request cfg envelope payload address s = (s', Ok v) → v.1 = true →
  ∃ kvs key, envelope = Some (JObj kvs) ∧ signed_with key kvs payload ∧
    ∀ a, claimed address = Some a →
      ∃ c, get_peer_credential a (peer_db (peers s)) = Some c ∧ cr_public_key_hex c = key ∧
           dict_get "node_id" kvs = Some (JStr (cr_node_id c)).
Proof.
  unfold authenticate_request. destruct envelope as [envelope|]; [|by intros [-> ->]%mret_Ok].
  intros H Hv. run_inv H. apply on_Ok in Hrun0 as (cache & Hver & ->).
  destruct a0 as [[] reason]; cbn [refusal fst] in H.
  2: { run_inv H. done. }
  apply verify_accepted in Hver as (_ & kvs & node & key & sig & fields & -> & Hnode & Hkey & Hsig & Hf & Hver).
  exists kvs, key. split; [done|]. split; [by exists sig, fields|].
  intros a' Ha'. rewrite Ha' in H. cbn [mbind option_bind] in H.
  destruct (get_peer_credential a' _) as [c|]; [|run_inv H; done]. exists c. split; [done|].
  run_inv H. destruct a0; [run_inv H; done|]. apply same_identity in Hrun0 as [Hn Hk].
  rewrite Hk in Hkey. by injection Hkey as <-.
Qed.

(** After the critical section only counters and peers change. *)
Definition after_append s s' : Prop := blockchain s' = blockchain s ∧ seen_blocks s' = seen_blocks s.

#[local] Instance after_append_preorder : PreOrder after_append.
Proof. unfold after_append. split; [done|]. intros s1 s2 s3. naive_solver congruence. Qed.

Lemma draw_after {A} (f : W → W * A) : moves after_append (draw (T := T) f).
Proof. intros s. unfold draw. by destruct (f (world s)). Qed.

Lemma record_propagation_after kind m n : moves after_append (record_propagation (T := T) (W := W) kind m n).
Proof. unfold record_propagation, add_stat. walk_moves; apply moves_modify; [apply _|done|apply _|done]. Qed.

Lemma sender_seen_after from_peer : moves after_append (sender_seen (T := T) (W := W) from_peer).
Proof.
  unfold sender_seen, peer_seen, now. walk_moves; [apply draw_after|]. apply moves_on; [apply _|done].
Qed.

Lemma append_received_accepts block st st' :
  append_received cfg block st = (st', Ok None) →
  validate_block_against_chain block (chain st) (node_consensus cfg)
    (consensus_settings (node_settings cfg)) (block_reward (mining_settings (node_settings cfg)))
    MAX_SUPPLY_BASE_UNITS = Ok accept ∧ chain st' = chain st ++ [block].
Proof.
  unfold append_received. destruct (latest_block st); [|done]. case_match; [done|].
  destruct (validate_block_against_chain _ _ _ _ _ _) as [[[] r]|] eqn:Hv; cbn [negb]; [|done..].
  apply block_verdict_true in Hv as Hr. subst r.
  destruct (save_block _ _); [|done].
  destruct (update_balances_for_block _ _) as [db [[]|]]; [|done]. by intros [= <-].
Qed.

Lemma take_block_accepted block from_peer s s' o :
  take_block cfg block from_peer s = (s', Ok o) → o.1.1 = true →
  BoundedSet.contains (seen_blocks s) (Block.hash block) = false ∧
  validate_block_against_chain block (chain (blockchain s)) (node_consensus cfg)
    (consensus_settings (node_settings cfg)) (block_reward (mining_settings (node_settings cfg)))
    MAX_SUPPLY_BASE_UNITS = Ok accept ∧
  chain (blockchain s') = chain (blockchain s) ++ [block] ∧
  seen_blocks s' = BoundedSet.add (Block.hash block) (seen_blocks s).
Proof.
  unfold take_block. intros H Ho. run_inv H.
  destruct (BoundedSet.contains (seen_blocks s) (Block.hash block)); [run_inv H; done|].
  run_inv H. case_match; [run_inv H; done|]. run_inv H. rename Hrun into Hsee, Hrun0 into Happ.
  injection Hsee as <-. apply on_Ok in Happ as (st & Happ & ->).
  destruct a0 as [reason|]; [run_inv H; done|]. apply append_received_accepts in Happ as [Hv Hc].
  run_inv H. rename Hrun into Hstat, Hrun0 into Hpeer.
  apply (moves_run after_append _ _ _ _ (record_propagation_after _ _ _)) in Hstat as [Hb1 Hs1].
  apply (moves_run after_append _ _ _ _ (sender_seen_after _)) in Hpeer as [Hb2 Hs2].
  rewrite Hb2, Hb1, Hs2, Hs1. done.
Qed.

(** Whatever becomes of it, the block counts as seen. *)
Lemma take_block_sees block from_peer s s' o :
  take_block cfg block from_peer s = (s', Ok o) →
  BoundedSet.contains (seen_blocks s) (Block.hash block) = true ∧ seen_blocks s' = seen_blocks s ∨
  seen_blocks s' = BoundedSet.add (Block.hash block) (seen_blocks s).
Proof.
  unfold take_block. intros H. run_inv H.
  destruct (BoundedSet.contains (seen_blocks s) (Block.hash block)); [run_inv H; by left|]. right.
  run_inv H. case_match.
  { run_inv H. by injection Hrun as <-. }
  run_inv H. rename Hrun into Hsee, Hrun0 into Happ.
  injection Hsee as <-. apply on_Ok in Happ as (st & Happ & ->).
  destruct a0 as [reason|]; [by run_inv H|]. run_inv H. rename Hrun into Hstat, Hrun0 into Hpeer.
  apply (moves_run after_append _ _ _ _ (record_propagation_after _ _ _)) in Hstat as [_ Hs1].
  apply (moves_run after_append _ _ _ _ (sender_seen_after _)) in Hpeer as [_ Hs2].
  by rewrite Hs2, Hs1.
Qed.

(** What the sender of an accepted block has shown. *)
Definition proven_sender s (from_peer : option string) (envelope : option json) (d : py_dict) : Prop :=
  ∃ kvs key, envelope = Some (JObj kvs) ∧ signed_with key kvs (Some d) ∧
    ∀ a, claimed from_peer = Some a →
      ∃ c, get_peer_credential a (peer_db (peers s)) = Some c ∧ cr_public_key_hex c = key ∧
           dict_get "node_id" kvs = Some (JStr (cr_node_id c)).

(** C17: A block is taken from a peer only if it proves who it is and the block
    fits: the envelope carries a signature over the block, and if the sender
    names its address, under the very key and name that are stored for it; the
    block was not seen before, extends the tip and passes validation; and then
    it is appended to the chain and remembered as seen. *)
Theorem received_block_accepted d from_peer envelope s s' o :
  receive_block cfg d from_peer envelope s = (s', Ok o) → o.1.1 = true →
  proven_sender s from_peer envelope d ∧
  ∃ clock block, Block.from_dict clock d = Ok block ∧
    BoundedSet.contains (seen_blocks s) (Block.hash block) = false ∧
    validate_block_against_chain block (chain (blockchain s)) (node_consensus cfg)
      (consensus_settings (node_settings cfg)) (block_reward (mining_settings (node_settings cfg)))
      MAX_SUPPLY_BASE_UNITS = Ok accept ∧
    chain (blockchain s') = chain (blockchain s) ++ [block] ∧
    seen_blocks s' = BoundedSet.add (Block.hash block) (seen_blocks s).
Proof.
  unfold receive_block. intros H Ho. run_inv H. rename Hrun into Hauth.
  pose proof (moves_run _ _ _ _ _ (authenticate_moves _ _ _) Hauth) as (Hb & _ & Hseen & _).
  destruct a as [[] reason]; cbn [refusal fst snd] in H; [|run_inv H; done].
  pose proof (authenticate_accepted _ _ _ _ _ _ Hauth eq_refl) as Hsender. split; [exact Hsender|].
  run_inv H. rename Hrun into Hnow, Hrun0 into Hparse.
  apply (moves_run after_append _ _ _ _ (draw_after _)) in Hnow as [Hb1 Hs1].
  destruct a0 as [block|]; [|run_inv H; done].
  assert (Hd : Block.from_dict a d = Ok block).
  { unfold parse in Hparse. destruct (Block.from_dict a d) as [b|e]; [by injection Hparse as ->|].
    by destruct (malformed e). }
  exists a, block. split; [done|]. rewrite <-Hseen, <-Hs1, <-Hb, <-Hb1. by eapply take_block_accepted.
Qed.

(** A hash is taken once: after a block was looked at, whether it was
    accepted or refused, no block with the same recorded hash is accepted.
    The recorded hash is what the sender says it is, so a refused block keeps
    the genuine one out. *)
Theorem block_hash_taken_once block from_peer s s1 o block' from_peer' s2 o' :
  BoundedSet.wf (seen_blocks s) → 0 < BoundedSet.max_size (seen_blocks s) →
  take_block cfg block from_peer s = (s1, Ok o) → Block.hash block' = Block.hash block →
  take_block cfg block' from_peer' s1 = (s2, Ok o') → o'.1.1 = false.
Proof.
  intros Hwf Hmax H1 Hh H2.
  assert (Hc : BoundedSet.contains (seen_blocks s1) (Block.hash block') = true).
  { rewrite Hh. destruct (take_block_sees _ _ _ _ _ H1) as [[Hc ->]| ->]; [done|].
    by apply (BoundedSet.adds_keep _ []). }
  unfold take_block in H2. run_inv H2. rewrite Hc in H2. by run_inv H2.
Qed.

(** Only senders that name an address have to be trusted: whoever makes a
    key pair can send, authenticated, as long as it leaves out [from_peer]:
    an envelope it builds is accepted whatever credentials are stored. *)
Theorem unnamed_sender_needs_no_trust `{!ECDSALaws E} id k context payload clock entropy rnd s :
  P2PIdentity.generate id k = Ok (identity context) → 0 < k < SECP256K1_ORDER → id ≠ "" →
  same_network context (auth_context cfg) → entropy ≠ [] →
  Z.abs ((time (world s)).2 - clock) ≤ P2PConfig.auth_freshness_window_seconds (p2p cfg) →
  BoundedSet.contains (replay_cache s) (ReplayCache.key id (Sha.hex entropy)) = false →
  ∃ envelope s', build_auth_envelope context payload clock entropy rnd = Ok envelope ∧
    authenticate_request cfg (Some (JObj envelope)) payload None s = (s', Ok accept).
Proof.
  intros Hi Hk Hid Hnet Hent Hclock Hnew.
  destruct (built_accepted id k context (auth_context cfg) payload clock (time (world s)).2
    (P2PConfig.auth_freshness_window_seconds (p2p cfg)) entropy rnd (replay_cache s))
    as (envelope & Hb & Hv); [done..|].
  exists envelope. unfold authenticate_request. cbn [claimed].
  unfold mbind, io_bind, gets, now, draw, on. destruct (time (world s)) as [w t] eqn:Htime. cbn in Hv |- *.
  rewrite Hv. cbn. by eexists.
Qed.
End receive.

(** ** Witnesses *)

#[local] Existing Instances ToyECDSA.ecdsa ToyECDSA.ecdsa_laws ListSql.sql ListSql.sql_laws.

Definition peer_auth : AuthContext :=
  auth_context (node_config sample_settings pow (toy_identity "peer" 7) Samples.genesis_block).

(** The database in which [other_address] has authenticated as that peer. *)
Definition trusting : registry ListSql.t :=
  match upsert_peer_credential other_address "peer" (P2PIdentity.public_key_hex (identity peer_auth)) true 5
          empty_peer_db with
  | Ok db => Registry db ∅
  | Err _ => no_peers
  end.

Definition receiving : Network.net ListSql.t toy_world := sample_net short_chain trusting [].
Definition block2_dict : py_dict := match json_of_block block2 with JObj d => d | _ => [] end.
Definition block2_envelope : py_dict := Eval vm_compute in
  match build_auth_envelope peer_auth (Some block2_dict) (1735700099 * ticks) [1; 2] 0 with Ok e => e | Err _ => [] end.
Definition received : Network.net ListSql.t toy_world :=
  (receive_block own_config block2_dict (Some other_address) (Some (JObj block2_envelope)) receiving).1.

Lemma block2_received :
  receive_block own_config block2_dict (Some other_address) (Some (JObj block2_envelope)) receiving =
    (received, Ok (accept, true)).
Proof.
  assert (Hr : (receive_block own_config block2_dict (Some other_address) (Some (JObj block2_envelope)) receiving).2
    = Ok (accept, true)) by (vm_compute; reflexivity).
  exact (run_eq _ _ Hr).
Qed.

Lemma received_block_accepted_witness :
  proven_sender receiving (Some other_address) (Some (JObj block2_envelope)) block2_dict ∧
  ∃ clock block, Block.from_dict clock block2_dict = Ok block ∧
    BoundedSet.contains (seen_blocks receiving) (Block.hash block) = false ∧
    validate_block_against_chain block (chain (blockchain receiving)) (node_consensus own_config)
      (consensus_settings (node_settings own_config))
      (block_reward (mining_settings (node_settings own_config))) MAX_SUPPLY_BASE_UNITS = Ok accept ∧
    chain (blockchain received) = chain (blockchain receiving) ++ [block] ∧
    seen_blocks received = BoundedSet.add (Block.hash block) (seen_blocks receiving).
Proof. exact (received_block_accepted own_config _ _ _ _ _ _ block2_received eq_refl). Defined.

(** A block that claims the hash of [block2] and a far index. *)
Definition shadow : Block.t :=
  Block.init 99 "" [] (PInt 0) 0 0 "" (Block.hash block2).
Definition shadowed : Network.net ListSql.t toy_world := (take_block own_config shadow None receiving).1.
Definition too_late : Network.net ListSql.t toy_world := (take_block own_config block2 None shadowed).1.

Definition extend_refusal : outcome :=
  refused "Block does not extend the local chain tip; a full sync is required.".

Lemma shadow_taken : take_block own_config shadow None receiving = (shadowed, Ok extend_refusal).
Proof.
  assert (Hr : (take_block own_config shadow None receiving).2 = Ok extend_refusal) by (vm_compute; reflexivity).
  exact (run_eq _ _ Hr).
Qed.

Lemma block2_refused :
  take_block own_config block2 None shadowed = (too_late, Ok (refused "Duplicate block (already seen).")).
Proof.
  assert (Hr : (take_block own_config block2 None shadowed).2 = Ok (refused "Duplicate block (already seen)."))
    by (vm_compute; reflexivity).
  exact (run_eq _ _ Hr).
Qed.

Lemma block_hash_taken_once_witness : (refused "Duplicate block (already seen).").1.1 = false.
Proof.
  exact (block_hash_taken_once own_config shadow None receiving shadowed extend_refusal block2 None too_late _
    (BoundedSet.set_wf_init SEEN_CACHE_SIZE) eq_refl shadow_taken eq_refl block2_refused).
Defined.

Lemma unnamed_sender_needs_no_trust_witness :
  ∃ envelope s', build_auth_envelope peer_auth (Some block2_dict) (1735700099 * ticks) [1; 2] 0 = Ok envelope ∧
    authenticate_request own_config (Some (JObj envelope)) (Some block2_dict) None
      (sample_net short_chain no_peers []) = (s', Ok accept).
Proof.
  refine (unnamed_sender_needs_no_trust own_config "peer" 7 peer_auth (Some block2_dict) (1735700099 * ticks) [1; 2] 0
    (sample_net short_chain no_peers []) _ _ _ _ _ _ _).
  - vm_compute. reflexivity.
  - split; vm_compute; reflexivity.
  - discriminate.
  - split; reflexivity.
  - discriminate.
  - vm_compute. discriminate.
  - vm_compute. reflexivity.
Defined.
