(* ===== verification/Schemas.v ===== *)
(** * api/schemas.py: the bodies of the HTTP interface

    A request class is a record: the framework parses the body and answers
    itself where the types do not fit.  A response class is its
    field types ([_model]) and the dictionary that the constructor makes of
    its arguments. *)
From Stdlib Require Import Ascii.
From stdpp Require Import options.
From S2P Require Import Prelude PyText Json Utils NativeAsset Wallet Transaction Block Settings Sync.

Local Open Scope Z_scope.

(** ** Requests *)

Module TransactionCreateRequest.

Record t := Make { sender : string; receiver : string; amount : Dec.t }.

(** [not value or not value.strip()], negated. *)
Definition not_empty (value : string) : bool := negb (String.eqb (strip_str value) "").

End TransactionCreateRequest.

Module TransactionSubmitRequest.

Record t := Make {
  sender : string;
  receiver : string;
  amount : Dec.t;
  amount_base_units : option Z;
  timestamp : Z;
  sender_public_key : string;
  signature : string;
}.

End TransactionSubmitRequest.

(** [Field(gt=0)] of a decimal, which must be finite. *)
Definition positive (d : Dec.t) : bool :=
  match d with Dec.Fin neg coef _ => negb neg && (0 <? coef) | _ => false end.

Module PeerRegisterRequest.

Record t := Make { node_id : string; address : string }.

End PeerRegisterRequest.

(** [auth: Optional[dict]] *)
Definition auth_json (auth : option py_dict) : option json := JObj <$> auth.
Definition auth_value (auth : option py_dict) : json := default JNull (auth_json auth).

Module BlockReceiveRequest.

Record t := Make { block : py_dict; from_peer : option string; auth : option py_dict }.

(** [model_dump()] *)
Definition model_dump (r : t) : py_dict :=
  [("block", JObj (block r)); ("from_peer", opt_str_json (from_peer r)); ("auth", auth_value (auth r))].

End BlockReceiveRequest.

Module TransactionReceiveRequest.

Record t := Make { transaction : py_dict; from_peer : option string; auth : option py_dict }.

(** [model_dump()] *)
Definition model_dump (r : t) : py_dict :=
  [("transaction", JObj (transaction r)); ("from_peer", opt_str_json (from_peer r));
   ("auth", auth_value (auth r))].

End TransactionReceiveRequest.

Module SyncRequest.

Record t := Make { peer_address : option string; auth : option py_dict }.

End SyncRequest.

(** ** Field types

    The annotations of a class, as data: its fields, in order.  [conforms]
    says that a value is one the annotation allows. *)

Inductive ftype :=
  | FStr
  | FInt
  | FBool
  | FFloat
  | FDict
  | FOpt (t : ftype)
  | FList (t : ftype)
  | FModel (fields : list (string * ftype)).

Fixpoint conforms (t : ftype) (j : json) : bool :=
  match t, j with
  | FStr, JStr _ | FInt, JNum (PInt _) | FBool, JBool _ | FFloat, JNum (PFlt _) | FDict, JObj _ => true
  | FOpt _, JNull => true
  | FOpt t, _ => conforms t j
  | FList t, JArr l => forallb (conforms t) l
  | FModel fields, JObj d =>
      (fix go fields d :=
        match fields, d with
        | [], [] => true
        | (name, t) :: fields, (k, v) :: d => String.eqb name k && conforms t v && go fields d
        | _, _ => false
        end) fields d
  | _, _ => false
  end.

Definition TransactionOut_model : ftype := FModel
  [("sender", FStr); ("receiver", FStr); ("amount", FStr); ("amount_base_units", FInt);
   ("timestamp", FInt); ("sender_public_key", FOpt FStr); ("signature", FOpt FStr); ("tx_hash", FStr)].

Definition BlockOut_model : ftype := FModel
  [("index", FInt); ("previous_hash", FStr); ("timestamp", FInt); ("nonce", FInt);
   ("difficulty", FInt); ("merkle_root", FStr); ("hash", FStr);
   ("transactions", FList TransactionOut_model)].

Definition ChainOut_model : ftype := FModel [("length", FInt); ("chain", FList BlockOut_model)].

Definition WalletCreateResponse_model : ftype := FModel
  [("address", FStr); ("public_key", FStr); ("warning", FStr)].

Definition WalletBalanceResponse_model : ftype := FModel
  [("address", FStr); ("balance", FStr); ("balance_base_units", FInt)].

Definition TransactionSubmitResponse_model : ftype := FModel
  [("accepted", FBool); ("tx_hash", FOpt FStr); ("reason", FOpt FStr)].

Definition MineResponse_model : ftype := FModel [("block", BlockOut_model); ("message", FStr)].

Definition StatusResponse_model : ftype := FModel
  [("network_name", FStr); ("chain_length", FInt); ("latest_block_hash", FStr); ("difficulty", FInt);
   ("pending_transactions", FInt); ("consensus_algorithm", FStr)].

Definition HealthResponse_model : ftype := FModel [("status", FStr)].

Definition PeerOut_model : ftype := FModel
  [("address", FStr); ("node_id", FOpt FStr); ("status", FStr); ("last_seen", FOpt FFloat);
   ("registered_at", FOpt FFloat); ("trusted", FBool); ("failure_count", FInt);
   ("backoff_until", FOpt FFloat); ("capabilities", FList FStr)].

Definition NetworkStatusResponse_model : ftype := FModel
  [("node_id", FStr); ("self_address", FStr); ("public_key", FStr); ("peer_count", FInt);
   ("healthy_peer_count", FInt); ("chain_length", FInt); ("chain_work", FInt); ("network_name", FStr);
   ("chain_id", FInt); ("lifecycle", FStr); ("sync_state", FStr); ("mempool_size", FInt);
   ("current_difficulty", FInt); ("total_supply_base_units", FInt); ("propagation", FDict)].

Definition PeerListResponse_model : ftype := FModel [("count", FInt); ("peers", FList PeerOut_model)].

Definition PeerRegisterResponse_model : ftype := FModel
  [("accepted", FBool); ("reason", FOpt FStr); ("self_node_id", FStr); ("self_address", FStr);
   ("known_peers", FList FStr)].

Definition NetworkChainResponse_model : ftype := FModel
  [("length", FInt); ("work", FInt); ("chain", FList FDict)].

Definition PeerChallengeResponse_model : ftype := FModel
  [("challenge", FStr); ("expires_in_seconds", FFloat)].

Definition PeerAuthenticateResponse_model : ftype := FModel
  [("authenticated", FBool); ("reason", FOpt FStr); ("self_node_id", FOpt FStr);
   ("self_public_key", FOpt FStr)].

Definition ReceiveResponse_model : ftype := FModel
  [("accepted", FBool); ("reason", FOpt FStr); ("rebroadcast_to", FInt)].

Definition SyncResultOut_model : ftype := FModel
  [("peer_address", FStr); ("accepted", FBool); ("reason", FStr); ("local_length_before", FInt);
   ("local_length_after", FInt)].

Definition SyncResponse_model : ftype := FModel [("results", FList SyncResultOut_model)].

(** ** Responses *)

Definition int_json (z : Z) : json := JNum (PInt z).
Definition opt_float_json (o : option pynum) : json :=
  match o with Some n => JNum (num_float n) | None => JNull end.

(** [reason or None] *)
Definition reason_json (reason : string) : json :=
  if String.eqb reason "" then JNull else JStr reason.

(** A number for a field declared an integer: one with a fractional part is an
    error. *)
Definition int_field (n : pynum) : res json :=
  match n with
  | PFlt t => if t mod ticks =? 0 then Ok (int_json (num_int n))
              else Err (ValueError "Input should be a valid integer, got a number with a fractional part")
  | PInt z => Ok (int_json z)
  end.

Definition TransactionOut (sender receiver amount : string) (amount_base_units : Z) (timestamp : pynum)
    (sender_public_key signature : option string) (tx_hash : string) : res py_dict :=
  ts ← int_field timestamp;
  Ok [("sender", JStr sender); ("receiver", JStr receiver); ("amount", JStr amount);
      ("amount_base_units", int_json amount_base_units); ("timestamp", ts);
      ("sender_public_key", opt_str_json sender_public_key); ("signature", opt_str_json signature);
      ("tx_hash", JStr tx_hash)].

Definition BlockOut (index : Z) (previous_hash : string) (timestamp : pynum) (nonce difficulty : Z)
    (merkle_root hash : string) (transactions : list py_dict) : res py_dict :=
  ts ← int_field timestamp;
  Ok [("index", int_json index); ("previous_hash", JStr previous_hash); ("timestamp", ts);
      ("nonce", int_json nonce); ("difficulty", int_json difficulty); ("merkle_root", JStr merkle_root);
      ("hash", JStr hash); ("transactions", JArr (JObj <$> transactions))].

Definition ChainOut (length : Z) (chain : list py_dict) : py_dict :=
  [("length", int_json length); ("chain", JArr (JObj <$> chain))].

Definition WalletCreateResponse (address public_key : string) : py_dict :=
  [("address", JStr address); ("public_key", JStr public_key);
   ("warning", JStr "The API never returns private key material. Create/import wallets in a secure local client.")].

Definition WalletBalanceResponse (address balance : string) (balance_base_units : Z) : py_dict :=
  [("address", JStr address); ("balance", JStr balance); ("balance_base_units", int_json balance_base_units)].

Definition TransactionSubmitResponse (accepted : bool) (tx_hash : option string) (reason : string) : py_dict :=
  [("accepted", JBool accepted); ("tx_hash", opt_str_json tx_hash); ("reason", reason_json reason)].

Definition MineResponse (block : py_dict) : py_dict :=
  [("block", JObj block); ("message", JStr "Block mined and appended to the chain.")].

(** A class applied to a dictionary of keyword arguments: its own fields, in
    its order; whatever else it is given is dropped. *)
Definition select (model : ftype) (kwargs : py_dict) : res py_dict :=
  match model with
  | FModel fields =>
      res_map (λ field, match dict_get field.1 kwargs with
                        | Some v => Ok (field.1, v)
                        | None => Err (ValueError "Field required")
                        end) fields
  | _ => Err (TypeError "not a model")
  end.

Definition HealthResponse : py_dict → res py_dict := select HealthResponse_model.
Definition StatusResponse : py_dict → res py_dict := select StatusResponse_model.
Definition NetworkStatusResponse : py_dict → res py_dict := select NetworkStatusResponse_model.

Definition PeerOut (address : string) (node_id : option string) (status : string)
    (last_seen : option pynum) (registered_at : pynum) (trusted : bool) (failure_count : Z)
    (backoff_until : option pynum) (capabilities : list string) : py_dict :=
  [("address", JStr address); ("node_id", opt_str_json node_id); ("status", JStr status);
   ("last_seen", opt_float_json last_seen); ("registered_at", opt_float_json (Some registered_at));
   ("trusted", JBool trusted); ("failure_count", int_json failure_count);
   ("backoff_until", opt_float_json backoff_until); ("capabilities", JArr (JStr <$> capabilities))].

Definition PeerListResponse (count : Z) (peers : list py_dict) : py_dict :=
  [("count", int_json count); ("peers", JArr (JObj <$> peers))].

Definition PeerRegisterResponse (accepted : bool) (reason self_node_id self_address : string)
    (known_peers : list string) : py_dict :=
  [("accepted", JBool accepted); ("reason", reason_json reason); ("self_node_id", JStr self_node_id);
   ("self_address", JStr self_address); ("known_peers", JArr (JStr <$> known_peers))].

Definition NetworkChainResponse (length work : Z) (chain : list py_dict) : py_dict :=
  [("length", int_json length); ("work", int_json work); ("chain", JArr (JObj <$> chain))].

Definition PeerChallengeResponse (challenge : string) (expires_in_seconds : Z) : py_dict :=
  [("challenge", JStr challenge); ("expires_in_seconds", JNum (PFlt expires_in_seconds))].

Definition PeerAuthenticateResponse (authenticated : bool)
    (reason self_node_id self_public_key : option string) : py_dict :=
  [("authenticated", JBool authenticated); ("reason", opt_str_json reason);
   ("self_node_id", opt_str_json self_node_id); ("self_public_key", opt_str_json self_public_key)].

Definition ReceiveResponse (accepted : bool) (reason : string) (rebroadcast_to : Z) : py_dict :=
  [("accepted", JBool accepted); ("reason", reason_json reason); ("rebroadcast_to", int_json rebroadcast_to)].

Definition SyncResultOut (r : SyncResult) : py_dict :=
  [("peer_address", JStr (peer_address r)); ("accepted", JBool (accepted r));
   ("reason", JStr (reason r)); ("local_length_before", int_json (local_length_before r));
   ("local_length_after", int_json (local_length_after r))].

Definition SyncResponse (results : list SyncResult) : py_dict :=
  [("results", JArr (JObj ∘ SyncResultOut <$> results))].
