(* ===== verification/NetworkRoutes.v ===== *)
(** * api/network_routes.py: the /network endpoints

    An [app] is what the module keeps: the network node, the challenges it
    issued and the rate limiters, the latter two made when they are first
    used.  A route is a computation that returns the response body; an
    [HTTPException] is an error response, any other exception a 500. *)
From Stdlib Require Import Ascii.
From stdpp Require Import options.
From S2P Require Import Prelude PyText Json Utils Wallet Transaction Block Consensus Mempool Settings.
From S2P Require Import Sql Storage Blockchain RateLimit Handshake PeerStore Url AddressSecurity Peers.
From S2P Require Import Effects Network Propagation Sync Schemas.

Local Open Scope Z_scope.

Section routes.
Context `{E : ECDSA} {T : Type → Type} `{Sql T} {W : Type} `{World W}.
Context (cfg : NodeConfig).

Abbreviation net := (net T W).

Record app := App {
  network : net;
  challenge_store : option ChallengeStore.t;
  rate_limiters : list (string * RateLimiter.t);
}.

Definition set_network (n : net) (s : app) : app := App n (challenge_store s) (rate_limiters s).
Definition set_challenge_store (c : ChallengeStore.t) (s : app) : app :=
  App (network s) (Some c) (rate_limiters s).
Definition set_rate_limiters (l : list (string * RateLimiter.t)) (s : app) : app :=
  App (network s) (challenge_store s) l.

(** [get_network_node()]: the application creates it before it serves. *)
Definition on_network {A} (m : io net A) : io app A := on network set_network m.

(** The 60 seconds of [_get_challenge_store] and of the reply that hands one out. *)
Definition CHALLENGE_TTL : Z := 60 * ticks.

Definition get_challenge_store (s : app) : ChallengeStore.t :=
  default (ChallengeStore.init (P2PConfig.replay_cache_size (p2p cfg)) CHALLENGE_TTL) (challenge_store s).

Definition on_challenges {A} (f : ChallengeStore.t → ChallengeStore.t * res A) : io app A :=
  on get_challenge_store set_challenge_store f.

(** ** Rate limits *)

Definition TIER_MULTIPLIERS : list (string * Z) := [("cheap", 4); ("moderate", 2); ("expensive", 1)].

Definition new_rate_limiter (multiplier : Z) : RateLimiter.t :=
  RateLimiter.init (Z.max 1 (P2PConfig.rate_limit_requests (p2p cfg) * multiplier))
    (P2PConfig.rate_limit_window_seconds (p2p cfg)) (P2PConfig.rate_limit_max_keys (p2p cfg)).

Definition get_rate_limiter (tier : string) : io app RateLimiter.t :=
  limiters ← gets rate_limiters;
  match dict_get tier limiters with
  | Some l => mret l
  | None =>
      match dict_get tier TIER_MULTIPLIERS with
      | None => raise (KeyError tier)
      | Some multiplier =>
          let l := new_rate_limiter multiplier in
          _ ← modify (set_rate_limiters (dict_set tier l limiters)); mret l
      end
  end.

(** [a or b] *)
Definition py_or (a b : json) : json := if truthy a then a else b.

(** The key of a request: what it claims to be, or where it comes from.
    A list or a dictionary is no key. *)
Definition rate_key (client : option string) (key_hint : json) : res string :=
  match py_or key_hint (JStr (default "unknown" client)) with
  | JStr key => Ok key
  | JArr _ => Err (TypeError "unhashable type: 'list'")
  | JObj _ => Err (TypeError "unhashable type: 'dict'")
  | _ => Err (Untyped "key")
  end.

Definition enforce_rate_limit (client : option string) (tier : string) (key_hint : json) : io app () :=
  limiter ← get_rate_limiter tier;
  clock ← on_network now;
  key ← pure (rate_key client key_hint);
  let '(limiter, allowed) := RateLimiter.allow clock key limiter in
  _ ← modify (λ s, set_rate_limiters (dict_set tier limiter (rate_limiters s)) s);
  if allowed : bool then mret tt else raise (HTTPException 429 "Rate limit exceeded for this peer.").

Definition validate_message_type (payload : py_dict) (expected : MessageType) : res () :=
  match dict_get_or "message_type" JNull payload with
  | JNull => Ok tt
  | message_type =>
      if differs message_type (message_value expected) then Err (HTTPException 400 "Unexpected message type") else Ok tt
  end.

(** [payload.auth.get(key) if isinstance(payload.auth, dict) else None] *)
Definition auth_get (key : string) (auth : option py_dict) : json :=
  match auth with Some envelope => dict_get_or key JNull envelope | None => JNull end.

(** ** Public routes *)

Definition network_status (client : option string) : io app py_dict :=
  _ ← enforce_rate_limit client "cheap" JNull;
  clock ← on_network now;
  s ← gets network;
  pure (net_status cfg clock s ≫= NetworkStatusResponse).

Definition peer_out (s : net) (p : Peer) : py_dict :=
  PeerOut (p_address p) (p_node_id p) (p_status p) (p_last_seen p) (p_registered_at p)
    (is_trusted_peer (p_address p) s) (p_failure_count p) (p_backoff_until p) (p_capabilities p).

Definition list_peers_route (client : option string) : io app py_dict :=
  _ ← enforce_rate_limit client "cheap" JNull;
  s ← gets network;
  let known := registered_peers (peers s) in
  mret (PeerListResponse (Z.of_nat (length known)) (peer_out s <$> known)).

Definition register_peer_route (payload : PeerRegisterRequest.t) (client : option string) : io app py_dict :=
  let address := PeerRegisterRequest.address payload in
  let node_id := Some (PeerRegisterRequest.node_id payload) in
  _ ← enforce_rate_limit client "moderate" (JStr address);
  v ← on_network (register_peer cfg address node_id);
  _ ← (if v.1 : bool then on_network (peer_seen address node_id) else mret tt);
  known ← gets (λ s, addresses (peers (network s)));
  mret (PeerRegisterResponse v.1 v.2 (own_id cfg) (own_address cfg) known).

Definition issue_challenge (node_id : string) (client : option string) : io app py_dict :=
  _ ← enforce_rate_limit client "moderate" (JStr node_id);
  entropy ← on_network (draw (urandom 24));
  clock ← on_network now;
  challenge ← on_challenges (ChallengeStore.issue node_id clock entropy);
  mret (PeerChallengeResponse challenge CHALLENGE_TTL).

(** The size of a body as the framework writes it. *)
Context (body_size : py_dict → Z).

Definition network_chain (client : option string) : io app py_dict :=
  _ ← enforce_rate_limit client "expensive" JNull;
  chain ← gets (λ s, blockchain (network s));
  chain_dicts ← pure (res_map Block.to_dict (Blockchain.chain chain));
  let response := NetworkChainResponse (chain_len chain) (total_work chain) chain_dicts in
  let limit := P2PConfig.max_chain_sync_bytes (p2p cfg) in
  if limit <? body_size response
  then raise (HTTPException 413 ("Chain size (" +:+ str_Z (body_size response) +:+
         " bytes) exceeds the configured sync limit of " +:+ str_Z limit +:+
         " bytes. Full-chain retrieval via this endpoint is not available for chains this large in the current release."))
  else mret response.

(** ** Authenticated routes *)

(** The identity an accepted envelope has proven. *)
Definition proven_identity (envelope : py_dict) : res (string * string) :=
  node ← dict_index "node_id" envelope ≫= as_str "node_id";
  key ← dict_index "public_key" envelope ≫= as_str "public_key";
  Ok (node, key).

(** The credential is stored under the address as it was sent, the peer under
    its normal form; a different stored identity is logged, then replaced. *)
Definition trust_peer (address : string) (envelope : py_dict) : io app py_dict :=
  '(node_id, key) ← pure (proven_identity envelope);
  _ ← on_network (clock ← now;
                  on_peers (λ p, let r := upsert_peer_credential address node_id key true clock (peer_db p) in
                                 save p r));
  _ ← on_network (register_peer cfg address (Some node_id));
  _ ← on_network (peer_seen address (Some node_id));
  mret (PeerAuthenticateResponse true None (Some (own_id cfg))
          (Some (P2PIdentity.public_key_hex (identity (auth_context cfg))))).

Definition not_authenticated (reason : string) : py_dict :=
  PeerAuthenticateResponse false (Some reason) None None.

Definition authenticate_peer (envelope : py_dict) (client : option string) : io app py_dict :=
  _ ← enforce_rate_limit client "moderate" (auth_get "node_id" (Some envelope));
  clock ← on_network now;
  v ← on_challenges (verify_handshake_envelope (JObj envelope) (auth_context cfg) clock);
  match refusal v with
  | Some reason => mret (not_authenticated reason)
  | None =>
      advertised ← pure (dict_index "advertised_address" envelope);
      (** What is no text is refused as the empty text is. *)
      let address := match advertised with JStr a => a | _ => "" end in
      refused ← on_network (validate_target cfg address);
      match refused with
      | Some reason => mret (not_authenticated ("Invalid advertised address: " +:+ reason))
      | None => trust_peer address envelope
      end
  end.

(** [{"peer_address": payload.peer_address}] *)
Definition sync_payload (target : option string) : py_dict := [("peer_address", opt_str_json target)].

Definition trigger_sync (payload : SyncRequest.t) (client : option string) : io app py_dict :=
  let auth := SyncRequest.auth payload in
  let target := SyncRequest.peer_address payload in
  _ ← enforce_rate_limit client "expensive" (auth_get "node_id" auth);
  claimed_address ← pure (as_opt_str "advertised_address" (py_or (auth_get "advertised_address" auth) JNull));
  v ← on_network (authenticate_request cfg (auth_json auth) (Some (sync_payload target)) claimed_address);
  match refusal v with
  | Some reason => raise (HTTPException 401 ("Authentication failed: " +:+ reason))
  | None =>
      match claimed target with
      | Some address =>
          known ← gets (λ s, get address (peers (network s)));
          match known with
          | None => raise (HTTPException 403 "peer_address must already be a known peer of this node.")
          | Some _ => r ← on_network (sync_with_peer cfg address); mret (SyncResponse [r])
          end
      | None => results ← on_network (sync_with_all_peers cfg); mret (SyncResponse results)
      end
  end.

(** The reply to a message, with the number of peers it was passed on to. *)
Definition received (o : outcome) (rebroadcast : io net (list string)) : io app py_dict :=
  let '((accepted, reason), should_rebroadcast) := o in
  if accepted && should_rebroadcast
  then acknowledged ← on_network rebroadcast;
       mret (ReceiveResponse accepted reason (Z.of_nat (length acknowledged)))
  else mret (ReceiveResponse accepted reason 0).

Definition receive_block_route (payload : BlockReceiveRequest.t) (client : option string) : io app py_dict :=
  let auth := BlockReceiveRequest.auth payload in
  let from_peer := BlockReceiveRequest.from_peer payload in
  _ ← enforce_rate_limit client "expensive" (py_or (auth_get "node_id" auth) (opt_str_json from_peer));
  _ ← pure (validate_message_type (BlockReceiveRequest.model_dump payload) NEW_BLOCK);
  o ← on_network (receive_block cfg (BlockReceiveRequest.block payload) from_peer (auth_json auth));
  received o (clock ← now;
              block ← pure (Block.from_dict clock (BlockReceiveRequest.block payload));
              broadcast_block cfg block from_peer).

Definition receive_transaction_route (payload : TransactionReceiveRequest.t) (client : option string)
    : io app py_dict :=
  let auth := TransactionReceiveRequest.auth payload in
  let from_peer := TransactionReceiveRequest.from_peer payload in
  _ ← enforce_rate_limit client "expensive" (py_or (auth_get "node_id" auth) (opt_str_json from_peer));
  _ ← pure (validate_message_type (TransactionReceiveRequest.model_dump payload) NEW_TRANSACTION);
  o ← on_network (receive_transaction cfg (TransactionReceiveRequest.transaction payload) from_peer
                    (auth_json auth));
  received o (clock ← now;
              transaction ← pure (Transaction.from_dict clock (TransactionReceiveRequest.transaction payload));
              broadcast_transaction cfg transaction from_peer).
End routes.
Arguments app T W : clear implicits.
