(* ===== verification/Routes.v ===== *)
(** * api/routes.py and api/main.py: the wallet and chain endpoints

    The routes share the [app] of the /network endpoints: [get_blockchain()]
    is the node that the network node wraps. *)
From Stdlib Require Import Ascii.
From stdpp Require Import options.
From S2P Require Import Prelude PyText Json Utils NativeAsset Wallet Transaction Block Consensus Mempool.
From S2P Require Import Settings Sql Storage Blockchain Handshake PeerStore Peers Effects Network.
From S2P Require Import Propagation Sync Schemas NetworkRoutes.

Local Open Scope Z_scope.

Section routes.
Context `{E : ECDSA} {T : Type → Type} `{Sql T} {W : Type} `{World W}.
Context (cfg : NodeConfig).

Abbreviation app := (app T W).
Abbreviation net := (net T W).

(** [get_blockchain()] *)
Definition get_blockchain (s : app) : node T := blockchain (network s).

(** ** The chain *)

Definition transaction_out (tx : Transaction.t) : res py_dict :=
  amount ← Transaction.amount_syj tx;
  TransactionOut (Transaction.sender tx) (Transaction.receiver tx) (Dec.to_string amount)
    (Transaction.amount_base_units tx) (Transaction.timestamp tx) (Transaction.sender_public_key tx)
    (Transaction.signature tx) (Transaction.tx_hash tx).

Definition block_to_out (block : Block.t) : res py_dict :=
  transactions ← res_map transaction_out (Block.transactions block);
  BlockOut (Block.index block) (Block.previous_hash block) (Block.timestamp block) (Block.nonce block)
    (Block.difficulty block) (Block.merkle_root block) (Block.hash block) transactions.

(** The class has the first of these fields only. *)
Definition health_route : io app py_dict :=
  current ← gets (λ s, lifecycle_value (lifecycle (network s)));
  pure (HealthResponse [("status", JStr "ok"); ("lifecycle", JStr current);
                        ("ready", JBool (String.eqb current "RUNNING"))]).

Definition status_route : io app py_dict :=
  chain ← gets get_blockchain;
  pure (status (node_settings cfg) (node_consensus cfg) chain ≫= StatusResponse).

Definition get_chain_route : io app py_dict :=
  chain ← gets get_blockchain;
  blocks ← pure (res_map block_to_out (Blockchain.chain chain));
  mret (ChainOut (chain_len chain) blocks).

Definition get_block_route (index : Z) : io app py_dict :=
  chain ← gets get_blockchain;
  match get_block_at index chain with
  | None => raise (HTTPException 404 ("Block " +:+ str_Z index +:+ " not found."))
  | Some block => pure (block_to_out block)
  end.

(** ** Wallets *)

Definition create_wallet : io app py_dict :=
  scalar ← on_network (draw new_key);
  wallet ← pure (Wallet.create scalar);
  mret (WalletCreateResponse (Wallet.address wallet) (Wallet.public_key_hex wallet)).

Definition get_wallet_balance (address : string) : io app py_dict :=
  if negb (is_valid_address address) then raise (HTTPException 400 "Malformed wallet address.")
  else
    chain ← gets get_blockchain;
    balance_syj ← pure (get_balance_syj address chain);
    mret (WalletBalanceResponse address (Dec.to_string balance_syj) (node_balance address chain)).

(** ** Transactions *)

(** The refusal of a body the request class does not admit. *)
Definition unprocessable {A} : io app A := raise (HTTPException 422 "").

Definition create_transaction (payload : TransactionCreateRequest.t) : io app py_dict :=
  let sender := TransactionCreateRequest.sender payload in
  let receiver := TransactionCreateRequest.receiver payload in
  let amount := TransactionCreateRequest.amount payload in
  if negb (TransactionCreateRequest.not_empty sender && TransactionCreateRequest.not_empty receiver &&
           positive amount) then unprocessable
  else if negb (is_valid_address receiver) then raise (HTTPException 400 "Malformed receiver address.")
  else
    clock ← on_network now;
    tx ← pure (Transaction.init clock sender receiver (Some (ADecimal amount)) None None None None "");
    (** [tx.to_dict()] has the same fields. *)
    pure (transaction_out tx).

(** The transaction a submission stands for: the amount in base units goes
    first where it is given. *)
Definition submitted (clock : Z) (payload : TransactionSubmitRequest.t) : res Transaction.t :=
  let units := TransactionSubmitRequest.amount_base_units payload in
  Transaction.init clock (TransactionSubmitRequest.sender payload) (TransactionSubmitRequest.receiver payload)
    (match units with Some _ => None | None => Some (ADecimal (TransactionSubmitRequest.amount payload)) end)
    (int_json <$> units) (Some (PInt (TransactionSubmitRequest.timestamp payload)))
    (Some (TransactionSubmitRequest.sender_public_key payload))
    (Some (TransactionSubmitRequest.signature payload)) "".

(** [try: ... except Exception: log] around a broadcast. *)
Definition best_effort {A} (m : io app A) : io app () :=
  attempt (_ ← m; mret tt) (on_exception (mret tt)).

Definition submit_route (payload : TransactionSubmitRequest.t) : io app py_dict :=
  if negb (positive (TransactionSubmitRequest.amount payload) &&
           match TransactionSubmitRequest.amount_base_units payload with Some u => 0 <? u | None => true end)
  then unprocessable
  else
    clock ← on_network now;
    tx ← pure (submitted clock payload);
    v ← on_network (on_blockchain (λ st, let '(st, v) := submit_transaction tx st in (st, Ok v)));
    _ ← (if v.1 : bool then best_effort (on_network (broadcast_transaction cfg tx None)) else mret tt);
    mret (TransactionSubmitResponse v.1 (if v.1 then Some (Transaction.tx_hash tx) else None) v.2).

Definition get_pending_route : io app (list py_dict) :=
  chain ← gets get_blockchain;
  pure (res_map transaction_out (get_pending_transactions chain)).

(** ** Mining *)

(** [except ValidationError] *)
Definition mining_failed {A} (e : exn) : option (io app A) :=
  match e with ValidationError m => Some (raise (HTTPException 500 m)) | _ => None end.

Definition mine_route (miner_address : string) : io app py_dict :=
  if negb (is_valid_address miner_address) then raise (HTTPException 400 "Malformed miner address.")
  else
    clock ← on_network now;
    block ← attempt (on_network (on_blockchain
                       (mine_pending_transactions (node_settings cfg) (node_consensus cfg) clock miner_address)))
                    mining_failed;
    _ ← best_effort (on_network (broadcast_block cfg block None));
    out ← pure (block_to_out block);
    mret (MineResponse out).

(** ** Serving requests *)

Context (body_size : py_dict → Z).

(** A request to one of the two routers, its body parsed. *)
Inductive Request :=
  | GetHealth
  | GetStatus
  | GetChain
  | GetBlock (index : Z)
  | CreateWallet
  | GetWallet (address : string)
  | CreateTransaction (payload : TransactionCreateRequest.t)
  | SubmitTransaction (payload : TransactionSubmitRequest.t)
  | GetPending
  | Mine (miner_address : string)
  | NetworkStatus
  | NetworkPeers
  | RegisterPeer (payload : PeerRegisterRequest.t)
  | IssueChallenge (node_id : string)
  | AuthenticatePeer (auth : py_dict)
  | NetworkChain
  | TriggerSync (payload : SyncRequest.t)
  | ReceiveBlock (payload : BlockReceiveRequest.t)
  | ReceiveTransaction (payload : TransactionReceiveRequest.t).

Definition object (m : io app py_dict) : io app json := body ← m; mret (JObj body).

(** [app.include_router(router)], [app.include_router(network_router)] *)
Definition serve (client : option string) (r : Request) : io app json :=
  match r with
  | GetHealth => object health_route
  | GetStatus => object status_route
  | GetChain => object get_chain_route
  | GetBlock index => object (get_block_route index)
  | CreateWallet => object create_wallet
  | GetWallet address => object (get_wallet_balance address)
  | CreateTransaction payload => object (create_transaction payload)
  | SubmitTransaction payload => object (submit_route payload)
  | GetPending => txs ← get_pending_route; mret (JArr (JObj <$> txs))
  | Mine miner_address => object (mine_route miner_address)
  | NetworkStatus => object (network_status cfg client)
  | NetworkPeers => object (list_peers_route cfg client)
  | RegisterPeer payload => object (register_peer_route cfg payload client)
  | IssueChallenge node_id => object (issue_challenge cfg node_id client)
  | AuthenticatePeer auth => object (authenticate_peer cfg auth client)
  | NetworkChain => object (network_chain cfg body_size client)
  | TriggerSync payload => object (trigger_sync cfg payload client)
  | ReceiveBlock payload => object (receive_block_route cfg payload client)
  | ReceiveTransaction payload => object (receive_transaction_route cfg payload client)
  end.

(** The response as the client sees it: an unhandled exception is a 500 whose
    body is no JSON. *)
Definition response (r : res json) : HttpAnswer :=
  match r with
  | Ok body => Response 200 (Ok body)
  | Err (HTTPException status detail) => Response status (Ok (JObj [("detail", JStr detail)]))
  | Err _ => Response 500 (Err (ValueError "Expecting value"))
  end.

(** ** The application's lifetime *)

(** [lifespan]: the node starts before the first request and stops after the last. *)
Definition startup : io app () := on_network (start cfg).
Definition shutdown : io app () := on_network stop.
End routes.
