(* ===== verification/Requests.v ===== *)
(** * From an HTTP request to a route: what one node asks, another understands

    The request classes of api/schemas.py as fields, what pydantic is relied on
    for as a class, and the routes of the /network router.  The messages that the
    client of blockchain/network/protocol.py sends are read back as the requests
    they stand for, and a message's declared kind never reaches the route. *)
From Stdlib Require Import Ascii.
From stdpp Require Import options.
From S2P Require Import Prelude PyText Json Utils Wallet Transaction Block Settings Sql Storage Handshake.
From S2P Require Import PeerStore Peers Effects Network NetworkSamples Propagation Schemas NetworkRoutes Routes.

Local Open Scope Z_scope.
#[local] Set Default Proof Using "Type*".

(** ** Request classes *)

(** A field of a request class; without a default it is required. *)
Record Field := { field_name : string; annotation : ftype; field_default : option json }.

Definition required (name : string) (t : ftype) : Field :=
  {| field_name := name; annotation := t; field_default := None |}.

(** [Optional[t] = None] *)
Definition optional (name : string) (t : ftype) : Field :=
  {| field_name := name; annotation := FOpt t; field_default := Some JNull |}.

Definition PeerRegisterRequest_fields : list Field := [required "node_id" FStr; required "address" FStr].
Definition PeerChallengeRequest_fields : list Field := [required "node_id" FStr].
Definition PeerAuthenticateRequest_fields : list Field := [required "auth" FDict].
Definition BlockReceiveRequest_fields : list Field :=
  [required "block" FDict; optional "from_peer" FStr; optional "auth" FDict].
Definition TransactionReceiveRequest_fields : list Field :=
  [required "transaction" FDict; optional "from_peer" FStr; optional "auth" FDict].
Definition SyncRequest_fields : list Field := [optional "peer_address" FStr; optional "auth" FDict].

(** ** pydantic *)

(** [Model.model_validate(value)]: the fields of the instance, or a refusal. *)
Class Pydantic := model_validate : list Field → json → option py_dict.

(** The value of a field in a body that has it, or may leave it out. *)
Definition field_value (d : py_dict) (f : Field) : json :=
  match dict_get (field_name f) d with Some v => v | None => default JNull (field_default f) end.

(** The body has a value of the annotation for the field, or need not have one. *)
Definition fits (d : py_dict) (f : Field) : Prop :=
  match dict_get (field_name f) d with
  | Some v => conforms (annotation f) v = true
  | None => is_Some (field_default f)
  end.

(** What its documentation says: values of the annotated types are kept, a
    field that is left out takes its default, others are ignored. *)
Class PydanticLaws `{Pydantic} : Prop :=
  validate_fitting fields d : Forall (fits d) fields →
    model_validate fields (JObj d) = Some ((λ f, (field_name f, field_value d f)) <$> fields).

(** What becomes of a request that no route of the /network router is called
    for: one of another router, or one that the framework answers itself,
    because it cannot read the body or the class refuses it.  The messages of
    the client are none of these, and nothing is relied on. *)
Class Elsewhere (S : Type) := elsewhere : HttpRequest → S → S * HttpAnswer.

(** ** Requests of instances

    The fields of an instance as the record of its class. *)

Definition str_field (key : string) (d : py_dict) : option string :=
  match dict_get key d with Some (JStr s) => Some s | _ => None end.
Definition obj_field (key : string) (d : py_dict) : option py_dict :=
  match dict_get key d with Some (JObj o) => Some o | _ => None end.
Definition opt_str_field (key : string) (d : py_dict) : option (option string) :=
  match dict_get key d with Some JNull => Some None | _ => Some <$> str_field key d end.
Definition opt_obj_field (key : string) (d : py_dict) : option (option py_dict) :=
  match dict_get key d with Some JNull => Some None | _ => Some <$> obj_field key d end.

Definition as_register (d : py_dict) : option Request :=
  node_id ← str_field "node_id" d; address ← str_field "address" d;
  Some (RegisterPeer (PeerRegisterRequest.Make node_id address)).
Definition as_challenge (d : py_dict) : option Request := IssueChallenge <$> str_field "node_id" d.
Definition as_authenticate (d : py_dict) : option Request := AuthenticatePeer <$> obj_field "auth" d.
Definition as_receive_block (d : py_dict) : option Request :=
  block ← obj_field "block" d; from_peer ← opt_str_field "from_peer" d; auth ← opt_obj_field "auth" d;
  Some (ReceiveBlock (BlockReceiveRequest.Make block from_peer auth)).
Definition as_receive_transaction (d : py_dict) : option Request :=
  transaction ← obj_field "transaction" d; from_peer ← opt_str_field "from_peer" d;
  auth ← opt_obj_field "auth" d;
  Some (ReceiveTransaction (TransactionReceiveRequest.Make transaction from_peer auth)).
Definition as_sync (d : py_dict) : option Request :=
  peer_address ← opt_str_field "peer_address" d; auth ← opt_obj_field "auth" d;
  Some (TriggerSync (SyncRequest.Make peer_address auth)).

(** ** The router *)

(** What a route takes: nothing of the body, or an instance of a class. *)
Inductive taken :=
  | Plain (r : Request)
  | WithBody (fields : list Field) (as_request : py_dict → option Request).

(** A decorated function of api/network_routes.py. *)
Record endpoint := { verb : string; path : string; takes : taken }.

Definition prefix : string := "/network".
Definition router_get (p : string) (r : Request) : endpoint :=
  {| verb := "GET"; path := prefix +:+ p; takes := Plain r |}.
Definition router_post (p : string) (fields : list Field) (as_request : py_dict → option Request) : endpoint :=
  {| verb := "POST"; path := prefix +:+ p; takes := WithBody fields as_request |}.

Definition network_status_endpoint : endpoint := router_get "/status" NetworkStatus.
Definition list_peers_endpoint : endpoint := router_get "/peers" NetworkPeers.
Definition register_peer_endpoint : endpoint :=
  router_post "/peers/register" PeerRegisterRequest_fields as_register.
Definition issue_challenge_endpoint : endpoint :=
  router_post "/peers/challenge" PeerChallengeRequest_fields as_challenge.
Definition authenticate_peer_endpoint : endpoint :=
  router_post "/peers/authenticate" PeerAuthenticateRequest_fields as_authenticate.
Definition network_chain_endpoint : endpoint := router_get "/chain" NetworkChain.
Definition trigger_sync_endpoint : endpoint := router_post "/sync" SyncRequest_fields as_sync.
Definition receive_block_endpoint : endpoint :=
  router_post "/blocks/receive" BlockReceiveRequest_fields as_receive_block.
Definition receive_transaction_endpoint : endpoint :=
  router_post "/transactions/receive" TransactionReceiveRequest_fields as_receive_transaction.

Definition endpoints : list endpoint :=
  [network_status_endpoint; list_peers_endpoint; register_peer_endpoint; issue_challenge_endpoint;
   authenticate_peer_endpoint; network_chain_endpoint; trigger_sync_endpoint; receive_block_endpoint;
   receive_transaction_endpoint].

Definition find_endpoint (method path' : string) : option taken :=
  takes <$> List.find (λ e, String.eqb (verb e) method && String.eqb (path e) path') endpoints.

Section decode.
Context `{Pydantic}.

(** The request of a route, where its body is an instance of its class. *)
Definition parse_body (e : taken) (body : option json) : option Request :=
  match e with
  | Plain r => Some r
  | WithBody fields as_request =>
      value ← body; instance ← model_validate fields value; as_request instance
  end.

(** The request that an HTTP request makes to the /network router. *)
Definition decode (r : HttpRequest) : option Request :=
  e ← find_endpoint (method r) (url_path r); parse_body e (request_body r).
End decode.

Section laws.
Context `{PydanticLaws}.

(** ** What the client sends *)

(** A body of the class, at its path. *)
Lemma decode_fitting m address path d t fields make :
  find_endpoint m path = Some (WithBody fields make) → Forall (fits d) fields →
  decode {| method := m; base_url := address; url_path := path; request_body := Some (JObj d); timeout := t |} =
  make ((λ f, (field_name f, field_value d f)) <$> fields).
Proof.
  intros Hpath Hd. unfold decode. cbn [method url_path request_body]. rewrite Hpath.
  cbn [parse_body mbind option_bind]. by rewrite (validate_fitting fields d Hd).
Qed.

Lemma decode_posted address path d t fields make r :
  find_endpoint "POST" path = Some (WithBody fields make) → Forall (fits d) fields →
  make ((λ f, (field_name f, field_value d f)) <$> fields) = Some r →
  decode {| method := "POST"; base_url := address; url_path := path; request_body := Some (JObj d); timeout := t |} =
  Some r.
Proof. intros Hpath Hd Hr. by rewrite (decode_fitting _ _ _ _ _ _ _ Hpath Hd), Hr. Qed.

Section client.
Context `{E : ECDSA} {T : Type → Type} {SQL : Sql T} {W : Type} {Wo : World W}.
Context (cfg : NodeConfig).

(** The call of the client that makes one HTTP request to the address, and the
    request that the other node understands. *)
Definition understood (address : string) (m : io (net T W) (option json)) (r : Request) : Prop :=
  ∃ asked expected,
    m = request cfg (timeout asked) (method asked) (base_url asked) (url_path asked) (request_body asked) expected ∧
    base_url asked = address ∧ decode asked = Some r.

Lemma get_understood t address path r :
  find_endpoint "GET" path = Some (Plain r) → understood address (client_get cfg t address path) r.
Proof.
  intros Hpath. exists {| method := "GET"; base_url := address; url_path := path; request_body := None; timeout := t |}.
  eexists. split; [reflexivity|]. split; [done|]. unfold decode. cbn [method url_path]. by rewrite Hpath.
Qed.

Lemma post_understood t address path d fields make r :
  find_endpoint "POST" path = Some (WithBody fields make) → Forall (fits d) fields →
  make ((λ f, (field_name f, field_value d f)) <$> fields) = Some r →
  understood address (client_post cfg t address path d) r.
Proof.
  intros Hpath Hd Hr.
  exists {| method := "POST"; base_url := address; url_path := path; request_body := Some (JObj d); timeout := t |}.
  eexists. split; [reflexivity|]. split; [done|]. exact (decode_posted _ _ _ _ _ _ _ Hpath Hd Hr).
Qed.

(** Client and server agree: each of the nine calls of the client sends one
    request, and the router of the node that receives it calls the route it is
    meant for with the block, transaction, envelope, name and address that were
    sent. *)
Theorem messages_understood address :
  understood address (get_status cfg address) NetworkStatus ∧
  understood address (get_chain cfg address) NetworkChain ∧
  understood address (get_peers cfg address) NetworkPeers ∧
  (∀ node_id self_address, understood address (register_with cfg address node_id self_address)
     (RegisterPeer (PeerRegisterRequest.Make node_id self_address))) ∧
  (∀ node_id, understood address (request_challenge cfg address node_id) (IssueChallenge node_id)) ∧
  (∀ envelope, understood address (authenticate_with cfg address envelope) (AuthenticatePeer envelope)) ∧
  (∀ block from_peer envelope, understood address (send_block cfg address block from_peer envelope)
     (ReceiveBlock (BlockReceiveRequest.Make block (Some from_peer) (Some envelope)))) ∧
  (∀ transaction from_peer envelope, understood address (send_transaction cfg address transaction from_peer envelope)
     (ReceiveTransaction (TransactionReceiveRequest.Make transaction (Some from_peer) (Some envelope)))) ∧
  (∀ envelope target, understood address (request_sync cfg address envelope target)
     (TriggerSync (SyncRequest.Make target (Some envelope)))).
Proof.
  split_and!; intros; try (apply get_understood; reflexivity).
  all: eapply post_understood; [reflexivity| |try reflexivity].
  all: try (repeat constructor; done).
  all: destruct target; try reflexivity; repeat constructor.
Qed.
End client.
End laws.

(** ** The kind of a message *)

Section kind.
Context `{PydanticLaws}.

Definition post (address path : string) (t : Z) (d : py_dict) : HttpRequest :=
  {| method := "POST"; base_url := address; url_path := path; request_body := Some (JObj d); timeout := t |}.

(** What a class does not mention it does not see. *)
Lemma unmentioned key v d fields :
  Forall (λ f, field_name f ≠ key) fields →
  Forall (fits d) fields →
  Forall (fits (dict_set key v d)) fields ∧
  (λ f, (field_name f, field_value (dict_set key v d) f)) <$> fields = (λ f, (field_name f, field_value d f)) <$> fields.
Proof.
  intros Hkey Hfits.
  assert (∀ f, field_name f ≠ key → dict_get (field_name f) (dict_set key v d) = dict_get (field_name f) d) as Hget.
  { intros f Hf. by rewrite dict_get_set, decide_False. }
  split.
  - eapply Forall_impl; [apply Forall_and; split; [exact Hkey|exact Hfits]|].
    intros f [Hf Hd]. unfold fits. by rewrite (Hget f Hf).
  - apply list_fmap_ext. intros i f Hi. f_equal. unfold field_value.
    by rewrite (Hget f (Forall_lookup_1 _ _ _ _ Hkey Hi)).
Qed.

Lemma decode_unmentioned key v d address path t fields make :
  find_endpoint "POST" path = Some (WithBody fields make) →
  Forall (λ f, field_name f ≠ key) fields → Forall (fits d) fields →
  decode (post address path t (dict_set key v d)) = decode (post address path t d).
Proof.
  intros Hpath Hkey Hd. destruct (unmentioned key v d fields Hkey Hd) as [Hd' Hsame].
  unfold post. by rewrite !(decode_fitting _ _ _ _ _ _ _ Hpath), Hsame.
Qed.

(** The kind a message declares is never looked at: the request classes have
    no such field, so a block, a transaction or a request to synchronise that
    declares any kind at all is decoded as the one that declares none; and the
    check the two routes make of the kind accepts every instance. *)
Theorem message_type_unseen address t kind d :
  (Forall (fits d) BlockReceiveRequest_fields →
     decode (post address "/network/blocks/receive" t (dict_set "message_type" kind d)) =
     decode (post address "/network/blocks/receive" t d)) ∧
  (Forall (fits d) TransactionReceiveRequest_fields →
     decode (post address "/network/transactions/receive" t (dict_set "message_type" kind d)) =
     decode (post address "/network/transactions/receive" t d)) ∧
  (Forall (fits d) SyncRequest_fields →
     decode (post address "/network/sync" t (dict_set "message_type" kind d)) =
     decode (post address "/network/sync" t d)) ∧
  (∀ b, validate_message_type (BlockReceiveRequest.model_dump b) NEW_BLOCK = Ok tt) ∧
  (∀ tx, validate_message_type (TransactionReceiveRequest.model_dump tx) NEW_TRANSACTION = Ok tt).
Proof.
  split_and!; try done; intros Hd; (eapply decode_unmentioned; [reflexivity| |exact Hd]); by repeat constructor.
Qed.
End kind.

(** ** A validator that converts nothing *)

Module StrictValidator.

Definition fitsb (d : py_dict) (f : Field) : bool :=
  match dict_get (field_name f) d with
  | Some v => conforms (annotation f) v
  | None => match field_default f with Some _ => true | None => false end
  end.

#[export] Instance pydantic : Pydantic := λ fields j,
  match j with
  | JObj d =>
      if forallb (fitsb d) fields then Some ((λ f, (field_name f, field_value d f)) <$> fields) else None
  | _ => None
  end.

Lemma fitsb_fits d f : fitsb d f = true ↔ fits d f.
Proof.
  unfold fitsb, fits. destruct (dict_get _ d); [done|]. destruct (field_default f); [|naive_solver].
  split; [by eexists|done].
Qed.

#[export] Instance laws : PydanticLaws.
Proof.
  intros fields d Hd. unfold model_validate, pydantic.
  assert (forallb (fitsb d) fields = true) as ->; [|done].
  apply forallb_forall. intros f Hf%list_elem_of_In. apply fitsb_fits. exact (proj1 (Forall_forall _ _) Hd f Hf).
Qed.

End StrictValidator.

(** The rest of an application that has no other route. *)
Module NothingElse.

#[export] Instance elsewhere {S} : Elsewhere S :=
  λ _ s, (s, Response 404 (Ok (JObj [("detail", JStr "Not Found")]))).

End NothingElse.

(** ** Witnesses *)

#[local] Existing Instances StrictValidator.pydantic StrictValidator.laws.
#[local] Existing Instances ToyECDSA.ecdsa ListSql.sql.

Definition sent (path : string) (body : option json) : HttpRequest :=
  {| method := "POST"; base_url := ""; url_path := path; request_body := body; timeout := 0 |}.

Example a_sync : decode (sent "/network/sync" (Some (JObj [("auth", JObj []); ("more", JNull)]))) =
  Some (TriggerSync (SyncRequest.Make None (Some []))).
Proof. vm_compute. reflexivity. Qed.
Example no_body : decode (sent "/network/sync" None) = None.
Proof. vm_compute. reflexivity. Qed.
Example not_a_block : decode (sent "/network/blocks/receive" (Some (JObj [("block", JStr "")]))) = None.
Proof. vm_compute. reflexivity. Qed.

Lemma messages_understood_witness :
  understood (T := ListSql.t) (W := toy_world) own_config "http://b" (get_status own_config "http://b") NetworkStatus ∧
  ∀ block, understood (T := ListSql.t) (W := toy_world) own_config "http://b"
    (send_block own_config "http://b" block "http://a" [])
    (ReceiveBlock (BlockReceiveRequest.Make block (Some "http://a") (Some []))).
Proof.
  destruct (messages_understood (T := ListSql.t) (W := toy_world) own_config "http://b")
    as (Hstatus & _ & _ & _ & _ & _ & Hblock & _).
  exact (conj Hstatus (λ block, Hblock block "http://a" [])).
Defined.

(** A body that declares itself a transaction. *)
Lemma message_type_unseen_witness :
  decode (post "http://b" "/network/blocks/receive" 5 (dict_set "message_type" (JStr "NEW_TRANSACTION") [("block", JObj [])])) =
  Some (ReceiveBlock (BlockReceiveRequest.Make [] None None)).
Proof.
  rewrite (proj1 (message_type_unseen "http://b" 5 (JStr "NEW_TRANSACTION") [("block", JObj [])])); [reflexivity|].
  constructor; [reflexivity|]. constructor; [by eexists|]. constructor; [by eexists|constructor].
Defined.
