(* ===== verification/Middleware.v ===== *)
(** * api/middleware.py: the limit on request bodies

    A request is a stream of ASGI messages; the middleware reads it up to the
    end of the body before the application sees any of it.  Byte strings are
    Latin-1 strings. *)
From Stdlib Require Import Ascii.
From stdpp Require Import options.
From S2P Require Import Prelude PyText Json Settings.

Local Open Scope Z_scope.

(** A message of the [receive] channel; keys that are missing are [None]. *)
Inductive message :=
  | BodyMessage (body : option string) (more_body : option bool)
  | OtherMessage (message_type : string).

Record scope := {
  scope_type : string;
  scope_path : option string;
  scope_headers : list (string * string);
}.

(** What comes of a request: an error response, the messages the application
    reads, or a body that does not end. *)
Inductive handled :=
  | Rejected (limit : Z)
  | Passed (seen : list message)
  | Waiting.

Section middleware.
Context (default_max_bytes : Z) (path_overrides : list (string * Z)).

(** The first prefix that fits. *)
Fixpoint limit_in (overrides : list (string * Z)) (path : string) : Z :=
  match overrides with
  | [] => default_max_bytes
  | (prefix, limit) :: overrides => if starts_with path prefix then limit else limit_in overrides path
  end.

Definition limit_for_path (path : string) : Z := limit_in path_overrides path.

Definition body_length (body : option string) : Z := Z.of_nat (String.length (default "" body)).

(** The loop on [more_body]: what it has read is passed on together with what
    is left, or the limit is exceeded. *)
Fixpoint read_body (limit total : Z) (buffered messages : list message) : handled :=
  match messages with
  | [] => Waiting
  | OtherMessage t :: rest => Passed (buffered ++ OtherMessage t :: rest)
  | BodyMessage body more :: rest =>
      let total := total + body_length body in
      if limit <? total then Rejected limit
      else
        let buffered := buffered ++ [BodyMessage body more] in
        if default false more then read_body limit total buffered rest
        else Passed (buffered ++ rest)
  end.

(** [int(declared_length) > limit]; a header that is no number says nothing. *)
Definition declared_too_long (limit : Z) (headers : list (string * string)) : bool :=
  match dict_get "content-length" (dict_of_pairs headers) with
  | Some declared => match int_of_text 10 declared with Some n => limit <? n | None => false end
  | None => false
  end.

Definition handle (s : scope) (messages : list message) : handled :=
  if negb (String.eqb (scope_type s) "http") then Passed messages
  else
    let limit := limit_for_path (default "" (scope_path s)) in
    if declared_too_long limit (scope_headers s) then Rejected limit
    else read_body limit 0 [] messages.

(** The body of the error response. *)
Definition reject_body (limit : Z) : string :=
  "{" +:+ quote "detail" +:+ ":" +:+
  quote ("Request body exceeds the " +:+ str_Z limit +:+ "-byte limit for this endpoint.") +:+ "}".

(** ** What gets through *)

(** The bytes of a body, up to its end or the first other message. *)
Fixpoint body_bytes (messages : list message) : Z :=
  match messages with
  | BodyMessage body more :: rest =>
      body_length body + if default false more then body_bytes rest else 0
  | _ => 0
  end.

(** The body ends: by its last part or by another message. *)
Fixpoint complete (messages : list message) : bool :=
  match messages with
  | [] => false
  | OtherMessage _ :: _ => true
  | BodyMessage _ more :: rest => if default false more then complete rest else true
  end.

Lemma body_bytes_nonneg messages : 0 ≤ body_bytes messages.
Proof.
  induction messages as [|[body more|t] rest IH]; cbn; [done| |done].
  unfold body_length. case_match; lia.
Qed.

Lemma read_body_spec limit total buffered messages :
  complete messages = true →
  read_body limit total buffered messages =
    if limit <? total + body_bytes messages then
      match messages with OtherMessage _ :: _ => Passed (buffered ++ messages) | _ => Rejected limit end
    else Passed (buffered ++ messages).
Proof.
  revert total buffered. induction messages as [|[body more|t] rest IH]; intros total buffered Hc; [done| |].
  2: { cbn [read_body body_bytes]. by destruct (limit <? _). }
  cbn [complete] in Hc. cbn [read_body body_bytes]. pose proof (body_bytes_nonneg rest).
  destruct (default false more) eqn:Hm.
  - destruct (Z.ltb_spec limit (total + body_length body)) as [Hlt|Hle].
    { by rewrite (proj2 (Z.ltb_lt _ _)) by lia. }
    rewrite IH by done. rewrite Z.add_assoc, <-app_assoc. cbn [app].
    destruct (Z.ltb_spec limit (total + body_length body + body_bytes rest)); [|done].
    destruct rest as [|[]]; [done|done|]. cbn in *. lia.
  - rewrite Z.add_0_r, <-app_assoc. by case_match.
Qed.

(** C31: Exactly the bodies within the limit reach the application, whatever
    the headers claim: a complete request is rejected when it declares too long
    a body or has one, counted over all its parts; otherwise the application
    reads the very messages that arrived. *)
Theorem body_limit s messages :
  scope_type s = "http" → complete messages = true →
  0 ≤ limit_for_path (default "" (scope_path s)) →
  handle s messages =
    let limit := limit_for_path (default "" (scope_path s)) in
    if declared_too_long limit (scope_headers s) || (limit <? body_bytes messages)
    then Rejected limit else Passed messages.
Proof.
  intros Ht Hc Hl. unfold handle. rewrite Ht. cbn [negb String.eqb]. cbv zeta.
  destruct (declared_too_long _ _); [done|]. rewrite read_body_spec by done. cbn [orb app].
  rewrite Z.add_0_l. destruct messages as [|[|]]; [done|done|]. cbn [body_bytes].
  by rewrite (proj2 (Z.ltb_ge _ _) Hl).
Qed.
End middleware.

(** api/main.py: the limits of the application. *)
Definition app_limits (p : P2PConfig.t) : list (string * Z) :=
  [("/network/blocks/receive", P2PConfig.max_block_payload_bytes p);
   ("/network/transactions/receive", P2PConfig.max_transaction_payload_bytes p);
   ("/network/peers/register", P2PConfig.max_handshake_payload_bytes p);
   ("/network/peers/challenge", P2PConfig.max_handshake_payload_bytes p);
   ("/network/peers/authenticate", P2PConfig.max_handshake_payload_bytes p);
   ("/network/sync", P2PConfig.max_handshake_payload_bytes p)].

Definition app_handle (p : P2PConfig.t) : scope → list message → handled :=
  handle (P2PConfig.max_request_body_bytes p) (app_limits p).

(** A body in two parts that declares one byte. *)
Definition liar : scope :=
  {| scope_type := "http"; scope_path := Some "/network/sync"; scope_headers := [("content-length", "1")] |}.
Definition two_parts : list message := [BodyMessage (Some "abc") (Some true); BodyMessage (Some "def") None].

Lemma body_limit_witness : handle 100 [("/network", 5)] liar two_parts = Rejected 5.
Proof. apply (body_limit 100 [("/network", 5)] liar two_parts); [reflexivity..|]. vm_compute. discriminate. Defined.
