(* ===== verification/ApiFacts.v ===== *)
(** * What the HTTP interface guarantees *)
From Stdlib Require Import Ascii.
From stdpp Require Import options.
From S2P Require Import Prelude PyText Json Utils NativeAsset Wallet Transaction Block Consensus Mempool.
From S2P Require Import Settings Samples Validators Sql Storage StorageFacts Blockchain BlockchainFacts.
From S2P Require Import RateLimit Handshake HandshakeFacts PeerStore Url AddressSecurity Peers Effects.
From S2P Require Import Network Propagation Sync NetworkSamples NetworkFacts Schemas NetworkRoutes Routes.

Local Open Scope Z_scope.
#[local] Set Default Proof Using "Type*".

(** ** Frames of the routes *)

Create HintDb routes discriminated.

Section frame.
Context `{E : ECDSA} {T : Type → Type} {SQL : Sql T} {W : Type} {Wo : World W}.
Context (cfg : NodeConfig) (body_size : py_dict → Z).

Abbreviation net := (net T W).
Abbreviation app := (app T W).

(** A relation on network nodes, seen on the application. *)
Definition lifted (R : relation net) : relation app := λ s s', R (network s) (network s').

#[local] Instance lifted_preorder R `{!PreOrder R} : PreOrder (lifted R).
Proof. unfold lifted. split; [intros s|intros s1 s2 s3 ? ?]; [done|by etrans]. Qed.

Context (R : relation net) `{!PreOrder R}.
Hypothesis quiet_R : ∀ s s', quiet s s' → R s s'.

Lemma on_network_moves {A} (m : io net A) : moves R m → moves (lifted R) (on_network m).
Proof. intros Hm s. unfold on_network, on. specialize (Hm (network s)). by destruct (m (network s)). Qed.

Lemma app_modify_moves f : (∀ s : app, network (f s) = network s) → moves (lifted R) (modify f).
Proof. intros Hf s. unfold lifted. cbn. rewrite Hf. reflexivity. Qed.

Lemma on_challenges_moves {A} (f : ChallengeStore.t → ChallengeStore.t * res A) :
  moves (lifted R) (on_challenges cfg f).
Proof. apply moves_on; [apply _|]. intros s c. unfold lifted. reflexivity. Qed.

(** Walks to the calls a route ends in. *)
Ltac walk :=
  walk_moves; first
    [ apply on_challenges_moves | apply app_modify_moves; done
    | solve [auto with routes]
    | apply on_network_moves; first [apply draw_moves; [apply _|done] | solve [auto with quiet typeclass_instances] | idtac]
    | idtac ].

Lemma enforce_rate_limit_moves client tier hint :
  moves (lifted R) (enforce_rate_limit (T := T) (W := W) cfg client tier hint).
Proof. unfold enforce_rate_limit, get_rate_limiter, now. walk. Qed.
#[local] Hint Resolve enforce_rate_limit_moves : routes.

(** The calls that change the wrapped node or the credentials. *)
Hypothesis submit_R : ∀ tx,
  moves R (on_blockchain (λ st, let '(st, v) := submit_transaction tx st in (st, Ok v))).
Hypothesis append_R : ∀ b, moves R (on_blockchain (append_received cfg b)).
Hypothesis replace_R : ∀ clock c,
  moves R (on_blockchain (replace_chain (node_settings cfg) (node_consensus cfg) clock c)).
Hypothesis mine_R : ∀ clock address,
  moves R (on_blockchain (mine_pending_transactions (node_settings cfg) (node_consensus cfg) clock address)).

Definition grants (r : Request) : bool := match r with AuthenticatePeer _ => true | _ => false end.

Definition trust_allowed : Prop := ∀ address node_id key clock,
  moves R (on_peers (λ p, save p (upsert_peer_credential address node_id key true clock (peer_db p)))).

Lemma best_effort_moves {A} (m : io app A) : moves (lifted R) m → moves (lifted R) (best_effort m).
Proof.
  intros Hm. unfold best_effort. apply moves_attempt; [apply _| |].
  - apply moves_bind; [apply _|done|]. intros. apply moves_ret. apply _.
  - intros e m'. unfold on_exception. destruct e; intros [= <-]; apply moves_ret; apply _.
Qed.

Lemma received_moves o m : moves R m → moves (lifted R) (received (T := T) (W := W) o m).
Proof. intros Hm. unfold received. destruct o as [[b r] p]. destruct (b && p); walk. Qed.

#[local] Hint Resolve broadcast_block_moves broadcast_transaction_moves sync_with_peer_moves
  sync_with_all_peers_moves receive_block_moves receive_transaction_moves : quiet.

Lemma mine_attempt_moves clock address :
  moves (lifted R) (attempt (on_network (on_blockchain (mine_pending_transactions (node_settings cfg)
    (node_consensus cfg) clock address))) mining_failed).
Proof.
  apply moves_attempt; [apply _| |].
  - by apply on_network_moves.
  - intros e m'. unfold mining_failed. destruct e; intros [= <-]. apply moves_raise. apply _.
Qed.

Lemma trust_credential_moves address node_id key :
  trust_allowed →
  moves R (clock ← draw (T := T) time;
           on_peers (λ p, save p (upsert_peer_credential address node_id key true clock (peer_db p)))).
Proof. intros Ht. walk_moves; [by apply draw_moves|apply Ht]. Qed.
#[local] Hint Resolve best_effort_moves mine_attempt_moves received_moves on_network_moves : routes.

Lemma serve_moves client r :
  (grants r = true → trust_allowed) → moves (lifted R) (serve cfg body_size client r).
Proof.
  intros Ht. unfold serve, object. destruct r; walk_moves;
    unfold health_route, status_route, get_chain_route, get_block_route, create_wallet, get_wallet_balance,
      create_transaction, unprocessable, submit_route, get_pending_route, mine_route, network_status,
      list_peers_route, register_peer_route, issue_challenge, authenticate_peer, trust_peer, network_chain,
      trigger_sync, receive_block_route, receive_transaction_route, now; walk.
  all: first [ apply trust_credential_moves; by apply Ht
             | apply received_moves; walk_moves;
               first [by apply draw_moves | auto with quiet typeclass_instances]
             | apply best_effort_moves, on_network_moves; auto with quiet typeclass_instances ].
Qed.
End frame.

(** ** Whatever is requested *)

Section requests.
Context `{E : ECDSA} {T : Type → Type} {SQL : Sql T} {W : Type} {Wo : World W}.
Context (cfg : NodeConfig) (body_size : py_dict → Z).

Abbreviation net := (net T W).
Abbreviation app := (app T W).
#[local] Existing Instances lifted_preorder advances_preorder same_credentials_preorder.

(** The life of the application: requests of a kind, from anywhere, and rounds
    of the maintenance loop, in any order. *)
Inductive app_step (allowed : Request → bool) : relation app :=
  | app_serve client r s :
      allowed r = true → app_step allowed s (serve cfg body_size client r s).1
  | app_maintenance s : app_step allowed s (on_network (maintenance_round cfg) s).1
  | app_startup s : app_step allowed s (startup cfg s).1
  | app_shutdown s : app_step allowed s (shutdown s).1.

Lemma stop_moves (R : relation net) `{!PreOrder R} :
  (∀ s s', quiet s s' → R s s') → moves R (stop (T := T) (W := W)).
Proof. intros Hq. unfold stop. walk_moves; try (apply modify_moves; [apply _|done..]). Qed.

Lemma app_step_lifted (R : relation net) `{!PreOrder R} allowed s s' :
  (∀ s s', quiet s s' → R s s') →
  moves R (maintenance_round (T := T) (W := W) cfg) →
  (∀ client r, allowed r = true → moves (lifted R) (serve cfg body_size client r)) →
  app_step allowed s s' → lifted R s s'.
Proof.
  intros Hq Hm Hserve [client r s0 Hr|s0|s0|s0].
  - by apply Hserve.
  - by apply on_network_moves.
  - apply on_network_moves; [apply _|done|by apply start_moves].
  - apply on_network_moves; [apply _|done|by apply stop_moves].
Qed.

Lemma app_steps_lifted (R : relation net) `{!PreOrder R} allowed s s' :
  (∀ s s', app_step allowed s s' → lifted R s s') → rtc (app_step allowed) s s' → lifted R s s'.
Proof. intros Hs. induction 1 as [|s1 s2 s3 H1 _ IH]; [reflexivity|]. etrans; [by apply Hs|done]. Qed.

(** ** Trust *)

Lemma blockchain_keeps_credentials {A} (f : node T → node T * res A) :
  moves (same_credentials (T := T) (W := W)) (on_blockchain f).
Proof. apply moves_on; [apply _|]. done. Qed.

(** C16: Only the challenge-response handshake grants trust: over any sequence of
    requests other than [/network/peers/authenticate], from anyone, and of
    maintenance rounds, no credential is added, changed or removed. *)
Theorem only_authentication_grants_trust s s' :
  rtc (app_step (λ r, negb (grants r))) s s' → credentials (network s') = credentials (network s).
Proof.
  apply (app_steps_lifted same_credentials). intros s1 s2.
  assert (Hq : ∀ n n', quiet n n' → same_credentials (T := T) (W := W) n n') by (by intros ?? [_ ?]).
  pose proof @blockchain_keeps_credentials.
  apply app_step_lifted; [apply _|done| |].
  - apply maintenance_round_moves; [apply _|done|]. auto.
  - intros client r Hr. apply serve_moves; [apply _|done|auto..|].
    intros Hg. by rewrite Hg in Hr.
Qed.

(** ** The chain *)

Definition app_chain (s : app) : list Block.t := chain (blockchain (network s)).

Abbreviation valid_chain c :=
  (validate_chain c (node_consensus cfg) (config (node_settings cfg)) (reward (node_settings cfg))
     (max_supply (node_settings cfg)) = Ok accept).

(** The cap is the one of the asset, which [receive_block] takes. *)
Hypothesis supply_cap : max_supply (node_settings cfg) = MAX_SUPPLY_BASE_UNITS.

Lemma mine_step clock address st :
  rtc (step (node_settings cfg) (node_consensus cfg)) st
    (mine_pending_transactions (node_settings cfg) (node_consensus cfg) clock address st).1.
Proof.
  unfold mine_pending_transactions. destruct (mine_prepare _ _ _ _ _) as [mined|]; [|done].
  apply rtc_once, step_commit.
Qed.

Lemma app_step_advances s s' : app_step (λ _, true) s s' → lifted (advances cfg) s s'.
Proof.
  pose proof (quiet_advances (T := T) (W := W) cfg) as Hq.
  pose proof (replace_advances (T := T) (W := W) cfg) as Hreplace.
  apply app_step_lifted; [apply _|done| |].
  - apply maintenance_round_moves; [apply _|done|]. done.
  - intros client r _. apply serve_moves; [apply _|done| | |done| |].
    + intros tx. apply on_blockchain_advances. intros st. apply submit_received_step.
    + intros b. apply on_blockchain_advances. intros st. by apply append_received_step.
    + intros clock address. apply on_blockchain_advances. intros st. apply mine_step.
    + intros _ address node_id key clock. apply moves_on; [apply _|].
      intros n p. apply rtc_refl.
Qed.

(** C10: No request can make the node's chain invalid: after any sequence of
    requests to any route, from anyone, with any content and whatever other
    nodes answer meanwhile, and of maintenance rounds, the chain still
    validates from genesis to tip, has the same genesis hash and has at least
    the work it had. *)
Theorem requests_keep_chain_valid s s' :
  rtc (app_step (λ _, true)) s s' → app_chain s ≠ [] → valid_chain (app_chain s) →
  valid_chain (app_chain s') ∧
  head_hash (blockchain (network s')) = head_hash (blockchain (network s)) ∧
  (app_chain s' = app_chain s ∨ chain_work (app_chain s) < chain_work (app_chain s')).
Proof.
  intros Hs%(app_steps_lifted (advances cfg) _ _ _ app_step_advances). by apply steps_valid.
Qed.
End requests.

(** ** What a route does besides *)

Section runs.
Context `{E : ECDSA} {T : Type → Type} {SQL : Sql T} {W : Type} {Wo : World W}.
Context (cfg : NodeConfig).

Abbreviation net := (net T W).
Abbreviation app := (app T W).
Implicit Types (n : net) (s : app).

(** The rate limit touches its limiters and reads the clock. *)
Definition limited s s' : Prop :=
  challenge_store s' = challenge_store s ∧ ∃ w, network s' = set_world w (network s).

#[local] Instance limited_preorder : PreOrder limited.
Proof.
  split; [intros s; split; [done|exists (world (network s)); by destruct (network s)]|].
  intros s1 s2 s3 [H1 [w1 Hw1]] [H2 [w2 Hw2]]. split; [congruence|]. exists w2. by rewrite Hw2, Hw1.
Qed.

Lemma on_now_limited : moves limited (on_network (T := T) (W := W) now).
Proof.
  intros s. unfold on_network, on, now, draw. destruct (time (world (network s))) as [w t].
  split; [done|]. by exists w.
Qed.

Lemma enforce_limited client tier hint : moves limited (enforce_rate_limit (T := T) (W := W) cfg client tier hint).
Proof.
  assert (Hm : ∀ f : app → app, (∀ s, challenge_store (f s) = challenge_store s ∧ network (f s) = network s) →
    moves limited (modify f)).
  { intros f Hf s. destruct (Hf s) as [Hc Hn]. split; [done|]. cbn. rewrite Hn.
    exists (world (network s)). by destruct (network s). }
  unfold enforce_rate_limit, get_rate_limiter. walk_moves; first [apply on_now_limited | by apply Hm].
Qed.

(** A run on the network node, as a run of the application. *)
Lemma on_network_bind {A B} (m : io net A) (f : A → io app B) s n a :
  m (network s) = (n, Ok a) → (on_network m ≫= f) s = f a (set_network n s).
Proof. intros Hm. unfold mbind, io_bind, on_network, on. by rewrite Hm. Qed.

(** The limiter of a tier, made if need be. *)
Definition limiter_of (tier : string) (multiplier : Z) s : RateLimiter.t :=
  default (new_rate_limiter cfg multiplier) (dict_get tier (rate_limiters s)).

Lemma get_limiter_runs tier multiplier s :
  dict_get tier TIER_MULTIPLIERS = Some multiplier →
  ∃ s', get_rate_limiter cfg tier s = (s', Ok (limiter_of tier multiplier s)) ∧
    challenge_store s' = challenge_store s ∧ network s' = network s.
Proof.
  intros Htier. unfold get_rate_limiter, limiter_of, mbind, io_bind, gets.
  destruct (dict_get tier (rate_limiters s)) as [l|]; [by eexists|]. rewrite Htier. by eexists.
Qed.

(** A request of a key that has some left is let through, and takes one. *)
Lemma enforce_hint_runs client tier multiplier hint key s :
  dict_get tier TIER_MULTIPLIERS = Some multiplier → rate_key client hint = Ok key →
  0 < RateLimiter.remaining key (limiter_of tier multiplier s) →
  ∃ s', enforce_rate_limit cfg client tier hint s = (s', Ok ()) ∧
    challenge_store s' = challenge_store s ∧
    network s' = set_world (time (world (network s))).1 (network s) ∧
    RateLimiter.remaining key (limiter_of tier multiplier s) - 1 ≤
      RateLimiter.remaining key (limiter_of tier multiplier s').
Proof.
  intros Htier Hkey Hleft. unfold enforce_rate_limit.
  destruct (get_limiter_runs tier multiplier s Htier) as (s1 & Hget & Hc & Hn).
  rewrite (bind_run _ _ _ _ _ Hget). set (l := limiter_of tier multiplier s) in *.
  assert (Hnow : now (network s1) =
    (set_world (time (world (network s))).1 (network s), Ok (time (world (network s))).2)).
  { rewrite Hn. unfold now, draw. by destruct (time (world (network s))). }
  rewrite (on_network_bind _ _ _ _ _ Hnow).
  rewrite Hkey, pure_run. destruct (RateLimiter.allow_remaining (time (world (network s))).2 key l Hleft) as [Ha Hr].
  destruct (RateLimiter.allow _ key l) as [l' b]. cbn in Ha, Hr. subst b.
  eexists. split; [reflexivity|]. split; [done|]. split; [done|].
  lazymatch goal with |- _ ≤ RateLimiter.remaining _ ?x => assert (x = l') as ->; [|done] end.
  unfold limiter_of. cbn. by rewrite dict_get_set, decide_True.
Qed.

Lemma enforce_runs client tier multiplier key s :
  dict_get tier TIER_MULTIPLIERS = Some multiplier → key ≠ "" →
  0 < RateLimiter.remaining key (limiter_of tier multiplier s) →
  ∃ s', enforce_rate_limit cfg client tier (JStr key) s = (s', Ok ()) ∧
    challenge_store s' = challenge_store s ∧
    network s' = set_world (time (world (network s))).1 (network s) ∧
    RateLimiter.remaining key (limiter_of tier multiplier s) - 1 ≤
      RateLimiter.remaining key (limiter_of tier multiplier s').
Proof.
  intros Htier Hkey. apply enforce_hint_runs; [done|].
  unfold rate_key, py_or. cbn [truthy]. by destruct (String.eqb_spec key "").
Qed.

Lemma on_challenges_bind {A B} (f : ChallengeStore.t → ChallengeStore.t * res A) (g : A → io app B) s c a :
  f (get_challenge_store cfg s) = (c, Ok a) →
  (on_challenges cfg f ≫= g) s = g a (set_challenge_store c s).
Proof. intros Hf. unfold mbind, io_bind, on_challenges, on. by rewrite Hf. Qed.

Lemma on_network_Ok {A} (m : io net A) s s' a :
  on_network m s = (s', Ok a) → ∃ n, m (network s) = (n, Ok a) ∧ s' = set_network n s.
Proof. unfold on_network. intros (n & Hm & ->)%on_Ok. by exists n. Qed.

(** What the envelope's identity and address are stored as. *)
Definition now_trusts n n' (address node_id key : string) : Prop :=
  is_trusted_peer address n' = true ∧
  (∃ c, get_peer_credential address (peer_db (peers n')) = Some c ∧ cr_node_id c = node_id ∧
        cr_public_key_hex c = key) ∧
  ∀ a, a ≠ address → get_peer_credential a (peer_db (peers n')) = get_peer_credential a (peer_db (peers n)).

Lemma now_trusts_same n n1 n2 address node_id key :
  now_trusts n n1 address node_id key → credentials n2 = credentials n1 →
  now_trusts n n2 address node_id key.
Proof.
  unfold now_trusts, is_trusted_peer, is_peer_trusted, get_peer_credential, credentials. by intros ? ->.
Qed.

(** The database keeps its promises. *)
Context {SL : SqlLaws T}.

Lemma register_runs (rc : RegistryConfig) address node_id clock (p : registry T) :
  registry_wf p →
  ∃ p' v, register rc address node_id clock p = (p', Ok v) ∧ registry_wf p' ∧
    peer_credentials_table (peer_db p') = peer_credentials_table (peer_db p).
Proof.
  intros Hwf. destruct (admissible rc address node_id p) eqn:Hadm.
  - destruct (register_admitted rc _ _ clock _ Hwf Hadm) as (db' & -> & Hwf' & _ & Hc & _).
    by eexists _, _.
  - destruct (register_refused rc _ _ clock _ Hadm) as (reason & -> & _). by eexists _, _.
Qed.

Lemma register_peer_runs address node_id n :
  registry_wf (peers n) →
  ∃ n' v, register_peer cfg address node_id n = (n', Ok v) ∧ registry_wf (peers n') ∧
    credentials n' = credentials n ∧ blockchain n' = blockchain n.
Proof.
  intros Hwf. unfold register_peer, mbind, io_bind, now, draw, on_peers, on.
  destruct (time (world n)) as [w t]. cbn [peers set_world].
  destruct (register_runs (registry_settings cfg) address node_id t (peers n) Hwf) as (p & v & -> & Hwf' & Hc).
  by eexists _, _.
Qed.

Lemma peer_seen_runs address node_id n :
  registry_wf (peers n) →
  ∃ n', peer_seen address node_id n = (n', Ok ()) ∧ credentials n' = credentials n ∧
    blockchain n' = blockchain n.
Proof.
  intros Hwf. unfold peer_seen, mbind, io_bind, now, draw, on_peers, on.
  destruct (time (world n)) as [w t]. cbn [peers set_world].
  destruct (mark_seen_ok address "online" node_id t (peers n) Hwf) as (db & -> & _ & _ & Hc & _).
  by eexists.
Qed.

Lemma store_credential_runs address node_id key n :
  registry_wf (peers n) →
  ∃ n', (clock ← draw (T := T) time;
         on_peers (λ p, save p (upsert_peer_credential address node_id key true clock (peer_db p)))) n =
      (n', Ok ()) ∧ registry_wf (peers n') ∧ now_trusts n n' address node_id key ∧
    blockchain n' = blockchain n.
Proof.
  intros Hwf. unfold mbind, io_bind, draw, on_peers, on. destruct (time (world n)) as [w t].
  cbn [peers set_world].
  destruct (upsert_credential_ok address node_id key true t (peer_db (peers n)) Hwf)
    as (db & c & -> & Hwf' & _ & Hc & Hn & Hk & Ht & Ho).
  eexists. split; [reflexivity|]. split; [done|]. split; [|done].
  unfold now_trusts, is_trusted_peer, is_peer_trusted. cbn. rewrite Hc. split_and!; [done|by exists c|done].
Qed.

End runs.

(** ** The handshake *)

Section trust.
Context `{L : ECDSALaws} {T : Type → Type} {SQL : Sql T} {SL : SqlLaws T} {W : Type} {Wo : World W}.
Context (cfg : NodeConfig).

Abbreviation net := (net T W).
Abbreviation app := (app T W).
Implicit Types (n : net) (s : app).
#[local] Existing Instance limited_preorder.

Definition welcome : py_dict :=
  PeerAuthenticateResponse true None (Some (own_id cfg))
    (Some (P2PIdentity.public_key_hex (identity (auth_context cfg)))).

Lemma trust_peer_runs address envelope node_id key s :
  registry_wf (peers (network s)) →
  dict_get "node_id" envelope = Some (JStr node_id) → dict_get "public_key" envelope = Some (JStr key) →
  ∃ s', trust_peer cfg address envelope s = (s', Ok welcome) ∧
    now_trusts (network s) (network s') address node_id key ∧
    blockchain (network s') = blockchain (network s).
Proof.
  intros Hwf Hnode Hkey. unfold trust_peer, proven_identity.
  rewrite (dict_index_get _ _ _ Hnode), (dict_index_get _ _ _ Hkey). cbn [mbind res_bind as_str].
  destruct (store_credential_runs address node_id key (network s) Hwf) as (n1 & H1 & Hwf1 & Ht & Hb1).
  destruct (register_peer_runs cfg address (Some node_id) n1 Hwf1) as (n2 & v & H2 & Hwf2 & Hc2 & Hb2).
  destruct (peer_seen_runs address (Some node_id) n2 Hwf2) as (n3 & H3 & Hc3 & Hb3).
  rewrite pure_run, (on_network_bind _ _ _ _ _ H1). rewrite (on_network_bind _ _ (set_network n1 s) _ _ H2).
  rewrite (on_network_bind _ _ (set_network n2 (set_network n1 s)) _ _ H3).
  eexists. split; [reflexivity|]. cbn. split; [|congruence].
  apply (now_trusts_same _ n1); [done|congruence].
Qed.
Abbreviation policy := (P2PConfig.allow_private_peer_addresses (p2p cfg)).

Lemma validate_target_run address n :
  validate_peer_address (getaddrinfo (world n)) address policy = Ok accept →
  validate_target cfg address n = (n, Ok None).
Proof. intros Hv. unfold validate_target, mbind, io_bind, gets, pure. by rewrite Hv. Qed.

(** A signed handshake that answers the pending challenge of its name. *)
Lemma signed_handshake_runs id k context challenge clock entropy sig issued client s s1 :
  P2PIdentity.generate id k = Ok (identity context) → 0 < k < SECP256K1_ORDER → id ≠ "" →
  same_network context (auth_context cfg) →
  verify_identity_signature (P2PIdentity.public_key_hex (identity context))
    (signing_message (handshake_fields context clock entropy challenge)) sig = true →
  dict_get id (ChallengeStore.challenges (get_challenge_store cfg s)) = Some (challenge, issued) →
  enforce_rate_limit cfg client "moderate" (JStr id) s = (s1, Ok ()) →
  (time (world (network s1))).2 - issued ≤ ChallengeStore.ttl (get_challenge_store cfg s) →
  (∀ w : W, validate_peer_address (getaddrinfo w) (advertised_address context) policy = Ok accept) →
  registry_wf (peers (network s)) →
  ∃ s', authenticate_peer cfg (signed_handshake context clock entropy challenge sig) client s = (s', Ok welcome) ∧
    now_trusts (network s) (network s') (advertised_address context) id
      (P2PIdentity.public_key_hex (identity context)) ∧
    blockchain (network s') = blockchain (network s).
Proof.
  intros Hi Hk Hid Hnet Hver Hpending Hlimit Htime Haddr Hwf.
  destruct (generate_key_pair id k _ Hi Hk) as (Hnode & _).
  pose proof (moves_run _ _ _ _ _ (enforce_limited _ _ _ _) Hlimit) as [Hc1 [w1 Hw1]].
  assert (Hstore : get_challenge_store cfg s1 = get_challenge_store cfg s)
    by (unfold get_challenge_store; by rewrite Hc1).
  unfold authenticate_peer. set (env := signed_handshake _ _ _ _ _).
  change (auth_get "node_id" (Some env)) with (JStr (P2PIdentity.node_id (identity context))).
  rewrite Hnode, (bind_run _ _ _ _ _ Hlimit).
  destruct (time (world (network s1))) as [w2 t] eqn:Ht. cbn [snd] in Htime.
  assert (Hnow : now (network s1) = (set_world w2 (network s1), Ok t)) by (unfold now, draw; by rewrite Ht).
  rewrite (on_network_bind _ _ _ _ _ Hnow).
  rewrite <-Hstore in Hpending, Htime.
  pose proof (built_handshake_accepted id k context (auth_context cfg) challenge clock entropy sig t
    (get_challenge_store cfg s1) issued Hi Hk Hid Hnet Hver Hpending Htime) as Hok. fold env in Hok.
  set (s2 := set_network _ s1). change (get_challenge_store cfg s1) with (get_challenge_store cfg s2) in Hok.
  destruct (verify_handshake_envelope (JObj env) (auth_context cfg) t (get_challenge_store cfg s2))
    as [store r] eqn:Hvh. cbn in Hok. subst r.
  rewrite (on_challenges_bind _ _ _ _ _ _ Hvh). cbn [refusal fst accept].
  change (dict_index "advertised_address" env) with (Ok (JStr (advertised_address context))).
  rewrite pure_run. set (s3 := set_challenge_store store s2).
  rewrite (on_network_bind _ _ s3 _ _ (validate_target_run _ _ (Haddr _))).
  replace (set_network (network s3) s3) with s3 by (by destruct s3).
  destruct (trust_peer_runs (advertised_address context) env id
    (P2PIdentity.public_key_hex (identity context)) s3) as (s' & Htp & Htrust & Hbc).
  - unfold s3, s2. cbn. by rewrite Hw1.
  - unfold env. by rewrite <-Hnode.
  - done.
  - exists s'. split; [done|]. unfold now_trusts in *. unfold s3, s2 in Htrust, Hbc.
    cbn in Htrust, Hbc. rewrite Hw1 in Htrust, Hbc. done.
Qed.

(** The handshake works: a peer with a generated identity, on the same
    network, that holds the pending challenge of its name builds an envelope
    that the route accepts; from then on the address it advertises is trusted
    under its name and key.  Whom that address belonged to before does not
    matter, and no other address is affected. *)
Theorem handshake_establishes_trust id k context challenge clock entropy rnd rnd' issued client s s1 :
  P2PIdentity.generate id k = Ok (identity context) → 0 < k < SECP256K1_ORDER → id ≠ "" →
  same_network context (auth_context cfg) →
  dict_get id (ChallengeStore.challenges (get_challenge_store cfg s)) = Some (challenge, issued) →
  enforce_rate_limit cfg client "moderate" (JStr id) s = (s1, Ok ()) →
  (time (world (network s1))).2 - issued ≤ ChallengeStore.ttl (get_challenge_store cfg s) →
  (∀ w : W, validate_peer_address (getaddrinfo w) (advertised_address context) policy = Ok accept) →
  registry_wf (peers (network s)) →
  ∃ envelope s', build_handshake_envelope context (JStr challenge) clock entropy rnd rnd' = Ok envelope ∧
    authenticate_peer cfg envelope client s = (s', Ok welcome) ∧
    now_trusts (network s) (network s') (advertised_address context) id
      (P2PIdentity.public_key_hex (identity context)) ∧
    blockchain (network s') = blockchain (network s).
Proof.
  intros Hi Hk Hid Hnet Hpending Hlimit Htime Haddr Hwf.
  destruct (built_handshake id k context challenge clock entropy rnd rnd' Hi Hk) as (sig & Hb & Hver).
  destruct (signed_handshake_runs id k context challenge clock entropy sig issued client s s1) as (s' & Hs'); [done..|].
  by exists (signed_handshake context clock entropy challenge sig), s'.
Qed.

(** What an accepted request has shown. *)
Definition authenticated envelope s s' : Prop :=
  ∃ node_id key address clock, handshake_proven envelope clock (get_challenge_store cfg s) node_id key ∧
    dict_get "advertised_address" envelope = Some (JStr address) ∧
    (∃ (w : W) reason, validate_peer_address (getaddrinfo w) address policy = Ok (true, reason)) ∧
    now_trusts (network s) (network s') address node_id key.

Lemma validate_target_accepts address n n' :
  validate_target cfg address n = (n', Ok None) →
  n' = n ∧ ∃ reason, validate_peer_address (getaddrinfo (world n)) address policy = Ok (true, reason).
Proof.
  unfold validate_target. intros H. run_inv H. split; [done|].
  match goal with v : verdict |- _ => destruct v as [[] reason] end; [by exists reason|done].
Qed.

Lemma authentication_cases envelope client s s' reply :
  registry_wf (peers (network s)) →
  authenticate_peer cfg envelope client s = (s', Ok reply) →
  (∃ reason, reply = not_authenticated reason) ∧ credentials (network s') = credentials (network s) ∨
  reply = welcome ∧ authenticated envelope s s'.
Proof.
  intros Hwf H. unfold authenticate_peer in H. run_inv H.
  rename Hrun into Hlimit, Hrun0 into Hnow, Hrun1 into Hver.
  pose proof (moves_run _ _ _ _ _ (enforce_limited _ _ _ _) Hlimit) as Hl0.
  pose proof (moves_run _ _ _ _ _ on_now_limited Hnow) as Hl1.
  assert (Hl : limited s s1) by (by etrans). destruct Hl as [Hc [w Hw]]. clear Hlimit Hnow Hl0 Hl1.
  apply on_Ok in Hver as (store & Hver & ->).
  assert (get_challenge_store cfg s1 = get_challenge_store cfg s) as Hstore
    by (unfold get_challenge_store; by rewrite Hc).
  rewrite Hstore in Hver. destruct (refusal a1) as [reason|] eqn:Href.
  { run_inv H. left. split; [by exists reason|]. cbn. by rewrite Hw. }
  assert (Ha1 : a1.1 = true) by (unfold refusal in Href; by destruct a1.1).
  destruct (verify_handshake_accepted _ _ _ _ _ _ Hver Ha1) as (node_id & key & Hproven).
  run_inv H. rename Hrun into Hadv, Hrun0 into Htarget.
  apply dict_index_Ok in Hadv. apply on_network_Ok in Htarget as (n & Htarget & ->).
  match type of H with (match ?r with _ => _ end) _ = _ => destruct r as [refused|] end.
  { run_inv H. left. split; [by exists ("Invalid advertised address: " +:+ refused)|].
    unfold validate_target in Htarget. run_inv Htarget. cbn. by rewrite Hw. }
  apply validate_target_accepts in Htarget as [-> [reason Haddr]].
  match type of Hadv with _ = Some ?v => destruct v as [| | |address| |]; try done end.
  right. set (s2 := set_network _ _) in H.
  pose proof Hproven as (challenge & issued & sig & fields & Hnode & Hkey & _).
  destruct (trust_peer_runs address envelope node_id key s2) as (s3 & Hrun & Htrust & _); [|done..|].
  { unfold s2. cbn. by rewrite Hw. }
  rewrite H in Hrun. injection Hrun as <- ->. split; [done|].
  exists node_id, key, address, a0. split_and!; [done|done|by eexists _, _|].
  unfold s2 in Htrust. cbn in Htrust. by rewrite Hw in Htrust.
Qed.

(** C14: Trust needs proof: a request to authenticate either is refused and
    leaves every credential as it is, or its sender holds a challenge this node
    issued to that name, not expired, signed together with the advertised
    address by the key of the envelope, and the address passes the policy; only
    then that address, and no other, is trusted under that name and key. *)
Theorem authentication_needs_proof envelope client s s' reply :
  registry_wf (peers (network s)) →
  authenticate_peer cfg envelope client s = (s', Ok reply) →
  (∃ reason, reply = not_authenticated reason) ∧ credentials (network s') = credentials (network s) ∨
  reply = welcome ∧ authenticated envelope s s'.
Proof. apply authentication_cases. Qed.

(** Trust is stored under the address as it was sent, peers are known under its
    normal form: a peer that advertises an address in any other form, such as
    one with a trailing slash, authenticates, but a broadcast to its registered
    address is skipped as one to a peer that is not trusted. *)
Theorem unnormalised_peer_is_skipped envelope client s s' address message send :
  registry_wf (peers (network s)) →
  authenticate_peer cfg envelope client s = (s', Ok welcome) →
  dict_get "advertised_address" envelope = Some (JStr address) →
  normalize_address address ≠ address →
  get_peer_credential (normalize_address address) (peer_db (peers (network s))) = None →
  is_trusted_peer address (network s') = true ∧
  broadcast_to cfg message send None (normalize_address address) (network s') = (network s', Ok []).
Proof.
  intros Hwf Hrun Haddr Hnorm Hnone.
  destruct (authentication_cases _ _ _ _ _ Hwf Hrun) as [[[reason Hr] _]|[_ Hauth]]; [done|].
  destruct Hauth as (node_id & key & address' & clock & _ & Haddr' & _ & Htrust & _ & Hothers).
  rewrite Haddr in Haddr'. injection Haddr' as <-. split; [done|].
  unfold broadcast_to. rewrite bool_decide_false by done.
  unfold mbind, io_bind, gets, is_trusted_peer, is_peer_trusted. by rewrite Hothers, Hnone.
Qed.
End trust.

(** ** What needs an envelope *)

Section idle.
Context `{E : ECDSA} {T : Type → Type} {SQL : Sql T} {W : Type} {Wo : World W}.
Context (cfg : NodeConfig) (body_size : py_dict → Z).

Abbreviation net := (net T W).
Abbreviation app := (app T W).
Implicit Types (n : net) (s : app).

(** The clock was read, and nothing else of the world: no node was called. *)
Definition only_clock : relation W := rtc (λ w w', w' = (time w).1).

(** The wrapped node, with chain, pool and database, and the peers are as they
    were. *)
Definition idle n n' : Prop :=
  only_clock (world n) (world n') ∧ blockchain n' = blockchain n ∧ peers n' = peers n.

#[local] Instance idle_preorder : PreOrder idle.
Proof.
  unfold idle, only_clock. split; [intros n; by split_and!|].
  intros n1 n2 n3 (? & ? & ?) (? & ? & ?). split_and!; [by etrans|congruence..].
Qed.
#[local] Existing Instance lifted_preorder.

Lemma now_idle : moves idle (now (T := T) (W := W)).
Proof.
  intros n. unfold now, draw. destruct (time (world n)) as [w t] eqn:Ht. split; [|done].
  cbn. apply rtc_once. by rewrite Ht.
Qed.

Lemma enforce_idle client tier hint :
  moves (lifted idle) (enforce_rate_limit (T := T) (W := W) cfg client tier hint).
Proof.
  assert (Hm : ∀ f : app → app, (∀ s, network (f s) = network s) → moves (lifted idle) (modify f)).
  { intros f Hf s. unfold lifted. cbn. rewrite Hf. reflexivity. }
  assert (Hn : moves (lifted idle) (on_network (T := T) (W := W) now)).
  { intros s. unfold on_network, on. pose proof (now_idle (network s)). by destruct (now (network s)). }
  unfold enforce_rate_limit, get_rate_limiter. walk_moves; first [apply Hn | by apply Hm].
Qed.

Lemma authenticate_idle envelope payload address :
  moves idle (authenticate_request (T := T) (W := W) cfg envelope payload address).
Proof.
  unfold authenticate_request. walk_moves; try apply now_idle.
  apply moves_on; [apply _|]. intros n c. by split_and!.
Qed.

Lemma on_network_idle {A} (m : io net A) : moves idle m → moves (lifted idle) (on_network m).
Proof. intros Hm s. unfold on_network, on. specialize (Hm (network s)). by destruct (m (network s)). Qed.

(** A step that ends in an exception or goes on. *)
Lemma bind_idle {A B} (m : io app A) (f : A → io app B) s s' r :
  moves (lifted idle) m → (m ≫= f) s = (s', r) →
  (∃ e, r = Err e ∧ lifted idle s s') ∨
  ∃ s1 a, m s = (s1, Ok a) ∧ lifted idle s s1 ∧ f a s1 = (s', r).
Proof.
  unfold mbind, io_bind. intros Hm. specialize (Hm s). destruct (m s) as [s1 [a|e]].
  - intros H. right. by exists s1, a.
  - intros [= <- <-]. left. by exists e.
Qed.

(** Nobody can make the node call an address of its choosing: a request to
    synchronise with an address that is not in this node's registry fails,
    whatever envelope it carries, before any other node is called, and leaves
    chain, pool, database and peers alone. *)
Theorem sync_stays_in_registry payload client target s s' r :
  claimed (SyncRequest.peer_address payload) = Some target → get target (peers (network s)) = None →
  trigger_sync cfg payload client s = (s', r) →
  (∃ e, r = Err e) ∧ idle (network s) (network s').
Proof.
  intros Htarget Hunknown H. unfold trigger_sync in H.
  change (idle (network s) (network s')) with (lifted idle s s').
  apply bind_idle in H as [(e & -> & ?)|(s1 & [] & _ & H1 & H)]; [by eauto| |apply enforce_idle].
  apply bind_idle in H as [(e & -> & ?)|(s2 & a & _ & H2 & H)];
    [split; [by eauto|etrans; [exact H1|done]]| |apply moves_pure; apply _].
  apply bind_idle in H as [(e & -> & ?)|(s3 & v & _ & H3 & H)];
    [split; [by eauto|etrans; [exact H1|etrans; [exact H2|done]]]| |apply on_network_idle, authenticate_idle].
  assert (Hi : lifted idle s s3) by (etrans; [exact H1|etrans; [exact H2|done]]).
  destruct (refusal v); [injection H as <- <-; by eauto|]. rewrite Htarget in H.
  destruct Hi as (? & ? & Hp). rewrite <-Hp in Hunknown.
  unfold mbind, io_bind, gets in H. rewrite Hunknown in H. injection H as <- <-. split; [by eauto|done].
Qed.

(** A request that sends a block or a transaction or asks for a
    synchronisation without an envelope. *)
Definition without_envelope (r : Request) : Prop :=
  match r with
  | TriggerSync p => SyncRequest.auth p = None
  | ReceiveBlock p => BlockReceiveRequest.auth p = None
  | ReceiveTransaction p => TransactionReceiveRequest.auth p = None
  | _ => False
  end.

(** What becomes of such a request that the rate limit lets through. *)
Definition anonymous_reply (r : Request) : io app json :=
  match r with
  | TriggerSync _ =>
      raise (HTTPException 401 "Authentication failed: Authentication required: no auth envelope provided.")
  | _ => mret (JObj (ReceiveResponse false "Authentication required: no auth envelope provided." 0))
  end.

Definition limit_key (r : Request) : json :=
  match r with
  | ReceiveBlock p => opt_str_json (BlockReceiveRequest.from_peer p)
  | ReceiveTransaction p => opt_str_json (TransactionReceiveRequest.from_peer p)
  | _ => JNull
  end.

Lemma anonymous_run client r s :
  without_envelope r →
  serve cfg body_size client r s =
    (_ ← enforce_rate_limit cfg client "expensive" (limit_key r); anonymous_reply r) s.
Proof.
  intros Hr. destruct r as [| | | | | | | | | | | | | | | |p|p|p]; try done; cbn [without_envelope] in Hr;
    cbn [serve limit_key]; unfold object, trigger_sync, receive_block_route, receive_transaction_route;
    rewrite Hr; cbn [auth_get auth_json fmap option_fmap option_map];
    unfold mbind, io_bind; unfold py_or; cbn [truthy];
    match goal with |- context [enforce_rate_limit ?a ?b ?c ?d ?e] =>
      destruct (enforce_rate_limit a b c d e) as [[n c' l] [[]|e']] end; reflexivity.
Qed.

(** Anonymous messages do nothing: without an envelope a block, a transaction
    or a synchronisation request is refused, with an error or as not accepted,
    before any other node is called, and chain, pool, database and peers stay
    as they are. *)
Theorem anonymous_requests_refused client r s s' reply :
  without_envelope r → serve cfg body_size client r s = (s', reply) →
  idle (network s) (network s') ∧
  (∀ body, reply = Ok body → ∃ reason, body = JObj (ReceiveResponse false reason 0)).
Proof.
  intros Hr H. rewrite anonymous_run in H by done.
  change (idle (network s) (network s')) with (lifted idle s s').
  apply bind_idle in H as [(e & -> & ?)|(s1 & [] & _ & Hi & H)]; [by split| |apply enforce_idle].
  destruct r; try done; injection H as <- <-; (split; [done|]); intros body [= <-]; by eexists.
Qed.
End idle.

(** ** Witnesses *)

#[local] Existing Instances ToyECDSA.ecdsa ToyECDSA.ecdsa_laws ListSql.sql ListSql.sql_laws.

(** Sizes do not matter here. *)
Definition no_size (body : py_dict) : Z := 0.

Definition sample_app (store : option ChallengeStore.t) : app ListSql.t toy_world :=
  App (sample_net short_chain no_peers []) store [].

(** The node with the chain of three blocks. *)
Definition serving_app : app ListSql.t toy_world := App (sample_net sample_chain no_peers []) None [].

Definition after_request (r : Request) (s : app ListSql.t toy_world) : app ListSql.t toy_world :=
  (serve own_config no_size (Some "10.0.0.9") r s).1.

Definition peer_registration : Request :=
  RegisterPeer (PeerRegisterRequest.Make "peer" other_address).

Lemma only_authentication_grants_trust_witness :
  credentials (network (after_request peer_registration (sample_app None))) =
  credentials (network (sample_app None)).
Proof.
  apply (only_authentication_grants_trust own_config no_size). apply rtc_once. by constructor.
Defined.

(** A request to mine changes the chain. *)
Definition mining_request : Request := Mine (Wallet.address (toy_wallet 7)).

Example request_mines :
  length (chain (blockchain (network (after_request mining_request (sample_app None))))) = 3%nat.
Proof. vm_compute. reflexivity. Qed.

Lemma requests_keep_chain_valid_witness :
  validate_chain (app_chain (after_request mining_request (sample_app None))) pow (config sample_settings)
    (reward sample_settings) (max_supply sample_settings) = Ok accept ∧
  head_hash (blockchain (network (after_request mining_request (sample_app None)))) =
    head_hash (blockchain (network (sample_app None))) ∧
  (app_chain (after_request mining_request (sample_app None)) = app_chain (sample_app None) ∨
   chain_work (app_chain (sample_app None)) <
     chain_work (app_chain (after_request mining_request (sample_app None)))).
Proof.
  apply (requests_keep_chain_valid own_config no_size eq_refl).
  - apply rtc_once. by constructor.
  - discriminate.
  - exact sample_short_valid.
Defined.

(** A peer of the same network, with a pending challenge. *)
Definition peer_context : AuthContext := {|
  identity := toy_identity "peer" 7;
  network_name := Handshake.network_name (auth_context own_config);
  genesis_hash := Handshake.genesis_hash (auth_context own_config);
  advertised_address := other_address;
  capabilities := ["blocks"];
|}.

Definition pending_store : ChallengeStore.t := Eval vm_compute in
  (ChallengeStore.issue "peer" (1735700090 * ticks) [1; 2; 3] (get_challenge_store own_config (sample_app None))).1.
Definition challenge_text : string := "010203".
Definition challenged_app : app ListSql.t toy_world := sample_app (Some pending_store).
Definition limited_app : app ListSql.t toy_world :=
  (enforce_rate_limit own_config (Some "10.0.0.9") "moderate" (JStr "peer") challenged_app).1.

Lemma handshake_establishes_trust_witness :
  ∃ envelope s', build_handshake_envelope peer_context (JStr challenge_text) 5 [9] 0 0 = Ok envelope ∧
    authenticate_peer own_config envelope (Some "10.0.0.9") challenged_app = (s', Ok (welcome own_config)) ∧
    now_trusts (network challenged_app) (network s') other_address "peer"
      (P2PIdentity.public_key_hex (toy_identity "peer" 7)) ∧
    blockchain (network s') = blockchain (network challenged_app).
Proof.
  refine (handshake_establishes_trust own_config "peer" 7 peer_context challenge_text 5 [9] 0 0 (1735700090 * ticks)
    (Some "10.0.0.9") challenged_app limited_app _ _ _ _ _ _ _ _ _).
  - vm_compute. reflexivity.
  - split; vm_compute; reflexivity.
  - discriminate.
  - split; reflexivity.
  - vm_compute. reflexivity.
  - vm_compute. reflexivity.
  - vm_compute. discriminate.
  - intros w. vm_compute. reflexivity.
  - exact empty_peer_wf.
Defined.

(** The same request, as it arrives. *)
Definition peer_envelope : py_dict := Eval vm_compute in
  match build_handshake_envelope peer_context (JStr challenge_text) 5 [9] 0 0 with Ok e => e | Err _ => [] end.
Definition trusting_app : app ListSql.t toy_world :=
  (authenticate_peer own_config peer_envelope (Some "10.0.0.9") challenged_app).1.

Lemma peer_authenticates :
  authenticate_peer own_config peer_envelope (Some "10.0.0.9") challenged_app = (trusting_app, Ok (welcome own_config)).
Proof.
  assert (Hr : (authenticate_peer own_config peer_envelope (Some "10.0.0.9") challenged_app).2 =
    Ok (welcome own_config)) by (vm_compute; reflexivity).
  exact (run_eq _ _ Hr).
Qed.

Lemma authentication_needs_proof_witness :
  (∃ reason, welcome own_config = not_authenticated reason) ∧
    credentials (network trusting_app) = credentials (network challenged_app) ∨
  welcome own_config = welcome own_config ∧ authenticated own_config peer_envelope challenged_app trusting_app.
Proof.
  exact (authentication_needs_proof own_config peer_envelope (Some "10.0.0.9") challenged_app trusting_app
    (welcome own_config) empty_peer_wf peer_authenticates).
Defined.

(** The same peer, with a slash at the end of its address. *)
Definition slash_context : AuthContext := {|
  identity := identity peer_context;
  network_name := Handshake.network_name peer_context;
  genesis_hash := Handshake.genesis_hash peer_context;
  advertised_address := other_address +:+ "/";
  capabilities := [];
|}.
Definition slash_envelope : py_dict := Eval vm_compute in
  match build_handshake_envelope slash_context (JStr challenge_text) 5 [9] 0 0 with Ok e => e | Err _ => [] end.
Definition slash_app : app ListSql.t toy_world :=
  (authenticate_peer own_config slash_envelope (Some "10.0.0.9") challenged_app).1.

Lemma slash_authenticates :
  authenticate_peer own_config slash_envelope (Some "10.0.0.9") challenged_app = (slash_app, Ok (welcome own_config)).
Proof.
  assert (Hr : (authenticate_peer own_config slash_envelope (Some "10.0.0.9") challenged_app).2 =
    Ok (welcome own_config)) by (vm_compute; reflexivity).
  exact (run_eq _ _ Hr).
Qed.

Lemma unnormalised_peer_is_skipped_witness :
  is_trusted_peer (other_address +:+ "/") (network slash_app) = true ∧
  broadcast_to own_config [] (λ _ _, mret None) None (normalize_address (other_address +:+ "/")) (network slash_app) =
    (network slash_app, Ok []).
Proof.
  refine (unnormalised_peer_is_skipped own_config slash_envelope (Some "10.0.0.9") challenged_app slash_app
    (other_address +:+ "/") [] _ empty_peer_wf slash_authenticates _ _ _).
  - vm_compute. reflexivity.
  - vm_compute. discriminate.
  - vm_compute. reflexivity.
Defined.

Definition foreign_sync : SyncRequest.t := SyncRequest.Make (Some "http://169.254.169.254") None.

Lemma sync_stays_in_registry_witness :
  (∃ e, (trigger_sync own_config foreign_sync None (sample_app None)).2 = Err e) ∧
  idle (network (sample_app None)) (network (trigger_sync own_config foreign_sync None (sample_app None)).1).
Proof.
  apply (sync_stays_in_registry own_config foreign_sync None "http://169.254.169.254" (sample_app None)).
  - reflexivity.
  - vm_compute. reflexivity.
  - by destruct (trigger_sync own_config foreign_sync None (sample_app None)).
Defined.

Definition anonymous_block : Request := ReceiveBlock (BlockReceiveRequest.Make [] (Some other_address) None).

Lemma anonymous_requests_refused_witness :
  idle (network (sample_app None)) (network (after_request anonymous_block (sample_app None))) ∧
  (∀ body, (serve own_config no_size (Some "10.0.0.9") anonymous_block (sample_app None)).2 = Ok body →
     ∃ reason, body = JObj (ReceiveResponse false reason 0)).
Proof.
  apply (anonymous_requests_refused own_config no_size (Some "10.0.0.9") anonymous_block (sample_app None)).
  - reflexivity.
  - unfold after_request. by destruct (serve own_config no_size (Some "10.0.0.9") anonymous_block (sample_app None)).
Defined.
