(* ===== verification/AnswerFacts.v ===== *)
(** * What the routes answer

    A route names a response class; what it returns conforms to the
    annotations of that class, whatever state the node is in and whatever is
    asked.  What the routes that read the node report is the state of the node:
    a block, the chain and the pending transactions are read back from the
    answer by the program's own [from_dict], and balances from their text. *)
From Stdlib Require Import Ascii.
From stdpp Require Import options.
From S2P Require Import Prelude PyText Json Utils NativeAsset Wallet Transaction Block Consensus Mempool.
From S2P Require Import Settings Samples Sql Storage StorageFacts Blockchain BlockchainFacts RateLimit Handshake.
From S2P Require Import PeerStore Peers Effects Network Propagation Sync NetworkSamples Schemas NetworkRoutes Routes ApiFacts.

Local Open Scope Z_scope.

(** The [response_model] of each route. *)
Definition response_model (r : Request) : ftype :=
  match r with
  | GetHealth => HealthResponse_model
  | GetStatus => StatusResponse_model
  | GetChain => ChainOut_model
  | GetBlock _ => BlockOut_model
  | CreateWallet => WalletCreateResponse_model
  | GetWallet _ => WalletBalanceResponse_model
  | CreateTransaction _ => TransactionOut_model
  | SubmitTransaction _ => TransactionSubmitResponse_model
  | GetPending => FList TransactionOut_model
  | Mine _ => MineResponse_model
  | NetworkStatus => NetworkStatusResponse_model
  | NetworkPeers => PeerListResponse_model
  | RegisterPeer _ => PeerRegisterResponse_model
  | IssueChallenge _ => PeerChallengeResponse_model
  | AuthenticatePeer _ => PeerAuthenticateResponse_model
  | NetworkChain => NetworkChainResponse_model
  | TriggerSync _ => SyncResponse_model
  | ReceiveBlock _ | ReceiveTransaction _ => ReceiveResponse_model
  end.

(** ** Values of the field types *)

Lemma conforms_opt_str o : conforms (FOpt FStr) (opt_str_json o) = true.
Proof. by destruct o. Qed.
Lemma conforms_reason r : conforms (FOpt FStr) (reason_json r) = true.
Proof. unfold reason_json. by destruct (String.eqb r ""). Qed.
Lemma conforms_opt_float o : conforms (FOpt FFloat) (opt_float_json o) = true.
Proof. by destruct o as [[]|]. Qed.

Lemma conforms_list {A} t (f : A → json) (l : list A) :
  Forall (λ a, conforms t (f a) = true) l → conforms (FList t) (JArr (f <$> l)) = true.
Proof. induction 1 as [|a l Ha _ IH]; [done|]. cbn in *. by rewrite Ha. Qed.

Lemma conforms_strings (l : list string) : conforms (FList FStr) (JArr (JStr <$> l)) = true.
Proof. apply conforms_list. by induction l; constructor. Qed.

Lemma conforms_dicts (l : list py_dict) : conforms (FList FDict) (JArr (JObj <$> l)) = true.
Proof. apply conforms_list. by induction l; constructor. Qed.

(** The type of a response body. *)
Definition typed (t : ftype) (d : py_dict) : Prop := conforms t (JObj d) = true.

Lemma conforms_objects t (ds : list py_dict) :
  Forall (typed t) ds → conforms (FList t) (JArr (JObj <$> ds)) = true.
Proof. apply conforms_list. Qed.

Lemma int_field_typed n j : int_field n = Ok j → conforms FInt j = true.
Proof.
  destruct n as [z|t]; cbn; [by intros [= <-]|]. destruct (t mod ticks =? 0); [by intros [= <-]|done].
Qed.

Lemma res_map_typed {A} (t : ftype) (f : A → res py_dict) l ds :
  (∀ a d, f a = Ok d → typed t d) → res_map f l = Ok ds → Forall (typed t) ds.
Proof. intros Hf Hds. apply res_map_Ok in Hds. induction Hds; constructor; eauto. Qed.

Lemma typed_nil : typed (FModel []) [].
Proof. done. Qed.

Lemma typed_cons name t fields v d :
  conforms t v = true → typed (FModel fields) d → typed (FModel ((name, t) :: fields)) ((name, v) :: d).
Proof. unfold typed. cbn. by rewrite String.eqb_refl => -> ->. Qed.

Create HintDb conforms.
#[local] Hint Resolve conforms_opt_str conforms_reason conforms_opt_float conforms_strings conforms_dicts conforms_objects
  int_field_typed : conforms.
#[local] Hint Extern 1 (conforms _ _ = true) => reflexivity : conforms.

(** Checks a body member by member. *)
Ltac typed_members :=
  repeat (apply typed_cons; [eauto with conforms|]); try apply typed_nil.

Lemma transaction_out_typed tx d : transaction_out tx = Ok d → typed TransactionOut_model d.
Proof.
  unfold transaction_out, TransactionOut. intros (amount & _ & (ts & Hts & [= <-])%res_bind_Ok)%res_bind_Ok.
  typed_members.
Qed.

Lemma block_to_out_typed b d : block_to_out b = Ok d → typed BlockOut_model d.
Proof.
  unfold block_to_out, BlockOut. intros (txs & Htxs & (ts & Hts & [= <-])%res_bind_Ok)%res_bind_Ok.
  apply (res_map_typed TransactionOut_model) in Htxs; [|apply transaction_out_typed]. typed_members.
Qed.

Section answers.
Context `{E : ECDSA} {T : Type → Type} `{Sql T} {W : Type} `{World W}.
Context (cfg : NodeConfig) (body_size : py_dict → Z).
Implicit Types (s : app T W).

Lemma object_typed (t : ftype) (m : io (app T W) py_dict) :
  returns (typed t) m → returns (λ j, conforms t j = true) (object m).
Proof. intros Hm. apply (returns_bind_with (typed t)); [done|]. intros d Hd. by apply returns_ret. Qed.

Lemma peer_out_typed (n : net T W) p : typed PeerOut_model (peer_out n p).
Proof. unfold peer_out, PeerOut. typed_members. Qed.

Lemma status_typed (st : node T) d :
  (status (node_settings cfg) (node_consensus cfg) st ≫= StatusResponse) = Ok d →
  typed StatusResponse_model d.
Proof.
  intros (d0 & (tip & _ & (diff & _ & [= <-])%res_bind_Ok)%res_bind_Ok & [= <-])%res_bind_Ok. typed_members.
Qed.

Lemma net_status_typed clock (n : net T W) d :
  (net_status cfg clock n ≫= NetworkStatusResponse) = Ok d → typed NetworkStatusResponse_model d.
Proof. intros (d0 & (diff & _ & [= <-])%res_bind_Ok & [= <-])%res_bind_Ok. typed_members. Qed.

Lemma received_typed o (m : io (net T W) (list string)) :
  returns (typed ReceiveResponse_model) (received o m).
Proof. unfold received. walk_returns; unfold ReceiveResponse; typed_members. Qed.

Lemma sync_response_typed rs : typed SyncResponse_model (SyncResponse rs).
Proof.
  unfold SyncResponse. typed_members. apply conforms_list, Forall_forall. intros r _.
  change (typed SyncResultOut_model (SyncResultOut r)). unfold SyncResultOut. typed_members.
Qed.

(** The answers have their declared types: whatever is asked, by whom, in
    whatever state the node is, a body that a route returns conforms to the
    annotations of the response class that the route declares. *)
Theorem answers_typed client r s s' body :
  serve cfg body_size client r s = (s', Ok body) → conforms (response_model r) body = true.
Proof.
  enough (Hr : returns (λ j, conforms (response_model r) j = true) (serve cfg body_size client r))
    by apply Hr.
  destruct r; cbn [serve response_model]; try apply object_typed.
  - unfold health_route. apply returns_bind. intros l. apply returns_pure. intros d [= <-]. typed_members.
  - unfold status_route. apply returns_bind. intros st. apply returns_pure. apply status_typed.
  - unfold get_chain_route. apply returns_bind. intros st. apply returns_bind_with with (Q := Forall (typed BlockOut_model)).
    + apply returns_pure. intros ds. apply res_map_typed, block_to_out_typed.
    + intros ds Hds. apply returns_ret. unfold ChainOut. typed_members.
  - unfold get_block_route. walk_returns. apply returns_pure, block_to_out_typed.
  - unfold create_wallet. walk_returns. unfold WalletCreateResponse. typed_members.
  - unfold get_wallet_balance. walk_returns. unfold WalletBalanceResponse. typed_members.
  - unfold create_transaction, unprocessable. walk_returns. apply returns_pure, transaction_out_typed.
  - unfold submit_route, unprocessable. walk_returns. unfold TransactionSubmitResponse. typed_members.
  - apply returns_bind_with with (Q := Forall (typed TransactionOut_model)).
    + unfold get_pending_route. walk_returns. apply returns_pure. intros ds. apply res_map_typed, transaction_out_typed.
    + intros ds Hds. apply returns_ret. by apply conforms_objects.
  - unfold mine_route. destruct (negb _); [apply returns_raise|]. do 3 (apply returns_bind; intros).
    apply returns_bind_with with (Q := typed BlockOut_model).
    + apply returns_pure, block_to_out_typed.
    + intros d Hd. apply returns_ret. unfold MineResponse. typed_members.
  - unfold network_status. walk_returns. apply returns_pure, net_status_typed.
  - unfold list_peers_route. walk_returns. unfold PeerListResponse. typed_members.
    rewrite <-list_fmap_compose. apply conforms_list, Forall_forall. intros p _. apply peer_out_typed.
  - unfold register_peer_route. walk_returns; unfold PeerRegisterResponse; typed_members.
  - unfold issue_challenge. walk_returns. unfold PeerChallengeResponse. typed_members.
  - unfold authenticate_peer, not_authenticated, trust_peer. walk_returns; unfold PeerAuthenticateResponse; typed_members.
  - unfold network_chain. walk_returns. unfold NetworkChainResponse. typed_members.
  - unfold trigger_sync. walk_returns; apply sync_response_typed.
  - unfold receive_block_route. walk_returns. apply received_typed.
  - unfold receive_transaction_route. walk_returns. apply received_typed.
Qed.
End answers.

(** ** The state in the answers *)

(** A number without a fractional part, which the answers give as an integer. *)
Definition whole (n : pynum) : Prop := num_val n = num_int n * ticks.
Definition as_whole (n : pynum) : pynum := PInt (num_int n).

Definition shown_tx (tx : Transaction.t) : Transaction.t :=
  Transaction.Make (Transaction.sender tx) (Transaction.receiver tx) (Transaction.amount_base_units tx)
    (as_whole (Transaction.timestamp tx)) (Transaction.sender_public_key tx) (Transaction.signature tx)
    (Transaction.tx_hash tx).

Definition shown_block (b : Block.t) : Block.t :=
  Block.Make (Block.index b) (Block.previous_hash b) (shown_tx <$> Block.transactions b)
    (as_whole (Block.timestamp b)) (Block.nonce b) (Block.difficulty b) (Block.merkle_root b) (Block.hash b).

(** With a recorded hash, an amount within the supply and a whole timestamp. *)
Record tx_showable (tx : Transaction.t) : Prop := {
  ts_amount : 0 ≤ Transaction.amount_base_units tx ≤ MAX_SUPPLY_BASE_UNITS;
  ts_whole : whole (Transaction.timestamp tx);
  ts_hash : Transaction.tx_hash tx ≠ "";
}.

Record showable (b : Block.t) : Prop := {
  sh_merkle : Block.merkle_root b ≠ "";
  sh_hash : Block.hash b ≠ "";
  sh_whole : whole (Block.timestamp b);
  sh_transactions : Forall tx_showable (Block.transactions b);
}.

(** The text of the amount converts to the base units. *)
Definition amount_told (tx : Transaction.t) (d : py_dict) : Prop :=
  ∃ text, dict_get "amount" d = Some (JStr text) ∧
          to_base_units (AStr text) = Ok (Transaction.amount_base_units tx).

(** The answer reads back as the transaction, or the block, that it shows. *)
Definition tells_tx (tx : Transaction.t) (d : py_dict) : Prop :=
  (∀ clock, Transaction.from_dict clock d = Ok (shown_tx tx)) ∧ amount_told tx d.

Definition tells_block (b : Block.t) (d : py_dict) : Prop :=
  (∀ clock, Block.from_dict clock d = Ok (shown_block b)) ∧
  ∃ ds, dict_get "transactions" d = Some (JArr (JObj <$> ds)) ∧
        Forall2 amount_told (Block.transactions b) ds.

(** Only the genesis block and its transaction have floats: every other
    storable block is shown as it is. *)
Lemma shown_block_same b :
  Block.index b ≠ 0 → Block.storable b →
  Forall (λ tx, Transaction.sender tx ≠ GENESIS_SENDER) (Block.transactions b) →
  showable b ∧ shown_block b = b.
Proof.
  intros Hi (Hm & Hh & Ht & Htxs) Hg. destruct Ht as [?|[z Hz]]; [done|].
  assert (Hall : Forall (λ tx, tx_showable tx ∧ shown_tx tx = tx) (Block.transactions b)).
  { apply Forall_forall. intros tx Hin. rewrite Forall_forall in Htxs, Hg.
    destruct (Htxs tx Hin) as (Ha & [Hs|[t Ht]] & Hhash); [by destruct (Hg tx Hin)|].
    split; [split; [done| |done]; by rewrite Ht|]. unfold shown_tx. rewrite Ht. destruct tx. cbn in *. by subst. }
  split; [split; [done|done|by rewrite Hz|eapply Forall_impl; [exact Hall|by intros ? []]]|].
  unfold shown_block. rewrite Hz. replace (shown_tx <$> Block.transactions b) with (Block.transactions b).
  { destruct b. cbn in *. by subst. }
  clear -Hall. induction Hall as [|tx txs [_ Htx] _ IH]; [done|]. rewrite fmap_cons. by rewrite Htx, <-IH.
Qed.

Lemma int_field_whole n : whole n → int_field n = Ok (JNum (as_whole n)).
Proof.
  destruct n as [z|t]; [done|]. unfold whole. cbn [int_field num_val]. intros Ht.
  assert (t mod ticks = 0) as -> by (rewrite Ht; by apply Z.mod_mul). done.
Qed.

Lemma transaction_out_tells tx : tx_showable tx → ∃ d, transaction_out tx = Ok d ∧ tells_tx tx d.
Proof.
  intros [Ha Hw Hh]. destruct (amount_text_converts _ Ha) as (a & Hamount & Htext).
  unfold transaction_out, TransactionOut, Transaction.amount_syj. rewrite Hamount. cbn [mbind res_bind].
  rewrite (int_field_whole _ Hw). cbn [mbind res_bind]. eexists. split; [reflexivity|]. split.
  - intros clock. apply Transaction.from_dict_of_to_dict; [right; by eexists|done|].
    unfold Transaction.to_dict, Transaction.amount_syj. cbn. by rewrite Hamount.
  - eexists. by split.
Qed.

Lemma transactions_out_tell txs :
  Forall tx_showable txs → ∃ ds, res_map transaction_out txs = Ok ds ∧ Forall2 tells_tx txs ds.
Proof.
  induction 1 as [|tx txs Htx _ (ds & Hds & Hall)]; [by exists []|].
  destruct (transaction_out_tells tx Htx) as (d & Hd & Htell). exists (d :: ds).
  cbn [res_map]. rewrite Hd, Hds. split; [done|]. by constructor.
Qed.

Lemma block_to_out_tells b : showable b → ∃ d, block_to_out b = Ok d ∧ tells_block b d.
Proof.
  intros [Hm Hh Hw Htxs]. destruct (transactions_out_tell _ Htxs) as (ds & Hds & Htell).
  unfold block_to_out, BlockOut. rewrite Hds. cbn [mbind res_bind]. rewrite (int_field_whole _ Hw).
  cbn [mbind res_bind]. eexists. split; [reflexivity|]. split.
  - intros clock. set (d := [_; _; _; _; _; _; _; _]). unfold Block.from_dict, dict_index, dict_get_or.
    change (dict_get "transactions" d) with (Some (JArr (JObj <$> ds))).
    change (dict_get "index" d) with (Some (JNum (PInt (Block.index b)))).
    change (dict_get "previous_hash" d) with (Some (JStr (Block.previous_hash b))).
    change (dict_get "timestamp" d) with (Some (JNum (as_whole (Block.timestamp b)))).
    change (dict_get "nonce" d) with (Some (JNum (PInt (Block.nonce b)))).
    change (dict_get "difficulty" d) with (Some (JNum (PInt (Block.difficulty b)))).
    change (dict_get "merkle_root" d) with (Some (JStr (Block.merkle_root b))).
    change (dict_get "hash" d) with (Some (JStr (Block.hash b))).
    assert (Hfrom : res_map (λ tx, Block.as_obj "transactions" tx ≫= Transaction.from_dict clock) (JObj <$> ds) =
      Ok (shown_tx <$> Block.transactions b)).
    { clear -Htell. induction Htell as [|tx d txs ds [Hd _] _ IH]; [done|].
      rewrite !fmap_cons. cbn [res_map Block.as_obj mbind res_bind]. by rewrite Hd, IH. }
    cbn [Block.as_list mbind res_bind]. rewrite Hfrom.
    cbn [Block.as_int as_str Block.as_num py_int as_whole num_int num_val as_str_or_empty mbind res_bind].
    assert ((if Block.index b =? 0 then Ok (as_whole (Block.timestamp b))
             else PInt <$> Ok (num_int (Block.timestamp b))) = Ok (as_whole (Block.timestamp b))) as ->.
    { by destruct (Block.index b =? 0). }
    cbn [mbind res_bind]. unfold Block.init. by rewrite Block.post_init_recorded.
  - exists ds. split; [done|]. eapply Forall2_impl; [exact Htell|]. by intros tx d [_ ?].
Qed.

Lemma blocks_to_out_tell bs :
  Forall showable bs → ∃ ds, res_map block_to_out bs = Ok ds ∧ Forall2 tells_block bs ds.
Proof.
  induction 1 as [|b bs Hb _ (ds & Hds & Hall)]; [by exists []|].
  destruct (block_to_out_tells b Hb) as (d & Hd & Htell). exists (d :: ds).
  cbn [res_map]. rewrite Hd, Hds. split; [done|]. by constructor.
Qed.

Section reports.
Context `{E : ECDSA} {T : Type → Type} `{Sql T} {W : Type} `{World W}.
Context (cfg : NodeConfig) (body_size : py_dict → Z) (client : option string).
Implicit Types (s : app T W).

(** The node that an application serves. *)
Abbreviation served s := (blockchain (network s)).

(** C34: The routes that read the node report its state and leave it as it is.
    Let recorded hashes not be empty, amounts be within the supply and
    timestamps be whole numbers ([showable]), as in the default genesis block and
    in every storable block after a genesis block ([shown_block_same]).  Then
    GET /block/{index} answers with a body that [Block.from_dict] reads back as
    the block of that index, its timestamps as integers, or with 404 where there
    is none; GET /chain gives the length of the chain and, in order, a body for
    each block; GET /transactions/pending gives a body for each pending
    transaction, which [Transaction.from_dict] reads back; the texts of all
    amounts convert to the base units.  GET /wallet/{address} gives the balance
    of a well-formed address in base units, and as a text that converts to it. *)
Theorem answers_read_back s :
  (∀ index, match get_block_at index (served s) with
     | Some b => showable b → ∃ d, serve cfg body_size client (GetBlock index) s = (s, Ok (JObj d)) ∧ tells_block b d
     | None => ∃ m, serve cfg body_size client (GetBlock index) s = (s, Err (HTTPException 404 m))
     end) ∧
  (Forall showable (chain (served s)) →
   ∃ ds, serve cfg body_size client GetChain s =
       (s, Ok (JObj [("length", JNum (PInt (chain_len (served s)))); ("chain", JArr (JObj <$> ds))])) ∧
     Forall2 tells_block (chain (served s)) ds) ∧
  (Forall tx_showable (get_pending_transactions (served s)) →
   ∃ ds, serve cfg body_size client GetPending s = (s, Ok (JArr (JObj <$> ds))) ∧
     Forall2 tells_tx (get_pending_transactions (served s)) ds) ∧
  (∀ address, is_valid_address address = true →
   0 ≤ node_balance address (served s) ≤ MAX_SUPPLY_BASE_UNITS →
   ∃ text, serve cfg body_size client (GetWallet address) s =
       (s, Ok (JObj [("address", JStr address); ("balance", JStr text);
                     ("balance_base_units", JNum (PInt (node_balance address (served s))))])) ∧
     to_base_units (AStr text) = Ok (node_balance address (served s))).
Proof.
  split_and!.
  - intros index. destruct (get_block_at index (served s)) as [b|] eqn:Hb.
    + intros (d & Hd & Htell)%block_to_out_tells. exists d. split; [|done].
      cbn [serve]. unfold object, get_block_route, mbind, io_bind, gets, get_blockchain. by rewrite Hb, Hd.
    + eexists. cbn [serve]. unfold object, get_block_route, mbind, io_bind, gets, get_blockchain. by rewrite Hb.
  - intros (ds & Hds & Htell)%blocks_to_out_tell. exists ds. split; [|done].
    cbn [serve]. unfold object, get_chain_route, mbind, io_bind, gets, get_blockchain. by rewrite Hds.
  - intros (ds & Hds & Htell)%transactions_out_tell. exists ds. split; [|done].
    cbn [serve]. unfold get_pending_route, mbind, io_bind, gets, get_blockchain. by rewrite Hds.
  - intros address Haddr Hbal. destruct (amount_text_converts _ Hbal) as (a & Hamount & Htext).
    exists (Dec.to_string a). split; [|done].
    cbn [serve]. unfold object, get_wallet_balance. rewrite Haddr. cbn [negb].
    unfold mbind, io_bind, gets, get_blockchain, get_balance_syj. by rewrite Hamount.
Qed.
End reports.

(** ** Witnesses *)

#[local] Existing Instances ToyECDSA.ecdsa ToyECDSA.ecdsa_laws ListSql.sql ListSql.sql_laws.

Lemma block2_showable : showable block2 ∧ shown_block block2 = block2.
Proof.
  apply shown_block_same.
  - vm_compute. discriminate.
  - apply storable_check_sound. vm_compute. reflexivity.
  - apply (bool_decide_unpack _). vm_compute. exact I.
Qed.

Example genesis_showable : showable Samples.genesis_block.
Proof.
  split; [vm_compute; discriminate..|vm_compute; reflexivity|].
  apply Forall_singleton. split; [split; vm_compute; discriminate|vm_compute; reflexivity|vm_compute; discriminate].
Qed.

Lemma answers_read_back_witness :
  ∃ d, serve own_config (λ _, 0) None (GetBlock 2) serving_app = (serving_app, Ok (JObj d)) ∧
    ∀ clock, Block.from_dict clock d = Ok block2.
Proof.
  pose proof (proj1 (answers_read_back own_config (λ _, 0) None serving_app) 2) as Hshown.
  assert (Hb : get_block_at 2 (blockchain (network serving_app)) = Some block2) by (vm_compute; reflexivity).
  rewrite Hb in Hshown. destruct (Hshown (proj1 block2_showable)) as (d & Hd & Hread & _).
  exists d. split; [exact Hd|]. intros clock. rewrite (Hread clock). exact (f_equal Ok (proj2 block2_showable)).
Defined.

Definition shown_chain : json := Eval vm_compute in
  match (serve own_config (λ _, 0) None GetChain (sample_app None)).2 with Ok body => body | Err _ => JNull end.

Lemma answers_typed_witness : conforms ChainOut_model shown_chain = true.
Proof.
  assert (Hr : (serve own_config (λ _, 0) None GetChain (sample_app None)).2 = Ok shown_chain)
    by (vm_compute; reflexivity).
  exact (answers_typed own_config (λ _, 0) None GetChain _ _ _ (run_eq _ _ Hr)).
Defined.

(** A fractional timestamp, which only the genesis block can have, is no
    integer: the block is not shown. *)
Example fractional_block_not_shown :
  is_ok (block_to_out (Block.Make 0 "" [] (PFlt (1735689600 * ticks + 1)) 0 0 "" "")) = false.
Proof. reflexivity. Qed.
