(* ===== verification/Convergence.v ===== *)
(** * Two nodes: what one serves, the other adopts *)
From Stdlib Require Import Ascii.
From stdpp Require Import options.
From S2P Require Import Prelude PyText Json Utils NativeAsset Wallet Transaction Block Consensus Mempool.
From S2P Require Import Settings Samples Validators Sql Storage StorageFacts Blockchain BlockchainFacts.
From S2P Require Import RateLimit Handshake HandshakeFacts PeerStore Url AddressSecurity Peers Effects.
From S2P Require Import Network Propagation Sync NetworkSamples NetworkFacts Schemas NetworkRoutes Routes ApiFacts.

Local Open Scope Z_scope.
#[local] Set Default Proof Using "Type*".

Section convergence.
Context `{E : ECDSA} {T : Type → Type} {SQL : Sql T} {SL : SqlLaws T} {W : Type} {Wo : World W}.

Abbreviation net := (net T W).
Abbreviation app := (app T W).
Implicit Types (n : net) (s : app).
#[local] Existing Instance limited_preorder.

(** ** The serving node *)

Lemma chain_read_back c ds :
  Forall Block.storable c → res_map Block.to_dict c = Ok ds →
  ∀ clock, res_map (block_of_json clock) (JObj <$> ds) = Ok c.
Proof.
  intros Hst. revert ds. induction Hst as [|b c Hb _ IH]; intros ds; cbn [res_map].
  { by intros [= <-]. }
  destruct (Block.to_dict_reads_back b Hb) as (d & Hd & Hf).
  intros (d' & Hd' & (ds' & Hds & [= <-])%res_bind_Ok)%res_bind_Ok clock. rewrite Hd in Hd'. injection Hd' as <-.
  rewrite fmap_cons. cbn [res_map block_of_json]. by rewrite Hf, (IH _ Hds).
Qed.

(** What a request for the chain is answered with. *)
Lemma served_body cfg body_size client s s' body :
  serve cfg body_size client NetworkChain s = (s', Ok body) →
  ∃ ds, res_map Block.to_dict (chain (blockchain (network s))) = Ok ds ∧
    body = JObj (NetworkChainResponse (chain_len (blockchain (network s))) (total_work (blockchain (network s))) ds).
Proof.
  cbn [serve]. unfold object, network_chain. intros H. run_inv H. rename Hrun into Hn. run_inv Hn.
  rename Hrun into Hlimit, Hrun0 into Hds.
  pose proof (moves_run _ _ _ _ _ (enforce_limited _ _ _ _) Hlimit) as [_ [w Hw]].
  rewrite Hw in *. cbn [blockchain set_world] in *. case_match; [done|]. run_inv Hn. by eexists.
Qed.

(** ** The synchronising node *)

Section sync.
Context (cfg : NodeConfig).

Lemma now_runs n : now n = (set_world (time (world n)).1 n, Ok (time (world n)).2).
Proof. unfold now, draw. by destruct (time (world n)). Qed.

Lemma now_run n : ∃ w t, now n = (set_world w n, Ok t).
Proof. rewrite now_runs. by eexists _, _. Qed.

(** A run with the world left open. *)
Lemma fresh_eligible address n :
  health (peers n) !! normalize_address address = None →
  peer_eligible address n = (set_world (time (world n)).1 n, Ok true).
Proof.
  intros Hh. unfold peer_eligible. rewrite (bind_run _ _ _ _ _ (now_runs n)).
  unfold gets, is_eligible. cbn [peers set_world]. by rewrite Hh.
Qed.

Lemma add_stat_run key k n v :
  dict_get key (stats n) = Some v → add_stat key k n = (set_stats (dict_set key (v + k) (stats n)) n, Ok ()).
Proof. intros Hv. unfold add_stat, mbind, io_bind, gets. by rewrite Hv. Qed.

Lemma adopt_run address before candidate B k n :
  adoptable (node_settings cfg) (node_consensus cfg) candidate (blockchain n) B k →
  registry_wf (peers n) →
  ∃ n', adopt cfg address before candidate n =
      (n', Ok {| peer_address := address; accepted := true; reason := "";
                 local_length_before := before; local_length_after := Z.of_nat (length candidate) |}) ∧
    chain (blockchain n') = candidate ∧
    shows (take k (chain (blockchain n)) ++ drop k candidate) (storage (blockchain n')).
Proof.
  intros Had Hwf. unfold adopt. destruct (now_run n) as (w & t & Hn). rewrite (bind_run _ _ _ _ _ Hn).
  destruct (adoptable_accepted (node_settings cfg) (node_consensus cfg) t _ _ _ _ Had)
    as (st' & Hrep & Hchain & Hshows & _).
  assert (Hon : on_blockchain (replace_chain (node_settings cfg) (node_consensus cfg) t candidate) (set_world w n) =
    (set_blockchain st' (set_world w n), Ok accept)).
  { unfold on_blockchain, on. cbn [blockchain set_world]. by rewrite Hrep. }
  rewrite (bind_run _ _ _ _ _ Hon). cbn [refusal accept fst].
  destruct (peer_seen_runs address None (set_blockchain st' (set_world w n)) Hwf) as (n' & Hseen & _ & Hb).
  rewrite (bind_run _ _ _ _ _ Hseen). unfold mbind, io_bind, gets. exists n'.
  unfold blockchain_length, chain_len. rewrite Hb. cbn. by rewrite Hchain.
Qed.
(** The request that a synchronisation sends. *)
Definition chain_request (address : string) : HttpRequest :=
  {| method := "GET"; base_url := address; url_path := "/network/chain"; request_body := None;
     timeout := sync_timeout cfg |}.

Abbreviation policy := (P2PConfig.allow_private_peer_addresses (p2p cfg)).

Lemma get_chain_run address n body :
  (∀ w : W, validate_peer_address (getaddrinfo w) address policy = Ok accept) →
  (http (chain_request address) (world n)).2 = Response 200 (Ok (JObj body)) →
  get_chain cfg address n = (set_world (http (chain_request address) (world n)).1 n, Ok (Some (JObj body))).
Proof.
  intros Hv Hh. unfold get_chain, client_get, request.
  rewrite (bind_run _ _ _ _ _ (validate_target_run cfg _ n (Hv _))).
  unfold mbind at 1, io_bind at 1, draw. unfold chain_request in *.
  destruct (http _ (world n)) as [w a]. cbn in Hh. by subst a.
Qed.

Lemma candidate_read clock body ds c :
  Forall Block.storable c → res_map Block.to_dict c = Ok ds → c ≠ [] →
  Z.of_nat (length c) ≤ P2PConfig.max_sync_blocks (p2p cfg) →
  raw_chain (JObj (NetworkChainResponse (Z.of_nat (length c)) body ds)) = Ok (Some (JObj <$> ds)) ∧
  parse_candidate_chain clock (JObj <$> ds) (P2PConfig.max_sync_blocks (p2p cfg)) = Ok (inr c).
Proof.
  intros Hst Hds Hne Hmax. pose proof (chain_read_back _ _ Hst Hds clock) as Hread.
  assert (Hlen : length (JObj <$> ds) = length c).
  { rewrite length_fmap. apply res_map_Ok in Hds. by apply Forall2_length in Hds. }
  split.
  - unfold raw_chain, NetworkChainResponse. cbn. destruct ds as [|d ds]; [|done]. by destruct c.
  - unfold parse_candidate_chain. rewrite Hlen.
    destruct (Z.ltb_spec (P2PConfig.max_sync_blocks (p2p cfg)) (Z.of_nat (length c))); [lia|].
    by rewrite Hread.
Qed.
(** Where the request is made, and where the answer leaves the world. *)
Definition asked_in n : W := (time (world n)).1.
Definition answered_in address n : W := (http (chain_request address) (asked_in n)).1.

(** The run up to the answer. *)
Lemma sync_answered address n body v :
  (∀ w : W, validate_peer_address (getaddrinfo w) address policy = Ok accept) →
  (http (chain_request address) (asked_in n)).2 = Response 200 (Ok (JObj body)) →
  health (peers n) !! normalize_address address = None → dict_get "sync_attempts" (stats n) = Some v →
  sync_with_peer cfg address n =
    (raw ← pure (raw_chain (JObj body));
     match raw with
     | None => mret (unchanged address "Peer response did not contain a chain." (chain_len (blockchain n)))
     | Some raw_blocks =>
         clock ← now;
         candidate ← pure (parse_candidate_chain clock raw_blocks (P2PConfig.max_sync_blocks (p2p cfg)));
         match candidate with
         | inl reason => mret (unchanged address reason (chain_len (blockchain n)))
         | inr candidate => adopt cfg address (chain_len (blockchain n)) candidate
         end
     end) (set_stats (dict_set "sync_attempts" (v + 1) (stats n)) (set_world (answered_in address n) n)).
Proof.
  intros Haddr Hhttp Hhealth Hstat. unfold sync_with_peer. unfold mbind at 1, io_bind at 1, gets at 1.
  rewrite (bind_run _ _ _ _ _ (validate_target_run cfg _ n (Haddr _))).
  rewrite (bind_run _ _ _ _ _ (fresh_eligible address n Hhealth)). cbn [negb].
  rewrite (bind_run _ _ _ _ _ (get_chain_run address (set_world (asked_in n) n) _ Haddr Hhttp)).
  by rewrite (bind_run _ _ _ _ _ (add_stat_run "sync_attempts" 1 (set_world (answered_in address n) n) v Hstat)).
Qed.

(** A chain of another node that is answered with reaches its adoption. *)
Lemma sync_reaches_adoption address n c ds work v :
  (∀ w : W, validate_peer_address (getaddrinfo w) address policy = Ok accept) →
  (http (chain_request address) (asked_in n)).2 =
    Response 200 (Ok (JObj (NetworkChainResponse (Z.of_nat (length c)) work ds))) →
  Forall Block.storable c → res_map Block.to_dict c = Ok ds → c ≠ [] →
  health (peers n) !! normalize_address address = None → dict_get "sync_attempts" (stats n) = Some v →
  Z.of_nat (length c) ≤ P2PConfig.max_sync_blocks (p2p cfg) →
  sync_with_peer cfg address n = adopt cfg address (chain_len (blockchain n)) c
    (set_stats (dict_set "sync_attempts" (v + 1) (stats n))
       (set_world (time (answered_in address n)).1 n)).
Proof.
  intros Haddr Hhttp Hst Hds Hne Hhealth Hstat Hmax. rewrite (sync_answered address n _ v Haddr Hhttp Hhealth Hstat).
  destruct (candidate_read 0 work ds c Hst Hds Hne Hmax) as [-> _].
  rewrite pure_run. cbv iota. set (n1 := set_stats _ _). rewrite (bind_run _ _ _ _ _ (now_runs n1)).
  destruct (candidate_read (time (world n1)).2 work ds c Hst Hds Hne Hmax) as [_ ->].
  by rewrite pure_run.
Qed.

(** A peer that answers with a chain whose only block is no object. *)
Definition not_a_block : py_dict := [("chain", JArr [JNull])].

(** One peer stops the synchronisation with all: [sync_with_peer] catches
    three classes of exceptions, and a block that is no object raises a fourth.
    When the peer that is asked first answers so, the pass over all peers ends
    with that exception, no other peer is asked, and the chain stays as it is. *)
Theorem one_peer_stops_sync address rest n v :
  addresses (peers n) = address :: rest →
  (∀ w : W, validate_peer_address (getaddrinfo w) address policy = Ok accept) →
  (http (chain_request address) (asked_in n)).2 = Response 200 (Ok (JObj not_a_block)) →
  health (peers n) !! normalize_address address = None → dict_get "sync_attempts" (stats n) = Some v →
  0 < P2PConfig.max_sync_blocks (p2p cfg) →
  ∃ n', sync_with_all_peers cfg n = (n', Err (AttributeError "get")) ∧
    blockchain n' = blockchain n ∧ peers n' = peers n.
Proof.
  intros Hrest Haddr Hhttp Hhealth Hstat Hmax. unfold sync_with_all_peers.
  unfold mbind at 1, io_bind at 1, gets at 1. rewrite Hrest. cbn [collect].
  pose proof (sync_answered address n _ v Haddr Hhttp Hhealth Hstat) as Hrun.
  change (raw_chain (JObj not_a_block)) with (Ok (Some [JNull])) in Hrun. rewrite pure_run in Hrun.
  set (n1 := set_stats _ _) in Hrun. destruct (now_run n1) as (w' & t & Hn).
  rewrite (bind_run _ _ _ _ _ Hn) in Hrun.
  assert (Hp : parse_candidate_chain t [JNull] (P2PConfig.max_sync_blocks (p2p cfg)) = Err (AttributeError "get")).
  { unfold parse_candidate_chain. by rewrite (proj2 (Z.ltb_ge _ _)) by (cbn; lia). }
  rewrite Hp in Hrun. exists (set_world w' n1). split; [|done].
  unfold mbind, io_bind. by rewrite Hrun.
Qed.
End sync.

(** Nodes converge: when a node answers a request for its chain, and the
    answer reaches another node of the same genesis that has less work, asks
    within its limits and holds nothing against the address, a synchronisation
    of that node adopts the very chain the first one holds, in memory and in
    the database, and reports its length. *)
Theorem served_chain_adopted cfgA cfgB body_size client address sB sB' body n c v B k :
  serve cfgB body_size client NetworkChain sB = (sB', Ok body) →
  c = chain (blockchain (network sB)) → Forall Block.storable c →
  (http (chain_request cfgA address) (asked_in n)).2 = response (Ok body) →
  (∀ w : W, validate_peer_address (getaddrinfo w) address (P2PConfig.allow_private_peer_addresses (p2p cfgA)) =
     Ok accept) →
  health (peers n) !! normalize_address address = None → registry_wf (peers n) →
  dict_get "sync_attempts" (stats n) = Some v →
  Z.of_nat (length c) ≤ P2PConfig.max_sync_blocks (p2p cfgA) →
  adoptable (node_settings cfgA) (node_consensus cfgA) c (blockchain n) B k →
  ∃ n', sync_with_peer cfgA address n =
      (n', Ok {| peer_address := address; accepted := true; reason := "";
                 local_length_before := chain_len (blockchain n);
                 local_length_after := Z.of_nat (length c) |}) ∧
    chain (blockchain n') = c ∧
    shows (take k (chain (blockchain n)) ++ drop k c) (storage (blockchain n')).
Proof.
  intros Hserve Hc Hst Hhttp Haddr Hhealth Hwf Hstat Hmax Had.
  apply served_body in Hserve as (ds & Hds & ->). rewrite <-Hc in Hds. cbn [response] in Hhttp.
  assert (Hne : c ≠ []) by (intros ->; destruct (ad_genesis _ _ _ _ _ _ Had) as (? & ? & _ & ? & _); done).
  assert (chain_len (blockchain (network sB)) = Z.of_nat (length c)) as Hlen by (unfold chain_len; by rewrite <-Hc).
  rewrite Hlen in Hhttp.
  rewrite (sync_reaches_adoption cfgA address n c ds _ v Haddr Hhttp Hst Hds Hne Hhealth Hstat Hmax).
  exact (adopt_run cfgA address (chain_len (blockchain n)) c B k
           (set_stats (dict_set "sync_attempts" (v + 1) (stats n))
              (set_world (time (answered_in cfgA address n)).1 n)) Had Hwf).
Qed.
End convergence.

(** ** Witnesses *)

#[local] Existing Instances ToyECDSA.ecdsa ToyECDSA.ecdsa_laws ListSql.sql ListSql.sql_laws.

(** The answer of the node with three blocks. *)
Definition served : json := Eval vm_compute in
  match (serve own_config no_size None NetworkChain serving_app).2 with Ok body => body | Err _ => JNull end.

(** A world whose only peer is that node. *)
#[local] Instance one_peer : World N := {
  time w := (w, Z.of_N w * ticks + 3407872);
  urandom k w := (w, repeat 5 k);
  signing_nonce w := (w, 0);
  new_key w := (w, 9);
  new_uuid w := (w, "node");
  http _ w := (w, response (Ok served));
  getaddrinfo _ _ := GaiError;
}.

Definition behind : Network.net ListSql.t N :=
  {| world := 1735700100%N; blockchain := node_of short_chain; peers := no_peers;
     replay_cache := ReplayCache.init 10; seen_blocks := BoundedSet.init SEEN_CACHE_SIZE;
     seen_transactions := BoundedSet.init SEEN_CACHE_SIZE; stats := initial_stats; lifecycle := RUNNING |}.

Definition serving : NetworkRoutes.app ListSql.t N :=
  App {| world := 1735700100%N; blockchain := node_of sample_chain; peers := no_peers;
         replay_cache := ReplayCache.init 10; seen_blocks := BoundedSet.init SEEN_CACHE_SIZE;
         seen_transactions := BoundedSet.init SEEN_CACHE_SIZE; stats := initial_stats; lifecycle := RUNNING |}
    None [].

Lemma sample_adoptable : adoptable sample_settings pow sample_chain (node_of short_chain) 5000000000 2.
Proof.
  constructor.
  - vm_compute. reflexivity.
  - exact sample_is_valid.
  - vm_compute. reflexivity.
  - exists Samples.genesis_block, Samples.genesis_block. auto.
  - apply node_matches; vm_compute; reflexivity.
  - vm_compute. auto.
  - vm_compute. auto.
  - apply insertables_check_sound. vm_compute. reflexivity.
  - apply short_bound.
  - vm_compute. discriminate.
  - vm_compute. reflexivity.
  - constructor.
Qed.

Lemma sample_storable : Forall Block.storable sample_chain.
Proof.
  repeat (apply Forall_cons_2 || apply Forall_nil_2).
  all: split; [vm_compute; discriminate|]; split; [vm_compute; discriminate|].
  all: split; [first [left; reflexivity | right; eexists; vm_compute; reflexivity]|].
  all: repeat (apply Forall_cons_2 || apply Forall_nil_2).
  all: split; [split; vm_compute; discriminate|]; split; [|vm_compute; discriminate].
  all: first [left; vm_compute; reflexivity | right; eexists; vm_compute; reflexivity].
Qed.

Lemma served_chain_adopted_witness :
  ∃ n', sync_with_peer own_config other_address behind =
      (n', Ok {| peer_address := other_address; accepted := true; reason := "";
                 local_length_before := 2; local_length_after := 3 |}) ∧
    chain (blockchain n') = sample_chain ∧
    shows (take 2 short_chain ++ drop 2 sample_chain) (storage (blockchain n')).
Proof.
  refine (served_chain_adopted own_config own_config no_size None other_address serving
    (serve own_config no_size None NetworkChain serving).1 served behind sample_chain 0 5000000000 2
    _ _ _ _ _ _ _ _ _ _).
  - assert (Hr : (serve own_config no_size None NetworkChain serving).2 = Ok served) by (vm_compute; reflexivity).
    exact (run_eq _ _ Hr).
  - reflexivity.
  - exact sample_storable.
  - reflexivity.
  - intros w. vm_compute. reflexivity.
  - reflexivity.
  - exact empty_peer_wf.
  - reflexivity.
  - vm_compute. discriminate.
  - exact sample_adoptable.
Defined.

(** A world whose only peer answers with no block. *)
Definition spoiler : HttpAnswer := Response 200 (Ok (JObj not_a_block)).
#[local] Instance one_spoiler : World nat := {
  time w := (w, Z.of_nat w);
  urandom k w := (w, repeat 5 k);
  signing_nonce w := (w, 0);
  new_key w := (w, 9);
  new_uuid w := (w, "node");
  http _ w := (w, spoiler);
  getaddrinfo _ _ := GaiError;
}.

Definition spoiled : Network.net ListSql.t nat :=
  {| world := 5%nat; blockchain := node_of short_chain;
     peers := Registry (peer_db (register (registry_settings own_config) other_address None 5 no_peers).1) ∅;
     replay_cache := ReplayCache.init 10; seen_blocks := BoundedSet.init SEEN_CACHE_SIZE;
     seen_transactions := BoundedSet.init SEEN_CACHE_SIZE; stats := initial_stats; lifecycle := RUNNING |}.

Lemma one_peer_stops_sync_witness :
  ∃ n', sync_with_all_peers own_config spoiled = (n', Err (AttributeError "get")) ∧
    blockchain n' = blockchain spoiled ∧ peers n' = peers spoiled.
Proof.
  refine (one_peer_stops_sync own_config other_address [] spoiled 0 _ _ _ _ _ _).
  - vm_compute. reflexivity.
  - intros w. vm_compute. reflexivity.
  - reflexivity.
  - vm_compute. reflexivity.
  - reflexivity.
  - vm_compute. reflexivity.
Defined.
