(* ===== verification/Delivery.v ===== *)
(** * Two nodes on the wire: what one sends, the other serves

    The world of a node is here another node's whole application: a request to
    its address is decoded and served by it, everything else is the world that
    both are in.  A handshake over this wire makes the one trusted by the other,
    a block that is mined or broadcast ends up in the other's chain and database,
    and a node that is behind synchronises to the very chain of the other.  The
    wire carries bodies of any size: the limit of [Middleware] is left out. *)
From Stdlib Require Import Ascii.
From stdpp Require Import options.
From S2P Require Import Prelude PyText Json Utils NativeAsset Wallet Sha256 Transaction Block Consensus Mempool.
From S2P Require Import Settings Samples Validators Sql Storage StorageFacts Blockchain BlockchainFacts.
From S2P Require Import RateLimit Handshake HandshakeFacts PeerStore Url AddressSecurity Peers Effects.
From S2P Require Import Network Propagation Sync NetworkSamples NetworkFacts PropagationFacts Schemas NetworkRoutes.
From S2P Require Import Routes Requests ApiFacts Convergence.

Local Open Scope Z_scope.
#[local] Set Default Proof Using "Type*".

(** ** The receiving node *)

Section receiver.
Context `{L : ECDSALaws} {T : Type → Type} {SQL : Sql T} {SL : SqlLaws T} {W : Type} {Wo : World W}.
Context (cfg : NodeConfig).

Abbreviation net := (net T W).
Abbreviation app := (app T W).
Implicit Types (n : net) (s : app) (st : node T) (block : Block.t).
#[local] Existing Instances after_append_preorder only_authenticated_preorder limited_preorder same_blockchain_preorder.

(** A block that fits on the chain of a node whose database agrees with it. *)
Record appendable block st (B : Z) : Prop := {
  ap_storable : Block.storable block;
  ap_tip : ∃ tip, latest_block st = Ok tip ∧ Block.index block = Block.index tip + 1;
  ap_matches : matches (chain st) (storage st);
  ap_indexed : indexed_from 0 (chain st ++ [block]);
  ap_insertable : insertable (chain st) block;
  ap_bound : ∀ a, Z.abs (full_ledger a (chain st)) ≤ B;
  ap_volume : B + volume (Block.transactions block) < 2 ^ 63;
}.

(** It is also accepted by the validation. *)
Record deliverable block st (B : Z) : Prop := {
  dv_fits : appendable block st B;
  dv_valid : validate_block_against_chain block (chain st) (node_consensus cfg)
    (consensus_settings (node_settings cfg)) (block_reward (mining_settings (node_settings cfg)))
    MAX_SUPPLY_BASE_UNITS = Ok accept;
}.

(** The chain and the database with the block. *)
Definition extended_by block st st' : Prop :=
  chain st' = chain st ++ [block] ∧ shows (chain st ++ [block]) (storage st').

Lemma append_received_runs block st B :
  deliverable block st B → ∃ st', append_received cfg block st = (st', Ok None) ∧ extended_by block st st'.
Proof.
  intros [[_ (tip & Htip & Hindex) Hm Hi Hins HB Hvol] Hv]. unfold append_received.
  rewrite Htip, Hindex, Z.eqb_refl. cbn [negb]. rewrite Hv. cbn [accept negb].
  destruct (save_and_update_ok _ _ _ _ Hm Hins HB Hvol) as (db1 & db2 & Hs & Hu & Hm').
  cbn [storage set_chain]. rewrite Hs, Hu. eexists. split; [reflexivity|]. split; [done|]. by apply matches_shows.
Qed.

Lemma indexed_snoc k (c : list Block.t) block : indexed_from k (c ++ [block]) → Block.index block = k + Z.of_nat (length c).
Proof.
  revert k. induction c as [|b c IH]; intros k; cbn [Datatypes.app indexed_from length]; [lia|].
  intros [_ Hc]. rewrite (IH _ Hc). lia.
Qed.

Lemma not_at_tip block st : indexed_from 0 (chain st ++ [block]) → get_block_at (Block.index block) st = None.
Proof.
  intros Hi%indexed_snoc. unfold get_block_at, chain_len.
  by rewrite (proj2 (Z.ltb_ge (Block.index block) _)), andb_false_r by lia.
Qed.

Lemma take_block_appends block from_peer n B :
  deliverable block (blockchain n) B → BoundedSet.contains (seen_blocks n) (Block.hash block) = false →
  extended_by block (blockchain n) (blockchain (take_block cfg block from_peer n).1).
Proof.
  intros Hd Hseen. unfold take_block. unfold mbind at 1, io_bind at 1, gets at 1. rewrite Hseen.
  unfold mbind at 1, io_bind at 1, gets at 1. rewrite (not_at_tip _ _ (ap_indexed _ _ _ (dv_fits _ _ _ Hd))).
  cbn [fmap option_fmap option_map]. rewrite bool_decide_eq_false_2 by done.
  unfold mbind at 1, io_bind at 1, see_block, modify. set (n1 := set_seen_blocks _ n).
  destruct (append_received_runs block (blockchain n) B Hd) as (st' & Hr & Hext).
  assert (Hon : on_blockchain (append_received cfg block) n1 = (set_blockchain st' n1, Ok None)).
  { unfold on_blockchain, on. cbn [blockchain n1 set_seen_blocks]. by rewrite Hr. }
  rewrite (bind_run _ _ _ _ _ Hon). cbv beta iota.
  lazymatch goal with |- extended_by _ _ (blockchain (?rest _).1) =>
    assert (Hrest : moves after_append rest) end.
  { apply moves_bind; [apply _|apply record_propagation_after|]. intros _.
    apply moves_bind; [apply _|apply sender_seen_after|]. intros _. apply moves_ret. apply _. }
  destruct (Hrest (set_blockchain st' n1)) as [Hq _]. exact (eq_ind_r (extended_by _ _) Hext Hq).
Qed.

(** ** What the receiver has to know of the sender *)

(** A sender with a generated identity on the same network. *)
Record genuine (context : AuthContext) (id : string) (k : Z) : Prop := {
  gn_identity : P2PIdentity.generate id k = Ok (identity context);
  gn_key : 0 < k < SECP256K1_ORDER;
  gn_name : id ≠ "";
  gn_network : same_network context (auth_context cfg);
}.

(** Its address was authenticated under its name and key. *)
Record known_as (address id : string) (context : AuthContext) (known : registry T) : Prop := {
  kn_address : address ≠ "";
  kn_credential : ∃ c, get_peer_credential address (peer_db known) = Some c ∧ cr_node_id c = id ∧
    cr_public_key_hex c = P2PIdentity.public_key_hex (identity context);
}.

Lemma built_identity context payload clock entropy rnd envelope :
  build_auth_envelope context payload clock entropy rnd = Ok envelope →
  dict_get "node_id" envelope = Some (JStr (P2PIdentity.node_id (identity context))) ∧
  dict_get "public_key" envelope = Some (JStr (P2PIdentity.public_key_hex (identity context))).
Proof.
  unfold build_auth_envelope. intros (fields & _ & (sig & _ & [= <-])%res_bind_Ok)%res_bind_Ok. done.
Qed.

Lemma authenticate_runs id k context payload clock entropy rnd address n :
  genuine context id k → known_as address id context (peers n) → entropy ≠ [] →
  Z.abs ((time (world n)).2 - clock) ≤ P2PConfig.auth_freshness_window_seconds (p2p cfg) →
  BoundedSet.contains (replay_cache n) (ReplayCache.key id (Sha.hex entropy)) = false →
  ∃ envelope, build_auth_envelope context payload clock entropy rnd = Ok envelope ∧
    auth_get "node_id" (Some envelope) = JStr id ∧
    (authenticate_request cfg (Some (JObj envelope)) payload (Some address) n).2 = Ok accept.
Proof.
  intros [Hi Hk Hid Hnet] [Haddr (c & Hc & Hnode & Hkey)] Hent Hclock Hnew.
  destruct (built_accepted id k context (auth_context cfg) payload clock (time (world n)).2
    (P2PConfig.auth_freshness_window_seconds (p2p cfg)) entropy rnd (replay_cache n))
    as (envelope & Hb & Hv); [done..|].
  destruct (built_identity _ _ _ _ _ _ Hb) as [He1 He2].
  destruct (generate_key_pair id k _ Hi Hk) as (Hgen & _). rewrite Hgen in He1.
  exists envelope. split; [done|]. split; [unfold auth_get, dict_get_or; by rewrite He1|].
  unfold authenticate_request, claimed. destruct (String.eqb_spec address ""); [done|].
  unfold mbind, io_bind, gets, now, draw, on. destruct (time (world n)) as [w t]. cbn in Hv |- *.
  rewrite Hc, Hv. cbn. unfold other_identity. rewrite (dict_index_get _ _ _ He1), (dict_index_get _ _ _ He2).
  cbn. by rewrite Hnode, Hkey, !String.eqb_refl.
Qed.

(** A block in the dictionary that its sender made of it. *)
Lemma receive_block_appends block d address envelope n B :
  (∀ clock, Block.from_dict clock d = Ok block) →
  deliverable block (blockchain n) B → BoundedSet.contains (seen_blocks n) (Block.hash block) = false →
  (authenticate_request cfg (Some (JObj envelope)) (Some d) (Some address) n).2 = Ok accept →
  extended_by block (blockchain n) (blockchain (receive_block cfg d (Some address) (Some (JObj envelope)) n).1).
Proof.
  intros Hread Hd Hseen Hauth. unfold receive_block.
  destruct (authenticate_request cfg (Some (JObj envelope)) (Some d) (Some address) n) as [n1 r] eqn:Hrun.
  cbn in Hauth. subst r.
  pose proof (moves_run _ _ _ _ _ (authenticate_moves _ _ _ _) Hrun) as (Hb & _ & Hs & _).
  rewrite (bind_run _ _ _ _ _ Hrun). cbn [refusal accept fst].
  destruct (now_run n1) as (w & t & Hnow). rewrite (bind_run _ _ _ _ _ Hnow).
  unfold parse. rewrite Hread, pure_run. cbv iota.
  rewrite <-Hb in Hd |- *. rewrite <-Hs in Hseen. exact (take_block_appends block (Some address) (set_world w n1) B Hd Hseen).
Qed.

(** ** The route *)

(** What is passed on afterwards does not touch the chain. *)
Lemma received_keeps_chain o (rebroadcast : io net (list string)) :
  moves same_blockchain rebroadcast → moves (λ s s', same_blockchain (network s) (network s')) (received o rebroadcast).
Proof.
  intros Hm s. unfold received. destruct o as [[accepted reason] again].
  destruct (accepted && again); [|reflexivity].
  unfold mbind, io_bind, on_network, on. specialize (Hm (network s)).
  destruct (rebroadcast (network s)) as [n' [a|e]]; exact Hm.
Qed.

(** The rate limit goes by the name in the envelope. *)
Lemma named_key envelope id hint :
  auth_get "node_id" (Some envelope) = JStr id → id ≠ "" → py_or (auth_get "node_id" (Some envelope)) hint = JStr id.
Proof. intros -> Hid. unfold py_or. cbn [truthy]. by destruct (String.eqb_spec id ""). Qed.

Lemma receive_block_route_appends block d address envelope id client s B :
  (∀ clock, Block.from_dict clock d = Ok block) →
  deliverable block (blockchain (network s)) B →
  BoundedSet.contains (seen_blocks (network s)) (Block.hash block) = false →
  auth_get "node_id" (Some envelope) = JStr id → id ≠ "" →
  0 < RateLimiter.remaining id (limiter_of cfg "expensive" 1 s) →
  (authenticate_request cfg (Some (JObj envelope)) (Some d) (Some address)
     (set_world (time (world (network s))).1 (network s))).2 = Ok accept →
  extended_by block (blockchain (network s)) (blockchain (network
    (receive_block_route cfg (BlockReceiveRequest.Make d (Some address) (Some envelope)) client s).1)).
Proof.
  intros Hread Hd Hseen Hname Hid Hleft Hauth. unfold receive_block_route.
  cbn [BlockReceiveRequest.auth BlockReceiveRequest.from_peer BlockReceiveRequest.block].
  rewrite (named_key envelope id (opt_str_json (Some address)) Hname Hid).
  destruct (enforce_runs cfg client "expensive" 1 id s eq_refl Hid Hleft) as (s1 & Hlimit & _ & Hn & _).
  rewrite (bind_run _ _ _ _ _ Hlimit). change (validate_message_type _ _) with (Ok tt). rewrite pure_run.
  rewrite <-Hn in Hauth.
  assert (blockchain (network s) = blockchain (network s1)) as Hb by by rewrite Hn.
  assert (seen_blocks (network s) = seen_blocks (network s1)) as Hs by by rewrite Hn.
  rewrite Hb in Hd |- *. rewrite Hs in Hseen.
  pose proof (receive_block_appends block d address envelope (network s1) B Hread Hd Hseen Hauth) as Hext.
  unfold mbind, io_bind, on_network at 1, on at 1. cbn [auth_json fmap option_fmap option_map].
  destruct (receive_block _ _ _ _ (network s1)) as [n' [o|e]]; cbn [fst] in Hext; [|exact Hext].
  lazymatch goal with |- extended_by _ _ (blockchain (network (received o ?m _).1)) =>
    assert (Hm : moves same_blockchain m) end.
  { apply moves_bind; [apply _|apply draw_moves; [apply _|apply quiet_blockchain]|intros t].
    apply moves_bind; [apply _|apply moves_pure; apply _|intros b].
    apply broadcast_block_moves; [apply _|apply quiet_blockchain]. }
  pose proof (received_keeps_chain o _ Hm (set_network n' s1)) as Hq. unfold same_blockchain in Hq. cbn [network set_network] in Hq.
  exact (eq_ind_r (extended_by _ _) Hext Hq).
Qed.

(** ** A challenge is issued *)

Definition turn (w : W) : W := (time w).1.
Definition challenge_entropy (w : W) : list Z := (urandom 24 (turn w)).2.
Definition issue_time (w : W) : Z := (time (urandom 24 (turn w)).1).2.
Definition issued_in (w : W) : W := turn (urandom 24 (turn w)).1.

Lemma issue_challenge_runs id client s :
  id ≠ "" → 0 < RateLimiter.remaining id (limiter_of cfg "moderate" 2 s) →
  ChallengeFacts.wf (get_challenge_store cfg s) →
  Z.of_nat (length (ChallengeStore.order (get_challenge_store cfg s))) <
    ChallengeStore.max_size (get_challenge_store cfg s) →
  let w := world (network s) in
  ∃ s', issue_challenge cfg id client s =
      (s', Ok (PeerChallengeResponse (Sha.hex (challenge_entropy w)) CHALLENGE_TTL)) ∧
    network s' = set_world (issued_in w) (network s) ∧
    dict_get id (ChallengeStore.challenges (get_challenge_store cfg s')) =
      Some (Sha.hex (challenge_entropy w), issue_time w) ∧
    ChallengeStore.ttl (get_challenge_store cfg s') = ChallengeStore.ttl (get_challenge_store cfg s) ∧
    RateLimiter.remaining id (limiter_of cfg "moderate" 2 s) - 1 ≤
      RateLimiter.remaining id (limiter_of cfg "moderate" 2 s').
Proof.
  intros Hid Hleft Hwf Hroom w. unfold issue_challenge.
  destruct (enforce_runs cfg client "moderate" 2 id s eq_refl Hid Hleft) as (s1 & Hlimit & Hc & Hn & Hrem).
  rewrite (bind_run _ _ _ _ _ Hlimit).
  assert (Hstore : get_challenge_store cfg s1 = get_challenge_store cfg s) by (unfold get_challenge_store; by rewrite Hc).
  assert (Hent : draw (urandom 24) (network s1) =
    (set_world (urandom 24 (turn w)).1 (network s), Ok (challenge_entropy w))).
  { rewrite Hn. unfold draw. cbn [world set_world]. unfold challenge_entropy, turn. fold w.
    by destruct (urandom 24 (time w).1). }
  rewrite (on_network_bind _ _ _ _ _ Hent). set (s2 := set_network _ s1).
  assert (Hnow : now (network s2) = (set_world (issued_in w) (network s), Ok (issue_time w))).
  { unfold now, draw, issued_in, issue_time. cbn [network s2 set_network world set_world].
    unfold turn. by destruct (time (urandom 24 (time w).1).1). }
  rewrite (on_network_bind _ _ _ _ _ Hnow). set (s3 := set_network _ s2).
  rewrite <-Hstore in Hwf, Hroom.
  destruct (ChallengeFacts.issue_with_room id (issue_time w) (challenge_entropy w) _ Hwf Hroom) as (o & Hissue).
  change (get_challenge_store cfg s1) with (get_challenge_store cfg s3) in Hissue.
  rewrite (on_challenges_bind _ _ _ _ _ _ Hissue).
  eexists. split; [reflexivity|]. split; [done|]. split; [|split; [|exact Hrem]].
  - unfold get_challenge_store at 1. cbn. by rewrite dict_get_set, decide_True.
  - unfold get_challenge_store at 1. cbn. by rewrite <-Hstore.
Qed.
End receiver.

(** ** The wire *)

Section wire.
Context `{L : ECDSALaws} {T : Type → Type} {SQL : Sql T} {SL : SqlLaws T} {W : Type} {Wo : World W}.
Context `{PL : PydanticLaws} `{EW : Elsewhere (app T W)}.
Context (cfgA cfgB : NodeConfig) (body_size : py_dict → Z) (client : option string) (addressB : string).

(** The other node's application, in its world. *)
Abbreviation peer := (app T W).
Abbreviation net := (net T peer).
Implicit Types (n : net) (b : peer).
#[local] Existing Instance same_blockchain_preorder.

Definition put_world (w : W) b : peer := set_network (set_world w (network b)) b.

(** A reading of the world that both are in. *)
Definition outside {A} (f : W → W * A) b : peer * A := (put_world (f (world (network b))).1 b, (f (world (network b))).2).

(** What the other node answers. *)
Definition answer (r : HttpRequest) b : peer * HttpAnswer :=
  match decode r with
  | Some request => let run := serve cfgB body_size client request b in (run.1, response run.2)
  | None => elsewhere r b
  end.

Definition wire : World peer := {|
  time := outside time;
  urandom k := outside (urandom k);
  signing_nonce := outside signing_nonce;
  new_key := outside new_key;
  new_uuid := outside new_uuid;
  http r := if String.eqb (base_url r) addressB then answer r else outside (http r);
  getaddrinfo b := getaddrinfo (world (network b));
|}.
#[local] Existing Instance wire.

(** The state of a node whose peer is [b]. *)
Abbreviation facing b n := (set_world b n).

(** The draws of a node whose world is the peer. *)
Abbreviation after f n := (facing (put_world (f (world (network (world n)))).1 (world n)) n).
Abbreviation drawn f n := (f (world (network (world n)))).2.

Lemma now_facing n : now n = (after time n, Ok (drawn time n)).
Proof. done. Qed.
Lemma urandom_facing k n : draw (urandom k) n = (after (urandom k) n, Ok (drawn (urandom k) n)).
Proof. done. Qed.
Lemma nonce_facing n : draw signing_nonce n = (after signing_nonce n, Ok (drawn signing_nonce n)).
Proof. done. Qed.

(** The chain of the peer. *)
Definition peer_chain n : node T := blockchain (network (world n)).

Definition same_served : relation net := λ n n', peer_chain n' = peer_chain n.

#[local] Instance same_served_preorder : PreOrder same_served.
Proof. unfold same_served. split; [done|]. intros ???. congruence. Qed.

Lemma now_served : moves same_served now.
Proof. intros n. reflexivity. Qed.

Lemma peer_seen_served address id : moves same_served (peer_seen (T := T) address id).
Proof. unfold peer_seen. walk_moves; [apply now_served|]. apply moves_on; [apply _|done]. Qed.

Lemma peer_failed_served address : moves same_served (peer_failed (T := T) address).
Proof. unfold peer_failed. walk_moves; [apply now_served|]. apply moves_on; [apply _|done]. Qed.

Lemma record_propagation_served kind x y : moves same_served (record_propagation (T := T) kind x y).
Proof. unfold record_propagation, add_stat. walk_moves; apply moves_modify; try apply _; done. Qed.

(** *** An envelope on its way

    The clock is read once before the envelope is built, once for it, once by
    the rate limit of the receiver and once by its check of the envelope. *)
Definition envelope_time (w : W) : Z := (time (turn w)).2.
Definition entropy_drawn (w : W) : list Z := (urandom 16 (turn (turn w))).2.
Definition nonce_drawn (w : W) : Z := (signing_nonce (urandom 16 (turn (turn w))).1).2.
Definition sent_in (w : W) : W := (signing_nonce (urandom 16 (turn (turn w))).1).1.
Definition arrival_time (w : W) : Z := (time (turn (sent_in w))).2.

Record in_time (id : string) b : Prop := {
  it_clock : Z.abs (arrival_time (world (network b)) - envelope_time (world (network b))) ≤
    P2PConfig.auth_freshness_window_seconds (p2p cfgB);
  it_entropy : entropy_drawn (world (network b)) ≠ [];
  it_fresh : BoundedSet.contains (replay_cache (network b))
    (ReplayCache.key id (Sha.hex (entropy_drawn (world (network b))))) = false;
  it_target : validate_peer_address (getaddrinfo (sent_in (world (network b)))) addressB
    (P2PConfig.allow_private_peer_addresses (p2p cfgA)) = Ok accept;
}.

(** *** A message on the wire *)

Abbreviation allow_private := (P2PConfig.allow_private_peer_addresses (p2p cfgA)).

(** The request is the other node's to serve, and a body it returns the
    client's to read. *)
Lemma client_post_served t path d q n :
  validate_peer_address (getaddrinfo (world (network (world n)))) addressB allow_private = Ok accept →
  decode {| method := "POST"; base_url := addressB; url_path := path; request_body := Some (JObj d); timeout := t |} =
    Some q →
  let run := serve cfgB body_size client q (world n) in
  (client_post cfgA t addressB path d n).1 = facing run.1 n ∧
  ∀ body, run.2 = Ok body → client_post cfgA t addressB path d n = (facing run.1 n, Ok (some_json body)).
Proof.
  intros Hv Hq run. unfold client_post, request.
  pose proof (validate_target_run (Wo := wire) cfgA addressB n Hv) as Htarget.
  rewrite (bind_run _ _ _ _ _ Htarget). cbv iota.
  unfold mbind, io_bind, draw. cbn [http wire base_url]. rewrite String.eqb_refl.
  unfold answer. rewrite Hq. fold run. split.
  - destruct run as [b [body|[]]]; cbn; try done; by case_match.
  - intros body Hbody. destruct run as [b r]. cbn in Hbody |- *. by subst r.
Qed.

(** *** A block on the wire *)

Abbreviation send d := (λ address envelope, send_block cfgA address d (own_address cfgA) envelope).

Lemma send_block_served d envelope n :
  validate_peer_address (getaddrinfo (world (network (world n)))) addressB allow_private = Ok accept →
  peer_chain (send_block cfgA addressB d (own_address cfgA) envelope n).1 =
  blockchain (network (receive_block_route cfgB
    (BlockReceiveRequest.Make d (Some (own_address cfgA)) (Some envelope)) client (world n)).1).
Proof.
  intros Hv. set (q := ReceiveBlock (BlockReceiveRequest.Make d (Some (own_address cfgA)) (Some envelope))).
  destruct (client_post_served (propagation_timeout cfgA) "/network/blocks/receive"
    (block_message d (own_address cfgA) envelope) q n Hv) as [Hrun _].
  { eapply decode_posted; [reflexivity|by repeat constructor|reflexivity]. }
  unfold send_block, peer_chain. rewrite Hrun. cbn [world set_world].
  unfold q. cbn [serve]. unfold object, mbind, io_bind.
  destruct (receive_block_route _ _ _ _) as [b [a|e]]; done.
Qed.

(** The peer of a node is alone in its registry, trusted and in good standing. *)
Record only_peer (known : registry T) : Prop := {
  op_addresses : addresses known = [addressB];
  op_trusted : is_peer_trusted addressB (peer_db known) = true;
  op_health : health known !! normalize_address addressB = None;
}.

(** What the peer must find for its sender to be heard, and the block to be taken. *)
Record welcome_sender id k b : Prop := {
  ws_genuine : genuine cfgB (auth_context cfgA) id k;
  ws_known : known_as (own_address cfgA) id (auth_context cfgA) (peers (network b));
  ws_in_time : in_time id b;
  ws_limit : 0 < RateLimiter.remaining id (limiter_of cfgB "expensive" 1 b);
}.

Record welcome_block block id k b (B : Z) : Prop := {
  wb_sender : welcome_sender id k b;
  wb_unseen : BoundedSet.contains (seen_blocks (network b)) (Block.hash block) = false;
  wb_fits : deliverable cfgB block (blockchain (network b)) B;
}.

(** A turn of the broadcast loop sends an envelope that the peer accepts; what
    holds of the peer after that holds after the turn. *)
Lemma broadcast_to_sends d send_it (Q : node T → Prop) id k n :
  let w := world (network (world n)) in
  only_peer (peers n) → welcome_sender id k (world n) →
  (∀ envelope, auth_get "node_id" (Some envelope) = JStr id →
     (authenticate_request cfgB (Some (JObj envelope)) (Some d) (Some (own_address cfgA))
        (set_world (turn (sent_in w)) (network (world n)))).2 = Ok accept →
     Q (peer_chain (send_it addressB envelope (facing (put_world (sent_in w) (world n)) n)).1)) →
  Q (peer_chain (broadcast_to cfgA d send_it None addressB n).1).
Proof.
  intros w [_ Htrusted Hhealth] [Hgen Hknown [Hclock Hent Hfresh Htarget] Hlimit] Hsend.
  unfold broadcast_to. rewrite bool_decide_eq_false_2 by done.
  unfold mbind at 1, io_bind at 1, gets at 1, is_trusted_peer at 1. rewrite Htrusted. cbn [negb].
  assert (Helig : peer_eligible addressB n = (facing (put_world (turn w) (world n)) n, Ok true)).
  { unfold peer_eligible. rewrite (bind_run _ _ _ _ _ (now_facing n)).
    unfold gets, is_eligible. cbn [peers set_world]. by rewrite Hhealth. }
  rewrite (bind_run _ _ _ _ _ Helig). cbn [negb].
  destruct (authenticate_runs cfgB id k (auth_context cfgA) (Some d) (envelope_time w) (entropy_drawn w)
    (nonce_drawn w) (own_address cfgA) (set_world (turn (sent_in w)) (network (world n))))
    as (envelope & Hbuilt & Hname & Hauth); [done..|].
  assert (Henv : auth_envelope cfgA (Some d) (facing (put_world (turn w) (world n)) n) =
    (facing (put_world (sent_in w) (world n)) n, Ok envelope)).
  { unfold auth_envelope. rewrite (bind_run _ _ _ _ _ (now_facing _)).
    rewrite (bind_run _ _ _ _ _ (urandom_facing 16 _)), (bind_run _ _ _ _ _ (nonce_facing _)).
    unfold pure. by rewrite <-Hbuilt. }
  rewrite (bind_run _ _ _ _ _ Henv). specialize (Hsend envelope Hname Hauth).
  unfold mbind at 1, io_bind at 1. destruct (send_it addressB envelope _) as [n2 [[a|]|e]]; cbn [fst] in Hsend; [| |exact Hsend].
  - lazymatch goal with |- Q (peer_chain (?m n2).1) => assert (Hm : moves same_served m) end.
    { apply moves_bind; [apply _|apply peer_seen_served|intros _; apply moves_ret; apply _]. }
    exact (eq_ind_r Q Hsend (Hm n2)).
  - lazymatch goal with |- Q (peer_chain (?m n2).1) => assert (Hm : moves same_served m) end.
    { apply moves_bind; [apply _|apply peer_failed_served|intros _; apply moves_ret; apply _]. }
    exact (eq_ind_r Q Hsend (Hm n2)).
Qed.

Lemma collect_one {S A B} (body : A → io S (list B)) a (s : S) :
  collect body [a] s =
  match body a s with (s', Ok bs) => (s', Ok (bs ++ [])) | (s', Err e) => (s', Err e) end.
Proof. cbn. unfold mbind, io_bind. by destruct (body a s) as [s' [bs|e]]. Qed.

(** The loop over the only peer, with the count of the messages. *)
Lemma broadcast_loop_sends d send_it kind (Q : node T → Prop) n :
  Q (peer_chain (broadcast_to cfgA d send_it None addressB n).1) →
  Q (peer_chain ((acknowledged ← collect (broadcast_to cfgA d send_it None) [addressB];
                  _ ← record_propagation kind (Z.of_nat (length acknowledged)) 0;
                  mret acknowledged) n).1).
Proof.
  intros Hsent. unfold mbind at 1, io_bind at 1. rewrite collect_one.
  destruct (broadcast_to _ _ _ _ _ n) as [n2 [a|e]]; cbn [fst] in Hsent; [|exact Hsent].
  lazymatch goal with |- Q (peer_chain (?m n2).1) => assert (Hm : moves same_served m) end.
  { apply moves_bind; [apply _|apply record_propagation_served|intros _; apply moves_ret; apply _]. }
  exact (eq_ind_r Q Hsent (Hm n2)).
Qed.

(** A block that is broadcast reaches its peer: a node with a generated
    identity broadcasts a block to its one trusted peer, which has the sender's
    credential and is on the same network; the clocks agree within the window of
    freshness, the nonce is new, the sender has a request left, and the block
    fits on the peer's chain.  Then, whatever comes of the broadcast, at its end
    the chain of the peer is the one it had with the block, and so its database
    shows. *)
Theorem broadcast_reaches_peer block id k n B :
  only_peer (peers n) → welcome_block block id k (world n) B →
  extended_by block (peer_chain n) (peer_chain (broadcast_block cfgA block None n).1).
Proof.
  intros Hpeer [Hsender Hunseen Hfits]. destruct (Block.to_dict_reads_back block) as (d & Hd & Hread).
  { exact (ap_storable _ _ _ (dv_fits _ _ _ _ Hfits)). }
  unfold broadcast_block. unfold mbind at 1, io_bind at 1, modify. set (n1 := set_seen_blocks _ n).
  rewrite Hd, pure_run. unfold mbind at 1, io_bind at 1, gets at 1.
  change (addresses (peers n1)) with (addresses (peers n)). rewrite (op_addresses _ Hpeer).
  apply broadcast_loop_sends.
  apply (broadcast_to_sends d (send d) _ id k n1 Hpeer Hsender). intros envelope Hname Hauth. cbv beta.
  set (n2 := facing _ n1). rewrite (send_block_served d envelope n2 (it_target _ _ (ws_in_time _ _ _ Hsender))).
  exact (receive_block_route_appends cfgB block d (own_address cfgA) envelope id client (world n2) B
    Hread Hfits Hunseen Hname (gn_name _ _ _ _ (ws_genuine _ _ _ Hsender)) (ws_limit _ _ _ Hsender) Hauth).
Qed.

(** *** A handshake on the wire

    The peer reads the clock for the limit, draws the challenge and reads the
    clock again; the node draws its envelope; the peer reads the clock for the
    limit and for the check. *)
Definition response_in (w : W) : W :=
  (signing_nonce (signing_nonce (urandom 16 (turn (issued_in w))).1).1).1.
Definition check_time (w : W) : Z := (time (turn (response_in w))).2.

(** What the peer must find for the handshake to succeed. *)
Record welcome_peer id k b : Prop := {
  wp_genuine : genuine cfgB (auth_context cfgA) id k;
  wp_limit : 1 < RateLimiter.remaining id (limiter_of cfgB "moderate" 2 b);
  wp_store : ChallengeFacts.wf (get_challenge_store cfgB b);
  wp_room : Z.of_nat (length (ChallengeStore.order (get_challenge_store cfgB b))) <
    ChallengeStore.max_size (get_challenge_store cfgB b);
  wp_entropy : challenge_entropy (world (network b)) ≠ [];
  wp_time : check_time (world (network b)) - issue_time (world (network b)) ≤
    ChallengeStore.ttl (get_challenge_store cfgB b);
  wp_registry : registry_wf (peers (network b));
  wp_address : ∀ w : W, validate_peer_address (getaddrinfo w) (advertised_address (auth_context cfgA))
    (P2PConfig.allow_private_peer_addresses (p2p cfgB)) = Ok accept;
  wp_target : ∀ w : W, validate_peer_address (getaddrinfo w) addressB allow_private = Ok accept;
}.

Lemma handshake_envelope_facing challenge n :
  let w := turn (world (network (world n))) in
  let w' := (urandom 16 w).1 in
  handshake_envelope cfgA challenge n =
  (facing (put_world (signing_nonce (signing_nonce w').1).1 (world n)) n,
   build_handshake_envelope (auth_context cfgA) challenge (drawn time n) (urandom 16 w).2 (signing_nonce w').2
     (signing_nonce (signing_nonce w').1).2).
Proof.
  intros w w'. unfold handshake_envelope. rewrite (bind_run _ _ _ _ _ (now_facing _)).
  rewrite (bind_run _ _ _ _ _ (urandom_facing 16 _)), !(bind_run _ _ _ _ _ (nonce_facing _)). done.
Qed.

(** C15: The handshake works over the wire: a node with a generated identity runs
    it against a peer of the same network, which has two requests of that name
    left, a place for the challenge and accepts the address, before the
    challenge expires.  It succeeds, and at its end the peer trusts the address
    under the name and key of the node, and no other address because of it. *)
Theorem handshake_over_wire id k n :
  own_id cfgA = id → welcome_peer id k (world n) →
  ∃ n', perform_handshake cfgA addressB n = (n', Ok accept) ∧
    now_trusts (network (world n)) (network (world n')) (advertised_address (auth_context cfgA)) id
      (P2PIdentity.public_key_hex (identity (auth_context cfgA))) ∧
    peer_chain n' = peer_chain n.
Proof.
  intros Hown [[Hi Hk Hid Hnet] Hlimit Hstore Hroom Hent Htime Hwf Haddr Htarget].
  set (b := world n) in *. set (w := world (network b)) in *.
  destruct (issue_challenge_runs cfgB id client b Hid) as (b1 & Hissue & Hn1 & Hpending & Httl & Hleft);
    [lia|done|done|].
  set (challenge := Sha.hex (challenge_entropy w)) in *.
  (** The challenge. *)
  destruct (client_post_served (propagation_timeout cfgA) "/network/peers/challenge" (challenge_message id)
    (IssueChallenge id) n (Htarget _)) as [_ Hask].
  { eapply decode_posted; [reflexivity|by repeat constructor|reflexivity]. }
  specialize (Hask (JObj (PeerChallengeResponse challenge CHALLENGE_TTL))).
  cbn [serve] in Hask. unfold object, mbind, io_bind, mret, io_ret in Hask. fold b in Hask. rewrite Hissue in Hask. cbn [fst snd] in Hask.
  specialize (Hask eq_refl). unfold perform_handshake, request_challenge. rewrite Hown.
  rewrite (bind_run _ _ _ _ _ Hask). cbn [some_json].
  change (json_get "challenge" _) with (Ok (JStr challenge)). rewrite pure_run.
  assert (truthy (JStr challenge) = true) as ->.
  { unfold challenge. by destruct (challenge_entropy w) as [|x l]. }
  cbn [negb].
  (** The envelope. *)
  destruct (built_handshake id k (auth_context cfgA) challenge (time (issued_in w)).2
    (urandom 16 (turn (issued_in w))).2 (signing_nonce (urandom 16 (turn (issued_in w))).1).2
    (signing_nonce (signing_nonce (urandom 16 (turn (issued_in w))).1).1).2 Hi Hk) as (sig & Hbuilt & Hver).
  set (envelope := signed_handshake _ _ _ _ sig) in *.
  pose proof (handshake_envelope_facing (JStr challenge) (facing b1 n)) as Henv. cbv zeta in Henv.
  cbn [world set_world] in Henv. rewrite Hn1 in Henv. cbn [world set_world] in Henv. fold w in Henv.
  rewrite Hbuilt in Henv. rewrite (bind_run _ _ _ _ _ Henv).
  set (b2 := put_world _ b1) in *.
  (** Its check. *)
  assert (0 < RateLimiter.remaining id (limiter_of cfgB "moderate" 2 b2)) as Hleft2.
  { change (limiter_of cfgB "moderate" 2 b2) with (limiter_of cfgB "moderate" 2 b1). lia. }
  destruct (enforce_runs cfgB client "moderate" 2 id b2 eq_refl Hid Hleft2) as (b3 & Henforce & _ & Hn3 & _).
  destruct (signed_handshake_runs cfgB id k (auth_context cfgA) challenge _ _ sig (issue_time w) client b2 b3
    Hi Hk Hid Hnet Hver) as (b4 & Hauth & Htrust & Hchain); [done|done| |done| |].
  { rewrite Hn3. change (get_challenge_store cfgB b2) with (get_challenge_store cfgB b1). rewrite Httl. exact Htime. }
  { cbn. by rewrite Hn1. }
  destruct (client_post_served (propagation_timeout cfgA) "/network/peers/authenticate"
    (authentication_message envelope) (AuthenticatePeer envelope) (facing b2 (facing b1 n)) (Htarget _)) as [_ Hreply].
  { eapply decode_posted; [reflexivity|by repeat constructor|reflexivity]. }
  specialize (Hreply (JObj (welcome cfgB))). cbn [serve] in Hreply. unfold object, mbind, io_bind, mret, io_ret in Hreply.
  cbn [world set_world] in Hreply. fold envelope in Hauth. rewrite Hauth in Hreply. specialize (Hreply eq_refl).
  unfold authenticate_with. rewrite (bind_run _ _ _ _ _ Hreply). cbn [some_json].
  change (json_get "authenticated" _) with (Ok (JBool true)). rewrite pure_run. cbn [truthy negb].
  eexists. split; [reflexivity|]. unfold peer_chain. cbn [world set_world fst].
  assert (network b2 = set_world (response_in w) (network b)) as Hb2 by (cbn; by rewrite Hn1).
  rewrite Hb2 in Htrust, Hchain. done.
Qed.

(** *** A mined block on the wire *)

Implicit Type a : NetworkRoutes.app T peer.

(** What [mine] has put on the chain was accepted there. *)
Lemma mined_accepted settings consensus clock addr st st' block :
  mine_pending_transactions settings consensus clock addr st = (st', Ok block) →
  validate_block_against_chain block (chain st) consensus (config settings) (reward settings) (max_supply settings) =
    Ok accept ∧ chain st' = chain st ++ [block].
Proof.
  unfold mine_pending_transactions. destruct (mine_prepare settings consensus clock addr st) as [[b hs]|]; [|done].
  unfold mine_commit. destruct (validate_block_against_chain b _ _ _ _ _) as [[[] r]|] eqn:Hv; cbn [negb]; [|done..].
  apply block_verdict_true in Hv as Hr. subst r.
  destruct (save_block b _); [|done]. destruct (update_balances_for_block b _) as [db [[]|]]; [|done].
  intros [= <- <-]. done.
Qed.

(** The run of [best_effort], whatever comes of it. *)
Lemma best_effort_state {A} (m : io net A) a : (best_effort (on_network m) a).1 = set_network (m (network a)).1 a.
Proof.
  unfold best_effort, attempt, on_network, on, mbind, io_bind.
  destruct (m (network a)) as [n [x|e]]; [done|]. cbn. by destruct e.
Qed.

(** C12: A block mined on request reaches both chains: a node whose one trusted
    peer is in good standing, has the same chain and the same settings answers
    [/mine] for a well-formed address, and mining gives a block.  The peer hears
    the node ([welcome_sender]): the node's identity is generated and its network
    the peer's, the peer holds its credential under its address, name and key,
    the clocks agree within the window of freshness, the nonce is new, a request
    is left, and the peer's address is an accepted target; the peer has not seen
    the block; and the block is [appendable] there: storable, next after the tip,
    over a database that holds the peer's chain, with fresh keys, 64-bit numbers,
    a timestamp that a double holds, and balances below 2^63.  Then the mined
    block is on the node's chain, and whatever comes of the rest of the answer,
    on the chain of the peer and in its database; the two chains are still the
    same. *)
Theorem mined_block_spreads miner id k a st' block B :
  is_valid_address miner = true →
  mine_pending_transactions (node_settings cfgA) (node_consensus cfgA) (time (world (network a))).2 miner
    (blockchain (network a)) = (st', Ok block) →
  chain (blockchain (network a)) = chain (peer_chain (network a)) →
  node_settings cfgB = node_settings cfgA → node_consensus cfgB = node_consensus cfgA →
  max_supply (node_settings cfgA) = MAX_SUPPLY_BASE_UNITS →
  only_peer (peers (network a)) → welcome_sender id k (asked_in (network a)) →
  BoundedSet.contains (seen_blocks (network (asked_in (network a)))) (Block.hash block) = false →
  appendable block (peer_chain (network a)) B →
  ∃ a' r, mine_route cfgA miner a = (a', r) ∧
    chain (blockchain (network a')) = chain (blockchain (network a)) ++ [block] ∧
    extended_by block (peer_chain (network a)) (peer_chain (network a')).
Proof.
  intros Hminer Hmine Hsame Hsettings Hconsensus Hcap Hpeer Hsender Hunseen Hfits.
  set (n := network a) in *. set (b := asked_in n) in *.
  destruct (mined_accepted _ _ _ _ _ _ _ Hmine) as [Hvalid Hchain].
  unfold mine_route. rewrite Hminer. cbn [negb].
  rewrite (on_network_bind _ _ _ _ _ (now_facing n)).
  set (a1 := set_network _ a).
  set (n2 := set_blockchain st' (facing b n)).
  assert (Hattempt : attempt (on_network (on_blockchain (mine_pending_transactions (node_settings cfgA)
      (node_consensus cfgA) (time (world n)).2 miner))) mining_failed a1 = (set_network n2 a1, Ok block)).
  { unfold attempt, on_network, on_blockchain, on. cbn [network a1 set_network blockchain set_world]. by rewrite Hmine. }
  rewrite (bind_run _ _ _ _ _ Hattempt).
  set (a2 := set_network n2 a1).
  assert (Hrest : ∃ r, (_ ← best_effort (on_network (broadcast_block cfgA block None));
    out ← pure (block_to_out block); mret (MineResponse out)) a2 =
    ((best_effort (on_network (broadcast_block cfgA block None)) a2).1, r)).
  { unfold mbind, io_bind, pure. destruct (best_effort _ a2) as [a3 [u|e]]; [|by eexists].
    by destruct (block_to_out block); eexists. }
  destruct Hrest as [r ->]. eexists _, r. split; [reflexivity|]. rewrite best_effort_state. cbn [network set_network a2].
  split.
  - pose proof (broadcast_block_moves (Wo := wire) cfgA same_blockchain quiet_blockchain block None n2) as Hkept.
    unfold same_blockchain in Hkept. rewrite Hkept. exact Hchain.
  - apply (broadcast_reaches_peer block id k n2 B Hpeer). split; [exact Hsender|exact Hunseen|].
    split; [exact Hfits|]. rewrite Hsettings, Hconsensus. rewrite Hcap, Hsame in Hvalid. exact Hvalid.
Qed.

(** *** A synchronisation on the wire *)

(** What the peer must have for its chain to be served, to a client that names
    nothing. *)
Record serves_chain b : Prop := {
  sc_storable : Forall Block.storable (chain (blockchain (network b)));
  sc_limit : ∃ key, rate_key client JNull = Ok key ∧
    0 < RateLimiter.remaining key (limiter_of cfgB "expensive" 1 b);
  sc_size : ∀ ds, res_map Block.to_dict (chain (blockchain (network b))) = Ok ds →
    body_size (NetworkChainResponse (chain_len (blockchain (network b))) (total_work (blockchain (network b))) ds)
      ≤ P2PConfig.max_chain_sync_bytes (p2p cfgB);
}.

Lemma chain_served b :
  serves_chain b → ∃ ds b', res_map Block.to_dict (chain (blockchain (network b))) = Ok ds ∧
    serve cfgB body_size client NetworkChain b =
      (b', Ok (JObj (NetworkChainResponse (chain_len (blockchain (network b))) (total_work (blockchain (network b))) ds))) ∧
    blockchain (network b') = blockchain (network b).
Proof.
  intros [Hst (key & Hkey & Hleft) Hsize].
  destruct (enforce_hint_runs cfgB client "expensive" 1 JNull key b eq_refl Hkey Hleft) as (b1 & Hlimit & _ & Hn & _).
  assert (blockchain (network b1) = blockchain (network b)) as Hb by by rewrite Hn.
  assert (∃ ds, res_map Block.to_dict (chain (blockchain (network b))) = Ok ds) as [ds Hds].
  { clear -Hst. induction Hst as [|block c Hblock _ [ds Hds]]; [by eexists|].
    destruct (Block.to_dict_reads_back block Hblock) as (d & Hd & _). cbn. rewrite Hd, Hds. by eexists. }
  exists ds, b1. split; [done|]. split; [|done].
  cbn [serve]. unfold object, network_chain.
  assert (Hrun : network_chain cfgB body_size client b =
    (b1, Ok (NetworkChainResponse (chain_len (blockchain (network b))) (total_work (blockchain (network b))) ds))).
  { unfold network_chain. rewrite (bind_run _ _ _ _ _ Hlimit).
    unfold mbind at 1, io_bind at 1, gets at 1. rewrite Hb, Hds, pure_run. cbv zeta.
    specialize (Hsize ds Hds). by rewrite (proj2 (Z.ltb_ge _ _) Hsize). }
  unfold network_chain in Hrun. by rewrite (bind_run _ _ _ _ _ Hrun).
Qed.

Lemma adopt_served address before candidate : moves same_served (adopt (T := T) cfgA address before candidate).
Proof.
  unfold adopt. walk_moves; try apply now_served; try apply peer_seen_served; try apply peer_failed_served.
  all: try (apply moves_on; [apply _|done]).
Qed.

(** C11: Nodes converge over the wire: a node synchronises with a peer that
    serves its chain (its blocks are storable, the asking client has a request
    left and the body is within the peer's limit), which is no longer than the
    node admits; the peer's address is a target the node accepts, without
    failures recorded, and the node's registry and counters are as it keeps
    them.  The chain of the peer is [adoptable]: valid, of the same genesis hash
    and with more work; the node's database holds its chain ([matches]), no hash
    is in its pool twice, both chains are numbered from zero, the blocks from the
    fork on have fresh keys, 64-bit numbers and timestamps that a double holds,
    and the balances stay below 2^63.  The node then accepts, reports the length
    of the peer's chain and holds that very chain in memory, and the peer keeps
    its own, so that the two chains are the same.  The node's database keeps its
    own rows of the blocks before the fork, which the two share by hash, followed
    by the peer's blocks; where the former are the same blocks it shows the
    peer's chain. *)
Theorem sync_over_wire n v B k :
  serves_chain (world n) →
  (∀ w : W, validate_peer_address (getaddrinfo w) addressB allow_private = Ok accept) →
  health (peers n) !! normalize_address addressB = None → registry_wf (peers n) →
  dict_get "sync_attempts" (stats n) = Some v →
  chain_len (peer_chain n) ≤ P2PConfig.max_sync_blocks (p2p cfgA) →
  adoptable (node_settings cfgA) (node_consensus cfgA) (chain (peer_chain n)) (blockchain n) B k →
  ∃ n', sync_with_peer cfgA addressB n =
      (n', Ok {| Sync.peer_address := addressB; accepted := true; reason := "";
                 local_length_before := chain_len (blockchain n);
                 local_length_after := chain_len (peer_chain n) |}) ∧
    chain (blockchain n') = chain (peer_chain n') ∧ peer_chain n' = peer_chain n ∧
    shows (take k (chain (blockchain n)) ++ drop k (chain (peer_chain n))) (storage (blockchain n')) ∧
    (take k (chain (blockchain n)) = take k (chain (peer_chain n)) →
     shows (chain (peer_chain n)) (storage (blockchain n'))).
Proof.
  intros [Hst Hlimit Hsize] Htarget Hhealth Hwf Hstat Hmax Had.
  set (b := put_world (turn (world (network (world n)))) (world n)).
  destruct (chain_served b) as (ds & b' & Hds & Hserve & Hchain).
  { split; [exact Hst|exact Hlimit|exact Hsize]. }
  assert (Hhttp : http (chain_request cfgA addressB) (asked_in n) = (b', Response 200 (Ok (JObj
    (NetworkChainResponse (chain_len (peer_chain n)) (total_work (peer_chain n)) ds))))).
  { change (asked_in n) with b. cbn [http wire base_url chain_request]. rewrite String.eqb_refl.
    unfold answer. change (decode _) with (Some NetworkChain). cbv iota zeta.
    by rewrite Hserve. }
  assert (Hne : chain (peer_chain n) ≠ []).
  { intros He. destruct (ad_genesis _ _ _ _ _ _ Had) as (? & ? & _ & Hg & _). by rewrite He in Hg. }
  pose proof (sync_reaches_adoption (Wo := wire) cfgA addressB n (chain (peer_chain n)) ds _ v (λ b, Htarget _)
    (f_equal snd Hhttp) Hst Hds Hne Hhealth Hstat Hmax) as Hrun.
  set (n1 := set_stats _ _) in Hrun.
  destruct (adopt_run (Wo := wire) cfgA addressB (chain_len (blockchain n)) (chain (peer_chain n)) B k n1 Had Hwf)
    as (n' & Hadopt & Hc & Hshows).
  pose proof (moves_run _ _ _ _ _ (adopt_served _ _ _) Hadopt) as Hserved.
  assert (peer_chain n1 = peer_chain n) as Hn1.
  { change (peer_chain n1) with (blockchain (network (answered_in cfgA addressB n))).
    unfold answered_in. rewrite Hhttp. exact Hchain. }
  exists n'. rewrite Hrun. split; [exact Hadopt|]. rewrite Hserved, Hn1. split; [exact Hc|]. split; [done|].
  split; [exact Hshows|]. intros Heq. by eapply shows_shared.
Qed.
End wire.

(** ** Witnesses *)

#[local] Existing Instances ToyECDSA.ecdsa ToyECDSA.ecdsa_laws ListSql.sql ListSql.sql_laws.
#[local] Existing Instances StrictValidator.pydantic StrictValidator.laws NothingElse.elsewhere.

(** The sender, known under [other_address], and the address of its peer. *)
Definition sender_config : NodeConfig := {|
  node_settings := sample_settings;
  node_consensus := pow;
  own_id := "peer";
  own_address := other_address;
  auth_context := peer_context;
  registry_settings := registry_config other_address "peer" 8;
|}.
Definition peer_address : string := "http://10.0.0.3:8000".

(** The registry of a node that trusts its one peer. *)
Definition trusting_peer : registry ListSql.t :=
  let known := (register (registry_settings sender_config) peer_address (Some "node") 5 no_peers).1 in
  match upsert_peer_credential peer_address "node" (P2PIdentity.public_key_hex (identity (auth_context own_config)))
          true 5 (peer_db known) with
  | Ok db => Registry db ∅
  | Err _ => known
  end.

Definition on_wire (c : list Block.t) (known : registry ListSql.t) (b : NetworkRoutes.app ListSql.t toy_world)
    : Network.net ListSql.t (NetworkRoutes.app ListSql.t toy_world) :=
  {| world := b; blockchain := node_of c; peers := known;
     replay_cache := ReplayCache.init 10; seen_blocks := BoundedSet.init SEEN_CACHE_SIZE;
     seen_transactions := BoundedSet.init SEEN_CACHE_SIZE; stats := initial_stats; lifecycle := RUNNING |}.

(** The peer, which trusts the sender and lacks the last block. *)
Definition receiving_app : NetworkRoutes.app ListSql.t toy_world := App receiving None [].

Lemma sender_genuine : genuine own_config peer_context "peer" 7.
Proof. split; [vm_compute; reflexivity|split; vm_compute; reflexivity|discriminate|split; reflexivity]. Qed.

Lemma block2_storable : Block.storable block2.
Proof. exact (Forall_lookup_1 _ _ 2%nat _ sample_storable eq_refl). Qed.

Lemma block2_deliverable : deliverable own_config block2 (node_of short_chain) 5000000000.
Proof.
  constructor; [constructor|vm_compute; reflexivity].
  - exact block2_storable.
  - eexists. split; [reflexivity|]. vm_compute. reflexivity.
  - apply node_matches; vm_compute; reflexivity.
  - vm_compute. auto.
  - apply insertable_check_sound. vm_compute. reflexivity.
  - apply short_bound.
  - vm_compute. reflexivity.
Qed.

Lemma block2_welcome : welcome_block sender_config own_config peer_address block2 "peer" 7 receiving_app 5000000000.
Proof.
  constructor; [constructor| |].
  - exact sender_genuine.
  - split; [vm_compute; discriminate|]. eexists. split; [vm_compute; reflexivity|]. split; reflexivity.
  - split; [vm_compute; discriminate|vm_compute; discriminate|vm_compute; reflexivity|vm_compute; reflexivity].
  - vm_compute. reflexivity.
  - vm_compute. reflexivity.
  - exact block2_deliverable.
Qed.

Lemma broadcast_reaches_peer_witness :
  extended_by block2 (node_of short_chain)
    (peer_chain (broadcast_block (H0 := wire own_config no_size None peer_address) sender_config block2 None
                   (on_wire sample_chain trusting_peer receiving_app)).1).
Proof.
  refine (broadcast_reaches_peer sender_config own_config no_size None peer_address block2 "peer" 7
    (on_wire sample_chain trusting_peer receiving_app) 5000000000 _ block2_welcome).
  constructor; vm_compute; reflexivity.
Defined.

(** The peer before any handshake. *)
Definition stranger_app : NetworkRoutes.app ListSql.t toy_world := App (sample_net short_chain no_peers []) None [].

Lemma handshake_over_wire_witness :
  ∃ n', perform_handshake (H0 := wire own_config no_size None peer_address) sender_config peer_address
      (on_wire sample_chain no_peers stranger_app) = (n', Ok accept) ∧
    now_trusts (network stranger_app) (network (world n')) other_address "peer"
      (P2PIdentity.public_key_hex (toy_identity "peer" 7)) ∧
    peer_chain n' = node_of short_chain.
Proof.
  refine (handshake_over_wire sender_config own_config no_size None peer_address "peer" 7 (on_wire sample_chain no_peers stranger_app) eq_refl _).
  constructor.
  - exact sender_genuine.
  - vm_compute. reflexivity.
  - split; [constructor|split; [set_solver|vm_compute; discriminate]].
  - vm_compute. reflexivity.
  - vm_compute. discriminate.
  - vm_compute. discriminate.
  - exact empty_peer_wf.
  - intros w. vm_compute. reflexivity.
  - intros w. vm_compute. reflexivity.
Defined.

(** The peer whose chain is longer. *)
Definition ahead_app : NetworkRoutes.app ListSql.t toy_world := App (sample_net sample_chain no_peers []) None [].

Lemma sync_over_wire_witness :
  ∃ n', sync_with_peer (H0 := wire own_config no_size None peer_address) sender_config peer_address
      (on_wire short_chain no_peers ahead_app) =
      (n', Ok {| Sync.peer_address := peer_address; accepted := true; reason := "";
                 local_length_before := 2; local_length_after := 3 |}) ∧
    chain (blockchain n') = chain (peer_chain n') ∧ peer_chain n' = node_of sample_chain ∧
    shows (take 2 short_chain ++ drop 2 sample_chain) (storage (blockchain n')) ∧
    (take 2 short_chain = take 2 sample_chain → shows sample_chain (storage (blockchain n'))).
Proof.
  refine (sync_over_wire sender_config own_config no_size None peer_address
    (on_wire short_chain no_peers ahead_app) 0 5000000000 2 _ _ _ _ _ _ _).
  - split; [exact sample_storable| |].
    + exists "unknown". split; vm_compute; reflexivity.
    + intros ds _. vm_compute. discriminate.
  - intros w. vm_compute. reflexivity.
  - reflexivity.
  - exact empty_peer_wf.
  - reflexivity.
  - vm_compute. discriminate.
  - exact sample_adoptable.
Defined.

(** A node that mines on the chain it shares with its peer. *)
Definition mining_app : NetworkRoutes.app ListSql.t (NetworkRoutes.app ListSql.t toy_world) :=
  App (on_wire short_chain trusting_peer receiving_app) None [].

Definition after_mining : node ListSql.t * res Block.t :=
  mine_pending_transactions sample_settings pow
    (time (World := wire own_config no_size None peer_address) (world (network mining_app))).2 alice
    (blockchain (network mining_app)).
Definition newly_mined : Block.t := Eval vm_compute in
  match after_mining.2 with Ok block => block | Err _ => block2 end.

Lemma mined_appendable : appendable newly_mined (node_of short_chain) 5000000000.
Proof.
  constructor.
  - split; [vm_compute; discriminate|]. split; [vm_compute; discriminate|]. split; [right; eexists; vm_compute; reflexivity|].
    constructor; [|constructor]. split; [split; vm_compute; discriminate|].
    split; [|vm_compute; discriminate]. right. eexists. vm_compute. reflexivity.
  - eexists. split; [reflexivity|]. vm_compute. reflexivity.
  - apply node_matches; vm_compute; reflexivity.
  - vm_compute. auto.
  - apply insertable_check_sound. vm_compute. reflexivity.
  - apply short_bound.
  - vm_compute. reflexivity.
Qed.

Lemma mined_block_spreads_witness :
  ∃ a' r, mine_route (H0 := wire own_config no_size None peer_address) sender_config alice mining_app = (a', r) ∧
    chain (blockchain (network a')) = short_chain ++ [newly_mined] ∧
    extended_by newly_mined (node_of short_chain) (peer_chain (network a')).
Proof.
  refine (mined_block_spreads sender_config own_config no_size None peer_address alice "peer" 7 mining_app after_mining.1
    newly_mined 5000000000 _ _ eq_refl eq_refl eq_refl eq_refl _ _ _ mined_appendable).
  - vm_compute. reflexivity.
  - assert (Hr : after_mining.2 = Ok newly_mined) by (vm_compute; reflexivity). exact (run_eq _ _ Hr).
  - constructor; vm_compute; reflexivity.
  - constructor; [exact sender_genuine| | |vm_compute; reflexivity].
    + split; [vm_compute; discriminate|]. eexists. split; [vm_compute; reflexivity|]. split; reflexivity.
    + split; [vm_compute; discriminate|vm_compute; discriminate|vm_compute; reflexivity|vm_compute; reflexivity].
  - vm_compute. reflexivity.
Defined.
