(* ===== verification/Submission.v ===== *)
(** * A submitted transaction on the wire

    As [Delivery] for blocks: a transaction that one node takes by
    /transaction/submit is sent to its peer, whose pool takes it too. *)
From Stdlib Require Import Ascii.
From stdpp Require Import options.
From S2P Require Import Prelude PyText Json Utils NativeAsset Wallet Sha256 Transaction Block Consensus Mempool.
From S2P Require Import Settings Samples Validators Sql Storage StorageFacts Blockchain BlockchainFacts.
From S2P Require Import RateLimit Handshake HandshakeFacts PeerStore Url AddressSecurity Peers Effects.
From S2P Require Import Network Propagation Sync NetworkSamples NetworkFacts PropagationFacts Schemas NetworkRoutes.
From S2P Require Import Routes Requests ApiFacts Convergence Delivery.

Local Open Scope Z_scope.
#[local] Set Default Proof Using "Type*".

(** ** The receiving node *)

Section receiver.
Context `{L : ECDSALaws} {T : Type → Type} {SQL : Sql T} {SL : SqlLaws T} {W : Type} {Wo : World W}.
Context (cfg : NodeConfig).

Abbreviation net := (net T W).
Abbreviation app := (app T W).
Implicit Types (n : net) (s : app) (st : node T) (tx : Transaction.t).
#[local] Existing Instances after_append_preorder only_authenticated_preorder same_blockchain_preorder.

(** A transaction that the dictionary of its sender gives back. *)
Definition sendable tx : Prop :=
  0 ≤ Transaction.amount_base_units tx ≤ MAX_SUPPLY_BASE_UNITS ∧ Transaction.timestamp_ok tx ∧
  Transaction.tx_hash tx ≠ "".

Lemma accepted_not_pending tx st st' :
  submit_transaction tx st = (st', accept) → Mempool.contains (Transaction.tx_hash tx) (mempool st) = false.
Proof.
  unfold submit_transaction. destruct (validate_transaction tx) as [[] reason]; cbn [negb]; [|done].
  case_match; [done|]. unfold Mempool.add_transaction.
  by destruct (Mempool.contains (Transaction.tx_hash tx) (mempool st)).
Qed.

Lemma take_transaction_accepts tx from_peer n st' :
  BoundedSet.contains (seen_transactions n) (Transaction.tx_hash tx) = false →
  submit_transaction tx (blockchain n) = (st', accept) →
  blockchain (take_transaction tx from_peer n).1 = st'.
Proof.
  intros Hseen Hsubmit. unfold take_transaction. unfold mbind at 1, io_bind at 1, gets at 1. rewrite Hseen.
  set (n1 := set_seen_transactions (BoundedSet.add (Transaction.tx_hash tx) (seen_transactions n)) n).
  assert (Hrun : submit_received tx n = (set_blockchain st' n1, Ok accept)).
  { unfold submit_received. unfold mbind at 1, io_bind at 1, gets at 1.
    rewrite (accepted_not_pending _ _ _ Hsubmit). unfold mbind, io_bind, see_transaction, modify, on_blockchain, on.
    cbn [blockchain set_seen_transactions]. by rewrite Hsubmit. }
  rewrite (bind_run _ _ _ _ _ Hrun). cbn [refusal accept fst].
  lazymatch goal with |- blockchain (?m _).1 = _ => assert (Hm : moves after_append m) end.
  { apply moves_bind; [apply _|apply record_propagation_after|]. intros _.
    apply moves_bind; [apply _|apply sender_seen_after|]. intros _. apply moves_ret. apply _. }
  exact (proj1 (Hm (set_blockchain st' n1))).
Qed.

Lemma receive_transaction_accepts tx d address envelope n st' :
  (∀ clock, Transaction.from_dict clock d = Ok tx) →
  BoundedSet.contains (seen_transactions n) (Transaction.tx_hash tx) = false →
  submit_transaction tx (blockchain n) = (st', accept) →
  (authenticate_request cfg (Some (JObj envelope)) (Some d) (Some address) n).2 = Ok accept →
  blockchain (receive_transaction cfg d (Some address) (Some (JObj envelope)) n).1 = st'.
Proof.
  intros Hread Hseen Hsubmit Hauth. unfold receive_transaction.
  destruct (authenticate_request cfg (Some (JObj envelope)) (Some d) (Some address) n) as [n1 r] eqn:Hrun.
  cbn in Hauth. subst r.
  pose proof (moves_run _ _ _ _ _ (authenticate_moves _ _ _ _) Hrun) as (Hb & _ & _ & Hs & _).
  rewrite (bind_run _ _ _ _ _ Hrun). cbn [refusal accept fst].
  rewrite (bind_run _ _ _ _ _ (now_runs n1)). unfold parse. rewrite Hread, pure_run. cbv iota.
  rewrite <-Hb in Hsubmit. rewrite <-Hs in Hseen.
  exact (take_transaction_accepts tx (Some address) (set_world (time (world n1)).1 n1) st' Hseen Hsubmit).
Qed.

Lemma receive_transaction_route_accepts tx d address envelope id client s st' :
  (∀ clock, Transaction.from_dict clock d = Ok tx) →
  BoundedSet.contains (seen_transactions (network s)) (Transaction.tx_hash tx) = false →
  submit_transaction tx (blockchain (network s)) = (st', accept) →
  auth_get "node_id" (Some envelope) = JStr id → id ≠ "" →
  0 < RateLimiter.remaining id (limiter_of cfg "expensive" 1 s) →
  (authenticate_request cfg (Some (JObj envelope)) (Some d) (Some address)
     (set_world (time (world (network s))).1 (network s))).2 = Ok accept →
  blockchain (network (receive_transaction_route cfg
    (TransactionReceiveRequest.Make d (Some address) (Some envelope)) client s).1) = st'.
Proof.
  intros Hread Hseen Hsubmit Hname Hid Hleft Hauth. unfold receive_transaction_route.
  cbn [TransactionReceiveRequest.auth TransactionReceiveRequest.from_peer TransactionReceiveRequest.transaction].
  rewrite (named_key envelope id (opt_str_json (Some address)) Hname Hid).
  destruct (enforce_runs cfg client "expensive" 1 id s eq_refl Hid Hleft) as (s1 & Hlimit & _ & Hn & _).
  rewrite (bind_run _ _ _ _ _ Hlimit). change (validate_message_type _ _) with (Ok tt). rewrite pure_run.
  rewrite <-Hn in Hauth.
  assert (blockchain (network s) = blockchain (network s1)) as Hb by by rewrite Hn.
  assert (seen_transactions (network s) = seen_transactions (network s1)) as Hs by by rewrite Hn.
  rewrite Hb in Hsubmit. rewrite Hs in Hseen.
  pose proof (receive_transaction_accepts tx d address envelope (network s1) st' Hread Hseen Hsubmit Hauth) as Hext.
  unfold mbind, io_bind, on_network at 1, on at 1. cbn [auth_json fmap option_fmap option_map].
  destruct (receive_transaction _ _ _ _ (network s1)) as [n' [o|e]]; cbn [fst] in Hext; [|exact Hext].
  lazymatch goal with |- blockchain (network (received o ?m _).1) = _ => assert (Hm : moves same_blockchain m) end.
  { apply moves_bind; [apply _|apply draw_moves; [apply _|apply quiet_blockchain]|intros t].
    apply moves_bind; [apply _|apply moves_pure; apply _|intros b].
    apply broadcast_transaction_moves; [apply _|apply quiet_blockchain]. }
  pose proof (received_keeps_chain o _ Hm (set_network n' s1)) as Hq. etrans; [exact Hq|exact Hext].
Qed.
End receiver.

(** ** The wire *)

Section wire.
Context `{L : ECDSALaws} {T : Type → Type} {SQL : Sql T} {SL : SqlLaws T} {W : Type} {Wo : World W}.
Context `{PL : PydanticLaws} `{EW : Elsewhere (app T W)}.
Context (cfgA cfgB : NodeConfig) (body_size : py_dict → Z) (client : option string) (addressB : string).

Abbreviation peer := (app T W).
Abbreviation net := (net T peer).
Implicit Types (n : net) (b : peer) (a : app T peer) (tx : Transaction.t).
#[local] Existing Instance same_blockchain_preorder.
#[local] Hint Extern 0 (World (app T W)) => exact (wire cfgB body_size client addressB) : typeclass_instances.

Abbreviation send d :=
  (λ address envelope, send_transaction cfgA address d (own_address cfgA) envelope).

Lemma send_transaction_served d envelope n :
  validate_peer_address (getaddrinfo (world (network (world n)))) addressB
    (P2PConfig.allow_private_peer_addresses (p2p cfgA)) = Ok accept →
  peer_chain (send_transaction cfgA addressB d (own_address cfgA) envelope n).1 =
  blockchain (network (receive_transaction_route cfgB
    (TransactionReceiveRequest.Make d (Some (own_address cfgA)) (Some envelope)) client (world n)).1).
Proof.
  intros Hv.
  set (q := ReceiveTransaction (TransactionReceiveRequest.Make d (Some (own_address cfgA)) (Some envelope))).
  destruct (client_post_served cfgA cfgB body_size client addressB (propagation_timeout cfgA)
    "/network/transactions/receive" (transaction_message d (own_address cfgA) envelope) q n Hv) as [Hrun _].
  { eapply decode_posted; [reflexivity|by repeat constructor|reflexivity]. }
  unfold send_transaction, peer_chain. rewrite Hrun. cbn [world set_world].
  unfold q. cbn [serve]. unfold object, mbind, io_bind.
  destruct (receive_transaction_route _ _ _ _) as [b [x|e]]; done.
Qed.

Lemma broadcast_transaction_reaches tx id k n st' :
  sendable tx → only_peer addressB (peers n) → welcome_sender cfgA cfgB addressB id k (world n) →
  BoundedSet.contains (seen_transactions (network (world n))) (Transaction.tx_hash tx) = false →
  submit_transaction tx (peer_chain n) = (st', accept) →
  peer_chain (broadcast_transaction cfgA tx None n).1 = st'.
Proof.
  intros (Hamount & Htime & Hhash) Hpeer Hsender Hunseen Hsubmit.
  destruct (Transaction.to_dict_Ok tx Hamount) as [d Hd].
  pose proof (λ clock, Transaction.from_dict_of_to_dict clock tx d Htime Hhash Hd) as Hread.
  unfold broadcast_transaction. unfold mbind at 1, io_bind at 1, modify. set (n1 := set_seen_transactions _ n).
  rewrite Hd, pure_run. unfold mbind at 1, io_bind at 1, gets at 1.
  change (addresses (peers n1)) with (addresses (peers n)). rewrite (op_addresses _ _ Hpeer).
  apply (broadcast_loop_sends cfgA cfgB body_size client addressB d (send d) "transactions" (λ st, st = st') n1).
  apply (broadcast_to_sends cfgA cfgB body_size client addressB d (send d) (λ st, st = st') id k n1 Hpeer Hsender).
  intros envelope Hname Hauth. cbv beta. set (n2 := set_world _ n1).
  rewrite (send_transaction_served d envelope n2 (it_target _ _ _ _ _ (ws_in_time _ _ _ _ _ _ Hsender))).
  exact (receive_transaction_route_accepts cfgB tx d (own_address cfgA) envelope id client (world n2) st'
    Hread Hunseen Hsubmit Hname (gn_name _ _ _ _ (ws_genuine _ _ _ _ _ _ Hsender))
    (ws_limit _ _ _ _ _ _ Hsender) Hauth).
Qed.

(** C13: A transaction submitted to one node reaches the pools of both: a node
    takes the transaction of a body with positive amounts sent to
    /transaction/submit, one that its dictionary gives back, and its one trusted
    peer, in good standing, would take it too and has not seen it.  The peer
    hears the node ([welcome_sender]): the node's identity is generated and its
    network the peer's, the peer holds its credential under its address, name and
    key, the clocks agree within the window of freshness, the nonce is new, a
    request is left, and the peer's address is an accepted target.  Then,
    whatever comes of the rest of the answer, each of the two is at the end as
    its own [submit_transaction] leaves it. *)
Theorem submission_spreads payload id k a tx stA stB :
  positive (TransactionSubmitRequest.amount payload) = true →
  (∀ u, TransactionSubmitRequest.amount_base_units payload = Some u → 0 < u) →
  submitted (time (world (network a))).2 payload = Ok tx → sendable tx →
  submit_transaction tx (blockchain (network a)) = (stA, accept) →
  submit_transaction tx (peer_chain (network a)) = (stB, accept) →
  only_peer addressB (peers (network a)) →
  welcome_sender cfgA cfgB addressB id k (asked_in (network a)) →
  BoundedSet.contains (seen_transactions (network (asked_in (network a)))) (Transaction.tx_hash tx) = false →
  ∃ a' r, submit_route cfgA payload a = (a', r) ∧ blockchain (network a') = stA ∧ peer_chain (network a') = stB.
Proof.
  intros Hpos Hunits Htx Hsend HA HB Hpeer Hsender Hunseen.
  set (n := network a) in *. set (b := asked_in n) in *.
  unfold submit_route. rewrite Hpos.
  assert (match TransactionSubmitRequest.amount_base_units payload with Some u => 0 <? u | None => true end = true) as ->.
  { destruct (TransactionSubmitRequest.amount_base_units payload); [|done]. by apply Z.ltb_lt, Hunits. }
  cbn [andb negb].
  rewrite (on_network_bind _ _ _ _ _ (now_facing cfgB body_size client addressB n)).
  assert (Htx' : submitted (time (world (network (world n)))).2 payload = Ok tx) by exact Htx.
  rewrite Htx', pure_run. set (a1 := set_network _ a). set (n2 := set_blockchain stA (set_world b n)).
  assert (Hsubmit : on_blockchain (λ st, let '(st, v) := submit_transaction tx st in (st, Ok v)) (network a1) =
    (n2, Ok accept)).
  { unfold on_blockchain, on. cbn [network a1 set_network blockchain set_world]. by rewrite HA. }
  rewrite (on_network_bind _ _ _ _ _ Hsubmit). cbn [accept fst snd]. set (a2 := set_network n2 a1).
  lazymatch goal with |- ∃ a' r, (?first ≫= ?rest) a2 = _ ∧ _ =>
    assert (Hrest : ∃ r, (first ≫= rest) a2 = ((first a2).1, r)) end.
  { unfold mbind, io_bind. destruct (best_effort _ a2) as [a3 [u|e]]; by eexists. }
  destruct Hrest as [r ->]. eexists _, r. split; [reflexivity|]. rewrite best_effort_state. cbn [network set_network a2].
  split.
  - exact (broadcast_transaction_moves cfgA same_blockchain quiet_blockchain tx None n2).
  - exact (broadcast_transaction_reaches tx id k n2 stB Hsend Hpeer Hsender Hunseen HB).
Qed.
End wire.

(** ** Witnesses *)

#[local] Existing Instances ToyECDSA.ecdsa ToyECDSA.ecdsa_laws ListSql.sql ListSql.sql_laws.
#[local] Existing Instances StrictValidator.pydantic StrictValidator.laws NothingElse.elsewhere.

(** The transfer of the samples, as its wallet submits it. *)
Definition transfer_body : TransactionSubmitRequest.t := Eval vm_compute in
  let tx := Transaction.toy_transfer in
  TransactionSubmitRequest.Make (Transaction.sender tx) (Transaction.receiver tx) (Dec.Fin false 25 (-7)) (Some 250)
    1735689700 (default "" (Transaction.sender_public_key tx)) (default "" (Transaction.signature tx)).

Definition both_short : NetworkRoutes.app ListSql.t (NetworkRoutes.app ListSql.t toy_world) :=
  App (on_wire short_chain trusting_peer receiving_app) None [].

Definition with_transfer : node ListSql.t := (submit_transaction Transaction.toy_transfer (node_of short_chain)).1.

Lemma transfer_taken : submit_transaction Transaction.toy_transfer (node_of short_chain) = (with_transfer, accept).
Proof.
  assert (Hr : (submit_transaction Transaction.toy_transfer (node_of short_chain)).2 = accept) by (vm_compute; reflexivity).
  exact (run_eq _ _ Hr).
Qed.

Lemma receiving_hears_sender : welcome_sender sender_config own_config peer_address "peer" 7 receiving_app.
Proof. exact (wb_sender _ _ _ _ _ _ _ _ block2_welcome). Qed.

Lemma submission_spreads_witness :
  ∃ a' r, submit_route (H0 := wire own_config no_size None peer_address) sender_config transfer_body both_short = (a', r) ∧
    blockchain (network a') = with_transfer ∧ peer_chain (network a') = with_transfer.
Proof.
  refine (submission_spreads sender_config own_config no_size None peer_address transfer_body "peer" 7 both_short
    Transaction.toy_transfer with_transfer with_transfer _ _ _ _ transfer_taken transfer_taken _ _ _).
  - reflexivity.
  - intros u [= <-]. reflexivity.
  - vm_compute. reflexivity.
  - split; [split; vm_compute; discriminate|]. split; [right; eexists; vm_compute; reflexivity|vm_compute; discriminate].
  - constructor; vm_compute; reflexivity.
  - exact receiving_hears_sender.
  - vm_compute. reflexivity.
Defined.
