(* ===== verification/Cli.v ===== *)
(** * cli/main.py: the command line

    A command is a process of its own: it opens the node over the database,
    does one thing and ends.  What lasts from one command to the next is a
    [process]: the database and the world; a [typer.Exit] is the exception
    [Exit].  What the commands print is not modelled, but for the values they
    print it from, which they return. *)
From Stdlib Require Import Ascii.
From stdpp Require Import options.
From S2P Require Import Prelude PyText Json Utils NativeAsset Wallet Transaction Block Consensus Mempool.
From S2P Require Import Settings Samples Validators Sql Storage StorageFacts Mining Blockchain BlockchainFacts.
From S2P Require Import Handshake PeerStore Peers Effects Network NetworkSamples Propagation Sync.

Local Open Scope Z_scope.
#[local] Set Default Proof Using "Type*".

Section cli.
Context `{E : ECDSA} {T : Type → Type} {SQL : Sql T} {W : Type} {Wo : World W}.
Context (settings : Settings) (consensus : ConsensusEngine).

Abbreviation net := (net T W).

Record process := Process {
  process_world : W;
  ledger_db : DB T;
  network_db : PeerDB T;
}.

Definition set_process_world (w : W) (p : process) : process := Process w (ledger_db p) (network_db p).
Definition set_ledger_db (db : DB T) (p : process) : process := Process (process_world p) db (network_db p).

Definition process_draw {A} (f : W → W * A) : io process A :=
  on process_world set_process_world (λ w, let '(w, a) := f w in (w, Ok a)).

(** ** The objects of a command *)

(** [_get_chain]: [Blockchain()] over the database; a new one gets the
    genesis block. *)
Definition open_chain : io process (node T) :=
  clock ← process_draw time;
  db ← gets ledger_db;
  st ← pure (Blockchain.init settings clock db);
  _ ← modify (set_ledger_db (storage st));
  mret st.

(** An operation of the node; its database is the process's. *)
Definition with_chain {A} (st : node T) (f : node T → node T * res A) : io process (node T * A) := λ p,
  let '(st', r) := f st in (set_ledger_db (storage st') p, a ← r; Ok (st', a)).

Definition save_net (n : net) (p : process) : process :=
  Process (world n) (storage (blockchain n)) (peer_db (peers n)).

(** [_get_network_node(chain)] *)
Definition open_network (st : node T) : io process (NodeConfig * net) := λ p,
  match init_net settings consensus st (network_db p) (process_world p) with
  | Ok (cfg, n) => (save_net n p, Ok (cfg, n))
  | Err e => (p, Err e)
  end.

(** [_get_network_node()] *)
Definition open_network_node : io process (NodeConfig * net) := st ← open_chain; open_network st.

(** An operation of the network node. *)
Definition with_network {A} (n : net) (m : io net A) : io process (net * A) := λ p,
  let '(n', r) := m n in (save_net n' p, a ← r; Ok (n', a)).

(** [except Exception] around a broadcast. *)
Definition broadcast_quietly {A} (st : node T) (m : NodeConfig → io net A) : io process () :=
  attempt ('(cfg, n) ← open_network st; _ ← with_network n (m cfg); mret tt) (on_exception (mret tt)).

Definition exit {A} (code : Z) : io process A := raise (Exit code).

(** ** Commands *)

Definition create_wallet : io process Wallet.t :=
  scalar ← process_draw new_key;
  pure (Wallet.create scalar).

Definition show_chain : io process (list Block.t) := st ← open_chain; mret (chain st).

(** [except ValidationError] ends the command. *)
Definition exit_on_validation {A} (e : exn) : option (io process A) :=
  match e with ValidationError _ => Some (exit 1) | _ => None end.

Definition mine (miner_address : string) : io process Block.t :=
  if negb (is_valid_address miner_address) then exit 1
  else
    st ← open_chain;
    clock ← process_draw time;
    '(st, block) ← attempt (with_chain st (mine_pending_transactions settings consensus clock miner_address))
                     exit_on_validation;
    _ ← broadcast_quietly st (λ cfg, broadcast_block cfg block None);
    mret block.

Definition show_status : io process py_dict := st ← open_chain; pure (status settings consensus st).

Definition create_transaction (private_key receiver amount : string) : io process Transaction.t :=
  wallet ← attempt (pure (Wallet.from_private_key private_key)) (on_exception (exit 1));
  if negb (is_valid_address receiver) then exit 1
  else
    clock ← process_draw time;
    tx ← pure (Transaction.init clock (Wallet.address wallet) receiver (Some (AStr amount)) None None None None "");
    rnd ← process_draw signing_nonce;
    tx ← pure (Transaction.sign wallet rnd tx);
    st ← open_chain;
    '(st, v) ← with_chain st (λ st, let '(st, v) := submit_transaction tx st in (st, Ok v));
    if negb (v : verdict).1 then exit 1
    else
      _ ← broadcast_quietly st (λ cfg, broadcast_transaction cfg tx None);
      mret tx.

Definition validate : io process () :=
  st ← open_chain;
  v ← pure (is_chain_valid settings consensus st);
  if (v : verdict).1 then mret tt else exit 1.

Definition network_status : io process py_dict :=
  '(cfg, n) ← open_network_node;
  '(_, s) ← with_network n (clock ← now; s ← gets id; pure (net_status cfg clock s));
  mret s.

Definition list_peers : io process (list Peer) :=
  '(_, n) ← open_network_node; mret (registered_peers (peers n)).

(** Registration here, then there, then the handshake; whether it succeeded. *)
Definition add_peer (address : string) : io process verdict :=
  '(cfg, n) ← open_network_node;
  '(n, v) ← with_network n (register_peer cfg address None);
  if negb (v : verdict).1 then exit 1
  else
    '(_, result) ← with_network n
      (registration ← register_with cfg address (own_id cfg) (own_address cfg);
       _ ← (match registration with
            | Some r =>
                name ← pure (json_get "self_node_id" r);
                name ← pure (as_node_id name);
                peer_seen address name
            | None => clock ← now; on_peers (mark_seen address "offline" None clock)
            end);
       perform_handshake cfg address);
    mret result.

Definition sync (peer : option string) : io process (list SyncResult) :=
  '(cfg, n) ← open_network_node;
  '(_, results) ← with_network n
    (match claimed peer with
     | Some address => r ← sync_with_peer cfg address; mret [r]
     | None => sync_with_all_peers cfg
     end);
  mret results.

(** Where [start-node] listens. *)
Definition listen_on (host : option string) (port : option Z) : string * Z :=
  (default (Settings.host (network_settings settings)) (claimed host),
   match port with
   | Some p => if p =? 0 then Settings.port (network_settings settings) else p
   | None => Settings.port (network_settings settings)
   end).

(** ** What one command leaves for the next *)

Lemma open_chain_mempool p p' st : open_chain p = (p', Ok st) → mempool st = Mempool.init.
Proof.
  unfold open_chain. intros H. run_inv H. rename Hrun0 into Hinit. unfold Blockchain.init in Hinit.
  apply res_bind_Ok in Hinit as ([|b c] & _ & Hinit); [|by injection Hinit as <-].
  unfold create_and_persist_genesis_block in Hinit. apply res_bind_Ok in Hinit as (g & _ & Hinit).
  apply res_bind_Ok in Hinit as (db & _ & Hinit).
  destruct (update_balances_for_block g db) as [db' r]. apply res_bind_Ok in Hinit as ([] & _ & Hinit).
  by injection Hinit as <-.
Qed.

Lemma mine_pending_block `{ConsensusLaws consensus} clock addr st st' b :
  mempool st = Mempool.init → mine_pending_transactions settings consensus clock addr st = (st', Ok b) →
  ∃ amount ts, Block.transactions b = [coinbase_for addr amount ts].
Proof.
  intros Hpool. unfold mine_pending_transactions.
  destruct (mine_prepare settings consensus clock addr st) as [[b' hs]|e] eqn:Hprep; [|done].
  intros Hc. assert (b' = b) as ->.
  { unfold mine_commit in Hc. destruct (validate_block_against_chain _ _ _ _ _ _) as [[[] r]|]; cbn in Hc; try done.
    destruct (save_block b' (storage st)) as [db|]; [|done].
    destruct (update_balances_for_block b' db) as [db' [[]|]]; [|done]. by injection Hc. }
  unfold mine_prepare in Hprep. apply res_bind_Ok in Hprep as (d & _ & Hprep).
  destruct (_ <=? 0); [done|]. apply res_bind_Ok in Hprep as (tip & _ & Hprep).
  apply mine_block_Ok in Hprep as (_ & _ & _ & Htx & _); [|done].
  rewrite Hpool in Htx. by eexists _, _.
Qed.

Lemma attempt_Ok {S A} (m : io S A) h s s' a :
  (∀ e m', h e = Some m' → ∀ s1 s2 b, m' s1 ≠ (s2, Ok b)) →
  attempt m h s = (s', Ok a) → m s = (s', Ok a).
Proof.
  intros Hh. unfold attempt. destruct (m s) as [s1 [b|e]]; [done|]. destruct (h e) as [m'|] eqn:He; [|done].
  intros H. by destruct (Hh e m' He s1 s' a).
Qed.

(** The block a command mines holds the coinbase and nothing else. *)
Lemma mine_command_block `{ConsensusLaws consensus} addr p p' b :
  mine addr p = (p', Ok b) → ∃ amount ts, Block.transactions b = [coinbase_for addr amount ts].
Proof.
  unfold mine. destruct (is_valid_address addr); [|done]. cbn [negb]. intros Hm. run_inv Hm.
  rename Hrun into Hopen, Hrun1 into Hmine. apply open_chain_mempool in Hopen.
  apply attempt_Ok in Hmine.
  2: { intros e m'. unfold exit_on_validation. destruct e; intros [= <-]; done. }
  unfold with_chain in Hmine.
  destruct (mine_pending_transactions settings consensus a0 addr a) as [st' r] eqn:Hpend.
  injection Hmine as _ Hr. destruct r as [b'|e]; [|done]. injection Hr as <-.
  run_inv Hm. by eapply mine_pending_block.
Qed.

Lemma created_transaction_signed key receiver amount p p' tx :
  create_transaction key receiver amount p = (p', Ok tx) → Transaction.sender_public_key tx ≠ None.
Proof.
  unfold create_transaction. intros H. run_inv H. destruct (is_valid_address receiver); [|done].
  cbn [negb] in H. run_inv H.
  assert (Hsigned : ∀ w rnd t t', Transaction.sign w rnd t = Ok t' → Transaction.sender_public_key t' ≠ None).
  { intros w rnd t t'. unfold Transaction.sign. destruct (String.eqb _ _); [done|]. destruct (negb _); [done|].
    by intros (sig & _ & [= <-])%res_bind_Ok. }
  match goal with Hs : Transaction.sign _ _ _ = Ok _ |- _ => apply Hsigned in Hs end.
  match type of H with (let '(_, _) := ?x in _) _ = _ => destruct x as [st v] end.
  destruct (negb v.1); [done|]. run_inv H. done.
Qed.

(** A transfer the command line accepts is not mined by the command line:
    the pool lives as long as the process, so a transfer that
    [create-transaction] reports as accepted is in no block that a later [mine]
    produces; that block holds its coinbase only. *)
Theorem submitted_transfer_is_lost `{ConsensusLaws consensus} key receiver amount p p1 tx between addr p2 b :
  create_transaction key receiver amount p = (p1, Ok tx) →
  mine addr (between p1) = (p2, Ok b) →
  length (Block.transactions b) = 1%nat ∧ tx ∉ Block.transactions b.
Proof.
  intros Hc%created_transaction_signed (reward & ts & Htx)%mine_command_block.
  rewrite Htx. split; [done|]. intros ->%list_elem_of_singleton. done.
Qed.
End cli.

(** ** Witness *)

#[local] Existing Instances ToyECDSA.ecdsa ListSql.sql.

(** The database of a node with two blocks; the wallet of key 7 owns a reward. *)
Definition disk : process (T := ListSql.t) (W := toy_world) :=
  Process (ToyWorld 1735700100 []) (sample_db short_chain) empty_peer_db.
Definition key_text : string := Wallet.private_key_hex (toy_wallet 7).
Definition after_transfer : process := (create_transaction sample_settings pow key_text bob "1.5" disk).1.
Definition transfer : Transaction.t :=
  match (create_transaction sample_settings pow key_text bob "1.5" disk).2 with
  | Ok tx => tx
  | Err _ => Transaction.toy_transfer
  end.
Definition after_mining : process := (mine sample_settings pow bob after_transfer).1.
Definition mined : Block.t :=
  match (mine sample_settings pow bob after_transfer).2 with Ok b => b | Err _ => block2 end.

Lemma transfer_created : create_transaction sample_settings pow key_text bob "1.5" disk = (after_transfer, Ok transfer).
Proof.
  assert (Hr : (create_transaction sample_settings pow key_text bob "1.5" disk).2 = Ok transfer)
    by (vm_compute; reflexivity).
  exact (run_eq _ _ Hr).
Qed.

Lemma block_mined : mine sample_settings pow bob after_transfer = (after_mining, Ok mined).
Proof.
  assert (Hr : (mine sample_settings pow bob after_transfer).2 = Ok mined) by (vm_compute; reflexivity).
  exact (run_eq _ _ Hr).
Qed.

Lemma submitted_transfer_is_lost_witness :
  length (Block.transactions mined) = 1%nat ∧ transfer ∉ Block.transactions mined.
Proof.
  exact (submitted_transfer_is_lost sample_settings pow key_text bob "1.5" disk after_transfer transfer id bob
    after_mining mined transfer_created block_mined).
Defined.
