(* ===== verification/V2Reference.v ===== *)
(** * scripts/phase8/v2_reference.py and verify_v2_vectors.py: the V2 protocol

    The independent reference of the second protocol version: affine
    arithmetic on secp256k1, deterministic signatures (RFC 6979 over
    HMAC-SHA256), the effective network id, and the signing bytes and id of a
    V2 transaction, with the script that checks the published vector.  The
    arithmetic is the script's own and needs no parameter; the checking
    script's [cryptography] key is one.

    Proved: the points the formulas give are on the curve and an operation
    fails only on a divisor of the modulus; a nonce is in the group; what is
    signed has its low form and the high form is refused; the signing digest
    binds every field of the transaction, the network and the nonce included;
    the checking script accepts what the generator writes. *)
From Stdlib Require Import Ascii Znumtheory.
From stdpp Require Import options.
From S2P Require Import Prelude Sha256 PyText Json Utils Wallet.

Local Open Scope Z_scope.

(** ** The curve *)

Module Curve.

Definition P : Z := 0xFFFFFFFFFFFFFFFFFFFFFFFFFFFFFFFFFFFFFFFFFFFFFFFFFFFFFFFEFFFFFC2F.
Definition N : Z := 0xFFFFFFFFFFFFFFFFFFFFFFFFFFFFFFFEBAAEDCE6AF48A03BBFD25E8CD0364141.
Definition G : Z * Z :=
  (55066263022277343669578718895168534326250603453777594175500187360389116729240,
   32670510020758816978083085130507043184471273380659243275938904335757337482424).
Definition HALF_N : Z := N / 2.

(** A point; [None] is the point at infinity. *)
Definition point : Type := option (Z * Z).

(** [pow(a, -1, m)] *)
Definition inv (a m : Z) : res Z :=
  if decide (Z.gcd a m = 1) then Ok (Z.invmod a m)
  else Err (ValueError "base is not invertible for the given modulus").

Definition point_add (a b : point) : res point :=
  match a, b with
  | None, _ => Ok b
  | _, None => Ok a
  | Some (x1, y1), Some (x2, y2) =>
      if (x1 =? x2) && ((y1 + y2) mod P =? 0) then Ok None
      else
        lam ← (if decide (a = b) then
                 i ← inv ((2 * y1) mod P) P; mret ((3 * x1 * x1 * i) mod P)
               else
                 i ← inv ((x2 - x1) mod P) P; mret (((y2 - y1) * i) mod P));
        let x3 := (lam * lam - x1 - x2) mod P in
        let y3 := (lam * (x1 - x3) - y1) mod P in
        Ok (Some (x3, y3))
  end.

(** The loop of [scalar_mul] over the bits of [k], lowest first; the last pass
    doubles [cur] once more, as the code does. *)
Fixpoint double_and_add (k : positive) (out cur : point) : res point :=
  match k with
  | xH => out ← point_add out cur; _ ← point_add cur cur; Ok out
  | xO k => cur ← point_add cur cur; double_and_add k out cur
  | xI k => out ← point_add out cur; cur ← point_add cur cur; double_and_add k out cur
  end.

(** The code never passes a negative [k], on which its loop would not end. *)
Definition scalar_mul (k : BinNums.N) (pt : point) : res point :=
  match k with
  | N0 => Ok None
  | Npos k => double_and_add k None pt
  end.

End Curve.

(** ** HMAC, of the standard library *)

Definition hmac_sha256 (key msg : list Z) : list Z :=
  let key := if (64 <? length key)%nat then Sha.digest key else key in
  let key := key ++ replicate (64 - length key) 0 in
  Sha.digest ((Z.lxor 92 <$> key) ++ Sha.digest ((Z.lxor 54 <$> key) ++ msg)).

Lemma length_hmac key msg : length (hmac_sha256 key msg) = 32%nat.
Proof. apply Sha.length_digest. Qed.

Lemma hmac_range key msg : Forall (λ b, 0 ≤ b < 256) (hmac_sha256 key msg).
Proof. apply Sha.digest_range. Qed.

#[global] Arguments hmac_sha256 : simpl never.

(** ** Deterministic signatures *)

(** [x.to_bytes(32, 'big')] *)
Definition to_bytes32 (x : Z) : res (list Z) :=
  if (0 <=? x) && (x <? 2 ^ 256) then Ok (Sha.be_bytes 32 x)
  else Err (OverflowError "int too big to convert").

Definition bits2octets (h1 : list Z) : res (list Z) :=
  let z1 := int_from_bytes h1 in
  let z2 := if Curve.N <=? z1 then z1 - Curve.N else z1 in
  to_bytes32 z2.

(** [while len(T) < 32]: every pass appends to [T]. *)
Fixpoint fill_T (fuel : nat) (K V T : list Z) : list Z * list Z :=
  match fuel with
  | O => (V, T)
  | S fuel =>
      if (length T <? 32)%nat then
        let V := hmac_sha256 K V in fill_T fuel K V (T ++ V)
      else (V, T)
  end.

(** One pass of [while True]: the next [(K, V)] or the nonce. *)
Definition k_step (KV : list Z * list Z) : (list Z * list Z) + Z :=
  let '(K, V) := KV in
  let '(V, T) := fill_T 32 K V [] in
  let k := int_from_bytes T in
  if (1 <=? k) && (k <? Curve.N) then inr k
  else
    let K := hmac_sha256 K (V ++ [0]) in
    let V := hmac_sha256 K V in
    inl (K, V).

Definition k_seed (x h1 : list Z) : list Z * list Z :=
  let V := replicate 32 1 in
  let K := replicate 32 0 in
  let K := hmac_sha256 K (V ++ [0] ++ x ++ h1) in
  let V := hmac_sha256 K V in
  let K := hmac_sha256 K (V ++ [1] ++ x ++ h1) in
  let V := hmac_sha256 K V in
  (K, V).

(** [None]: no nonce within [passes] passes of the loop. *)
Definition rfc6979_k (passes : positive) (priv : Z) (digest : list Z) : res (option Z) :=
  x ← to_bytes32 priv;
  h1 ← bits2octets digest;
  match iter_until k_step passes (k_seed x h1) with
  | inr k => Ok (Some k)
  | inl _ => Ok None
  end.

(** [scalar_mul(k)] of a nonce: the unpacking [x, _ =] fails on [None]. *)
Definition nonce_point (k : Z) : res (Z * Z) :=
  pt ← Curve.scalar_mul (Z.to_N k) (Some Curve.G);
  match pt with
  | Some xy => Ok xy
  | None => Err (TypeError "cannot unpack non-iterable NoneType object")
  end.

Definition sign_with_nonce (k priv z : Z) : res (list Z) :=
  xy ← nonce_point k;
  let r := xy.1 mod Curve.N in
  i ← Curve.inv k Curve.N;
  let s := ((z + r * priv) * i) mod Curve.N in
  let s := if Curve.HALF_N <? s then Curve.N - s else s in
  rb ← to_bytes32 r; sb ← to_bytes32 s;
  Ok (rb ++ sb).

Definition sign (passes : positive) (priv : Z) (digest : list Z) : res (option (list Z)) :=
  let z := int_from_bytes digest in
  ok ← rfc6979_k passes priv digest;
  match ok with
  | None => Ok None
  | Some k => Some <$> sign_with_nonce k priv z
  end.

Definition verify (pub : Z * Z) (digest sig : list Z) : res bool :=
  let r := int_from_bytes (take 32 sig) in
  let s := int_from_bytes (drop 32 sig) in
  if negb (((1 <=? r) && (r <? Curve.N)) && ((1 <=? s) && (s <=? Curve.HALF_N))) then Ok false
  else
    w ← Curve.inv s Curve.N;
    let z := int_from_bytes digest in
    p1 ← Curve.scalar_mul (Z.to_N (z * w)) (Some Curve.G);
    p2 ← Curve.scalar_mul (Z.to_N (r * w)) (Some pub);
    q ← Curve.point_add p1 p2;
    Ok (match q with
        | Some (x, _) => x mod Curve.N =? r
        | None => false
        end).

(** ** Network id and transactions *)

(** [canon(obj)] is [deterministic_json], as text; a domain tag is followed by
    a zero byte. *)
Definition tagged (tag : string) (canonical : string) : string :=
  tag +:+ String (char 0) canonical.

Definition gs_commit : string :=
  "36351980711cd88fe6ff134f0e4e858ee1a4572a9f44b7bde9f57213e7f1eb82".
Definition historical : string :=
  "5c95d2d7b63bde94fbfcfe4c2a95850ca96e0fc649e93e545b8b32f3a9c7cc1b".

Definition network_payload (commitment genesis name : string) : json :=
  JObj [("consensus_protocol_version", JNum (PInt 2));
        ("genesis_state_commitment", JStr commitment);
        ("historical_genesis_hash", JStr genesis);
        ("network_name", JStr name)].

Definition network_id_of (payload : json) : string :=
  sha256 (tagged "SYJ-EFFECTIVE-NETWORK-ID-V1" (deterministic_json payload)).

Definition effective_network_id : string * string :=
  let payload := network_payload gs_commit historical "sayanjali-syj-phase7-v1" in
  (network_id_of payload, deterministic_json payload).

Record v2_tx := V2Tx {
  version : Z;
  network_id : string;
  sender : string;
  receiver : string;
  amount_base_units : Z;
  nonce : Z;
  timestamp : pynum;
  sender_public_key : string;
}.

Definition tx_json (tx : v2_tx) : list (string * json) :=
  [("version", JNum (PInt (version tx)));
   ("network_id", JStr (network_id tx));
   ("sender", JStr (sender tx));
   ("receiver", JStr (receiver tx));
   ("amount_base_units", JNum (PInt (amount_base_units tx)));
   ("nonce", JNum (PInt (nonce tx)));
   ("timestamp", JNum (timestamp tx));
   ("sender_public_key", JStr (sender_public_key tx))].

(** The signed fields; the code writes the version out. *)
Definition signing_payload (tx : v2_tx) : json :=
  JObj [("amount_base_units", JNum (PInt (amount_base_units tx)));
        ("network_id", JStr (network_id tx));
        ("nonce", JNum (PInt (nonce tx)));
        ("receiver", JStr (receiver tx));
        ("sender", JStr (sender tx));
        ("sender_public_key", JStr (sender_public_key tx));
        ("timestamp", JNum (timestamp tx));
        ("version", JNum (PInt 2))].

Definition signing_bytes (payload : json) : string :=
  tagged "SYJ-TX-SIGN-V2" (deterministic_json payload).
Definition signing_digest (payload : json) : list Z := Sha.digest (utf8 (signing_bytes payload)).
Definition tx_id (payload : json) : string :=
  sha256 (tagged "SYJ-TX-ID-V2" (deterministic_json payload)).

(** ** The generator *)

Definition pub : string :=
  "79be667ef9dcbbac55a06295ce870b07029bfcdb2dce28d959f2815b16f81798" +:+
  "483ada7726a3c4655da4fbfc0e1108a8fd17b448a68554199c47d08ffb10d4b8".

(** The two halves of the 64 bytes of a public key. *)
Definition pub_xy (key : list Z) : Z * Z :=
  (int_from_bytes (take 32 key), int_from_bytes (drop 32 key)).

Definition fixed_tx : v2_tx :=
  V2Tx 2 effective_network_id.1 "SYJaf533e027d9d6ccc0958c470c26ea9d96a9b76fd"
    "SYJ1111111111111111111111111111111111111111" 123456789 0
    (PFlt 7280009837281280) pub.

(** The dictionary the generator writes for a transaction and its signature. *)
Definition vector_of (tx : v2_tx) (sig : list Z) : json :=
  let payload := signing_payload tx in
  JObj
    [("effective_network_id", JStr effective_network_id.1);
     ("effective_network_id_canonical_json", JStr effective_network_id.2);
     ("wire_network_name", JStr ("syjnet-v2-" +:+ effective_network_id.1));
     ("genesis_state_commitment", JStr gs_commit);
     ("historical_genesis_hash", JStr historical);
     ("signing_payload", payload);
     ("canonical_signing_payload", JStr (deterministic_json payload));
     ("signing_bytes_utf8_hex", JStr (Sha.hex (utf8 (signing_bytes payload))));
     ("signing_digest", JStr (Sha.hex (signing_digest payload)));
     ("signature", JStr (Sha.hex sig));
     ("signature_low_s", JBool (int_from_bytes (drop 32 sig) <=? Curve.HALF_N));
     ("signature_verifies", JBool true);
     ("tx_id", JStr (tx_id payload));
     ("transaction", JObj (dict_set "tx_id" (JStr (tx_id payload))
                             (dict_set "signature" (JStr (Sha.hex sig)) (tx_json tx))))].

Definition main (passes : positive) : res (option json) :=
  key ← bytes_fromhex pub;
  let digest := signing_digest (signing_payload fixed_tx) in
  osig ← sign passes 1 digest;
  match osig with
  | None => Ok None
  | Some sig =>
      ok ← verify (pub_xy key) digest sig;
      if ok : bool then Ok (Some (vector_of fixed_tx sig)) else Err (AssertionError "")
  end.

(** ** The checking script *)

Definition payload_keys : list string :=
  ["amount_base_units"; "network_id"; "nonce"; "receiver"; "sender"; "sender_public_key";
   "timestamp"; "version"].

(** [d[k]] of a JSON object. *)
Definition field (k : string) (j : json) : res json :=
  match j with
  | JObj d => match dict_get k d with Some v => Ok v | None => Err (KeyError k) end
  | _ => Err (TypeError "indices must be integers")
  end.

(** [bytes.fromhex(d[k])] *)
Definition hex_field (k : string) (j : json) : res (list Z) :=
  v ← field k j;
  match v with
  | JStr s => bytes_fromhex s
  | _ => Err (TypeError "fromhex() argument must be str")
  end.

Definition assert (b : bool) : res unit := if b then Ok () else Err (AssertionError "").

(** [s == j] *)
Definition str_is (s : string) (j : json) : bool :=
  match j with JStr t => String.eqb s t | _ => false end.

Section checker.
(** [key_verify pub sig digest]: building the [cryptography] key and verifying
    a prehashed signature; it raises where the library does. *)
Context (key_verify : Z * Z → Z * Z → list Z → res unit).

Definition verify_v2_vector (v : json) : res unit :=
  tx ← field "transaction" v;
  payload ← res_map (λ k, x ← field k tx; mret (k, x)) payload_keys;
  let canonical := JObj payload in
  let digest := signing_digest canonical in
  d ← field "signing_digest" v;
  _ ← assert (str_is (Sha.hex digest) d);
  i ← field "tx_id" v;
  _ ← assert (str_is (tx_id canonical) i);
  pub ← hex_field "sender_public_key" tx;
  sig ← hex_field "signature" tx;
  key_verify (pub_xy pub) (pub_xy sig) digest.
End checker.

(** ** The published vector *)

Example published_network_id :
  effective_network_id.1 = "237a1934769295c63fe47771a4996b17c3899e52f6bacf79ed7edefec90eaaf3".
Proof. vm_compute. reflexivity. Qed.

Example published_signing_digest :
  Sha.hex (signing_digest (signing_payload fixed_tx)) =
  "edbfdb74b27736cb4e1d09f9f641b8304d4c2da560e8fa1adc4b767a52574a31".
Proof. vm_compute. reflexivity. Qed.

Example published_tx_id :
  tx_id (signing_payload fixed_tx) =
  "f2d1b0239244c5c1b70805b15eba42a9e99ca32c764f17e267398136159136ac".
Proof. vm_compute. reflexivity. Qed.

(** The sender of the vector is the address of its key. *)
Example published_sender : derive_address pub = sender fixed_tx.
Proof. vm_compute. reflexivity. Qed.

(** ** The arithmetic stays on the curve *)

(** A proper divisor of [m]: what a failing inversion exhibits. *)
Definition composite (m : Z) : Prop := ∃ d, 1 < d < m ∧ (d | m).

Definition wf_point (pt : Curve.point) : Prop :=
  match pt with
  | None => True
  | Some (x, y) => 0 ≤ x < Curve.P ∧ 0 ≤ y < Curve.P ∧ (Curve.P | y * y - x * x * x - 7)
  end.

(** An operation gives a point of the curve, or its failure factors [P]. *)
Definition closes (r : res Curve.point) : Prop :=
  match r with Ok pt => wf_point pt | Err _ => composite Curve.P end.

Lemma inv_Ok a m i : 1 < m → Curve.inv a m = Ok i → 0 ≤ i < m ∧ (m | a * i - 1).
Proof.
  intros Hm. unfold Curve.inv. case_decide as Hg; [|done]. intros [= <-].
  assert (Hmod := Z.mod_invmod m a). assert (Hok := Z.invmod_ok a m).
  rewrite Hg, (Z.mod_small 1) in Hok by lia. split.
  - rewrite <-Hmod. apply Z.mod_pos_bound. lia.
  - apply Z.mod_divide; [lia|]. rewrite Zminus_mod, Z.mul_comm, Hok, (Z.mod_small 1) by lia. done.
Qed.

Lemma gcd_composite a m : 1 < m → ¬ (m | a) → Z.gcd a m ≠ 1 → composite m.
Proof.
  intros Hm Ha Hg. exists (Z.gcd a m). assert (Hd := Z.gcd_divide_r a m).
  assert (Hle := Z.divide_pos_le _ m ltac:(lia) Hd). assert (H0 := Z.gcd_nonneg a m).
  assert (Z.gcd a m ≠ 0) by (intros E; rewrite E in Hd; apply Z.divide_0_l in Hd; lia).
  assert (Z.gcd a m ≠ m) by (intros E; apply Ha; rewrite <-E; apply Z.gcd_divide_l).
  split; [lia | done].
Qed.

Lemma inv_Err a m e : 1 < m → ¬ (m | a) → Curve.inv a m = Err e → composite m.
Proof. intros Hm Ha. unfold Curve.inv. case_decide; [done|]. intros _. eauto using gcd_composite. Qed.

Lemma P_large : 1 < Curve.P.
Proof. done. Qed.
Lemma N_large : 1 < Curve.N.
Proof. done. Qed.

Lemma divide_mod_sub a m : 0 < m → (m | a mod m - a).
Proof. intros Hm. exists (- (a / m)). rewrite Z.mod_eq by lia. lia. Qed.

Lemma small_divide a m : (m | a) → - m < a < m → a = 0.
Proof.
  intros [k ->] Hr. assert (k = 0 ∨ 1 ≤ k ∨ k ≤ -1) as [->|[Hk|Hk]] by lia; [done|nia..].
Qed.

(** A line of slope [lam] through [(x1, y1)] that meets the curve a second
    time at [x2] (the same point, for a tangent) meets it a third time where
    the formulas say. *)
Lemma third_point m x1 y1 x2 lam x3 y3 :
  (m | y1 * y1 - x1 * x1 * x1 - 7) →
  (m | 2 * y1 * lam + lam * lam * (x2 - x1) - (x2 * x2 + x1 * x2 + x1 * x1)) →
  (m | x3 - (lam * lam - x1 - x2)) → (m | y3 - (lam * (x1 - x3) - y1)) →
  (m | y3 * y3 - x3 * x3 * x3 - 7).
Proof.
  intros [c Hc] [e He] [v Hv] [u Hu].
  exists (u * (y3 + (lam * (x1 - x3) - y1)) + c + (x1 - x3) * (- e - (x2 - x3) * v)).
  transitivity ((y3 - (lam * (x1 - x3) - y1)) * (y3 + (lam * (x1 - x3) - y1))
    + (y1 * y1 - x1 * x1 * x1 - 7)
    + (x1 - x3) * (- (2 * y1 * lam + lam * lam * (x2 - x1) - (x2 * x2 + x1 * x2 + x1 * x1))
                   - (x2 - x3) * (x3 - (lam * lam - x1 - x2)))); [ring|].
  rewrite Hc, He, Hv, Hu. ring.
Qed.

(** The slope of the tangent. *)
Lemma tangent_slope m x y i lam :
  (m | 2 * y * i - 1) → (m | lam - 3 * x * x * i) →
  (m | 2 * y * lam + lam * lam * (x - x) - (x * x + x * x + x * x)).
Proof.
  intros [k Hk] [l Hl]. exists (2 * y * l + 3 * x * x * k).
  transitivity (2 * y * (lam - 3 * x * x * i) + 3 * x * x * (2 * y * i - 1)); [ring|].
  rewrite Hk, Hl. ring.
Qed.

(** The slope of the chord. *)
Lemma chord_slope m x1 y1 x2 y2 i lam :
  (m | y1 * y1 - x1 * x1 * x1 - 7) → (m | y2 * y2 - x2 * x2 * x2 - 7) →
  (m | (x2 - x1) * i - 1) → (m | lam - (y2 - y1) * i) →
  (m | 2 * y1 * lam + lam * lam * (x2 - x1) - (x2 * x2 + x1 * x2 + x1 * x1)).
Proof.
  intros [a Ha] [b Hb] [k Hk] [l Hl].
  assert (Hlam : lam = (y2 - y1) * i + l * m) by lia. subst lam. clear Hl.
  set (S := x2 * x2 + x1 * x2 + x1 * x1).
  exists (2 * y1 * l + l * (x2 - x1) * (2 * (y2 - y1) * i + l * m)
          + i * (b - a) + S * k + (y2 - y1) * (y2 - y1) * i * k).
  transitivity (m * (2 * y1 * l + l * (x2 - x1) * (2 * (y2 - y1) * i + l * m))
    + i * ((y2 * y2 - x2 * x2 * x2 - 7) - (y1 * y1 - x1 * x1 * x1 - 7))
    + (S + (y2 - y1) * (y2 - y1) * i) * ((x2 - x1) * i - 1)); [unfold S; ring|].
  rewrite Ha, Hb, Hk. ring.
Qed.

(** Reducing the factors of a product does not change what divides it. *)
Lemma divide_mod_l m a b c : 0 < m → (m | a mod m * b - c) → (m | a * b - c).
Proof.
  intros Hm H. destruct (divide_mod_sub a m Hm) as [q Hq]. destruct H as [k Hk].
  exists (k - q * b). transitivity ((a mod m * b - c) - (a mod m - a) * b); [ring|].
  rewrite Hk, Hq. ring.
Qed.

Lemma new_point x1 y1 x2 lam :
  (Curve.P | y1 * y1 - x1 * x1 * x1 - 7) →
  (Curve.P | 2 * y1 * lam + lam * lam * (x2 - x1) - (x2 * x2 + x1 * x2 + x1 * x1)) →
  let x3 := (lam * lam - x1 - x2) mod Curve.P in
  wf_point (Some (x3, (lam * (x1 - x3) - y1) mod Curve.P)).
Proof.
  intros H1 Hs x3. assert (HP := P_large).
  split_and!; try (apply Z.mod_pos_bound; lia); [by apply Z.mod_pos_bound; lia..|].
  eapply third_point; [exact H1|exact Hs|apply divide_mod_sub; lia|apply divide_mod_sub; lia].
Qed.

(** Two points of the curve above one another are opposite, equal, or give a
    divisor of [P]. *)
Lemma same_x x y1 y2 :
  wf_point (Some (x, y1)) → wf_point (Some (x, y2)) →
  (y1 + y2) mod Curve.P ≠ 0 → y1 ≠ y2 → composite Curve.P.
Proof.
  intros (_ & Hy1 & [a Ha]) (_ & Hy2 & [b Hb]) Hopp Hne. assert (HP := P_large).
  apply (gcd_composite (y1 + y2)); [done| |].
  { intros Hd. apply Hopp. by apply Z.mod_divide; [lia|]. }
  intros Hg. apply Hne. cut (y1 - y2 = 0); [lia|]. apply (small_divide _ Curve.P); [|lia].
  apply (Z.gauss _ (y1 + y2)); [|by rewrite Z.gcd_comm].
  exists (a - b). transitivity ((y1 * y1 - x * x * x - 7) - (y2 * y2 - x * x * x - 7)); [ring|].
  rewrite Ha, Hb. ring.
Qed.

Lemma point_add_closes a b : wf_point a → wf_point b → closes (Curve.point_add a b).
Proof.
  destruct a as [[x1 y1]|], b as [[x2 y2]|]; intros Ha Hb; try done.
  assert (HP := P_large). unfold Curve.point_add.
  destruct ((x1 =? x2) && ((y1 + y2) mod Curve.P =? 0)) eqn:Hopp; [done|].
  assert (Hne : x1 = x2 → (y1 + y2) mod Curve.P ≠ 0).
  { intros Hx Hy. rewrite Hx, Hy, Z.eqb_refl in Hopp. done. }
  assert (Hca := proj2 (proj2 Ha)). assert (Hcb := proj2 (proj2 Hb)).
  case_decide as Heq.
  - injection Heq as -> ->. destruct (Curve.inv _ _) as [i|e] eqn:Hi; simpl.
    + apply inv_Ok in Hi as [_ Hi]; [|done]. apply new_point; [done|].
      apply (tangent_slope _ _ _ i); [by apply divide_mod_l in Hi; [|lia]|].
      apply divide_mod_sub. lia.
    + apply inv_Err in Hi; [done..|]. rewrite <-Z.mod_divide, Z.mod_mod by lia.
      replace (2 * y2) with (y2 + y2) by lia. by apply Hne.
  - destruct (Curve.inv _ _) as [i|e] eqn:Hi; simpl.
    + apply inv_Ok in Hi as [_ Hi]; [|done]. apply new_point; [done|].
      apply (chord_slope _ _ _ _ y2 i); [done|done|by apply divide_mod_l in Hi; [|lia]|].
      apply divide_mod_sub. lia.
    + destruct (decide (x1 = x2)) as [->|Hx].
      { apply (same_x x2 y1 y2); auto. congruence. }
      apply inv_Err in Hi; [done..|]. rewrite <-Z.mod_divide, Z.mod_mod by lia.
      intros Hd%Z.mod_divide; [|lia]. apply Hx. cut (x2 - x1 = 0); [lia|].
      destruct Ha as [? _], Hb as [? _]. by apply (small_divide _ Curve.P); [|lia].
Qed.

Lemma closes_bind r f :
  closes r → (∀ pt, wf_point pt → closes (f pt)) → closes (r ≫= f).
Proof. destruct r; simpl; auto. Qed.

Lemma double_and_add_closes k out cur :
  wf_point out → wf_point cur → closes (Curve.double_and_add k out cur).
Proof.
  revert out cur; induction k as [k IH|k IH|]; intros out cur Ho Hc; cbn [Curve.double_and_add].
  - apply closes_bind; [by apply point_add_closes|]. intros out' Ho'.
    apply closes_bind; [by apply point_add_closes|]. auto.
  - apply closes_bind; [by apply point_add_closes|]. auto.
  - apply closes_bind; [by apply point_add_closes|]. intros out' Ho'.
    apply closes_bind; [by apply point_add_closes|]. done.
Qed.

Lemma scalar_mul_closes k pt : wf_point pt → closes (Curve.scalar_mul k pt).
Proof. intros Hpt. destruct k; [done|]. by apply double_and_add_closes. Qed.

Lemma G_wf : wf_point (Some Curve.G).
Proof.
  split_and!; try (by vm_compute); try lia; try (by apply Z.mod_divide; vm_compute).
Qed.

(** C36: Adding points of the curve and multiplying one by a number give points of
    the curve; where the arithmetic raises instead, the field modulus has a
    proper divisor. *)
Theorem curve_closed a b k : wf_point a → wf_point b →
  closes (Curve.point_add a b) ∧ closes (Curve.scalar_mul k a).
Proof. eauto using point_add_closes, scalar_mul_closes. Qed.

Lemma curve_closed_witness :
  let g := Some Curve.G in
  wf_point g ∧ closes (Curve.point_add g g) ∧ closes (Curve.scalar_mul 3 g).
Proof. split; [apply G_wf|]. apply curve_closed; apply G_wf. Defined.

(** ** Signatures *)

Lemma fill_T_S n K V T :
  fill_T (S n) K V T =
  if (length T <? 32)%nat then fill_T n K (hmac_sha256 K V) (T ++ hmac_sha256 K V) else (V, T).
Proof. reflexivity. Qed.

(** The digest is 32 bytes, so that one pass fills [T]. *)
Lemma fill_T_once K V : fill_T 32 K V [] = (hmac_sha256 K V, hmac_sha256 K V).
Proof.
  rewrite (fill_T_S 31), app_nil_l. assert (Hl := length_hmac K V).
  revert Hl. generalize (hmac_sha256 K V) as V'. intros V' Hl.
  change (length (@nil Z) <? 32)%nat with true. cbn iota. rewrite (fill_T_S 30), Hl. reflexivity.
Qed.

Lemma k_step_range KV k : k_step KV = inr k → 1 ≤ k < Curve.N.
Proof.
  destruct KV as [K V]. unfold k_step. rewrite fill_T_once.
  destruct ((1 <=? _) && _) eqn:E; [|done]. intros [= <-].
  apply andb_true_iff in E as [?%Z.leb_le ?%Z.ltb_lt]. lia.
Qed.

Lemma iter_until_inr {S R} (step : S → S + R) (Q : R → Prop) p s r :
  (∀ s r, step s = inr r → Q r) → iter_until step p s = inr r → Q r.
Proof.
  intros Hstep. rewrite iter_until_nat. revert r.
  induction (Pos.to_nat p) as [|n IH]; intros r; [done|]. rewrite Nat.iter_succ.
  destruct (Nat.iter n _ _) as [s'|r'] eqn:E; simpl; [apply Hstep|]. intros [= <-]. by apply IH.
Qed.

Lemma rfc6979_k_range passes priv digest k :
  rfc6979_k passes priv digest = Ok (Some k) → 1 ≤ k < Curve.N.
Proof.
  unfold rfc6979_k. destruct (to_bytes32 priv); [|done]. cbn [mbind res_bind].
  destruct (bits2octets digest) as [h1|]; [|done]. cbn [mbind res_bind].
  destruct (iter_until _ _ _) as [|k'] eqn:E; [done|]. intros [= <-].
  apply (iter_until_inr k_step (λ k, 1 ≤ k < Curve.N)) in E; [done|]. intros s r. apply k_step_range.
Qed.

Lemma to_bytes32_Ok x bs :
  to_bytes32 x = Ok bs → bs = Sha.be_bytes 32 x ∧ 0 ≤ x < 2 ^ 256.
Proof.
  unfold to_bytes32. destruct (_ && _) eqn:E; [|done]. intros [= <-].
  apply andb_true_iff in E as [?%Z.leb_le ?%Z.ltb_lt]. done.
Qed.

Lemma split_signature r s :
  0 ≤ r < 2 ^ 256 → 0 ≤ s < 2 ^ 256 →
  int_from_bytes (take 32 (Sha.be_bytes 32 r ++ Sha.be_bytes 32 s)) = r ∧
  int_from_bytes (drop 32 (Sha.be_bytes 32 r ++ Sha.be_bytes 32 s)) = s.
Proof.
  intros Hr Hs. rewrite take_app_length', drop_app_length' by (symmetry; apply Sha.length_be_bytes).
  split; by apply int_from_be_bytes.
Qed.

(** The two numbers of a signature. *)
Definition sig_r (sig : list Z) : Z := int_from_bytes (take 32 sig).
Definition sig_s (sig : list Z) : Z := int_from_bytes (drop 32 sig).

Lemma HALF_N_bounds : 2 * Curve.HALF_N < Curve.N < 2 * Curve.HALF_N + 2.
Proof. done. Qed.

(** What [sign_with_nonce] gives for a nonce of the group. *)
Definition good_signature (k priv z : Z) (sig : list Z) : Prop :=
  length sig = 64%nat ∧ 0 ≤ sig_r sig < Curve.N ∧ 0 ≤ sig_s sig ≤ Curve.HALF_N ∧
  ∃ sgn, (sgn = 1 ∨ sgn = -1) ∧ (Curve.N | sgn * sig_s sig * k - (z + sig_r sig * priv)).

(** The ways the arithmetic can fail, none of which happens on this curve: a
    modulus is composite, or a multiple of [G] below the order vanishes. *)
Definition broken_curve : Prop :=
  composite Curve.P ∨ composite Curve.N ∨
  ∃ k, 1 ≤ k < Curve.N ∧ Curve.scalar_mul (Z.to_N k) (Some Curve.G) = Ok None.

Lemma low_s_twin s0 : 0 ≤ s0 < Curve.N →
  let s := if Curve.HALF_N <? s0 then Curve.N - s0 else s0 in
  0 ≤ s ≤ Curve.HALF_N ∧ ∃ sgn, (sgn = 1 ∨ sgn = -1) ∧ (Curve.N | sgn * s - s0).
Proof.
  intros Hs0 s. assert (HH := HALF_N_bounds). unfold s.
  destruct (Z.ltb_spec Curve.HALF_N s0) as [H|H]; (split; [lia|]).
  - exists (-1). split; [by right|]. exists (-1). ring.
  - exists 1. split; [by left|]. exists 0. ring.
Qed.

(** [s k] against the signed value, from [s0 = (v i) mod n] and [k i = 1]. *)
Lemma signing_equation n v i k s0 s sgn :
  0 < n → s0 = (v * i) mod n → (n | k * i - 1) → (n | sgn * s - s0) → (n | sgn * s * k - v).
Proof.
  intros Hn -> [q Hq] [l Hl]. destruct (divide_mod_sub (v * i) n) as [m Hm]; [done|].
  exists (l * k + m * k + v * q).
  transitivity ((sgn * s - (v * i) mod n) * k + ((v * i) mod n - v * i) * k
                + v * (k * i - 1)); [ring|].
  rewrite Hl, Hm, Hq. ring.
Qed.

Lemma to_bytes32_small x : 0 ≤ x < 2 ^ 256 → to_bytes32 x = Ok (Sha.be_bytes 32 x).
Proof.
  intros [H1 H2]. unfold to_bytes32. apply Z.leb_le in H1. apply Z.ltb_lt in H2. by rewrite H1, H2.
Qed.

Lemma sign_with_nonce_spec k priv z : 1 ≤ k < Curve.N →
  match sign_with_nonce k priv z with
  | Ok sig => good_signature k priv z sig
  | Err _ => broken_curve
  end.
Proof.
  intros Hk. unfold sign_with_nonce, nonce_point.
  assert (Hc := scalar_mul_closes (Z.to_N k) (Some Curve.G) G_wf).
  destruct (Curve.scalar_mul _ _) as [[[x y]|]|] eqn:Hm; cbn [mbind res_bind fst];
    [|right; right; by exists k|by left].
  assert (HN := N_large).
  destruct (Curve.inv k Curve.N) as [i|] eqn:Hi; cbn [mbind res_bind].
  2:{ right; left. apply (inv_Err k Curve.N) in Hi; [done|done|].
      intros Hd. apply small_divide in Hd; lia. }
  apply inv_Ok in Hi as [_ Hi]; [|done].
  set (r := x mod Curve.N). assert (Hr : 0 ≤ r < Curve.N) by (apply Z.mod_pos_bound; lia).
  set (s0 := ((z + r * priv) * i) mod Curve.N).
  assert (Hs0 : 0 ≤ s0 < Curve.N) by (apply Z.mod_pos_bound; lia).
  destruct (low_s_twin s0 Hs0) as (Hs & sgn & Hsgn & Hd).
  set (s := if Curve.HALF_N <? s0 then _ else _) in *.
  assert (Hbig : Curve.HALF_N < Curve.N < 2 ^ 256) by done.
  rewrite !to_bytes32_small by lia. cbn [mbind res_bind]. unfold good_signature, sig_r, sig_s.
  destruct (split_signature r s) as [-> ->]; [lia..|].
  split_and!; [by rewrite length_app, !Sha.length_be_bytes|lia..|].
  exists sgn. split; [done|]. by apply (signing_equation _ _ i k s0); [lia| | |].
Qed.

Lemma bytes_value_bound l :
  Forall (λ b, 0 ≤ b < 256) l → 0 ≤ int_from_bytes l < 256 ^ Z.of_nat (length l).
Proof.
  induction l as [|b l IH] using rev_ind; intros Hl; [done|].
  apply Forall_app in Hl as [Hl [Hb _]%Forall_cons_1]. specialize (IH Hl).
  rewrite int_from_bytes_app, length_app, Nat2Z.inj_add, Z.pow_add_r by lia.
  change (256 ^ Z.of_nat (length [b])) with 256. change (int_from_bytes [b]) with b.
  lia.
Qed.

(** What signing gives: a signature from a nonce of the group; nothing, only
    when the generator has not found a nonce yet; an exception only on a broken
    curve. *)
Definition sign_outcome (passes : positive) (priv : Z) (digest : list Z) : Prop :=
  match sign passes priv digest with
  | Ok (Some sig) => ∃ k, 1 ≤ k < Curve.N ∧ rfc6979_k passes priv digest = Ok (Some k) ∧
                          good_signature k priv (int_from_bytes digest) sig
  | Ok None => rfc6979_k passes priv digest = Ok None
  | Err _ => broken_curve
  end.

(** C37: Signing a 32-byte digest with a private key of 32 bytes: the signature is
    64 bytes in the low form and solves the signing equation, up to the sign of
    [s], for a nonce of the group; it is missing only when the nonce generator
    has not found a nonce yet, and raises only on a broken curve. *)
Theorem sign_spec passes priv digest :
  0 ≤ priv < 2 ^ 256 → length digest = 32%nat → Forall (λ b, 0 ≤ b < 256) digest →
  sign_outcome passes priv digest.
Proof.
  intros Hpriv Hlen Hbytes. assert (Hz := bytes_value_bound _ Hbytes). rewrite Hlen in Hz.
  change (256 ^ Z.of_nat 32) with (2 ^ 256) in Hz.
  assert (Hn := N_large). unfold sign_outcome, sign.
  destruct (rfc6979_k _ _ _) as [[k|]|] eqn:Hk; cbn [mbind res_bind]; [|done|].
  - apply rfc6979_k_range in Hk as Hr.
    assert (Hs := sign_with_nonce_spec k priv (int_from_bytes digest) Hr).
    destruct (sign_with_nonce _ _ _); cbn; [by exists k|done].
  - exfalso. revert Hk. unfold rfc6979_k, bits2octets. rewrite (to_bytes32_small priv) by done.
    cbn [mbind res_bind]. destruct (Z.leb_spec Curve.N (int_from_bytes digest));
      (rewrite to_bytes32_small by lia); cbn [mbind res_bind]; by destruct (iter_until _ _ _).
Qed.

(** The digest of the published vector. *)
Definition fixed_digest : list Z := signing_digest (signing_payload fixed_tx).

Lemma sign_spec_witness :
  (0 ≤ 1 < 2 ^ 256) ∧ length fixed_digest = 32%nat ∧ sign_outcome 1 1 fixed_digest.
Proof.
  assert (H : length fixed_digest = 32%nat) by apply Sha.length_digest.
  split; [lia|]. split; [exact H|].
  apply (sign_spec 1 1 fixed_digest); [lia|exact H|apply Sha.digest_range].
Defined.

(** The nonce of the published signature. *)
Example published_nonce :
  rfc6979_k 1 1 (signing_digest (signing_payload fixed_tx)) =
  Ok (Some 108089913400449018763338808942027992571079131350452181020490468086234923534604).
Proof. vm_compute. reflexivity. Qed.

(** Verifying raises only when a modulus is composite. *)
Lemma verify_total pub digest sig : wf_point (Some pub) →
  match verify pub digest sig with
  | Ok _ => True
  | Err _ => composite Curve.P ∨ composite Curve.N
  end.
Proof.
  intros Hpub. unfold verify. destruct (negb _) eqn:E; [done|].
  apply negb_false_iff in E. rewrite !andb_true_iff, !Z.leb_le, !Z.ltb_lt in E.
  assert (HH := HALF_N_bounds). set (s := int_from_bytes (drop 32 sig)) in *.
  destruct (Curve.inv s Curve.N) as [w|] eqn:Hi; cbn [mbind res_bind].
  2:{ right. apply (inv_Err s Curve.N) in Hi; [done|done|].
      intros Hd. apply small_divide in Hd; lia. }
  assert (H1 := λ k, scalar_mul_closes k (Some Curve.G) G_wf).
  assert (H2 := λ k, scalar_mul_closes k (Some pub) Hpub).
  specialize (H1 (Z.to_N (int_from_bytes digest * w))).
  destruct (Curve.scalar_mul _ (Some Curve.G)) as [p1|]; cbn [mbind res_bind]; [|by left].
  specialize (H2 (Z.to_N (int_from_bytes (take 32 sig) * w))).
  destruct (Curve.scalar_mul _ (Some pub)) as [p2|]; cbn [mbind res_bind]; [|by left].
  assert (H3 := point_add_closes p1 p2 H1 H2).
  destruct (Curve.point_add p1 p2) as [q|]; cbn [mbind res_bind]; [done|by left].
Qed.

(** A signature in the high form is refused, whatever the rest: of [(r, s)]
    and its twin [(r, N - s)] at most one is accepted. *)
Theorem high_s_refused pub digest sig sig' :
  verify pub digest sig = Ok true →
  sig_r sig' = sig_r sig → sig_s sig' = Curve.N - sig_s sig →
  verify pub digest sig' = Ok false.
Proof.
  unfold verify. fold (sig_r sig) (sig_s sig) (sig_r sig') (sig_s sig').
  intros Hv -> ->. assert (HH := HALF_N_bounds).
  destruct (((1 <=? sig_r sig) && _) && _) eqn:E; [|done]. clear Hv.
  rewrite !andb_true_iff, !Z.leb_le, !Z.ltb_lt in E.
  replace (Curve.N - sig_s sig <=? Curve.HALF_N) with false
    by (symmetry; apply Z.leb_gt; lia).
  by rewrite !andb_false_r.
Qed.

(** The point with abscissa 1, less the generator: with the digest 1 and this
    key, the pair [(1, 1)] is a signature. *)
Definition sample_pub : Z * Z :=
  (61115326335059482823570308753405168080278883795011793572653667586598180748818,
   76688688905220918619619611808078725072215306593800823503030536987037096156478).

Definition sample_sig (s : Z) : list Z := Sha.be_bytes 32 1 ++ Sha.be_bytes 32 s.

Lemma high_s_refused_witness :
  let digest := Sha.be_bytes 32 1 in
  verify sample_pub digest (sample_sig 1) = Ok true ∧
  verify sample_pub digest (sample_sig (Curve.N - 1)) = Ok false.
Proof.
  assert (H : verify sample_pub (Sha.be_bytes 32 1) (sample_sig 1) = Ok true)
    by (vm_compute; reflexivity).
  split; [exact H|]. apply (high_s_refused _ _ (sample_sig 1)); [exact H|vm_compute; reflexivity..].
Defined.

(** ** Binding *)

Lemma tagged_inj tag c1 c2 : tagged tag c1 = tagged tag c2 → c1 = c2.
Proof. unfold tagged. intros E%append_inj_l. congruence. Qed.

Lemma v2_payload_ok tx : json_ok (signing_payload tx) = true.
Proof. by destruct tx as [v n s r a k [|] p]. Qed.

Lemma canon_v2_payload tx : canon (signing_payload tx) = signing_payload tx.
Proof. reflexivity. Qed.

(** What a signature covers: every field but the version, which is fixed. *)
Definition signed_fields (tx : v2_tx) : v2_tx :=
  V2Tx 2 (network_id tx) (sender tx) (receiver tx) (amount_base_units tx) (nonce tx)
    (timestamp tx) (sender_public_key tx).

Lemma signing_payload_inj tx1 tx2 :
  signing_payload tx1 = signing_payload tx2 → signed_fields tx1 = signed_fields tx2.
Proof. unfold signing_payload, signed_fields. congruence. Qed.

Lemma sha256_digest s1 s2 :
  Sha.digest (utf8 s1) = Sha.digest (utf8 s2) → sha256 s1 = sha256 s2.
Proof. intros E. change (Sha.hex (Sha.digest (utf8 s1)) = Sha.hex (Sha.digest (utf8 s2))). by rewrite E. Qed.

Lemma network_payload_inj c1 g1 n1 c2 g2 n2 :
  deterministic_json (network_payload c1 g1 n1) = deterministic_json (network_payload c2 g2 n2) →
  c1 = c2 ∧ g1 = g2 ∧ n1 = n2.
Proof.
  intros E%deterministic_json_inj; [|reflexivity..]. by injection E.
Qed.

Abbreviation network_preimage c g n :=
  (tagged "SYJ-EFFECTIVE-NETWORK-ID-V1" (deterministic_json (network_payload c g n))).

(** C35: A signing digest binds the transaction and the network: two transactions
    with one digest, on networks given by their state commitment, genesis hash
    and name, agree in every signed field, the nonce included, and are on the
    same network, unless a collision of SHA-256 is among the inputs named. *)
Theorem v2_signature_binds tx1 tx2 c1 g1 n1 c2 g2 n2 :
  network_id tx1 = network_id_of (network_payload c1 g1 n1) →
  network_id tx2 = network_id_of (network_payload c2 g2 n2) →
  signing_digest (signing_payload tx1) = signing_digest (signing_payload tx2) →
  (signed_fields tx1 = signed_fields tx2 ∧ c1 = c2 ∧ g1 = g2 ∧ n1 = n2) ∨
  collide (signing_bytes (signing_payload tx1)) (signing_bytes (signing_payload tx2)) ∨
  collide (network_preimage c1 g1 n1) (network_preimage c2 g2 n2).
Proof.
  intros Hn1 Hn2 Hd%sha256_digest. apply sha256_inj_or in Hd as [Hd|]; [|auto].
  apply tagged_inj, deterministic_json_inj in Hd; [|apply v2_payload_ok..].
  rewrite !canon_v2_payload in Hd. apply signing_payload_inj in Hd as Hf.
  assert (Hid : network_id tx1 = network_id tx2) by (unfold signed_fields in Hf; congruence).
  rewrite Hn1, Hn2 in Hid. apply sha256_inj_or in Hid as [Hid|]; [|auto].
  apply tagged_inj, network_payload_inj in Hid. auto.
Qed.

(** The published transaction under another version number, which the payload
    does not carry. *)
Definition renumbered_tx : v2_tx :=
  V2Tx 3 (network_id fixed_tx) (sender fixed_tx) (receiver fixed_tx) (amount_base_units fixed_tx)
    (nonce fixed_tx) (timestamp fixed_tx) (sender_public_key fixed_tx).

Lemma v2_signature_binds_witness :
  let name := "sayanjali-syj-phase7-v1" in
  fixed_tx ≠ renumbered_tx ∧
  network_id fixed_tx = network_id_of (network_payload gs_commit historical name) ∧
  ((signed_fields fixed_tx = signed_fields renumbered_tx ∧ gs_commit = gs_commit ∧
    historical = historical ∧ name = name) ∨
   collide (signing_bytes (signing_payload fixed_tx)) (signing_bytes (signing_payload renumbered_tx)) ∨
   collide (network_preimage gs_commit historical name)
           (network_preimage gs_commit historical name)).
Proof.
  split; [intros E; apply (f_equal version) in E; discriminate|]. split; [reflexivity|].
  by apply (v2_signature_binds fixed_tx renumbered_tx).
Defined.

(** The id of a transaction is hashed in its own domain. *)
Lemma domains_apart p q : signing_bytes p ≠ tagged "SYJ-TX-ID-V2" (deterministic_json q).
Proof. discriminate. Qed.

(** ** The checking script accepts what the generator writes *)

Lemma assert_eqb s : assert (String.eqb s s) = Ok ().
Proof. unfold assert. by rewrite String.eqb_refl. Qed.

(** Of any transaction of version 2 with any signature, the published vector
    passes every comparison of the checking script, which is left with the
    library's verdict on the key, the signature and the digest. *)
Theorem checker_accepts_generated key_verify tx sig key :
  version tx = 2 → fromhex (sender_public_key tx) = Some key →
  Forall (λ b, 0 ≤ b < 256) sig →
  verify_v2_vector key_verify (vector_of tx sig) =
  key_verify (pub_xy key) (pub_xy sig) (signing_digest (signing_payload tx)).
Proof.
  intros Hv Hk Hs. destruct tx as [v n s r a k t p]. simpl in Hv, Hk. subst v.
  unfold verify_v2_vector, vector_of.
  set (tx := V2Tx 2 n s r a k t p).
  change (field "transaction" _) with
    (Ok (JObj (dict_set "tx_id" (JStr (tx_id (signing_payload tx)))
       (dict_set "signature" (JStr (Sha.hex sig)) (tx_json tx))))).
  cbn [mbind res_bind].
  change (res_map _ payload_keys) with
    (Ok (match signing_payload tx with JObj d => d | _ => [] end)).
  cbn [mbind res_bind signing_payload]. fold (signing_payload tx).
  change (field "signing_digest" _) with (Ok (JStr (Sha.hex (signing_digest (signing_payload tx))))).
  cbn [mbind res_bind str_is]. rewrite assert_eqb. cbn [mbind res_bind].
  change (field "tx_id" _) with (Ok (JStr (tx_id (signing_payload tx)))).
  cbn [mbind res_bind str_is]. rewrite assert_eqb. cbn [mbind res_bind].
  change (hex_field "sender_public_key" _) with (bytes_fromhex p).
  change (hex_field "signature" _) with (bytes_fromhex (Sha.hex sig)).
  unfold bytes_fromhex. by rewrite Hk, fromhex_hex.
Qed.

(** A key that accepts everything, and one that refuses. *)
Lemma checker_accepts_generated_witness :
  version fixed_tx = 2 ∧ fromhex (sender_public_key fixed_tx) = fromhex pub ∧
  verify_v2_vector (λ _ _ _, Ok ()) (vector_of fixed_tx (sample_sig 1)) = Ok () ∧
  verify_v2_vector (λ _ _ _, Err (ValueError "InvalidSignature"))
    (vector_of fixed_tx (sample_sig 1)) = Err (ValueError "InvalidSignature").
Proof.
  assert (Hs : Forall (λ b, 0 ≤ b < 256) (sample_sig 1)).
  { apply Forall_app; split; apply Sha.be_bytes_range. }
  split; [reflexivity|]. split; [reflexivity|].
  destruct (fromhex pub) as [key|] eqn:Hk; [|vm_compute in Hk; discriminate].
  split.
  - exact (checker_accepts_generated (λ _ _ _, Ok ()) fixed_tx (sample_sig 1) key eq_refl Hk Hs).
  - exact (checker_accepts_generated (λ _ _ _, Err (ValueError "InvalidSignature"))
             fixed_tx (sample_sig 1) key eq_refl Hk Hs).
Defined.
