(* ===== verification/Vectors.v ===== *)
(** * scripts/protocol_vectors/: generating and verifying the protocol vectors

    [Gen] is generate.py: one definition per vector file, which builds the
    value the script dumps; [Verify] is verify.py: one definition per check,
    over the values it loads.  A file is the value that was dumped into it; the
    text in between sorts the members, which neither script depends on, since
    members are read by key and compared by Python's [==] ([py_eq]).

    Proved: whatever the generator writes passes the verifier, for any genesis
    settings, clocks and curve library, and with the curve's key and the frozen
    signature it writes the nine published files.  The money a chain carries
    does not depend on dates and hashes ([state_from_chain_money]).  What the
    vector named after insufficient balances freezes is another rule
    ([no_coinbase_refused]). *)
From Stdlib Require Import Ascii.
From stdpp Require Import options.
From S2P Require Import Prelude Sha256 PyText Json Utils NativeAsset Wallet Transaction Block.
From S2P Require Import Consensus Settings Validators V2Reference.

Local Open Scope Z_scope.

(** ** Values *)

Abbreviation jint z := (JNum (PInt z)).

Definition hex_bytes (s : string) : string := Sha.hex (utf8 s).

Definition zeros64 : string := repeat_char "0"%char 64.

(** [first + (last - first) * i // 9]: whole, and a float if a bound is one. *)
Definition interpolate (first last : pynum) (i : Z) : pynum :=
  match first, last with
  | PInt a, PInt b => PInt (a + ((b - a) * i) / 9)
  | _, _ =>
      let d := num_val last - num_val first in
      PFlt (num_val first + (d * i / (9 * ticks)) * ticks)
  end.

(** The ten blocks of a retarget window. *)
Definition window_blocks (first last : pynum) (base : Z) : list Block.t :=
  (λ i : Z,
     let ts := if i =? 0 then first else if i =? 9 then last else interpolate first last i in
     Block.init i zeros64 [] ts 0 base "" "") <$> seqZ 0 10.

Definition next_of_window (blocks : list Block.t) : res Z :=
  ProofOfWorkConsensus.next_difficulty blocks 4 30 1 32 4.

(** Blocks numbered from zero, one per difficulty. *)
Definition work_blocks (ts : Z → pynum) (difficulties : list Z) : list Block.t :=
  imap (λ i d, Block.init (Z.of_nat i) zeros64 [] (ts (Z.of_nat i)) 0 d "" "") difficulties.

(** [Fraction(n, d)] in lowest terms, for a positive [d]. *)
Definition fraction (n d : Z) : Z * Z := (n / Z.gcd n d, d / Z.gcd n d).

Definition balances_json (b : balances) : json :=
  JObj ((λ kv, (kv.1, jint kv.2)) <$> map_to_list b).

(** ** generate.py *)

Module Gen.
Section gen.
Context `{E : ECDSA}.
(** The genesis settings, and the clock of [Transaction.new_coinbase_base_units]. *)
Context (genesis : GenesisConfig) (clock : Z).

Definition fixed_signature : string :=
  "e66e9a40bea0e745c354af08235f2d61e119f7bdfc9db8532a8c7f67138190d8" +:+
  "197cb130b5a654f0e883fd4c6572d64d80e42e8562bd2a06c78018e3e02994c4".

(** ["01".zfill(64)] *)
Definition fixed_key : string := repeat_char "0"%char 62 +:+ "01".

(** The two attributes set by hand, and the hash over them. *)
Definition freeze (wallet : Wallet.t) (tx : Transaction.t) : Transaction.t :=
  let tx := Transaction.Make (Transaction.sender tx) (Transaction.receiver tx)
              (Transaction.amount_base_units tx) (Transaction.timestamp tx)
              (Some (Wallet.public_key_hex wallet)) (Some fixed_signature)
              (Transaction.tx_hash tx) in
  Transaction.set_tx_hash (Transaction.compute_hash tx) tx.

Definition fixed_transaction : res (Wallet.t * Transaction.t) :=
  wallet ← Wallet.from_private_key fixed_key;
  let receiver := "SYJ" +:+ repeat_char "1"%char 40 in
  tx ← Transaction.init clock (Wallet.address wallet) receiver None (Some (jint 123456789))
         (Some (PFlt 7280009837281280)) None None "";
  let tx := freeze wallet tx in
  _ ← assert (Transaction.verify tx);
  Ok (wallet, tx).

Definition genesis_block_of (timestamp : pynum) (previous_hash : string) (nonce : Z) : res Block.t :=
  Block.genesis previous_hash timestamp nonce (genesis_message genesis).

Definition gen_genesis : res json :=
  g ← genesis_block_of (genesis_timestamp genesis) (genesis_previous_hash genesis)
        (genesis_nonce genesis);
  let header := JObj (Block.header_payload g) in
  Ok (JObj
    [("vector_format_version", jint 1);
     ("reference", JStr "Python implementation");
     ("inputs", JObj
        [("index", jint (genesis_index genesis));
         ("previous_hash", JStr (genesis_previous_hash genesis));
         ("timestamp", JNum (genesis_timestamp genesis));
         ("nonce", jint (genesis_nonce genesis));
         ("difficulty", jint (Block.difficulty g));
         ("message", JStr (genesis_message genesis))]);
     ("genesis_transaction_hash", JStr (default "" (head (Block.tx_hashes g))));
     ("header_payload", header);
     ("canonical_header_json", JStr (deterministic_json header));
     ("canonical_header_utf8_hex", JStr (hex_bytes (deterministic_json header)));
     ("block_hash", JStr (Block.hash g));
     ("genesis_allocation", JStr "undefined; no allocation is frozen by this vector")]).

Definition gen_address : res json :=
  w ← Wallet.from_private_key fixed_key;
  Ok (JObj
    [("vector_format_version", jint 1);
     ("curve", JStr "SECP256k1");
     ("private_key_hex", JStr (Wallet.private_key_hex w));
     ("public_key_representation", JStr "VerifyingKey.to_string().hex()");
     ("public_key_hex", JStr (Wallet.public_key_hex w));
     ("address_rule", JStr (String dq ("SYJ" +:+ String dq
        " + first 40 hex chars of SHA-256(UTF-8(public_key_hex))")));
     ("public_key_utf8_hex", JStr (hex_bytes (Wallet.public_key_hex w)));
     ("public_key_sha256", JStr (sha256 (Wallet.public_key_hex w)));
     ("address", JStr (Wallet.address w))]).

Definition gen_transaction : res json :=
  wt ← fixed_transaction;
  let '(w, tx) := wt in
  let payload := Transaction.signing_payload tx in
  let message := Transaction.signing_message tx in
  let pk := opt_str_json (Transaction.sender_public_key tx) in
  let sig := opt_str_json (Transaction.signature tx) in
  let hash_payload := dict_set "signature" sig (dict_set "sender_public_key" pk payload) in
  let hash_text := deterministic_json (JObj hash_payload) in
  Ok (JObj
    [("vector_format_version", jint 1);
     ("signature_generation",
        JStr "not deterministic; fixed signature fixture is normative for this vector");
     ("curve", JStr "SECP256k1");
     ("private_key_hex", JStr (Wallet.private_key_hex w));
     ("public_key_hex", JStr (Wallet.public_key_hex w));
     ("sender", JStr (Transaction.sender tx));
     ("receiver", JStr (Transaction.receiver tx));
     ("amount_base_units", jint (Transaction.amount_base_units tx));
     ("timestamp", JNum (Transaction.timestamp tx));
     ("signing_payload", JObj payload);
     ("canonical_signing_message", JStr message);
     ("canonical_signing_message_utf8_hex", JStr (hex_bytes message));
     ("sender_public_key", pk);
     ("fixed_signature", sig);
     ("signature_verifies", JBool (verify_signature
        (default "" (Transaction.sender_public_key tx)) message
        (default "" (Transaction.signature tx))));
     ("transaction_hash_payload", JObj hash_payload);
     ("canonical_transaction_hash_json", JStr hash_text);
     ("canonical_transaction_hash_utf8_hex", JStr (hex_bytes hash_text));
     ("transaction_hash", JStr (Transaction.tx_hash tx))]).

Definition merkle_case (name : string) (vals : list string) : json :=
  JObj [("name", JStr name); ("transaction_hashes", JArr (JStr <$> vals));
        ("expected_merkle_root", JStr (merkle_root vals))].

Definition gen_merkle : res json :=
  wt ← fixed_transaction;
  let leaves := [Transaction.tx_hash wt.2; sha256 "SYJ-vector-leaf-2"; sha256 "SYJ-vector-leaf-3";
                 sha256 "SYJ-vector-leaf-4"; sha256 "SYJ-vector-leaf-5"] in
  let cases := (λ nv, merkle_case nv.1 nv.2) <$>
    [("empty", []); ("one", take 1 leaves); ("two", take 2 leaves);
     ("three", take 3 leaves); ("five", take 5 leaves)] in
  Ok (JObj [("vector_format_version", jint 1); ("leaf_rule", JStr "transaction hash strings");
            ("odd_rule", JStr "duplicate final hash at each odd level");
            ("empty_rule", JStr "SHA-256(empty UTF-8 string)"); ("cases", JArr cases)]).

(** block.json and pow.json *)
Definition gen_block_pow : res (json * json) :=
  wt ← fixed_transaction;
  let b := Block.init 1 (repeat_char "a"%char 64) [wt.2] (PFlt 7280009963110400) 104 2 "" "" in
  let header := JObj (Block.header_payload b) in
  let block := JObj
    [("vector_format_version", jint 1);
     ("header_fields", JArr (JStr <$> ["index"; "previous_hash"; "timestamp"; "nonce";
                                       "difficulty"; "merkle_root"]));
     ("header_payload", header);
     ("canonical_header_json", JStr (deterministic_json header));
     ("canonical_header_utf8_hex", JStr (hex_bytes (deterministic_json header)));
     ("expected_block_hash", JStr (Block.hash b));
     ("merkle_root", JStr (Block.merkle_root b))] in
  let pow_cases := (λ d : Z, JObj
    [("difficulty", jint d); ("hash", JStr (Block.hash b));
     ("meets_difficulty", JBool (Block.meets_difficulty b d))]) <$> [0; 1; 2; 3] in
  Ok (block, JObj
    [("vector_format_version", jint 1);
     ("rule", JStr "hash starts with difficulty count of hexadecimal '0' characters");
     ("cases", JArr pow_cases)]).

Definition difficulty_case (name : string) (first last : pynum) (base : Z) : res json :=
  let blocks := window_blocks first last base in
  let expected := 9 * 30 in
  let actual := num_sub last first in
  let actual_int := num_int (if num_le actual (PInt 0) then PInt 1 else actual) in
  let min_ts := Z.max 1 (expected / 4) in
  let max_ts := expected * 4 in
  let clamped := Z.max min_ts (Z.min actual_int max_ts) in
  let current_work := 16 ^ Z.max base 0 in
  let '(num, den) := fraction (current_work * expected) clamped in
  final ← next_of_window blocks;
  Ok (JObj
    [("name", JStr name); ("window_size", jint 10); ("first_timestamp", JNum first);
     ("last_timestamp", JNum last); ("actual_timespan", JNum (num_sub last first));
     ("expected_timespan", jint expected); ("clamped_timespan", jint clamped);
     ("previous_difficulty", jint base); ("current_work", jint current_work);
     ("target_work_numerator", jint num); ("target_work_denominator", jint den);
     ("target_work", JStr (str_Z num +:+ "/" +:+ str_Z den));
     ("expected_difficulty", jint final)]).

Definition gen_difficulty : res json :=
  c1 ← difficulty_case "normal" (PInt 1000) (PInt 1270) 4;
  c2 ← difficulty_case "faster_than_target" (PInt 1000) (PInt 1068) 4;
  c3 ← difficulty_case "slower_than_target" (PInt 1000) (PInt 2080) 4;
  c4 ← difficulty_case "extreme_fast_clamped" (PInt 1000) (PInt 1001) 4;
  c5 ← difficulty_case "extreme_slow_clamped" (PFlt (1000 * ticks)) (PFlt (6000 * ticks)) 4;
  c6 ← difficulty_case "minimum_floor" (PInt 1000) (PInt 2080) 1;
  c7 ← difficulty_case "maximum_ceiling" (PInt 1000) (PInt 1068) 32;
  Ok (JObj
    [("vector_format_version", jint 1);
     ("configuration", JObj
        [("target_block_time", jint 30); ("adjustment_interval", jint 10);
         ("min_difficulty", jint 1); ("max_difficulty", jint 32);
         ("max_adjustment_factor", jint 4)]);
     ("cases", JArr [c1; c2; c3; c4; c5; c6; c7])]).

Definition gen_chain_work : res json :=
  let difficulties := [0; 1; 2; 4; 8] in
  let blocks := work_blocks (λ i, PFlt ((1735689600 + i) * ticks)) difficulties in
  Ok (JObj
    [("vector_format_version", jint 1); ("rule", JStr "sum(16 ** max(block.difficulty, 0))");
     ("cases", JArr
        [JObj [("difficulties", JArr ((λ d, jint d) <$> difficulties));
               ("per_block_work", JArr ((λ d, jint (16 ^ d)) <$> difficulties));
               ("accumulated_work", jint (chain_work blocks))];
         JObj [("difficulties", JArr ((λ d, jint d) <$> [3; 3; 4]));
               ("per_block_work", JArr [jint (16 ^ 3); jint (16 ^ 3); jint (16 ^ 4)]);
               ("accumulated_work", jint (16 ^ 3 + 16 ^ 3 + 16 ^ 4))]])]).

(** [str(from_base_units(to_base_units(x)))] *)
Definition round_trip (x : string) : res json :=
  n ← to_base_units (AStr x); d ← from_base_units n; Ok (JStr (Dec.to_string d)).

Definition gen_monetary : res json :=
  wt ← fixed_transaction;
  let tx := wt.2 in
  reward ← to_base_units (AStr "50.0");
  let receiver := "SYJ" +:+ repeat_char "2"%char 40 in
  g ← genesis_block_of (PFlt (1735689600 * ticks)) zeros64 0;
  cb ← Transaction.new_coinbase_base_units clock receiver reward;
  let at1 := PFlt (1735689630 * ticks) in
  let at2 := PFlt (1735689660 * ticks) in
  let b1 := Block.init 1 (Block.hash g) [cb] at1 0 0 "" "" in
  let '(bal, supply, reason) := state_from_chain [g; b1] reward MAX_SUPPLY_BASE_UNITS in
  cb_max ← Transaction.new_coinbase_base_units clock receiver MAX_SUPPLY_BASE_UNITS;
  let bmax := Block.init 1 (Block.hash g) [cb_max] at1 0 0 "" "" in
  cb_extra ← Transaction.new_coinbase_base_units clock receiver 1;
  let bextra := Block.init 2 (Block.hash bmax) [cb_extra] at2 0 0 "" "" in
  let '(_, capped_supply, cap_reason) :=
    state_from_chain [g; bmax] MAX_SUPPLY_BASE_UNITS MAX_SUPPLY_BASE_UNITS in
  let '(_, _, exhausted_reason) := state_from_chain [g; bmax; bextra] reward MAX_SUPPLY_BASE_UNITS in
  let '(_, _, insufficient_reason) :=
    state_from_chain [g; b1; Block.init 2 (Block.hash b1) [tx] at2 0 0 "" ""] reward
      MAX_SUPPLY_BASE_UNITS in
  let inputs := ["1"; "50.0"; "0.00000001"; "720000000"] in
  units ← res_map (λ x, to_base_units (AStr x)) inputs;
  trips ← res_map round_trip inputs;
  formatted ← format_amount 123456789;
  let over := validate_base_units (MAX_SUPPLY_BASE_UNITS + 1) false in
  Ok (JObj
    [("vector_format_version", jint 1); ("symbol", JStr "SYJ");
     ("base_units_per_syj", jint BASE_UNITS_PER_SYJ);
     ("max_supply_syj", JStr (Dec.to_string (Dec.of_Z MAX_SUPPLY_SYJ)));
     ("max_supply_base_units", jint MAX_SUPPLY_BASE_UNITS);
     ("default_block_reward_syj", JStr "50"); ("default_block_reward_base_units", jint reward);
     ("cases", JArr
        [JObj [("name", JStr "conversion"); ("inputs", JArr (JStr <$> inputs));
               ("base_units", JArr ((λ z, jint z) <$> units)); ("round_trip", JArr trips)];
         JObj [("name", JStr "format_amount"); ("base_units", jint 123456789);
               ("formatted", JStr formatted)];
         JObj [("name", JStr "single_reward_issuance"); ("balances", balances_json bal);
               ("total_supply", jint supply); ("reason", JStr reason)];
         JObj [("name", JStr "maximum_supply_boundary"); ("total_supply", jint capped_supply);
               ("reason", JStr cap_reason)];
         JObj [("name", JStr "post_exhaustion_issuance_rejected"); ("reason", JStr exhausted_reason)];
         JObj [("name", JStr "insufficient_balance_rejected"); ("reason", JStr insufficient_reason)];
         JObj [("name", JStr "invalid_conversion_over_supply"); ("valid", JBool over.1);
               ("reason", JStr over.2)]])]).

(** The files, by name. *)
Definition main : res (list (string * json)) :=
  genesis ← gen_genesis; address ← gen_address; transaction ← gen_transaction;
  merkle ← gen_merkle; bp ← gen_block_pow; difficulty ← gen_difficulty;
  work ← gen_chain_work; monetary ← gen_monetary;
  Ok [("genesis.json", genesis); ("address.json", address); ("transaction.json", transaction);
      ("merkle.json", merkle); ("block.json", bp.1); ("pow.json", bp.2);
      ("difficulty.json", difficulty); ("chain_work.json", work); ("monetary.json", monetary)].
End gen.
End Gen.

(** ** Python's [==] *)

Definition num_of (j : json) : option Z :=
  match j with
  | JNum n => Some (num_val n)
  | JBool b => Some (if b then ticks else 0)
  | _ => None
  end.

(** [a == b]: numbers by value, a boolean as 0 or 1, lists in order,
    dictionaries by key. *)
Fixpoint py_eq (a b : json) : bool :=
  match a, b with
  | JNull, JNull => true
  | JStr s, JStr t => String.eqb s t
  | JArr l, JArr l' =>
      (fix go l l' : bool :=
         match l, l' with
         | [], [] => true
         | x :: l, y :: l' => py_eq x y && go l l'
         | _, _ => false
         end) l l'
  | JObj d, JObj d' =>
      (length d =? length d')%nat &&
      (fix go d : bool :=
         match d with
         | [] => true
         | (k, x) :: d =>
             match dict_get k d' with Some y => py_eq x y | None => false end && go d
         end) d
  | _, _ =>
      match num_of a, num_of b with
      | Some x, Some y => x =? y
      | _, _ => false
      end
  end.

Lemma py_eq_refl j : json_ok j = true → py_eq j j = true.
Proof.
  induction j as [|b|n|s|l IH|d IH] using json_nested_ind; intros Hok.
  - done.
  - apply Z.eqb_refl.
  - apply Z.eqb_refl.
  - apply String.eqb_refl.
  - simpl in *. induction IH as [|x l Hx _ IHl]; [done|].
    simpl in Hok. apply andb_true_iff in Hok as [??]. rewrite Hx by done. by apply IHl.
  - cbn [py_eq]. rewrite Nat.eqb_refl. cbn [andb].
    simpl in Hok. apply andb_true_iff in Hok as [Hnd Hall]. apply bool_decide_eq_true in Hnd.
    assert (Hsub : ∀ k x, (k, x) ∈ d → dict_get k d = Some x) by (intros; by apply dict_get_Some).
    revert Hsub Hall. generalize d at 2 4 as d'. clear Hnd.
    induction IH as [|[k x] d Hx _ IHd]; intros d' Hsub Hall; [done|].
    simpl in Hall. apply andb_true_iff in Hall as [Hxo Hall].
    cbn in Hx. rewrite (Hsub k x), Hx by (done || set_solver). apply IHd; [|done].
    intros. apply Hsub. by right.
Qed.

(** ** verify.py *)

Module Verify.
Section verify.
Context `{E : ECDSA} (genesis : GenesisConfig) (clock : Z).

Definition check (ok : bool) (msg : string) : res unit :=
  if ok then Ok tt else Err (AssertionError msg).

(** [v[k]], as the type the next operation needs. *)
Definition get_str (k : string) (v : json) : res string := field k v ≫= as_str k.
Definition get_int (k : string) (v : json) : res Z := field k v ≫= Block.as_int k.
Definition get_num (k : string) (v : json) : res pynum := field k v ≫= Block.as_num k.
Definition get_list (k : string) (v : json) : res (list json) := field k v ≫= Block.as_list k.

(** [v[k] == x] *)
Definition same (k : string) (v x : json) (msg : string) : res unit :=
  y ← field k v; check (py_eq y x) msg.

(** [for c in l: f(c)] *)
Fixpoint each (f : json → res unit) (l : list json) : res unit :=
  match l with
  | [] => Ok tt
  | x :: l => _ ← f x; each f l
  end.

Definition verify_genesis (v : json) : res unit :=
  g ← Block.genesis (genesis_previous_hash genesis) (genesis_timestamp genesis)
        (genesis_nonce genesis) (genesis_message genesis);
  let header := JObj (Block.header_payload g) in
  _ ← same "genesis_transaction_hash" v (JStr (default "" (head (Block.tx_hashes g)))) "genesis tx hash drift";
  _ ← same "header_payload" v header "genesis header drift";
  _ ← same "canonical_header_json" v (JStr (deterministic_json header)) "genesis serialization drift";
  _ ← field "canonical_header_utf8_hex" v;
  _ ← same "canonical_header_utf8_hex" v (JStr (hex_bytes (deterministic_json header))) "genesis bytes drift";
  same "block_hash" v (JStr (Block.hash g)) "genesis block hash drift".

Definition verify_address (v : json) : res unit :=
  key ← get_str "private_key_hex" v;
  w ← Wallet.from_private_key key;
  _ ← same "public_key_hex" v (JStr (Wallet.public_key_hex w)) "public key drift";
  pk ← get_str "public_key_hex" v;
  _ ← same "address" v (JStr (derive_address pk)) "address drift";
  same "public_key_sha256" v (JStr (sha256 pk)) "address hash drift".

(** The transaction of transaction.json. *)
Definition fixture (v : json) : res Transaction.t :=
  sender ← get_str "sender" v; receiver ← get_str "receiver" v;
  units ← field "amount_base_units" v; ts ← get_num "timestamp" v;
  pk ← field "sender_public_key" v ≫= as_opt_str "sender_public_key";
  sig ← field "fixed_signature" v ≫= as_opt_str "fixed_signature";
  h ← get_str "transaction_hash" v;
  Transaction.init clock sender receiver None (Some units) (Some ts) pk sig h.

Definition verify_tx (v : json) : res unit :=
  tx ← fixture v;
  let message := Transaction.signing_message tx in
  _ ← same "signing_payload" v (JObj (Transaction.signing_payload tx)) "signing payload drift";
  _ ← same "canonical_signing_message" v (JStr message) "signing message drift";
  _ ← same "canonical_signing_message_utf8_hex" v (JStr (hex_bytes message)) "signing bytes drift";
  pk ← get_str "public_key_hex" v; sig ← get_str "fixed_signature" v;
  _ ← check (verify_signature pk message sig) "fixed signature no longer verifies";
  _ ← same "transaction_hash" v (JStr (Transaction.compute_hash tx)) "transaction hash drift";
  check (Transaction.verify tx) "transaction fixture rejected".

Definition verify_merkle (v : json) : res unit :=
  cases ← get_list "cases" v;
  each (λ c,
    hashes ← get_list "transaction_hashes" c; hashes ← res_map (as_str "transaction_hashes") hashes;
    y ← field "expected_merkle_root" c; name ← get_str "name" c;
    check (py_eq (JStr (merkle_root hashes)) y) ("merkle drift: " +:+ name)) cases.

Definition verify_block_pow (v p : json) : res unit :=
  h ← field "header_payload" v;
  index ← get_int "index" h; previous_hash ← get_str "previous_hash" h;
  ts ← get_num "timestamp" h; nonce ← get_int "nonce" h; difficulty ← get_int "difficulty" h;
  root ← get_str "merkle_root" h;
  let b := Block.init index previous_hash [] ts nonce difficulty root "" in
  _ ← check (py_eq (JObj (Block.header_payload b)) h) "block header drift";
  _ ← same "canonical_header_json" v (JStr (deterministic_json h)) "block serialization drift";
  _ ← same "canonical_header_utf8_hex" v (JStr (hex_bytes (deterministic_json h))) "block bytes drift";
  _ ← same "expected_block_hash" v (JStr (Block.hash b)) "block hash drift";
  cases ← get_list "cases" p;
  each (λ c,
    d ← get_int "difficulty" c;
    same "meets_difficulty" c (JBool (Block.meets_difficulty b d)) ("pow drift: " +:+ str_Z d)) cases.

(** [Fraction(n, d)]: [d] must be an integer. *)
Definition fraction_of (n : Z) (d : pynum) : res (Z * Z) :=
  match d with
  | PInt d => Ok (fraction n d)
  | PFlt _ => Err (TypeError "both arguments should be Rational instances")
  end.

Definition verify_case (c : json) : res unit :=
  first ← get_num "first_timestamp" c; last ← get_num "last_timestamp" c;
  base ← get_int "previous_difficulty" c;
  let blocks := window_blocks first last base in
  let actual := num_sub last first in
  let actual_guard := if num_le actual (PInt 0) then PInt 1 else actual in
  let expected := 9 * 30 in
  let clamped := num_max (PInt (expected / 4)) (num_min actual_guard (PInt (expected * 4))) in
  target ← fraction_of (16 ^ Z.max base 0 * expected) clamped;
  got ← next_of_window blocks;
  name ← get_str "name" c;
  let drift key := "difficulty drift " +:+ name +:+ ": " +:+ key in
  let key_is key val := same key c val (drift key) in
  _ ← key_is "actual_timespan" (JNum actual);
  _ ← key_is "expected_timespan" (jint expected);
  _ ← key_is "clamped_timespan" (JNum clamped);
  _ ← key_is "current_work" (jint (16 ^ Z.max base 0));
  _ ← key_is "target_work_numerator" (jint target.1);
  _ ← key_is "target_work_denominator" (jint target.2);
  key_is "expected_difficulty" (jint got).

Definition verify_difficulty (v : json) : res unit :=
  cases ← get_list "cases" v; each verify_case cases.

Definition verify_work (v : json) : res unit :=
  cases ← get_list "cases" v;
  each (λ c,
    ds ← get_list "difficulties" c; ds ← res_map (Block.as_int "difficulties") ds;
    let blocks := work_blocks (λ i, PInt (1735689600 + i)) ds in
    _ ← same "per_block_work" c (JArr ((λ d, jint (16 ^ d)) <$> ds)) "per-block work drift";
    same "accumulated_work" c (jint (chain_work blocks)) "chain work drift") cases.

(** [l[i]] *)
Definition item (i : nat) (l : list json) : res json :=
  match l !! i with Some x => Ok x | None => Err (KeyError "list index out of range") end.

(** [for x, b in zip(inputs, base_units)] *)
Fixpoint check_units (xs : list string) (bs : list json) : res unit :=
  match xs, bs with
  | x :: xs, b :: bs =>
      n ← to_base_units (AStr x);
      _ ← check (py_eq (jint n) b) "conversion drift";
      check_units xs bs
  | _, _ => Ok tt
  end.

Definition verify_monetary (v txv : json) : res unit :=
  _ ← same "base_units_per_syj" v (jint BASE_UNITS_PER_SYJ) "base unit constant drift";
  _ ← same "max_supply_base_units" v (jint MAX_SUPPLY_BASE_UNITS) "max supply drift";
  r ← to_base_units (AStr "50.0");
  _ ← same "default_block_reward_base_units" v (jint r) "reward conversion drift";
  cases ← get_list "cases" v;
  c0 ← item 0 cases;
  units ← get_list "base_units" c0;
  _ ← check_units ["1"; "50.0"; "0.00000001"; "720000000"] units;
  f ← format_amount 123456789;
  c1 ← item 1 cases;
  _ ← same "formatted" c1 (JStr f) "amount formatting drift";
  g ← Block.genesis zeros64 (genesis_timestamp genesis) (genesis_nonce genesis)
        (genesis_message genesis);
  let receiver := "SYJ" +:+ repeat_char "2"%char 40 in
  reward ← get_int "default_block_reward_base_units" v;
  cb ← Transaction.new_coinbase_base_units clock receiver reward;
  let at1 := PInt 1735689630 in
  let at2 := PInt 1735689660 in
  let b1 := Block.init 1 (Block.hash g) [cb] at1 0 0 "" "" in
  let '(bal, supply, reason) := state_from_chain [g; b1] reward MAX_SUPPLY_BASE_UNITS in
  c2 ← item 2 cases;
  b ← field "balances" c2; s ← field "total_supply" c2; rs ← field "reason" c2;
  _ ← check (py_eq (balances_json bal) b && py_eq (jint supply) s && py_eq (JStr reason) rs)
        "issuance drift";
  cbmax ← Transaction.new_coinbase_base_units clock receiver MAX_SUPPLY_BASE_UNITS;
  let bmax := Block.init 1 (Block.hash g) [cbmax] at1 0 0 "" "" in
  let '(_, supply, _) := state_from_chain [g; bmax] MAX_SUPPLY_BASE_UNITS MAX_SUPPLY_BASE_UNITS in
  _ ← check (supply =? MAX_SUPPLY_BASE_UNITS) "max supply boundary drift";
  cbextra ← Transaction.new_coinbase_base_units clock receiver 1;
  let bextra := Block.init 2 (Block.hash bmax) [cbextra] at2 0 0 "" "" in
  let '(_, _, reason2) := state_from_chain [g; bmax; bextra] reward MAX_SUPPLY_BASE_UNITS in
  c4 ← item 4 cases;
  _ ← same "reason" c4 (JStr reason2) "exhaustion rule drift";
  tx ← fixture txv;
  let bad := Block.init 2 (Block.hash b1) [tx] at2 0 0 "" "" in
  let '(_, _, reason3) := state_from_chain [g; b1; bad] reward MAX_SUPPLY_BASE_UNITS in
  c5 ← item 5 cases;
  _ ← same "reason" c5 (JStr reason3) "insufficient balance rule drift";
  check (negb (validate_base_units (MAX_SUPPLY_BASE_UNITS + 1) false).1) "over-supply amount accepted".

(** The value in a file of the directory. *)
Definition load (files : list (string * json)) (name : string) : res json :=
  match dict_get name files with
  | Some v => Ok v
  | None => Err (KeyError name)
  end.

(** The checks in order. *)
Definition main (files : list (string * json)) : res unit :=
  let load := load files in
  _ ← load "genesis.json" ≫= verify_genesis;
  _ ← load "address.json" ≫= verify_address;
  _ ← load "transaction.json" ≫= verify_tx;
  _ ← load "merkle.json" ≫= verify_merkle;
  block ← load "block.json"; pow ← load "pow.json";
  _ ← verify_block_pow block pow;
  _ ← load "difficulty.json" ≫= verify_difficulty;
  _ ← load "chain_work.json" ≫= verify_work;
  monetary ← load "monetary.json"; transaction ← load "transaction.json";
  verify_monetary monetary transaction.
End verify.
End Verify.

(** ** Lemmas *)

Lemma field_get k d x : dict_get k d = Some x → field k (JObj d) = Ok x.
Proof. simpl. by intros ->. Qed.

Section same_lemmas.
Context (k msg : string) (d : list (string * json)).

Lemma same_refl x :
  dict_get k d = Some x → json_ok x = true → Verify.same k (JObj d) x msg = Ok tt.
Proof.
  intros Hk Hx. unfold Verify.same. rewrite (field_get _ _ _ Hk). cbn [mbind res_bind].
  by rewrite py_eq_refl.
Qed.

Lemma same_str s : dict_get k d = Some (JStr s) → Verify.same k (JObj d) (JStr s) msg = Ok tt.
Proof. intros. by apply same_refl. Qed.

Lemma same_int z : dict_get k d = Some (jint z) → Verify.same k (JObj d) (jint z) msg = Ok tt.
Proof. intros. by apply same_refl. Qed.

Lemma same_bool b : dict_get k d = Some (JBool b) → Verify.same k (JObj d) (JBool b) msg = Ok tt.
Proof. intros. by apply same_refl. Qed.
End same_lemmas.

Lemma ok_bind {A B} (r : res A) (f : A → res B) a y : r = Ok a → f a = y → r ≫= f = y.
Proof. by intros ->. Qed.

(** A comparison of a member with the value it was written from. *)
Ltac member_same :=
  lazymatch goal with
  | |- Verify.same _ _ (JStr _) _ = _ => apply same_str; reflexivity
  | |- Verify.same _ _ (JNum (PInt _)) _ = _ => apply same_int; reflexivity
  | |- Verify.same _ _ (JBool _) _ = _ => apply same_bool; reflexivity
  | |- Verify.same _ _ _ _ = _ =>
      apply same_refl;
      [reflexivity
      |first [apply Block.header_payload_ok | apply Transaction.signing_payload_ok | reflexivity]]
  end.

(** The next statement of a script that succeeds: a comparison, a read. *)
Ltac passes :=
  lazymatch goal with
  | |- Verify.same _ _ _ _ = _ => member_same
  | |- Verify.same _ _ _ _ ≫= _ = _ => eapply ok_bind; [member_same|cbn beta]
  | |- field _ _ ≫= _ = _ => eapply ok_bind; [apply field_get; reflexivity|cbn beta]
  | |- (field _ _ ≫= _) ≫= _ = _ =>
      eapply ok_bind; [eapply ok_bind; [apply field_get; reflexivity|]; reflexivity|cbn beta]
  end.

Lemma each_map {A} (g : A → json) (f : json → res unit) (l : list A) :
  Forall (λ x, f (g x) = Ok tt) l → Verify.each f (g <$> l) = Ok tt.
Proof. induction 1 as [|x l Hx _ IH]; [done|]. cbn. by rewrite Hx. Qed.

Lemma strings_read field l : res_map (as_str field) (JStr <$> l) = Ok l.
Proof. induction l as [|s l IH]; [done|]. cbn. by rewrite IH. Qed.

Lemma sha256_nonempty s : String.eqb (sha256 s) "" = false.
Proof.
  apply String.eqb_neq. intros E. apply (f_equal String.length) in E.
  by rewrite length_sha256 in E.
Qed.

(** ** What the generator writes passes *)

Section generated.
Context `{E : ECDSA} (genesis : GenesisConfig) (clock clock' : Z).

Lemma genesis_passes v :
  Gen.gen_genesis genesis = Ok v → Verify.verify_genesis genesis v = Ok tt.
Proof.
  unfold Gen.gen_genesis, Gen.genesis_block_of, Verify.verify_genesis.
  destruct (Block.genesis _ _ _ _) as [g|]; [|done]. cbn [mbind res_bind].
  intros E'. apply (inj Ok) in E'. subst v.
  repeat passes.
Qed.

Lemma from_private_key_lower w :
  Wallet.from_private_key Gen.fixed_key = Ok w → Wallet.private_key_hex w = Gen.fixed_key.
Proof.
  unfold Wallet.from_private_key. destruct (catch _ _ _) as [p|]; [|done].
  cbn [mbind res_bind]. destruct (Wallet.public_hex p); [|done]. by intros [= <-].
Qed.

Lemma from_private_key_address w key :
  Wallet.from_private_key key = Ok w → Wallet.address w = derive_address (Wallet.public_key_hex w).
Proof.
  unfold Wallet.from_private_key. destruct (catch _ _ _) as [p|]; [|done].
  cbn [mbind res_bind]. destruct (Wallet.public_hex p); [|done]. by intros [= <-].
Qed.

Lemma address_passes v : Gen.gen_address = Ok v → Verify.verify_address v = Ok tt.
Proof.
  unfold Gen.gen_address. destruct (Wallet.from_private_key Gen.fixed_key) as [w|] eqn:Hw; [|done].
  cbn [mbind res_bind]. intros E'. apply (inj Ok) in E'. subst v.
  assert (Ha := from_private_key_address _ _ Hw). apply from_private_key_lower in Hw as Hk.
  unfold Verify.verify_address, Verify.get_str. passes. rewrite Hk, Hw. cbn [mbind res_bind].
  passes. passes. rewrite <-Ha. repeat passes.
Qed.

Lemma freeze_spec w tx :
  Transaction.tx_hash (Gen.freeze w tx) = Transaction.compute_hash (Gen.freeze w tx) ∧
  Transaction.sender_public_key (Gen.freeze w tx) = Some (Wallet.public_key_hex w) ∧
  Transaction.signature (Gen.freeze w tx) = Some Gen.fixed_signature.
Proof. by destruct tx. Qed.

(** The generator's transaction verifies, and its hash is its own. *)
Lemma fixed_transaction_spec w tx :
  Gen.fixed_transaction clock = Ok (w, tx) →
  Transaction.verify tx = true ∧
  Transaction.tx_hash tx = Transaction.compute_hash tx ∧
  Transaction.sender_public_key tx = Some (Wallet.public_key_hex w) ∧
  Transaction.signature tx = Some Gen.fixed_signature.
Proof.
  unfold Gen.fixed_transaction.
  destruct (Wallet.from_private_key Gen.fixed_key) as [w'|]; [|discriminate]. cbn [mbind res_bind].
  destruct (Transaction.init _ _ _ _ _ _ _ _ _) as [tx0|]; [|discriminate]. cbn [mbind res_bind].
  assert (Hs := freeze_spec w' tx0). unfold assert.
  destruct (Transaction.verify (Gen.freeze w' tx0)) eqn:Hv; [|discriminate]. cbn [mbind res_bind].
  intros E'. apply (inj Ok), pair_equal_spec in E' as [<- <-]. by split.
Qed.

(** Reading a transaction back from its fields. *)
Lemma init_fields tx pk sig :
  Transaction.sender_public_key tx = Some pk → Transaction.signature tx = Some sig →
  Transaction.tx_hash tx = Transaction.compute_hash tx →
  Transaction.init clock' (Transaction.sender tx) (Transaction.receiver tx) None
    (Some (jint (Transaction.amount_base_units tx))) (Some (Transaction.timestamp tx))
    (Some pk) (Some sig) (Transaction.tx_hash tx) = Ok tx.
Proof.
  destruct tx as [s r a ts pk' sig' h]. cbn [Transaction.sender_public_key Transaction.signature
    Transaction.tx_hash Transaction.sender Transaction.receiver Transaction.amount_base_units
    Transaction.timestamp].
  intros -> -> Hh. unfold Transaction.init. cbn [mbind res_bind default].
  rewrite Hh at 1. unfold Transaction.compute_hash at 1. rewrite sha256_nonempty. reflexivity.
Qed.

Lemma transaction_read v :
  Gen.gen_transaction clock = Ok v →
  ∃ w tx, Gen.fixed_transaction clock = Ok (w, tx) ∧ Verify.fixture clock' v = Ok tx.
Proof.
  unfold Gen.gen_transaction. destruct (Gen.fixed_transaction clock) as [[w tx]|] eqn:Hf; [|discriminate].
  cbn [mbind res_bind]. intros E'. apply (inj Ok) in E'. subst v. exists w, tx. split; [reflexivity|].
  destruct (fixed_transaction_spec _ _ Hf) as (_ & Hh & Hpk & Hsig). rewrite Hpk, Hsig.
  unfold Verify.fixture, Verify.get_str, Verify.get_num. repeat passes. by apply init_fields.
Qed.
Lemma signature_passes tx pk sig :
  Transaction.verify tx = true → Transaction.sender_public_key tx = Some pk →
  Transaction.signature tx = Some sig →
  verify_signature pk (Transaction.signing_message tx) sig = true.
Proof.
  intros Hv Hpk Hsig. apply Transaction.verify_spec in Hv as (_ & _ & _ & Hv).
  destruct (Transaction.is_coinbase tx); [destruct Hv; congruence|].
  destruct Hv as (_ & pk' & sig' & ? & ? & _ & _ & _ & Hv). congruence.
Qed.

Lemma transaction_passes v : Gen.gen_transaction clock = Ok v → Verify.verify_tx clock' v = Ok tt.
Proof.
  intros Hg. destruct (transaction_read v Hg) as (w & tx & Hf & Hr).
  unfold Gen.gen_transaction in Hg. rewrite Hf in Hg. cbn [mbind res_bind] in Hg.
  apply (inj Ok) in Hg. destruct (fixed_transaction_spec _ _ Hf) as (Hv & Hh & Hpk & Hsig).
  rewrite Hpk, Hsig in Hg. unfold Verify.verify_tx. rewrite Hr. subst v. clear Hr.
  cbn [mbind res_bind]. unfold Verify.get_str. repeat passes.
  rewrite (signature_passes tx _ _ Hv Hpk Hsig). cbn [Verify.check mbind res_bind].
  rewrite Hh. passes. by rewrite Hv.
Qed.

Lemma merkle_passes v : Gen.gen_merkle clock = Ok v → Verify.verify_merkle v = Ok tt.
Proof.
  unfold Gen.gen_merkle. destruct (Gen.fixed_transaction clock) as [[w tx]|]; [|discriminate].
  cbn [mbind res_bind snd]. intros E'. apply (inj Ok) in E'. subst v.
  unfold Verify.verify_merkle, Verify.get_list. passes. apply each_map.
  apply Forall_true. intros [name vals]. cbn [fst snd]. unfold Gen.merkle_case, Verify.get_str.
  passes. rewrite strings_read. cbn [mbind res_bind]. passes. passes.
  cbn [py_eq]. by rewrite String.eqb_refl.
Qed.

(** A block rebuilt from its header has that header and its hash. *)
Lemma init_header b :
  Block.merkle_root b ≠ "" → Block.hash b = Block.compute_hash b →
  let b' := Block.init (Block.index b) (Block.previous_hash b) [] (Block.timestamp b)
              (Block.nonce b) (Block.difficulty b) (Block.merkle_root b) "" in
  Block.header_payload b' = Block.header_payload b ∧ Block.hash b' = Block.hash b.
Proof.
  intros Hr%String.eqb_neq ->. unfold Block.init, Block.post_init.
  cbn [Block.merkle_root]. rewrite Hr. split; reflexivity.
Qed.

Lemma block_pow_passes b p :
  Gen.gen_block_pow clock = Ok (b, p) → Verify.verify_block_pow b p = Ok tt.
Proof.
  unfold Gen.gen_block_pow. destruct (Gen.fixed_transaction clock) as [[w tx]|] eqn:Hf; [|discriminate].
  cbn [mbind res_bind snd]. intros E'. apply (inj Ok), pair_equal_spec in E' as [<- <-].
  destruct (fixed_transaction_spec _ _ Hf) as (_ & Hh & _).
  set (b := Block.init 1 (repeat_char "a"%char 64) [tx] (PFlt 7280009963110400) 104 2 "" "").
  assert (Hb : Block.merkle_root b ≠ "").
  { change (Transaction.tx_hash tx ≠ ""). rewrite Hh. apply String.eqb_neq, sha256_nonempty. }
  destruct (init_header b Hb) as [Hp Hhash]; [reflexivity|]. clearbody b.
  unfold Verify.verify_block_pow, Verify.get_int, Verify.get_str, Verify.get_num, Verify.get_list.
  repeat passes. rewrite Hp, py_eq_refl by apply Block.header_payload_ok.
  cbn [Verify.check mbind res_bind]. repeat passes. rewrite Hhash. repeat passes.
  apply each_map, Forall_true. intros d. repeat passes.
  unfold Block.meets_difficulty. rewrite Hhash. passes.
Qed.

Lemma closed_passes :
  (∃ v, Gen.gen_difficulty = Ok v ∧ Verify.verify_difficulty v = Ok tt) ∧
  (∃ v, Gen.gen_chain_work = Ok v ∧ Verify.verify_work v = Ok tt).
Proof. split; eexists; (split; [lazy; reflexivity|lazy; reflexivity]). Qed.

(** *** Money does not depend on dates and hashes *)

(** The same payment: the same transaction, or two coinbases of one amount to
    one receiver. *)
Definition same_pay (t1 t2 : Transaction.t) : Prop :=
  t1 = t2 ∨
  (Transaction.is_coinbase t1 = true ∧ Transaction.is_coinbase t2 = true ∧
   Transaction.amount_base_units t1 = Transaction.amount_base_units t2 ∧
   Transaction.receiver t1 = Transaction.receiver t2).

Definition same_money (b1 b2 : Block.t) : Prop :=
  Block.index b1 = Block.index b2 ∧
  (Block.index b1 = 0 ∨ Forall2 same_pay (Block.transactions b1) (Block.transactions b2)).

Lemma same_pay_coinbase t1 t2 :
  same_pay t1 t2 → Transaction.is_coinbase t1 = Transaction.is_coinbase t2.
Proof. intros [->|(-> & -> & _)]; done. Qed.

Lemma same_pay_money t1 t2 : same_pay t1 t2 →
  Transaction.amount_base_units t1 = Transaction.amount_base_units t2 ∧
  Transaction.receiver t1 = Transaction.receiver t2.
Proof. intros [->|(_ & _ & ? & ?)]; done. Qed.

Lemma apply_transactions_pay bal l1 l2 :
  Forall2 same_pay l1 l2 → apply_transactions bal l1 = apply_transactions bal l2.
Proof.
  intros H. revert bal. induction H as [|t1 t2 l1 l2 Ht _ IH]; intros bal; [done|].
  cbn [apply_transactions]. destruct Ht as [->|(H1 & H2 & _)].
  - destruct (apply_transaction bal t2); auto.
  - unfold apply_transaction. rewrite H1, H2. apply IH.
Qed.

Lemma coinbases_pay b1 b2 :
  Forall2 same_pay (Block.transactions b1) (Block.transactions b2) →
  Forall2 same_pay (coinbases b1) (coinbases b2).
Proof.
  unfold coinbases. induction 1 as [|t1 t2 l1 l2 Ht _ IH]; [constructor|].
  rewrite !filter_cons, (same_pay_coinbase _ _ Ht). by case_decide; [constructor|].
Qed.

Lemma apply_block_money reward max_supply bal total b1 b2 : same_money b1 b2 →
  apply_block reward max_supply bal total b1 = apply_block reward max_supply bal total b2.
Proof.
  intros [Hi Hm]. unfold apply_block. rewrite <-Hi. destruct (Z.eqb_spec (Block.index b1) 0); [done|].
  destruct Hm as [?|Hm]; [done|]. apply coinbases_pay in Hm as Hc.
  destruct Hc as [|t1 t2 ? ? Ht Hc]; [done|]. destruct Hc; [|done].
  destruct (same_pay_money _ _ Ht) as [-> ->].
  rewrite (apply_transactions_pay _ _ _ Hm). done.
Qed.

Lemma state_from_chain_money c1 c2 reward max_supply : Forall2 same_money c1 c2 →
  state_from_chain c1 reward max_supply = state_from_chain c2 reward max_supply.
Proof.
  intros H. unfold state_from_chain.
  enough (∀ bal total, apply_blocks reward max_supply bal total c1 =
                       apply_blocks reward max_supply bal total c2) as ->; [done|].
  induction H as [|b1 b2 c1 c2 Hb _ IH]; intros bal total; [done|].
  cbn [apply_blocks]. rewrite (apply_block_money _ _ _ _ _ _ Hb).
  destruct (apply_block _ _ _ _ b2) as [[]|]; auto.
Qed.
Lemma genesis_made p ts n m : ∃ g, Block.genesis p ts n m = Ok g ∧ Block.index g = 0.
Proof. eexists. split; reflexivity. Qed.

Lemma coinbase_made c r a : ∃ cb,
  Transaction.new_coinbase_base_units c r a = Ok cb ∧ Transaction.is_coinbase cb = true ∧
  Transaction.amount_base_units cb = a ∧ Transaction.receiver cb = r.
Proof. eexists. split_and!; [reflexivity|reflexivity|reflexivity|reflexivity]. Qed.

Lemma balances_json_ok bal : json_ok (balances_json bal) = true.
Proof.
  unfold balances_json. cbn. apply andb_true_iff. split.
  - apply bool_decide_eq_true. rewrite <-list_fmap_compose. cbn. apply NoDup_fst_map_to_list.
  - induction (map_to_list bal) as [|[k z] l IH]; [done|]. cbn. apply IH.
Qed.

Lemma capped_issuance g b cb :
  Block.index g = 0 → Block.index b = 1 → Block.transactions b = [cb] →
  Transaction.is_coinbase cb = true → Transaction.amount_base_units cb = MAX_SUPPLY_BASE_UNITS →
  (state_from_chain [g; b] MAX_SUPPLY_BASE_UNITS MAX_SUPPLY_BASE_UNITS).1.2 = MAX_SUPPLY_BASE_UNITS.
Proof.
  intros Hg Hb Ht Hc Ha. unfold state_from_chain, apply_blocks, apply_block, coinbases.
  rewrite Hg, Hb, Ht. cbn [Z.eqb]. rewrite filter_cons_True, Ha by done.
  change (filter (λ tx, Transaction.is_coinbase tx = true) []) with (@nil Transaction.t).
  cbn [apply_transactions]. unfold apply_transaction. rewrite Hc. reflexivity.
Qed.

Lemma reward_units : to_base_units (AStr "50.0") = Ok 5000000000.
Proof. vm_compute. reflexivity. Qed.

Lemma input_units :
  res_map (λ x, to_base_units (AStr x)) ["1"; "50.0"; "0.00000001"; "720000000"] =
  Ok [100000000; 5000000000; 1; 72000000000000000] ∧
  Verify.check_units ["1"; "50.0"; "0.00000001"; "720000000"]
    ((λ z, jint z) <$> [100000000; 5000000000; 1; 72000000000000000]) = Ok tt.
Proof. split; vm_compute; reflexivity. Qed.

Lemma block_made i h txs ts : ∃ b,
  Block.init i h txs ts 0 0 "" "" = b ∧ Block.index b = i ∧ Block.transactions b = txs.
Proof. eexists. split_and!; reflexivity. Qed.

(** The same chain with other dates. *)
Lemma same_money_cons b1 b2 c1 c2 t1 t2 :
  Block.index b1 = Block.index b2 → Block.transactions b1 = [t1] → Block.transactions b2 = [t2] →
  same_pay t1 t2 → Forall2 same_money c1 c2 → Forall2 same_money (b1 :: c1) (b2 :: c2).
Proof.
  intros Hi H1 H2 Ht Hc. constructor; [|done]. split; [done|]. right. rewrite H1, H2.
  constructor; [done|constructor].
Qed.

Lemma same_money_genesis g1 g2 c1 c2 :
  Block.index g1 = 0 → Block.index g2 = 0 → Forall2 same_money c1 c2 →
  Forall2 same_money (g1 :: c1) (g2 :: c2).
Proof. intros H1 H2 Hc. constructor; [|done]. split; [congruence|by left]. Qed.

(** Name the coinbase, and the block, that the goal builds next. *)
Ltac make_coinbase c r a cb H :=
  destruct (coinbase_made c r a) as (cb & -> & H); cbn [mbind res_bind].
Ltac make_block i txs b Hi Ht :=
  match goal with |- context [Block.init i ?h txs ?ts] =>
    destruct (block_made i h txs ts) as (b & -> & Hi & Ht) end.

(** The chains of the two scripts, up to dates. *)
Ltac alike :=
  apply same_money_genesis; [assumption..|];
  repeat (eapply same_money_cons;
    [|eassumption|eassumption|first [by left | right; naive_solver congruence]|]; [congruence|]);
  constructor.

Lemma monetary_passes v txv :
  Gen.gen_monetary genesis clock = Ok v → Gen.gen_transaction clock = Ok txv →
  Verify.verify_monetary genesis clock' v txv = Ok tt.
Proof.
  intros Hv Htx. destruct (transaction_read _ Htx) as (w & tx & Hf & Hr). revert Hv.
  unfold Gen.gen_monetary, Gen.genesis_block_of. rewrite Hf, reward_units.
  cbn [mbind res_bind snd]. set (receiver := "SYJ" +:+ repeat_char "2"%char 40).
  destruct (genesis_made zeros64 (PFlt (1735689600 * ticks)) 0 (genesis_message genesis)) as (g & -> & Hg).
  make_coinbase clock receiver 5000000000 cb Hcb.
  make_coinbase clock receiver MAX_SUPPLY_BASE_UNITS cm Hcm. make_coinbase clock receiver 1 ce Hce.
  rewrite (proj1 input_units), format_amount_vector. cbn [mbind res_bind].
  make_block 1 [cb] b1 Hb1 Tb1. make_block 1 [cm] bm Hbm Tbm.
  make_block 2 [ce] be Hbe Tbe. make_block 2 [tx] bt Hbt Tbt.
  destruct (state_from_chain [g; b1] _ _) as [[bal supply] reason] eqn:S1.
  destruct (state_from_chain [g; bm] _ _) as [[bal2 supply2] reason2].
  destruct (state_from_chain [g; bm; be] _ _) as [[bal3 supply3] reason3] eqn:S3.
  destruct (state_from_chain [g; b1; bt] _ _) as [[bal4 supply4] reason4] eqn:S4.
  destruct (res_map Gen.round_trip _) as [trips|]; [|discriminate]. cbn [mbind res_bind].
  intros E'. apply (inj Ok) in E'. subst v.
  unfold Verify.verify_monetary, Verify.get_list, Verify.get_int.
  passes. passes. rewrite reward_units. cbn [mbind res_bind]. passes. passes.
  cbn [Verify.item lookup list_lookup mbind res_bind]. passes. rewrite (proj2 input_units).
  cbn [mbind res_bind]. rewrite format_amount_vector. cbn [mbind res_bind]. passes.
  destruct (genesis_made zeros64 (genesis_timestamp genesis) (genesis_nonce genesis)
    (genesis_message genesis)) as (g' & -> & Hg'). cbn [mbind res_bind]. fold receiver. passes.
  make_coinbase clock' receiver 5000000000 cb' Hcb'. make_block 1 [cb'] b1' Hb1' Tb1'.
  rewrite (state_from_chain_money [g'; b1'] [g; b1]), S1 by alike.
  cbn [Verify.item lookup list_lookup mbind res_bind]. passes. passes. passes.
  rewrite py_eq_refl by apply balances_json_ok. rewrite (py_eq_refl (jint supply)) by done.
  rewrite (py_eq_refl (JStr reason)) by done. cbn [andb Verify.check mbind res_bind].
  make_coinbase clock' receiver MAX_SUPPLY_BASE_UNITS cm' Hcm'. make_block 1 [cm'] bm' Hbm' Tbm'.
  assert (Hcap : (state_from_chain [g'; bm'] MAX_SUPPLY_BASE_UNITS MAX_SUPPLY_BASE_UNITS).1.2
                 = MAX_SUPPLY_BASE_UNITS) by (apply (capped_issuance g' bm' cm'); naive_solver).
  destruct (state_from_chain [g'; bm'] _ _) as [[? supply'] ?]. cbn in Hcap. subst supply'.
  rewrite Z.eqb_refl. cbn [Verify.check mbind res_bind].
  make_coinbase clock' receiver 1 ce' Hce'. make_block 2 [ce'] be' Hbe' Tbe'.
  rewrite (state_from_chain_money [g'; bm'; be'] [g; bm; be]), S3 by alike.
  passes. rewrite Hr. cbn [mbind res_bind]. make_block 2 [tx] bt' Hbt' Tbt'.
  rewrite (state_from_chain_money [g'; b1'; bt'] [g; b1; bt]), S4 by alike.
  passes. reflexivity.
Qed.

(** A block with no coinbase is refused whatever the balances are: the case the
    vectors call insufficient balance freezes this refusal. *)
Lemma no_coinbase_refused reward max_supply bal total b tx :
  Block.index b ≠ 0 → Block.transactions b = [tx] → Transaction.is_coinbase tx = false →
  apply_block reward max_supply bal total b =
  inr (total, "Each non-genesis block must contain exactly one coinbase.").
Proof.
  intros Hi Ht Hc. unfold apply_block, coinbases. rewrite (proj2 (Z.eqb_neq _ _) Hi), Ht.
  by rewrite filter_cons_False by (rewrite Hc; done).
Qed.

(** C38: The verifying script accepts every file that the generating script writes,
    whatever the genesis settings, the clocks of the two runs and the curve
    library are: the generator itself asserts that the library accepts the
    frozen signature. *)
Theorem vectors_verify files :
  Gen.main genesis clock = Ok files → Verify.main genesis clock' files = Ok tt.
Proof.
  unfold Gen.main.
  destruct (Gen.gen_genesis genesis) as [v1|] eqn:H1; [|discriminate].
  destruct Gen.gen_address as [v2|] eqn:H2; [|discriminate].
  destruct (Gen.gen_transaction clock) as [v3|] eqn:H3; [|discriminate].
  destruct (Gen.gen_merkle clock) as [v4|] eqn:H4; [|discriminate].
  destruct (Gen.gen_block_pow clock) as [[v5 v6]|] eqn:H5; [|discriminate].
  destruct closed_passes as [(v7 & -> & H7) (v8 & -> & H8)].
  destruct (Gen.gen_monetary genesis clock) as [v9|] eqn:H9; [|discriminate].
  cbn [mbind res_bind fst snd]. intros E'. apply (inj Ok) in E'. subst files.
  unfold Verify.main. cbv zeta.
  eapply ok_bind; [eapply ok_bind; [reflexivity|by apply genesis_passes]|cbn beta].
  eapply ok_bind; [eapply ok_bind; [reflexivity|by apply address_passes]|cbn beta].
  eapply ok_bind; [eapply ok_bind; [reflexivity|by apply transaction_passes]|cbn beta].
  eapply ok_bind; [eapply ok_bind; [reflexivity|by apply merkle_passes]|cbn beta].
  eapply ok_bind; [reflexivity|cbn beta]. eapply ok_bind; [reflexivity|cbn beta].
  eapply ok_bind; [by apply block_pow_passes|cbn beta].
  eapply ok_bind; [eapply ok_bind; [reflexivity|exact H7]|cbn beta].
  eapply ok_bind; [eapply ok_bind; [reflexivity|exact H8]|cbn beta].
  eapply ok_bind; [reflexivity|cbn beta]. eapply ok_bind; [reflexivity|cbn beta].
  by apply monetary_passes.
Qed.
End generated.

(** The signed message of transaction.json. *)
Definition fixed_message : string := deterministic_json (JObj
  [("amount_base_units", jint 123456789);
   ("receiver", JStr ("SYJ" +:+ repeat_char "1"%char 40));
   ("sender", JStr "SYJaf533e027d9d6ccc0958c470c26ea9d96a9b76fd");
   ("timestamp", JNum (PFlt 7280009837281280))]).

(** The curve of the reference, with a library that accepts one signature of
    one message under its generator: what the vectors need of ECDSA. *)
Definition fixture_ecdsa : ECDSA := {|
  public_numbers k :=
    match Curve.scalar_mul (Z.to_N k) (Some Curve.G) with Ok pt => pt | Err _ => None end;
  on_curve p := bool_decide (p = Curve.G);
  ecdsa_sign _ _ _ := (0, 0);
  ecdsa_verify p sig m :=
    bool_decide (p = Curve.G) &&
    (if Wallet.signature_hex sig is Ok h then String.eqb h Gen.fixed_signature else false) &&
    bool_decide (m = utf8 fixed_message)
|}.

Lemma is_ok_inv {A} (r : res A) : is_ok r = true → ∃ a, r = Ok a.
Proof. destruct r; [by eexists|done]. Qed.

Lemma vectors_verify_witness :
  ∃ files, Gen.main (E := fixture_ecdsa) default_genesis_config 0 = Ok files ∧
           Verify.main (E := fixture_ecdsa) default_genesis_config 7 files = Ok tt.
Proof.
  assert (H : is_ok (Gen.main (E := fixture_ecdsa) default_genesis_config 0) = true)
    by (vm_compute; reflexivity).
  destruct (is_ok_inv _ H) as [files Hf]. exists files. split; [exact Hf|].
  exact (vectors_verify default_genesis_config 0 7 files Hf).
Defined.

(** The published files: SHA-256 of the canonical text of each. *)
Definition published_files : list (string * string) :=
  [("genesis.json", "8f5d98e8889ecee2490cc7872f642a0439281b98ced48d70615fee478151eeaf");
   ("address.json", "a039fa7b290c403eae1723e41acca5662c6f64a0cb2bd1603975c42051e6ea81");
   ("transaction.json", "c59d4ecf5966d47a2c05030a72527e9816fb7eb1d8e9031a444ac949d6932c2b");
   ("merkle.json", "4b17f0ee2ab5dcdb7eaf0d5e03882a7d45689122476f12e0ee871ee335c97ccb");
   ("block.json", "36fe4daa21d50033755685c61b444559bc1de9fc324bef37baae1352199783e7");
   ("pow.json", "52c59ca42b90fc42984eb6137c9dcabb0f478a4a3fcf78837b6980c1e14f121d");
   ("difficulty.json", "bb46bcbe57fd2cd7fbe467b3ba1aa59f0ccea3aa3786f7ed95cb1256bb0cea27");
   ("chain_work.json", "8cc1a963cc3f544fbb725f0f4967669bc9aebb293cfb5298831546e15f06f6a1");
   ("monetary.json", "5508f7031d960776faccd7e5fc83e7c8055971f8e523ccbadd0cd561277085ce")].

Definition file_digests (files : list (string * json)) : list (string * string) :=
  map (λ kv, (kv.1, sha256 (deterministic_json kv.2))) files.

Example generates_published_files :
  (files ← Gen.main (E := fixture_ecdsa) default_genesis_config 0; mret (file_digests files)) =
  Ok published_files.
Proof. vm_compute. reflexivity. Qed.
