(* ===== verification/CompareRuns.v ===== *)
(** * scripts/phase10_1/compare_runs.py: comparing two runs

    Two logs of JSON lines are compared on the consensus fields of every
    record.  Proved: the exit code is 0 exactly when the logs agree on those
    fields, and otherwise the script names the first record that differs or the
    two counts; its last statement is never reached. *)
From Stdlib Require Import Ascii.
From stdpp Require Import options.
From S2P Require Import Prelude PyText Json V2Reference Vectors.

Local Open Scope Z_scope.

Definition FIELDS : list string :=
  ["height"; "hash"; "previous_hash"; "timestamp"; "timestamp_delta";
   "difficulty"; "required_target_prefix"; "cumulative_work";
   "transaction_count"; "state_root"; "merkle_root"; "validation_result";
   "expected_difficulty"; "expected_difficulty_ok"].

(** ** [str.splitlines] *)

Definition is_line_end (c : ascii) : bool :=
  let n := code c in
  ((10 <=? n) && (n <=? 13)) || ((28 <=? n) && (n <=? 30)) || (n =? 133).

Definition line_feed : ascii := char 10.
Definition carriage_return : ascii := char 13.

(** [cur] is the line read so far, backwards; a carriage return and a line feed
    end one line together, and no line follows the last end. *)
Fixpoint splitlines_from (cur : list ascii) (l : list ascii) : list string :=
  match l with
  | [] => match cur with [] => [] | _ => [of_chars (reverse cur)] end
  | c :: l =>
      if is_line_end c then
        of_chars (reverse cur) ::
        match l with
        | c' :: l' =>
            if decide (c = carriage_return ∧ c' = line_feed) then splitlines_from [] l'
            else splitlines_from [] l
        | [] => []
        end
      else splitlines_from (c :: cur) l
  end.

Definition splitlines (s : string) : list string := splitlines_from [] (chars s).

(** ** The script *)

(** [{k: obj[k] for k in FIELDS}] *)
Definition record_of (obj : json) : res json :=
  kvs ← res_map (λ k, x ← field k obj; mret (k, x)) FIELDS; Ok (JObj kvs).

Definition load (text : string) : res (list json) :=
  res_map (λ line, obj ← loads line; record_of obj) (splitlines text).

Inductive outcome :=
  | Usage
  | DiffersAt (idx : Z) (left right : json)
  | CountDiffers (n m : Z)
  | Unreached
  | Identical (n : Z).

(** [for idx, (left, right) in enumerate(zip(a, b), idx)] *)
Fixpoint first_difference (idx : Z) (a b : list json) : option (Z * json * json) :=
  match a, b with
  | x :: a, y :: b =>
      if negb (py_eq x y) then Some (idx, x, y)
      else first_difference (idx + 1) a b
  | _, _ => None
  end.

Definition len (l : list json) : Z := Z.of_nat (length l).

Definition compare (a b : list json) : outcome :=
  if negb (py_eq (JArr a) (JArr b)) then
    match first_difference 1 a b with
    | Some (idx, x, y) => DiffersAt idx x y
    | None => if negb (len a =? len b) then CountDiffers (len a) (len b) else Unreached
    end
  else Identical (len a).

Definition exit_code (o : outcome) : Z :=
  match o with
  | Usage => 2
  | Identical _ => 0
  | _ => 1
  end.

(** [read name] is the text of a file; [argv] starts with the script. *)
Definition main (read : string → res string) (argv : list string) : res outcome :=
  match argv with
  | [_; run_a; run_b] =>
      ta ← read run_a; a ← load ta;
      tb ← read run_b; b ← load tb;
      Ok (compare a b)
  | _ => Ok Usage
  end.

(** ** What the exit code says *)

Lemma py_eq_arr a b :
  py_eq (JArr a) (JArr b) = true ↔ Forall2 (λ x y, py_eq x y = true) a b.
Proof.
  revert b; induction a as [|x a IH]; intros [|y b].
  - split; constructor.
  - split; [done|by inversion 1].
  - split; [done|by inversion 1].
  - change (py_eq (JArr (x :: a)) (JArr (y :: b))) with (py_eq x y && py_eq (JArr a) (JArr b)).
    rewrite andb_true_iff, IH. split; [by intros []; constructor|by inversion 1].
Qed.

Lemma first_difference_None idx a b :
  first_difference idx a b = None → length a = length b → Forall2 (λ x y, py_eq x y = true) a b.
Proof.
  revert idx b; induction a as [|x a IH]; intros idx [|y b]; simpl; try done.
  destruct (py_eq x y) eqn:E; cbn [negb]; [|done]. intros Hd Hl. constructor; [done|].
  eapply IH; [exact Hd|lia].
Qed.

Lemma first_difference_Some idx a b i x y :
  first_difference idx a b = Some (i, x, y) →
  ∃ n, i = idx + Z.of_nat n ∧ a !! n = Some x ∧ b !! n = Some y ∧ py_eq x y = false ∧
       Forall2 (λ x y, py_eq x y = true) (take n a) (take n b).
Proof.
  revert idx b; induction a as [|x' a IH]; intros idx [|y' b]; simpl; try done.
  destruct (py_eq x' y') eqn:E; simpl.
  - intros (n & -> & ? & ? & ? & ?)%IH. exists (S n). split_and!; try done; [lia|]. by constructor.
  - intros [= <- <- <-]. exists 0%nat. split_and!; try done; lia.
Qed.

(** What the script says of two logs. *)
Definition compare_spec (a b : list json) (o : outcome) : Prop :=
  match o with
  | Identical n => n = len a ∧ Forall2 (λ x y, py_eq x y = true) a b
  | DiffersAt idx x y => ∃ n, idx = Z.of_nat n + 1 ∧ a !! n = Some x ∧ b !! n = Some y ∧
      py_eq x y = false ∧ Forall2 (λ x y, py_eq x y = true) (take n a) (take n b)
  | CountDiffers n m => n = len a ∧ m = len b ∧ n ≠ m
  | Usage | Unreached => False
  end.

(** The verdict on two logs is right: identical logs are reported as such, a
    difference is the first one (counted from one), logs that agree as far as
    the shorter goes are told apart by their lengths, and there is no fourth
    case. *)
Theorem compare_correct a b : compare_spec a b (compare a b).
Proof.
  unfold compare. destruct (py_eq (JArr a) (JArr b)) eqn:E.
  { split; [done|]. by apply py_eq_arr. }
  cbn [negb]. destruct (first_difference 1 a b) as [[[i x] y]|] eqn:Hd.
  { apply first_difference_Some in Hd as (n & -> & ?). exists n. split; [lia|done]. }
  unfold len. destruct (Z.eqb_spec (Z.of_nat (length a)) (Z.of_nat (length b))) as [Hl|]; cbn; [|done].
  apply first_difference_None in Hd; [|lia]. apply py_eq_arr in Hd. congruence.
Qed.

Example lines_of_text : splitlines (String "a" (String carriage_return (String line_feed
  (String line_feed (String "b" (String line_feed "")))))) = ["a"; ""; "b"].
Proof. vm_compute. reflexivity. Qed.
